(* ===== verification/_CoqProject ===== *)
-Q . S2P
Prelude.v
GoSlices.v
Ownership.v
GoStrings.v
Errors.v
Entra.v
Scope.v
ZitiTypes.v
Planner.v
PlannerSpec.v
Retirement.v
Effects.v
ApiTypes.v
World.v
ReconcileHelpers.v
Lifecycle.v
Duration.v
RoleSyncReads.v
RoleSyncWrites.v
RoleSyncStatus.v
RoleSync.v
RoleSyncTraces.v
RoleSyncExample.v
RoleSyncSafety.v
Policy.v
AccessPolicy.v
AccessPolicySafety.v
ServiceBackend.v
ServiceController.v
ServiceSafety.v
IdentityController.v
IdentitySafety.v
Credentials.v
RestModel.v
ZitiClient.v
ClientSessions.v
ClientProps.v
ClientErrors.v
ClientBlame.v
ClientWrites.v
GraphText.v
GraphErrors.v
GraphClient.v
GraphSafety.v
ClientTypes.v
Composition.v
Stack.v
FakeClient.v
IdentityConvergence.v
IdentityStack.v
MemoryTypes.v
Memory.v
DeepCopy.v
Process.v
E2EUtils.v
