(* ===== verification/Prelude.v ===== *)
(** * miniziti-operator: a verification library

    The operator keeps objects of an OpenZiti controller (identities, services
    with their configs and router policies, access policies) in agreement with
    Kubernetes resources, and grants role attributes to identities according to
    app role assignments in Microsoft Entra.  This library models its program
    text under src/internal, src/api, src/cmd and src/test/utils and proves what
    makes it correct.

    ** The program and its parts

    Four reconcilers (src/internal/controller) react to a resource: they read
    Kubernetes objects, call the OpenZiti client and, for the role sync, the
    Entra directory, and write the status, the finalizer and events.  Their
    decisions are pure functions of packages rolesync, policy, service and
    identity.  Below them, the management client (src/internal/openziti/client)
    implements the calls over REST with a session that all reconcilers share,
    and the Graph client (src/internal/entra) implements the directory over
    HTTP.  The process (src/cmd/main.go) parses its flags, makes one management
    client and a manager, sets the reconcilers up and starts it; the client
    library copies every object it hands out with the functions DeepCopy of
    src/api.

    ** Effects

    A program with effects is a tree of calls ([Effects.prog]): one call, then
    one continuation per answer.  Nothing is assumed about the answers, so a
    property of all reachable traces also holds when the process dies after any
    call, when another writer intervenes, and when an answer is an error.
    [World.op] lists the calls of the reconcilers, [ZitiClient.clientOp] those
    of the management client (each critical section is one call),
    [GraphClient.graphOp] those of the Graph client, [Process.mainOp] those of
    the process.  A nil dereference is the
    fault [NilDereference].  [wp] proves guards on calls from their history,
    [runs] and [reaches] speak about traces, [returns] says that no fault
    occurs, and [answer], [exec], [eval] and [traceIn] evaluate a program.
    [ClientSessions.implement] and [GraphClient.serveDirectory] are the lower
    layers as implementations of the calls of the upper ones.

    ** Files

    Go basics: Prelude (automation, generic lemmas), GoSlices (package slices),
    GoStrings (UTF-8, strings, strconv.Quote), GraphText (ReplaceAll, Fields,
    ParseInt, PathEscape, substrings), Errors (error chains), Duration
    (time.ParseDuration with its overflow checks).

    Role sync, decisions: Ownership (rolesync/ownership.go), Scope
    (rolesync/scope.go), Planner and PlannerSpec (rolesync/planner.go and
    matching.go, the specification and the refinement), Retirement
    (rolesync/retirement.go), Entra (entra/directory.go, validation.go).

    Data: ZitiTypes (the structs of the OpenZiti client), ApiTypes
    (src/api/v1alpha1, metadata, the class [StatusResource] that the generic
    helpers use).

    Reconcilers: ReconcileHelpers (reconcile_helpers.go, markReady and
    markFailed), Lifecycle (the finalizer protocol that three reconcilers share,
    with its guard lemma), RoleSyncReads, RoleSyncWrites, RoleSyncStatus,
    RoleSync (the files zitientrarolesync_*.go), RoleSyncTraces,
    RoleSyncExample, RoleSyncSafety (their properties), Policy and AccessPolicy
    with AccessPolicySafety (openziti/policy, zitiaccesspolicy_controller.go),
    ServiceBackend, ServiceController, ServiceSafety (openziti/service,
    zitiservice_controller.go, zitiservice_router_policies.go),
    IdentityController and IdentitySafety (openziti/identity,
    credentials/enrollment_secret.go, zitiidentity_controller.go).

    Clients: Credentials (credentials/config.go, runtime.go), RestModel (the
    conversions of openziti/client), ZitiClient (client.go, edge_router.go,
    service_edge_router_policy.go, identity_role_attributes.go),
    ClientSessions (goroutines over the shared session), ClientProps (paging),
    ClientErrors (where the errors of a program come from), ClientBlame (how each
    is handled), ClientWrites, ClientTypes; GraphErrors (entra/errors.go),
    GraphClient (entra/client.go, paging.go), GraphSafety; FakeClient
    (fake_client.go).

    Compositions: Composition puts three reconcilers on top of an interface of
    reliable backends, which the management client discharges, and FakeClient
    the same on top of the fake.  Stack replaces every backend call of a
    reconciler by the run of the management client or of the directory client
    and proves that what results ends.  IdentityConvergence proves that the identity
    reconciler settles and cleans up, against the classes [IdentityCluster] and
    [IdentityBackend]; IdentityStack derives the second one for the management
    client from the class [IdentityAPI] of a controller.

    Memory: MemoryTypes and Memory (structs with slices and pointers in a Go
    store, what a value reaches, what a copy is), DeepCopy
    (zz_generated.deepcopy.go).  Process: cmd/main.go, groupversion_info.go and
    the methods SetupWithManager.  E2EUtils: test/utils/utils.go.

    ** What the theorems show

    C1, C2: claims on role attributes are exclusive and arbitrated as specified.
    C3: a deep copy is equal to the original and isolated from it.
    C4-C8: the planner implements a declarative plan, changes only managed
    values and converges; the scope of a role; no patches under a conflict, the
    guard against mass removal, the bound on the reports.
    C9: a retired value is forgotten only when every holder was read
    without it.  C10: the process starts complete or exits.  C11: failure
    statuses.  C12, C13: the identity reconciler, the management client and the
    controller together delete and converge, the latter when no other resource
    tracks an identity of the name (the code does not look:
    [IdentityStack.tracked_identity_adopted]).  C14: the command line round-trips.
    C15-C19: every write of the role sync is
    justified by what was read before it, claims are not forgotten, the
    schedule with the delays that answers of the run asked for, no nil
    dereference.  C20-C23: selectors and policies.  C22, C24,
    C26: for each other reconciler, what holds of every call at every crash
    point; for services, of each ID that a status records, too.  C25, C27:
    resolution of routers, validation of identities.  C28:
    the credentials.  C29: an invariant of all interleavings of goroutines over
    the shared session.  C30: whole lists, and termination of the paging loops.
    C31, C32: which error is handled by which call, and which one a method
    blames; which writes are made and when one is repeated.  C33-C38: redaction
    of secrets, delays, where the token goes, whole lists, termination and
    endpoints of the Graph client.  C39: what the management client returns is
    well formed.  C40: the four reconcilers over both clients, down to the single
    requests, always end.  Theorems that are not in this list support these:
    [Ownership.unrecorded_claim_loses], [Retirement.Complete_table],
    [ReconcileHelpers.finalizers_correct],
    [ReconcileHelpers.normalizeReconcileErrorMessage_idempotent],
    [Duration.ParseDuration_whole], [FakeClient.fake_reconcilers_return],
    [E2EUtils.UncommentCode_correct].

    ** Bounds and fuel

    Loops over a collection are structural.  The paging loops run as long as the
    server answers full pages or links; their models take a number of rounds and
    fault with [OutOfFuel] beyond it.  C30 and C37 state how many rounds are
    enough: one more than there are full pages, and two more than there are
    links; IdentityStack reads as many pages as C30 asks for, and C40 asks for
    the same two bounds.  [parseTerms] of Duration gets the length of its input, which every
    round shortens.  Integers are Z; where Go's width matters (durations, delays,
    counters of pages) the bounds are part of the definitions or of a theorem.

    ** Parameters

    What the operator calls and does not contain is a class or an argument:
    the Unicode tables, url.Parse, the PEM parser, HTTP dates and status names,
    [meta.SetStatusCondition] (with its documented laws), owner references, the
    deep copies of metav1 types (laws: equal and isolated), the flags that zap and
    controller-runtime add, the answers of the cluster, and for C12 and C13 the
    Kubernetes API and the controller ([IdentityCluster], [IdentityAPI]).  C40
    restricts the answers of the outside to finite lists and links
    ([Stack.answered]).  JSON
    decoding is part of the answer of a call.  Each class has a concrete instance
    that the witnesses use.

    ** Not modelled

    controller-runtime itself: the manager, watches, work queues and caches.
    hack/tools.go only pins tools.  Log lines have no effect on state; the output
    of the test utilities is modelled.  The REST transport, the
    OAuth token source and the HTTP client are the environment. *)

From stdpp Require Export base tactics option list gmap strings sorting.
From Stdlib Require Export ZArith Lia Ascii.

(** ** Automation *)

(** [mz] holds the characterisations of the boolean and list helpers of the
    development: [mz_spec] turns a boolean test into the proposition it
    decides, and [auto with mz] closes the routine side conditions. *)
Create HintDb mz.
Create Rewrite HintDb mz_spec.

Declare Scope mz_scope.
Delimit Scope mz_scope with mz.

(** Case analysis on the boolean tests of a definition. *)
Ltac case_test :=
  match goal with
  | |- context [if ?b then _ else _] => destruct b eqn:?
  | H : context [if ?b then _ else _] |- _ => destruct b eqn:?
  end.

(** Turns every boolean hypothesis about [bool_decide], [&&], [||] and [negb]
    into a proposition. *)
Ltac reflect_bools :=
  repeat match goal with
  | H : bool_decide _ = true |- _ => apply bool_decide_eq_true in H
  | H : bool_decide _ = false |- _ => apply bool_decide_eq_false in H
  | H : _ && _ = true |- _ => apply andb_true_iff in H as [? ?]
  | H : _ || _ = false |- _ => apply orb_false_iff in H as [? ?]
  | H : _ || _ = true |- _ => apply orb_true_iff in H
  | H : _ && _ = false |- _ => apply andb_false_iff in H
  | H : _ = true ∨ _ = true |- _ => destruct H
  | H : _ = false ∨ _ = false |- _ => destruct H
  | H : negb _ = true |- _ => apply negb_true_iff in H
  | H : negb _ = false |- _ => apply negb_false_iff in H
  end.

(** ** Generic lemmas *)

(** Evaluates an [if] whose test is known. *)
Lemma if_true {A} (b : bool) (x y : A) : b = true → (if b then x else y) = x.
Proof. by intros ->. Qed.

Lemma if_false {A} (b : bool) (x y : A) : b = false → (if b then x else y) = y.
Proof. by intros ->. Qed.

(** Filtering by two pointwise equivalent predicates. *)
Lemma filter_iff_in {A} (P Q : A → Prop) `{!∀ x, Decision (P x), !∀ x, Decision (Q x)}
    (l : list A) :
  (∀ x, x ∈ l → P x ↔ Q x) → filter P l = filter Q l.
Proof.
  induction l as [|x l IH]; intros HPQ; [done|].
  rewrite !filter_cons.
  assert (P x ↔ Q x) by (apply HPQ; left).
  rewrite IH by (intros; apply HPQ; by right).
  repeat case_decide; [by f_equal|tauto|tauto|done].
Qed.

Lemma filter_all {A} (P : A → Prop) `{!∀ x, Decision (P x)} (l : list A) :
  (∀ x, x ∈ l → P x) → filter P l = l.
Proof.
  induction l as [|x l IH]; intros HP; [done|].
  rewrite filter_cons_True by (apply HP; left).
  f_equal. apply IH. intros; apply HP; by right.
Qed.

Lemma filter_none {A} (P : A → Prop) `{!∀ x, Decision (P x)} (l : list A) :
  (∀ x, x ∈ l → ¬ P x) → filter P l = [].
Proof.
  induction l as [|x l IH]; intros HP; [done|].
  rewrite filter_cons_False by (apply HP; left).
  apply IH. intros; apply HP; by right.
Qed.

Lemma StronglySorted_filter {A} (R : relation A) (P : A → Prop) `{!∀ x, Decision (P x)}
    (l : list A) :
  StronglySorted R l → StronglySorted R (filter P l).
Proof.
  induction 1 as [|x l Hl IH Hx]; [constructor|].
  rewrite filter_cons. case_decide; [|done]. constructor; [done|].
  apply Forall_forall. intros y [_ Hy]%list_elem_of_filter.
  rewrite Forall_forall in Hx. by apply Hx.
Qed.

(** Truncating early does not change what is kept. *)
Lemma take_take_app {A} n (l k : list A) : take n (take n l ++ k) = take n (l ++ k).
Proof.
  rewrite !take_app, take_take, Nat.min_id, length_take. do 2 f_equal. lia.
Qed.

Lemma exists_cons {A} (P : A → Prop) x (l : list A) :
  (∃ y, y ∈ x :: l ∧ P y) ↔ P x ∨ ∃ y, y ∈ l ∧ P y.
Proof.
  setoid_rewrite elem_of_cons. split.
  - intros (y & [->|?] & ?); [by left|right; by exists y].
  - intros [?|(y & ? & ?)]; [by exists x; auto|exists y; auto].
Qed.

(** ** Strings *)

Section Strings.
#[local] Arguments String.append !_ _ : simpl nomatch.

Lemma string_app_assoc (a b c : string) : (a +:+ b) +:+ c = a +:+ (b +:+ c).
Proof. induction a as [|x a IH]; cbn; [done|]. by rewrite IH. Qed.

Lemma string_length_app (a b : string) :
  String.length (a +:+ b) = String.length a + String.length b.
Proof. induction a as [|x a IH]; cbn; [done|]. by rewrite IH. Qed.

Lemma string_app_nil_r (a : string) : a +:+ "" = a.
Proof. induction a as [|x a IH]; cbn; [done|]. by rewrite IH. Qed.

Lemma string_length_induction (P : string → Prop) :
  (∀ s, (∀ r, String.length r < String.length s → P r) → P s) → ∀ s, P s.
Proof. exact (induction_ltof1 _ String.length P). Qed.

End Strings.
