(* ===== verification/GoSlices.v ===== *)
(** * Go slices of strings

    The operations of package [slices] (and of the built-in [append] and
    [range]) that the operator uses on [[]string].  A slice is the list of
    its elements; a nil slice and an empty one are the same list, and the
    places where the source tells them apart say so.  Go compares strings
    byte by byte, which is the order [String.le] of stdpp on byte strings. *)

From S2P Require Import Prelude.

Abbreviation strs := (list string).

(** [slices.Contains] *)
Definition contains (l : strs) (x : string) : bool := bool_decide (x ∈ l).

(** [slices.Equal] *)
Definition slices_equal (a b : strs) : bool := bool_decide (a = b).

(** [slices.Sort]: the ascending order of byte strings. *)
Definition slices_sort (l : strs) : strs := merge_sort String.le l.

(** [slices.Compact]: each run of equal elements becomes one element. *)
Fixpoint slices_compact (l : strs) : strs :=
  match l with
  | x :: ((y :: _) as l') =>
      if bool_decide (x = y) then slices_compact l' else x :: slices_compact l'
  | _ => l
  end.

Lemma contains_true l x : contains l x = true ↔ x ∈ l.
Proof. apply bool_decide_eq_true. Qed.

Lemma contains_false l x : contains l x = false ↔ x ∉ l.
Proof. apply bool_decide_eq_false. Qed.

Lemma slices_equal_true a b : slices_equal a b = true ↔ a = b.
Proof. apply bool_decide_eq_true. Qed.

#[export] Hint Rewrite contains_true contains_false slices_equal_true : mz_spec.

(** ** Sorting *)

Lemma slices_sort_perm l : slices_sort l ≡ₚ l.
Proof. apply merge_sort_Permutation. Qed.

Lemma slices_sort_sorted l : StronglySorted String.le (slices_sort l).
Proof. apply StronglySorted_merge_sort; apply _. Qed.

Lemma elem_of_slices_sort l x : x ∈ slices_sort l ↔ x ∈ l.
Proof. by rewrite slices_sort_perm. Qed.

(** A sorted list of strings without repetitions is determined by its set of
    elements: this is what makes the results of the operator independent of
    the iteration order of Go maps. *)
Lemma sorted_nodup_unique l k :
  StronglySorted String.le l → NoDup l →
  StronglySorted String.le k → NoDup k →
  (∀ x, x ∈ l ↔ x ∈ k) → l = k.
Proof.
  intros Sl Nl Sk Nk Hlk. apply (StronglySorted_unique String.le); [done..|].
  by apply NoDup_Permutation.
Qed.

(** ** Compacting *)

Lemma compact_cons2 a b l :
  slices_compact (a :: b :: l) =
  if bool_decide (a = b) then slices_compact (b :: l) else a :: slices_compact (b :: l).
Proof. done. Qed.

Lemma elem_of_compact l x : x ∈ slices_compact l ↔ x ∈ l.
Proof.
  induction l as [|a [|b l] IH]; [reflexivity..|].
  rewrite compact_cons2.
  case_bool_decide; subst; rewrite ?elem_of_cons, IH, ?elem_of_cons; tauto.
Qed.

Lemma sorted_compact l :
  StronglySorted String.le l → StronglySorted String.le (slices_compact l).
Proof.
  induction 1 as [|a l Hl IH Ha]; [constructor|].
  destruct l as [|b l]; [repeat constructor|].
  rewrite compact_cons2. case_bool_decide; [done|].
  constructor; [done|]. apply Forall_forall. intros x Hx.
  rewrite elem_of_compact in Hx. rewrite Forall_forall in Ha. by apply Ha.
Qed.

Lemma NoDup_compact l :
  StronglySorted String.le l → NoDup (slices_compact l).
Proof.
  induction 1 as [|a l Hl IH Ha]; [constructor|].
  destruct l as [|b l]; [apply NoDup_singleton|].
  rewrite compact_cons2. case_bool_decide as Hab; [done|].
  constructor; [|done]. rewrite elem_of_compact.
  intros [->|Hin]%elem_of_cons; [done|].
  assert (String.le a b) by (apply Forall_cons in Ha; tauto).
  assert (String.le b a).
  { apply StronglySorted_inv in Hl as [_ Hb]. rewrite Forall_forall in Hb. by apply Hb. }
  apply Hab. by apply (anti_symm String.le).
Qed.

(** [slices.Compact] after [slices.Sort]: the sorted set of the elements. *)
Definition sort_compact (l : strs) : strs := slices_compact (slices_sort l).

Lemma elem_of_sort_compact l x : x ∈ sort_compact l ↔ x ∈ l.
Proof. unfold sort_compact. by rewrite elem_of_compact, elem_of_slices_sort. Qed.

Lemma sort_compact_sorted l : StronglySorted String.le (sort_compact l).
Proof. apply sorted_compact, slices_sort_sorted. Qed.

Lemma sort_compact_nodup l : NoDup (sort_compact l).
Proof. apply NoDup_compact, slices_sort_sorted. Qed.

#[export] Hint Resolve sort_compact_sorted sort_compact_nodup slices_sort_sorted : mz.

Lemma sort_compact_eq a b :
  sort_compact a = sort_compact b ↔ ∀ x, x ∈ a ↔ x ∈ b.
Proof.
  split.
  - intros E x. by rewrite <-(elem_of_sort_compact a), E, elem_of_sort_compact.
  - intros E. apply sorted_nodup_unique; auto with mz.
    intros x. by rewrite !elem_of_sort_compact.
Qed.
