(* ===== verification/Ownership.v ===== *)
(** * Ownership arbitration

    [internal/rolesync/ownership.go]: the claims that role-sync resources
    record in their status, the total order between claims, the resolver that
    names one owner per candidate attribute value, and [sortedSet], the
    deduplicating sort every part of the planner is built from. *)

From S2P Require Import Prelude GoSlices.

(** ** [sortedSet] *)

(** [for _, list := range values { for _, value := range list { set[value] = true } }] *)
Definition set_of_lists (values : list strs) : gmap string bool :=
  foldl (λ set list, foldl (λ set value, <[value := true]> set) set list) ∅ values.

(** The keys of the map, collected in iteration order and then sorted.
    [map_to_list] is one such order; [sortedSet_any_order] shows that every
    other order gives the same result. *)
Definition sortedSet (values : list strs) : strs :=
  slices_sort (map_to_list (set_of_lists values)).*1.

Lemma insert_all_lookup (l : strs) (m : gmap string bool) x :
  is_Some (foldl (λ set value, <[value := true]> set) m l !! x) ↔ x ∈ l ∨ is_Some (m !! x).
Proof.
  revert m. induction l as [|y l IH]; intros m; cbn.
  - set_solver.
  - rewrite IH, elem_of_cons, lookup_insert_is_Some. destruct (decide (x = y)); naive_solver.
Qed.

Lemma set_of_lists_lookup values x :
  is_Some (set_of_lists values !! x) ↔ ∃ l, l ∈ values ∧ x ∈ l.
Proof.
  unfold set_of_lists.
  assert (∀ m : gmap string bool,
    is_Some (foldl (λ set list, foldl (λ set value, <[value := true]> set) set list) m values !! x)
    ↔ (∃ l, l ∈ values ∧ x ∈ l) ∨ is_Some (m !! x)) as H.
  { induction values as [|l ls IH]; intros m; cbn.
    - set_solver.
    - rewrite IH, insert_all_lookup. set_solver. }
  rewrite H, lookup_empty, is_Some_alt. naive_solver.
Qed.

Lemma elem_of_sortedSet values x :
  x ∈ sortedSet values ↔ ∃ l, l ∈ values ∧ x ∈ l.
Proof.
  unfold sortedSet. rewrite elem_of_slices_sort, <-set_of_lists_lookup.
  rewrite list_elem_of_fmap. split.
  - intros [[k b] [-> H%elem_of_map_to_list]]. by exists b.
  - intros [b H]. exists (x, b). by rewrite elem_of_map_to_list.
Qed.

Lemma elem_of_sortedSet1 l x : x ∈ sortedSet [l] ↔ x ∈ l.
Proof. rewrite elem_of_sortedSet. set_solver. Qed.

Lemma elem_of_sortedSet2 l k x : x ∈ sortedSet [l; k] ↔ x ∈ l ∨ x ∈ k.
Proof. rewrite elem_of_sortedSet. set_solver. Qed.

#[export] Hint Rewrite elem_of_sortedSet1 elem_of_sortedSet2 : mz_spec.

Lemma sortedSet_sorted values : StronglySorted String.le (sortedSet values).
Proof. apply slices_sort_sorted. Qed.

Lemma sortedSet_nodup values : NoDup (sortedSet values).
Proof. unfold sortedSet. rewrite slices_sort_perm. apply NoDup_fst_map_to_list. Qed.

#[export] Hint Resolve sortedSet_sorted sortedSet_nodup : mz.

Lemma sortedSet_eq vs ws :
  sortedSet vs = sortedSet ws ↔ ∀ x, (∃ l, l ∈ vs ∧ x ∈ l) ↔ (∃ l, l ∈ ws ∧ x ∈ l).
Proof.
  split.
  - intros E x. by rewrite <-!elem_of_sortedSet, E.
  - intros E. apply sorted_nodup_unique; auto with mz.
    intros x. by rewrite !elem_of_sortedSet.
Qed.

Lemma sortedSet1_eq l k : sortedSet [l] = sortedSet [k] ↔ ∀ x, x ∈ l ↔ x ∈ k.
Proof. rewrite sortedSet_eq. set_solver. Qed.

Lemma sortedSet_nil_iff l : sortedSet [l] = [] ↔ l = [].
Proof.
  split; [|by intros ->].
  intros E. destruct l as [|x l]; [done|].
  assert (x ∈ sortedSet [x :: l]) as H by (apply elem_of_sortedSet1; left).
  rewrite E in H. set_solver.
Qed.

(** ** Claims *)

(** [ResourceKey] *)
Record ResourceKey := { Namespace : string; Name : string }.
#[export] Instance ResourceKey_eq_dec : EqDecision ResourceKey.
Proof. solve_decision. Defined.

(** [SyncClaim]; a [time.Time] is an instant in nanoseconds. *)
Record SyncClaim := {
  Resource : ResourceKey;
  CreationTimestamp : Z;
  ManagedAttributes : strs;
}.

(** [OwnershipInput] *)
Record OwnershipInput := {
  Self : SyncClaim;
  Candidates : strs;
  Others : list SyncClaim;
}.

(** [OwnershipResult] *)
Record OwnershipResult := {
  Owners : gmap string ResourceKey;
  Conflicts : strs;
}.

(** [claimBefore]: creation time, then namespace, then name. *)
Definition claimBefore (a b : SyncClaim) : bool :=
  if negb (CreationTimestamp a =? CreationTimestamp b)%Z
  then (CreationTimestamp a <? CreationTimestamp b)%Z
  else if negb (String.eqb (Namespace (Resource a)) (Namespace (Resource b)))
  then String.ltb (Namespace (Resource a)) (Namespace (Resource b))
  else String.ltb (Name (Resource a)) (Name (Resource b)).

(** The inner loop: the first minimal claim on [value]. *)
Definition pickWinner (value : string) (claims : list SyncClaim) : option SyncClaim :=
  foldl (λ winner claim,
    if negb (contains (ManagedAttributes claim) value) then winner
    else match winner with
         | None => Some claim
         | Some w => if claimBefore claim w then Some claim else Some w
         end) None claims.

(** The body of the outer loop, for one candidate value. *)
Definition resolveValue (input : OwnershipInput) (claims : list SyncClaim)
    (result : OwnershipResult) (value : string) : OwnershipResult :=
  let owner := match pickWinner value claims with
               | Some w => Resource w
               | None => Resource (Self input)
               end in
  {| Owners := <[value := owner]> (Owners result);
     Conflicts := if negb (bool_decide (owner = Resource (Self input)))
                  then Conflicts result ++ [value] else Conflicts result |}.

(** [ResolveOwnership] *)
Definition ResolveOwnership (input : OwnershipInput) : OwnershipResult :=
  let claims := Self input :: Others input in
  foldl (resolveValue input claims) {| Owners := ∅; Conflicts := [] |}
    (sortedSet [Candidates input]).

(** ** The order on claims *)

Lemma string_compare_refl s : (s ?= s)%string = Eq.
Proof.
  induction s as [|c s IH]; [done|]. cbn. unfold Ascii.compare.
  by rewrite N.compare_refl.
Qed.

Lemma string_ltb_spec a b : String.ltb a b = true ↔ String.le a b ∧ a ≠ b.
Proof.
  unfold String.ltb, String.le, String.leb.
  destruct (a ?= b)%string eqn:E.
  - apply String.compare_eq_iff in E as ->. naive_solver.
  - split; [|done]. intros _. split; [done|]. intros ->.
    by rewrite string_compare_refl in E.
  - naive_solver.
Qed.

Lemma string_ltb_false a b : String.ltb a b = false ↔ String.le b a.
Proof.
  rewrite <-not_true_iff_false, string_ltb_spec.
  split.
  - intros Hn. destruct (total String.le a b); [|done].
    destruct (decide (a = b)) as [->|]; [done|tauto].
  - intros ? [? Hne]. by destruct Hne; apply (anti_symm String.le).
Qed.

(** [claimBefore] is the strict part of the lexicographic order. *)
Lemma claimBefore_spec a b :
  claimBefore a b = true ↔
  (CreationTimestamp a < CreationTimestamp b)%Z ∨
  CreationTimestamp a = CreationTimestamp b ∧
   (Namespace (Resource a) ≠ Namespace (Resource b) ∧
     String.le (Namespace (Resource a)) (Namespace (Resource b)) ∨
    Namespace (Resource a) = Namespace (Resource b) ∧
     String.le (Name (Resource a)) (Name (Resource b)) ∧
     Name (Resource a) ≠ Name (Resource b)).
Proof.
  unfold claimBefore.
  destruct (Z.eqb_spec (CreationTimestamp a) (CreationTimestamp b)); cbn.
  - destruct (String.eqb_spec (Namespace (Resource a)) (Namespace (Resource b))); cbn;
      rewrite string_ltb_spec; intuition lia.
  - rewrite Z.ltb_lt. intuition lia.
Qed.

(** [b] does not come before [a]. *)
Definition claim_le (a b : SyncClaim) : Prop := claimBefore b a = false.

Lemma claim_le_spec a b :
  claim_le a b ↔
  (CreationTimestamp a < CreationTimestamp b)%Z ∨
  CreationTimestamp a = CreationTimestamp b ∧
   (Namespace (Resource a) ≠ Namespace (Resource b) ∧
     String.le (Namespace (Resource a)) (Namespace (Resource b)) ∨
    Namespace (Resource a) = Namespace (Resource b) ∧
     String.le (Name (Resource a)) (Name (Resource b))).
Proof.
  unfold claim_le, claimBefore.
  destruct (Z.eqb_spec (CreationTimestamp b) (CreationTimestamp a)); cbn.
  - destruct (String.eqb_spec (Namespace (Resource b)) (Namespace (Resource a))); cbn;
      rewrite string_ltb_false; intuition (try lia; try congruence).
  - rewrite Z.ltb_ge. intuition lia.
Qed.

#[export] Instance claim_le_preorder : PreOrder claim_le.
Proof.
  split.
  - intros a. apply claim_le_spec. right. split; [done|]. right. by split.
  - intros a b c. rewrite !claim_le_spec.
    intros [?|[Hab Hn]] [?|[Hbc Hm]]; try (left; lia).
    right. split; [lia|].
    destruct Hn as [[? ?]|[Hn ?]], Hm as [[? ?]|[Hm ?]].
    + left. split; [|by etrans].
      intros E. rewrite E in *. by apply H, (anti_symm String.le).
    + left. by rewrite <-Hm.
    + left. by rewrite Hn.
    + right. split; [congruence|by etrans].
Qed.

#[export] Instance claim_le_total : Total claim_le.
Proof.
  intros a b. unfold claim_le.
  destruct (claimBefore b a) eqn:E; [|by left]. right.
  apply not_true_iff_false. intros E'.
  apply claimBefore_spec in E, E'.
  destruct E as [|[? [[? ?]|[? [? ?]]]]], E' as [|[? [[? ?]|[? [? ?]]]]];
    try lia; try congruence;
    match goal with H : ?x ≠ ?y |- _ => apply H; by apply (anti_symm String.le) end.
Qed.

(** Two claims that tie carry the same resource key. *)
Lemma claim_le_antisym a b : claim_le a b → claim_le b a → Resource a = Resource b.
Proof.
  rewrite !claim_le_spec. destruct (Resource a) as [na ma], (Resource b) as [nb mb]; cbn.
  intros [|[? [[Hn ?]|[? ?]]]] [|[? [[? ?]|[? ?]]]]; try lia; try congruence.
  - destruct Hn. by apply (anti_symm String.le).
  - f_equal; [done|]. by apply (anti_symm String.le).
Qed.

(** ** The winner of a value *)

Lemma pickWinner_snoc v cs c :
  pickWinner v (cs ++ [c]) =
  if negb (contains (ManagedAttributes c) v) then pickWinner v cs
  else match pickWinner v cs with
       | None => Some c
       | Some w => if claimBefore c w then Some c else Some w
       end.
Proof. unfold pickWinner. by rewrite foldl_app. Qed.

Lemma pickWinner_some v cs w :
  pickWinner v cs = Some w →
  w ∈ cs ∧ v ∈ ManagedAttributes w ∧
  ∀ c, c ∈ cs → v ∈ ManagedAttributes c → claim_le w c.
Proof.
  revert w. induction cs as [|c cs IH] using rev_ind; intros w; [done|].
  rewrite pickWinner_snoc.
  destruct (contains (ManagedAttributes c) v) eqn:Hc; cbn.
  - apply contains_true in Hc.
    destruct (pickWinner v cs) as [w'|] eqn:Hw'.
    + destruct (IH w' eq_refl) as (Hin & Hv & Hmin).
      destruct (claimBefore c w') eqn:Hlt; intros [= <-].
      * split_and!; [set_solver|done|]. intros d Hd Hvd.
        apply elem_of_app in Hd as [Hd| ->%list_elem_of_singleton]; [|reflexivity].
        transitivity w'; [|by apply Hmin].
        destruct (total claim_le c w') as [|Hle]; [done|].
        unfold claim_le in Hle. congruence.
      * split_and!; [set_solver|done|]. intros d Hd Hvd.
        apply elem_of_app in Hd as [Hd| ->%list_elem_of_singleton]; [by apply Hmin|done].
    + intros [= <-]. split_and!; [set_solver|done|]. intros d Hd Hvd.
      apply elem_of_app in Hd as [Hd| ->%list_elem_of_singleton]; [|reflexivity].
      exfalso. revert Hw' d Hd Hvd. clear.
      induction cs as [|c cs IH] using rev_ind; [set_solver|].
      rewrite pickWinner_snoc. destruct (contains _ _) eqn:Hc; cbn.
      * destruct (pickWinner v cs); [by case_test|done].
      * intros Hn d [Hd| ->%list_elem_of_singleton]%elem_of_app Hvd; [by eapply IH|].
        by apply contains_false in Hc.
  - intros Hw. destruct (IH w Hw) as (Hin & Hv & Hmin).
    apply contains_false in Hc. split_and!; [set_solver|done|].
    intros d Hd Hvd. apply elem_of_app in Hd as [Hd| ->%list_elem_of_singleton]; [|done].
    by apply Hmin.
Qed.

Lemma pickWinner_none v cs :
  pickWinner v cs = None ↔ ∀ c, c ∈ cs → v ∉ ManagedAttributes c.
Proof.
  induction cs as [|c cs IH] using rev_ind; [set_solver|].
  rewrite pickWinner_snoc. destruct (contains _ _) eqn:Hc; cbn.
  - apply contains_true in Hc. split.
    + destruct (pickWinner v cs); [by case_test|done].
    + intros Hn. exfalso. eapply (Hn c); set_solver.
  - apply contains_false in Hc. rewrite IH. set_solver.
Qed.

(** The winner's key only depends on the set of claims. *)
Lemma pickWinner_perm v cs ds w x :
  (∀ c, c ∈ cs ↔ c ∈ ds) →
  pickWinner v cs = Some w → pickWinner v ds = Some x → Resource w = Resource x.
Proof.
  intros Hcd (? & ? & Hw)%pickWinner_some (? & ? & Hx)%pickWinner_some.
  apply claim_le_antisym; [apply Hw|apply Hx]; naive_solver.
Qed.

(** ** The resolver *)

(** The owner that [resolveValue] records for a value. *)
Definition ownerOf (input : OwnershipInput) (value : string) : ResourceKey :=
  match pickWinner value (Self input :: Others input) with
  | Some w => Resource w
  | None => Resource (Self input)
  end.

Lemma resolve_fold input vs r :
  foldl (resolveValue input (Self input :: Others input)) r vs =
  {| Owners := foldl (λ m v, <[v := ownerOf input v]> m) (Owners r) vs;
     Conflicts := Conflicts r ++ filter (λ v, ownerOf input v ≠ Resource (Self input)) vs |}.
Proof.
  revert r. induction vs as [|v vs IH]; intros r; cbn [foldl].
  - cbn. rewrite app_nil_r. by destruct r.
  - rewrite IH. cbn [Owners Conflicts resolveValue]. fold (ownerOf input v). f_equal.
    rewrite filter_cons. case_bool_decide as Hv; cbn.
    + by rewrite decide_False by tauto.
    + rewrite decide_True by done. by rewrite <-app_assoc.
Qed.

Lemma ResolveOwnership_Conflicts input :
  Conflicts (ResolveOwnership input) =
  filter (λ v, ownerOf input v ≠ Resource (Self input)) (sortedSet [Candidates input]).
Proof. unfold ResolveOwnership. by rewrite resolve_fold. Qed.

Lemma elem_of_Conflicts input v :
  v ∈ Conflicts (ResolveOwnership input) ↔
  v ∈ Candidates input ∧ ownerOf input v ≠ Resource (Self input).
Proof. rewrite ResolveOwnership_Conflicts, list_elem_of_filter, elem_of_sortedSet1. tauto. Qed.

Lemma no_Conflicts input :
  Conflicts (ResolveOwnership input) = [] ↔
  ∀ v, v ∈ Candidates input → ownerOf input v = Resource (Self input).
Proof.
  split.
  - intros E v Hv. destruct (decide (ownerOf input v = Resource (Self input))); [done|].
    assert (v ∈ Conflicts (ResolveOwnership input)) as H by (by apply elem_of_Conflicts).
    rewrite E in H. set_solver.
  - intros H. rewrite ResolveOwnership_Conflicts. apply filter_none.
    intros v Hv Hne. rewrite elem_of_sortedSet1 in Hv. by apply Hne, H.
Qed.

Lemma insert_owner_lookup input vs (m : gmap string ResourceKey) v :
  foldl (λ m v, <[v := ownerOf input v]> m) m vs !! v =
  if decide (v ∈ vs) then Some (ownerOf input v) else m !! v.
Proof.
  revert m. induction vs as [|x vs IH]; intros m; cbn; [done|].
  rewrite IH. destruct (decide (v = x)) as [->|Hne].
  - rewrite lookup_insert_eq. repeat case_decide; set_solver.
  - rewrite lookup_insert_ne by done. repeat case_decide; set_solver.
Qed.

Lemma ResolveOwnership_Owners input v :
  Owners (ResolveOwnership input) !! v =
  if decide (v ∈ Candidates input) then Some (ownerOf input v) else None.
Proof.
  unfold ResolveOwnership. rewrite resolve_fold; cbn.
  rewrite insert_owner_lookup, lookup_empty.
  apply decide_ext, elem_of_sortedSet1.
Qed.

Lemma ownerOf_claimed input v c :
  c ∈ Self input :: Others input → v ∈ ManagedAttributes c →
  ∃ w, w ∈ Self input :: Others input ∧ v ∈ ManagedAttributes w ∧
    ownerOf input v = Resource w ∧
    ∀ d, d ∈ Self input :: Others input → v ∈ ManagedAttributes d → claim_le w d.
Proof.
  intros Hc Hv. unfold ownerOf.
  destruct (pickWinner v _) as [w|] eqn:Hw.
  - apply pickWinner_some in Hw as (? & ? & ?). eauto 10.
  - rewrite pickWinner_none in Hw. by destruct (Hw c).
Qed.

(** ** Properties *)

(** C1. Mutual exclusion of ownership.  Two role syncs that read the same set
    of claims, in which somebody has recorded a claim on the value [v], never
    both consider themselves the owner of [v]: if neither resolver reports
    [v] as a conflict, the two syncs are the same resource. *)
Theorem ownership_exclusive (a b : OwnershipInput) (v : string) (c : SyncClaim) :
  (∀ d, d ∈ Self a :: Others a ↔ d ∈ Self b :: Others b) →
  c ∈ Self a :: Others a → v ∈ ManagedAttributes c →
  v ∈ Candidates a → v ∈ Candidates b →
  v ∉ Conflicts (ResolveOwnership a) → v ∉ Conflicts (ResolveOwnership b) →
  Resource (Self a) = Resource (Self b).
Proof.
  intros Hab Hc Hv Ha Hb. rewrite !elem_of_Conflicts. intros Na Nb.
  destruct (decide (ownerOf a v = Resource (Self a))) as [<-|]; [|tauto].
  destruct (decide (ownerOf b v = Resource (Self b))) as [<-|]; [|tauto].
  destruct (ownerOf_claimed a v c Hc Hv) as (w & Hw & Hvw & -> & Wmin).
  destruct (ownerOf_claimed b v c (proj1 (Hab _) Hc) Hv) as (x & Hx & Hvx & -> & Xmin).
  apply claim_le_antisym; naive_solver.
Qed.

Definition exampleClaim (name : string) (t : Z) (vs : strs) : SyncClaim :=
  {| Resource := {| Namespace := "ziti"; Name := name |};
     CreationTimestamp := t; ManagedAttributes := vs |}.

Lemma ownership_exclusive_witness :
  let a := exampleClaim "a" 5 ["alpha"] in
  let b := exampleClaim "b" 7 ["alpha"] in
  let i := {| Self := a; Candidates := ["alpha"]; Others := [b] |} in
  let j := {| Self := a; Candidates := ["beta"; "alpha"]; Others := [b; b] |} in
  Conflicts (ResolveOwnership j) = [] ∧ Resource (Self i) = Resource (Self j).
Proof.
  intros a b i j. split; [by vm_compute|].
  apply (ownership_exclusive i j "alpha" a); unfold i, j, a, b; cbn [Self Others Candidates];
    try set_solver.
Defined.

(** C2. What the resolver returns, on every candidate: the owner of a claimed
    value is the resource of a claim that is minimal in the claim order
    (oldest, then namespace, then name) among all recorded claims on it, the
    owner of an unclaimed candidate is the syncing resource itself, a value
    that is no candidate has no owner, and the conflicts are the sorted
    candidates owned by somebody else. *)
Theorem ResolveOwnership_correct (input : OwnershipInput) (v : string) :
  let claims := Self input :: Others input in
  let result := ResolveOwnership input in
  (v ∈ Candidates input → ∃ owner, Owners result !! v = Some owner ∧
    ((∃ w, w ∈ claims ∧ v ∈ ManagedAttributes w ∧ owner = Resource w ∧
        ∀ c, c ∈ claims → v ∈ ManagedAttributes c → claimBefore c w = false) ∨
     ((∀ c, c ∈ claims → v ∉ ManagedAttributes c) ∧ owner = Resource (Self input)))) ∧
  (v ∉ Candidates input → Owners result !! v = None) ∧
  (v ∈ Conflicts result ↔
     ∃ owner, Owners result !! v = Some owner ∧ owner ≠ Resource (Self input)) ∧
  StronglySorted String.le (Conflicts result) ∧ NoDup (Conflicts result).
Proof.
  intros claims result. subst result. rewrite ResolveOwnership_Owners, elem_of_Conflicts.
  split_and!.
  - intros Hv. rewrite decide_True by done. eexists; split; [done|].
    unfold ownerOf. fold claims. destruct (pickWinner v claims) as [w|] eqn:Hw.
    + left. apply pickWinner_some in Hw as (? & ? & ?). eauto.
    + right. by rewrite pickWinner_none in Hw.
  - intros Hv. by rewrite decide_False.
  - case_decide; naive_solver.
  - rewrite ResolveOwnership_Conflicts. apply StronglySorted_filter. auto with mz.
  - rewrite ResolveOwnership_Conflicts. apply NoDup_filter. auto with mz.
Qed.

(** Age never displaces a recorded owner: a sync that has not recorded a
    claim on a value which another resource has recorded always loses it,
    however old the syncing resource is. *)
Theorem unrecorded_claim_loses (input : OwnershipInput) (v : string) (c : SyncClaim) :
  v ∈ Candidates input → v ∉ ManagedAttributes (Self input) →
  c ∈ Others input → v ∈ ManagedAttributes c →
  (∀ d, d ∈ Others input → Resource d ≠ Resource (Self input)) →
  v ∈ Conflicts (ResolveOwnership input).
Proof.
  intros Hcand Hself Hc Hv Hkeys. apply elem_of_Conflicts. split; [done|].
  destruct (ownerOf_claimed input v c) as (w & Hw & Hvw & -> & _); [by right|done|].
  apply elem_of_cons in Hw as [->|Hw]; [done|by apply Hkeys].
Qed.

Lemma unrecorded_claim_loses_witness :
  "alpha" ∈ Conflicts (ResolveOwnership
    {| Self := exampleClaim "a" 1 []; Candidates := ["alpha"];
       Others := [exampleClaim "b" 7 ["alpha"]] |}).
Proof.
  apply (unrecorded_claim_loses _ "alpha" (exampleClaim "b" 7 ["alpha"])); cbn; try set_solver.
Defined.
