(* ===== verification/GoStrings.v ===== *)
(** * Go strings

    A Go string is a sequence of bytes: a Rocq [string].  This file models
    what the operator uses of packages [unicode/utf8], [strings], [unicode]
    and [strconv]: decoding and encoding of UTF-8, [TrimSpace], [ToLower],
    [EqualFold] and the quoting of the [%q] verb.  The Unicode character
    tables beyond ASCII are data that the toolchain ships: they are the
    fields of the class [UnicodeTables]. *)

From S2P Require Import Prelude.

(** ** UTF-8 *)

(** A rune is a code point. *)
Abbreviation rune := Z.
Definition RuneError : rune := 65533.

Definition byteZ (c : ascii) : Z := Z.of_N (N_of_ascii c).
Definition Zbyte (z : Z) : ascii := ascii_of_N (Z.to_N z).

(** A continuation byte in the range [lo..hi]. *)
Definition contByte (lo hi : Z) (c : ascii) : bool :=
  (lo <=? byteZ c)%Z && (byteZ c <=? hi)%Z.

Definition contBits (c : ascii) : Z := Z.land (byteZ c) 63.

(** [utf8.DecodeRuneInString] of a non-empty string [String c s]: the rune and
    its width; an invalid encoding is [RuneError] of width 1. *)
Definition decodeRune (c : ascii) (s : string) : rune * nat :=
  let b := byteZ c in
  let two := match s with
             | String c1 _ =>
                 if contByte 128 191 c1
                 then (Z.lor (Z.shiftl (Z.land b 31) 6) (contBits c1), 2) else (RuneError, 1)
             | _ => (RuneError, 1)
             end in
  let three lo hi := match s with
             | String c1 (String c2 _) =>
                 if contByte lo hi c1 && contByte 128 191 c2
                 then (Z.lor (Z.shiftl (Z.land b 15) 12)
                        (Z.lor (Z.shiftl (contBits c1) 6) (contBits c2)), 3)
                 else (RuneError, 1)
             | _ => (RuneError, 1)
             end in
  let four lo hi := match s with
             | String c1 (String c2 (String c3 _)) =>
                 if contByte lo hi c1 && contByte 128 191 c2 && contByte 128 191 c3
                 then (Z.lor (Z.shiftl (Z.land b 7) 18)
                        (Z.lor (Z.shiftl (contBits c1) 12)
                          (Z.lor (Z.shiftl (contBits c2) 6) (contBits c3))), 4)
                 else (RuneError, 1)
             | _ => (RuneError, 1)
             end in
  if (b <? 128)%Z then (b, 1)
  else if (b <? 194)%Z then (RuneError, 1)
  else if (b <? 224)%Z then two
  else if (b =? 224)%Z then three 160%Z 191%Z
  else if (b =? 237)%Z then three 128%Z 159%Z
  else if (b <? 240)%Z then three 128%Z 191%Z
  else if (b =? 240)%Z then four 144%Z 191%Z
  else if (b <? 244)%Z then four 128%Z 191%Z
  else if (b =? 244)%Z then four 128%Z 143%Z
  else (RuneError, 1).

(** [utf8.AppendRune]: surrogates and values out of range become U+FFFD. *)
Definition encodeRune (r : rune) : string :=
  let r := if (r <? 0)%Z || (1114111 <? r)%Z || ((55296 <=? r)%Z && (r <=? 57343)%Z)
           then RuneError else r in
  let cont z := Zbyte (Z.lor 128 (Z.land z 63)) in
  if (r <=? 127)%Z then String (Zbyte r) ""
  else if (r <=? 2047)%Z
  then String (Zbyte (Z.lor 192 (Z.shiftr r 6))) (String (cont r) "")
  else if (r <=? 65535)%Z
  then String (Zbyte (Z.lor 224 (Z.shiftr r 12)))
         (String (cont (Z.shiftr r 6)) (String (cont r) ""))
  else String (Zbyte (Z.lor 240 (Z.shiftr r 18)))
         (String (cont (Z.shiftr r 12))
           (String (cont (Z.shiftr r 6)) (String (cont r) ""))).

(** The encoded characters of a string: [range] over the string yields the
    runes, each with the bytes it was decoded from.  [skip] counts the bytes
    of the current character that remain. *)
Fixpoint chars_go (skip : nat) (s : string) : list (rune * string) :=
  match s with
  | "" => []
  | String c s' =>
      match skip with
      | S k => chars_go k s'
      | O => let '(r, w) := decodeRune c s' in
             (r, String.substring 0 w s) :: chars_go (pred w) s'
      end
  end.

Definition chars (s : string) : list (rune * string) := chars_go 0 s.
Definition runes (s : string) : list rune := (chars s).*1.

(** The concatenation of a list of strings. *)
Definition concat_strings (l : list string) : string := foldr String.append "" l.

(** ** Package [unicode] *)

(** Character data beyond ASCII: [unicode.ToLower], whether two distinct runes
    lie on one [unicode.SimpleFold] orbit, and [strconv.IsPrint]. *)
Class UnicodeTables := {
  lowerRune : rune → rune;
  foldEqual : rune → rune → bool;
  printRune : rune → bool;
}.

(** No letters beyond ASCII: the tables for concrete inputs. *)
Definition asciiTables : UnicodeTables :=
  {| lowerRune := λ r, r; foldEqual := λ _ _, false; printRune := λ _, false |}.

(** [unicode.IsSpace] *)
Definition isSpace (r : rune) : bool :=
  bool_decide (r ∈ [9; 10; 11; 12; 13; 32; 133; 160; 5760; 8232; 8233; 8239; 8287; 12288]%Z)
  || ((8192 <=? r)%Z && (r <=? 8202)%Z).

Definition isDigit (c : ascii) : bool := (48 <=? byteZ c)%Z && (byteZ c <=? 57)%Z.

Definition isUpperASCII (r : rune) : bool := (65 <=? r)%Z && (r <=? 90)%Z.

(** [unicode.ToLower] *)
Definition toLowerRune `{UnicodeTables} (r : rune) : rune :=
  if (r <=? 127)%Z then (if isUpperASCII r then (r + 32)%Z else r) else lowerRune r.

(** ** Package [strings] *)

(** [strings.TrimSpace] *)
Fixpoint dropSpaces (l : list (rune * string)) : list (rune * string) :=
  match l with
  | (r, b) :: l' => if isSpace r then dropSpaces l' else l
  | [] => []
  end.

Definition TrimSpace (s : string) : string :=
  concat_strings (reverse (dropSpaces (reverse (dropSpaces (chars s))))).*2.

(** [strings.ToLower]: byte-wise on ASCII strings, [strings.Map] otherwise. *)
Definition isASCII (s : string) : bool := forallb (λ c, (byteZ c <? 128)%Z) (String.list_ascii_of_string s).

Definition lowerByte (c : ascii) : ascii :=
  if isUpperASCII (byteZ c) then Zbyte (byteZ c + 32) else c.

Definition ToLower `{UnicodeTables} (s : string) : string :=
  if isASCII s
  then String.string_of_list_ascii (map lowerByte (String.list_ascii_of_string s))
  else concat_strings (map (λ r, encodeRune (toLowerRune r)) (runes s)).

(** The comparison of one pair of runes in [strings.EqualFold]. *)
Definition equalFoldRune `{UnicodeTables} (a b : rune) : bool :=
  if (a =? b)%Z then true
  else let sr := Z.min a b in
       let tr := Z.max a b in
       if (tr <? 128)%Z then isUpperASCII sr && (tr =? sr + 32)%Z
       else foldEqual sr tr.

Fixpoint equalFoldRunes `{UnicodeTables} (s t : list rune) : bool :=
  match s, t with
  | [], [] => true
  | a :: s', b :: t' => equalFoldRune a b && equalFoldRunes s' t'
  | _, _ => false
  end.

(** [strings.EqualFold] *)
Definition EqualFold `{UnicodeTables} (s t : string) : bool :=
  equalFoldRunes (runes s) (runes t).

(** [strings.Join] *)
Fixpoint Join (elems : list string) (sep : string) : string :=
  match elems with
  | [] => ""
  | [x] => x
  | x :: l => x +:+ sep +:+ Join l sep
  end.

(** ** Package [strconv]: the [%q] verb *)

Definition hexDigit (z : Z) : ascii := Zbyte (if (z <? 10)%Z then 48 + z else 87 + z).

(** The [n] low hexadecimal digits of [z]. *)
Fixpoint hexDigits (n : nat) (z : Z) : string :=
  match n with
  | O => ""
  | S n' => hexDigits n' (Z.shiftr z 4) +:+ String (hexDigit (Z.land z 15)) ""
  end.

Definition backslash : string := String "092" "".

Definition escapeRune `{UnicodeTables} (r : rune) : string :=
  let esc s := backslash +:+ s in
  if (r =? 34)%Z || (r =? 92)%Z then esc (encodeRune r)
  else if (if (r <? 127)%Z then (32 <=? r)%Z else printRune r) then encodeRune r
  else if (r =? 7)%Z then esc "a"
  else if (r =? 8)%Z then esc "b"
  else if (r =? 12)%Z then esc "f"
  else if (r =? 10)%Z then esc "n"
  else if (r =? 13)%Z then esc "r"
  else if (r =? 9)%Z then esc "t"
  else if (r =? 11)%Z then esc "v"
  else if (r <? 32)%Z || (r =? 127)%Z then esc "x" +:+ hexDigits 2 r
  else if (r <? 65536)%Z then esc "u" +:+ hexDigits 4 r
  else esc "U" +:+ hexDigits 8 r.

(** One character of [strconv.Quote]: a byte that does not decode is escaped
    as a byte. *)
Definition quoteChar `{UnicodeTables} (rb : rune * string) : string :=
  match rb with
  | (r, String c "") =>
      if (r =? RuneError)%Z then backslash +:+ "x" +:+ hexDigits 2 (byteZ c) else escapeRune r
  | (r, _) => escapeRune r
  end.

Definition doubleQuote : string := String "034" "".

Definition Quote `{UnicodeTables} (s : string) : string :=
  doubleQuote +:+ concat_strings (map quoteChar (chars s)) +:+ doubleQuote.

(** ** Lemmas *)

Lemma decodeRune_width c s : 1 ≤ (decodeRune c s).2.
Proof. unfold decodeRune. repeat case_match; cbn; lia. Qed.

(** The bytes of the characters are the string. *)
Lemma chars_go_concat k s : String.substring 0 k s +:+ concat_strings (chars_go k s).*2 = s.
Proof.
  revert k. induction s as [|c s IH]; intros k; [by destruct k|].
  destruct k as [|k]; [|by change (String c (String.substring 0 k s +:+ concat_strings (chars_go k s).*2) = String c s); rewrite IH].
  cbn [chars_go]. pose proof (decodeRune_width c s) as Hw. destruct (decodeRune c s) as [r [|w]]; [cbn in Hw; lia|].
  change (String c (String.substring 0 w s +:+ concat_strings (chars_go w s).*2) = String c s). by rewrite IH.
Qed.

Lemma chars_concat s : concat_strings (chars s).*2 = s.
Proof. pose proof (chars_go_concat 0 s) as H. by destruct s. Qed.

Lemma dropSpaces_head l r b k :
  dropSpaces l = (r, b) :: k → isSpace r = false.
Proof.
  induction l as [|[r' b'] l IH]; cbn; [done|].
  destruct (isSpace r') eqn:E; [done|]. by intros [= <- <- <-].
Qed.

Lemma dropSpaces_suffix l : ∃ k, l = k ++ dropSpaces l.
Proof.
  induction l as [|[r b] l [k IH]]; cbn; [by exists []|].
  destruct (isSpace r); [|by exists []].
  exists ((r, b) :: k). cbn. by rewrite <-IH.
Qed.

Lemma equalFoldRune_refl `{UnicodeTables} a : equalFoldRune a a = true.
Proof. unfold equalFoldRune. by rewrite Z.eqb_refl. Qed.

Lemma EqualFold_refl `{UnicodeTables} s : EqualFold s s = true.
Proof.
  unfold EqualFold. induction (runes s) as [|r l IH]; cbn; [done|].
  by rewrite equalFoldRune_refl.
Qed.

Lemma equalFoldRune_comm `{UnicodeTables} a b : equalFoldRune a b = equalFoldRune b a.
Proof.
  unfold equalFoldRune. rewrite Z.eqb_sym, (Z.min_comm a b), (Z.max_comm a b).
  done.
Qed.

Lemma EqualFold_comm `{UnicodeTables} s t : EqualFold s t = EqualFold t s.
Proof.
  unfold EqualFold. generalize (runes s), (runes t). clear s t.
  induction l as [|a l IH]; intros [|b k]; cbn; [done..|].
  by rewrite equalFoldRune_comm, IH.
Qed.

#[export] Hint Resolve EqualFold_refl : mz.

Section Examples.
#[local] Existing Instance asciiTables.

Example TrimSpace_example :
  TrimSpace (String "009" (String "194" (String "160" "a b "))) = "a b".
Proof. by vm_compute. Qed.

Example TrimSpace_blank : TrimSpace "   " = "".
Proof. by vm_compute. Qed.

Example ToLower_example : ToLower "Alice@Example.COM" = "alice@example.com".
Proof. by vm_compute. Qed.

Example EqualFold_example : EqualFold "Alice" "aLICE" = true.
Proof. by vm_compute. Qed.

Example Quote_example :
  Quote (String "a" (String "034" (String "010" (String "255" "")))) =
  doubleQuote +:+ "a" +:+ backslash +:+ doubleQuote +:+ backslash +:+ "n" +:+
    backslash +:+ "xff" +:+ doubleQuote.
Proof. by vm_compute. Qed.
End Examples.
