(* ===== verification/Errors.v ===== *)
(** * Errors

    Go [error] values as the operator builds and inspects them: an inductive
    type with the sentinels and typed errors the code tests for, the chain
    that [fmt.Errorf] with [%w] builds, and [errors.Is] / [errors.As] as walks
    of that chain.  The typed errors of package [entra]
    ([internal/entra/errors.go]) are part of the type. *)

From stdpp Require Export pretty.
From S2P Require Import Prelude.

(** [entra.GraphError]; durations are nanoseconds. *)
Record GraphError := {
  GraphStatusCode : Z;
  GraphCode : string;
  GraphMessage : string;
  GraphRetryAfter : Z;
}.
#[export] Instance GraphError_eq_dec : EqDecision GraphError.
Proof. solve_decision. Defined.

(** [entra.TokenError] *)
Record TokenError := {
  TokenStatusCode : Z;
  TokenCode : string;
  TokenMessage : string;
  TokenRetryAfter : Z;
  TokenTransient : bool;
}.
#[export] Instance TokenError_eq_dec : EqDecision TokenError.
Proof. solve_decision. Defined.

(** A non-nil error.  [ErrorString] is [errors.New] or [fmt.Errorf] without
    [%w]; [WrapError p e] is [fmt.Errorf("p: %w", e)].  [CodedError] is an error
    of the generated REST clients, which carries its HTTP status behind a
    [Code] method; [StatusError] is an error of the Kubernetes API with its
    reason. *)
Inductive error :=
  | ErrorString (message : string)
  | WrapError (action : string) (err : error)
  | Canceled
  | DeadlineExceeded
  | ErrNoUserRoles
  | ErrServicePrincipalNotFound
  | ErrLimitedUserData
  | EGraph (err : GraphError)
  | EToken (err : TokenError)
  | CodedError (code : Z) (message : string)
  | StatusError (reason message : string).
#[export] Instance error_eq_dec : EqDecision error.
Proof. solve_decision. Defined.

(** The result of a fallible operation. *)
Abbreviation result A := (error + A)%type.

(** [(e *GraphError) Error] *)
Definition GraphErrorText (e : GraphError) : string :=
  "Graph HTTP " +:+ pretty (GraphStatusCode e) +:+ " " +:+ GraphCode e +:+ ": " +:+ GraphMessage e.

(** [(e *TokenError) Error] *)
Definition TokenErrorText (e : TokenError) : string :=
  "Entra token " +:+ TokenCode e +:+ ": " +:+ TokenMessage e.

(** [(e *TokenError) Transient] *)
Definition Transient (e : TokenError) : bool :=
  TokenTransient e || (TokenStatusCode e =? 429)%Z || (500 <=? TokenStatusCode e)%Z
  || bool_decide (TokenCode e = "temporarily_unavailable")
  || bool_decide (TokenCode e = "server_error").

(** [err.Error()] *)
Fixpoint Error (e : error) : string :=
  match e with
  | ErrorString m => m
  | WrapError p e => p +:+ ": " +:+ Error e
  | Canceled => "context canceled"
  | DeadlineExceeded => "context deadline exceeded"
  | ErrNoUserRoles => "entra application has no roles allowing User"
  | ErrServicePrincipalNotFound => "entra application service principal not found"
  | ErrLimitedUserData => "graph user data is incomplete; grant User.ReadBasic.All"
  | EGraph g => GraphErrorText g
  | EToken t => TokenErrorText t
  | CodedError _ m => m
  | StatusError _ m => m
  end.

(** The end of the chain of [%w] wrappers. *)
Fixpoint rootCause (e : error) : error :=
  match e with WrapError _ e => rootCause e | e => e end.

(** [errors.Is] against a sentinel [target]. *)
Fixpoint errorsIs (e target : error) : bool :=
  bool_decide (e = target) ||
  match e with WrapError _ e => errorsIs e target | _ => false end.

(** [errors.As] for [*GraphError] and for [*TokenError]. *)
Definition asGraphError (e : error) : option GraphError :=
  match rootCause e with EGraph g => Some g | _ => None end.

Definition asTokenError (e : error) : option TokenError :=
  match rootCause e with EToken t => Some t | _ => None end.

(** [isStatusCode] of [internal/openziti/client/client.go]. *)
Definition isStatusCode (e : error) (code : Z) : bool :=
  match rootCause e with CodedError c _ => (c =? code)%Z | _ => false end.

(** [apierrors.IsNotFound] *)
Definition IsNotFound (e : error) : bool :=
  match rootCause e with StatusError r _ => bool_decide (r = "NotFound") | _ => false end.

(** [client.IgnoreNotFound]: nil is [None]. *)
Definition IgnoreNotFound (e : error) : option error :=
  if IsNotFound e then None else Some e.

(** ** Lemmas *)

(** The sentinels are leaves of every chain they occur in. *)
Lemma errorsIs_root e t :
  (∀ p e', t ≠ WrapError p e') → errorsIs e t = bool_decide (rootCause e = t).
Proof.
  intros Ht. induction e as [|action e IHe| | | | | | | | |]; cbn; rewrite ?orb_false_r; try done.
  rewrite IHe. destruct (bool_decide (WrapError action e = t)) eqn:E; [|done].
  apply bool_decide_eq_true in E. by destruct (Ht action e).
Qed.

Lemma rootCause_not_wrap e p e' : rootCause e ≠ WrapError p e'.
Proof. by induction e. Qed.
