(* ===== verification/Entra.v ===== *)
(** * The directory snapshot of package [entra]

    [internal/entra/directory.go] (the data the directory returns) and
    [internal/entra/validation.go] (the checks that turn decoded Graph pages
    into snapshots): nothing incomplete or of an unknown kind gets past them. *)

From S2P Require Import Prelude GoSlices Errors.

(** ** Data *)

Record AppRole := {
  RoleID : string;
  RoleValue : string;
  AllowedMemberTypes : strs;
  IsEnabled : bool;
}.
#[export] Instance AppRole_eq_dec : EqDecision AppRole.
Proof. solve_decision. Defined.

Record ServicePrincipal := { PrincipalObjectID : string; AppRoles : list AppRole }.
#[export] Instance ServicePrincipal_eq_dec : EqDecision ServicePrincipal.
Proof. solve_decision. Defined.

Record AppRoleAssignment := {
  PrincipalID : string;
  PrincipalType : string;
  AppRoleID : string;
}.
#[export] Instance AppRoleAssignment_eq_dec : EqDecision AppRoleAssignment.
Proof. solve_decision. Defined.

Record User := {
  UserID : string;
  UserDisplayName : string;
  Mail : string;
  UserPrincipalName : string;
}.
#[export] Instance User_eq_dec : EqDecision User.
Proof. solve_decision. Defined.

(** ** Wire types *)

(** A [json.RawMessage] as the decoder left it: no member, or the value. *)
Inductive rawField :=
  | RawAbsent
  | RawNull
  | RawString (s : string)
  | RawOther.

(** [graphRole]: [isEnabled] is a pointer, nil when the member is absent. *)
Record graphRole := { wireRole : AppRole; wireEnabled : option bool }.

(** [graphServicePrincipal] *)
Record graphServicePrincipal := {
  wirePrincipalID : string;
  wireAppRoles : option (list graphRole);
}.

(** [graphMember]; the outer [Mail] shadows the embedded one, which stays empty. *)
Record graphMember := {
  memberUser : User;
  memberType : string;
  memberMail : rawField;
}.

(** ** Validation *)

(** The member types a role may allow. *)
Definition knownMemberType (kind : string) : bool :=
  negb (bool_decide (kind ≠ "User") && bool_decide (kind ≠ "Application")).

(** The loop body of [snapshot]. *)
Definition snapshotRole (wire : graphRole) : result AppRole :=
  let role := wireRole wire in
  if bool_decide (RoleID role = "") || bool_decide (RoleValue role = "")
     || bool_decide (wireEnabled wire = None)
     || bool_decide (length (AllowedMemberTypes role) = 0)
  then inl (ErrorString "incomplete Graph app role")
  else if negb (forallb knownMemberType (AllowedMemberTypes role))
  then inl (ErrorString "unknown Graph app role member type")
  else inr {| RoleID := RoleID role; RoleValue := RoleValue role;
              AllowedMemberTypes := AllowedMemberTypes role;
              IsEnabled := default false (wireEnabled wire) |}.

Fixpoint snapshotRoles (wires : list graphRole) : result (list AppRole) :=
  match wires with
  | [] => inr []
  | wire :: rest =>
      match snapshotRole wire with
      | inl e => inl e
      | inr role => match snapshotRoles rest with
                    | inl e => inl e
                    | inr roles => inr (role :: roles)
                    end
      end
  end.

(** [(p graphServicePrincipal) snapshot] *)
Definition snapshot (p : graphServicePrincipal) : result ServicePrincipal :=
  if bool_decide (wirePrincipalID p = "") then inl (ErrorString "incomplete Graph service principal")
  else match wireAppRoles p with
       | None => inl (ErrorString "incomplete Graph service principal")
       | Some wires =>
           match snapshotRoles wires with
           | inl e => inl e
           | inr roles => inr {| PrincipalObjectID := wirePrincipalID p; AppRoles := roles |}
           end
       end.

(** [validateAssignments]; [None] is a nil error. *)
Fixpoint validateAssignments (assignments : list AppRoleAssignment) : option error :=
  match assignments with
  | [] => None
  | a :: rest =>
      if bool_decide (PrincipalID a = "") || bool_decide (AppRoleID a = "")
      then Some (ErrorString "incomplete Graph app role assignment")
      else if bool_decide (PrincipalType a ∈ ["Group"; "User"; "ServicePrincipal"])
      then validateAssignments rest
      else Some (ErrorString "missing or unknown Graph assignment principal type")
  end.

(** [json.Unmarshal(member.Mail, &user.Mail)] on the shadowed, empty field. *)
Definition unmarshalMail (raw : rawField) : option string :=
  match raw with
  | RawAbsent => None
  | RawNull => Some ""
  | RawString s => Some s
  | RawOther => None
  end.

Definition skippedMemberTypes : strs :=
  ["#microsoft.graph.group"; "#microsoft.graph.device";
   "#microsoft.graph.servicePrincipal"; "#microsoft.graph.orgContact"].

(** [groupUsers] *)
Fixpoint groupUsers (members : list graphMember) : result (list User) :=
  match members with
  | [] => inr []
  | m :: rest =>
      let u := memberUser m in
      if bool_decide (UserID u = "") then inl (ErrorString "incomplete Graph group member")
      else if bool_decide (memberType m ∈ skippedMemberTypes) then groupUsers rest
      else if negb (bool_decide (memberType m = "#microsoft.graph.user"))
      then inl (ErrorString "missing or unknown Graph group member type")
      else if bool_decide (UserPrincipalName u = "") then inl ErrLimitedUserData
      else match unmarshalMail (memberMail m) with
           | None => inl (ErrorString "missing or invalid Graph user mail")
           | Some mail =>
               match groupUsers rest with
               | inl e => inl e
               | inr users =>
                   inr ({| UserID := UserID u; UserDisplayName := UserDisplayName u;
                           Mail := mail; UserPrincipalName := UserPrincipalName u |} :: users)
               end
           end
  end.

(** ** What the validated snapshots promise *)

(** A role of a validated service principal. *)
Definition validRole (r : AppRole) : Prop :=
  RoleID r ≠ "" ∧ RoleValue r ≠ "" ∧ AllowedMemberTypes r ≠ [] ∧
  ∀ kind, kind ∈ AllowedMemberTypes r → kind = "User" ∨ kind = "Application".

(** A validated group member that is a user. *)
Definition validUser (u : User) : Prop := UserID u ≠ "" ∧ UserPrincipalName u ≠ "".

Lemma snapshotRole_spec wire role :
  snapshotRole wire = inr role →
  validRole role ∧ RoleID role = RoleID (wireRole wire) ∧
  RoleValue role = RoleValue (wireRole wire) ∧
  AllowedMemberTypes role = AllowedMemberTypes (wireRole wire) ∧
  wireEnabled wire = Some (IsEnabled role).
Proof.
  unfold snapshotRole. case_test; [done|]. case_test; [done|].
  intros [= <-]. reflect_bools. cbn. unfold validRole; cbn.
  destruct (wireEnabled wire); [|done]. split_and!; try done.
  - by intros Hnil; rewrite Hnil in *.
  - intros kind Hk. rewrite forallb_forall in Heqb0.
    specialize (Heqb0 kind (proj1 (list_elem_of_In _ _) Hk)).
    unfold knownMemberType in Heqb0. reflect_bools.
    all: [> left | right]; by apply dec_stable.
Qed.

(** [snapshotRoles] succeeds exactly when every role does, role by role. *)
Lemma snapshotRoles_Forall2 wires roles :
  snapshotRoles wires = inr roles ↔ Forall2 (λ w r, snapshotRole w = inr r) wires roles.
Proof.
  revert roles. induction wires as [|w ws IH]; intros roles; cbn.
  - split; [intros [= <-]; constructor|by inversion 1].
  - split.
    + destruct (snapshotRole w) eqn:Hw; [done|]. destruct (snapshotRoles ws) eqn:Hws; [done|].
      intros [= <-]. constructor; [done|]. by apply IH.
    + inversion_clear 1 as [|? r ? rs Hw Hws]. rewrite Hw.
      by rewrite (proj2 (IH rs) Hws).
Qed.

Lemma groupUsers_valid ms us :
  groupUsers ms = inr us → Forall validUser us.
Proof.
  revert us. induction ms as [|m ms IH]; intros us; cbn; [by intros [= <-]|].
  repeat (case_test; [first [done|by auto]|]).
  destruct (unmarshalMail _); [|done]. destruct (groupUsers ms); [done|].
  intros [= <-]. reflect_bools. constructor; [by split|by apply IH].
Qed.
