(* ===== verification/Scope.v ===== *)
(** * The resolved role snapshot

    [internal/rolesync/scope.go]: which attribute values a role sync manages
    and which values each directory group grants. *)

From S2P Require Import Prelude GoSlices Errors Entra Ownership.

Definition defaultAccessRoleID : string := "00000000-0000-0000-0000-000000000000".

(** [RoleScope] *)
Record RoleScope := {
  currentValues : strs;
  grantsByGroup : gmap string strs;
}.

(** [(s RoleScope) GroupIDs]: the keys in ascending order. *)
Definition GroupIDs (s : RoleScope) : strs := slices_sort (map_to_list (grantsByGroup s)).*1.

(** Indexing a Go map of slices: nil when the key is absent. *)
Definition index_list {A} (m : gmap string (list A)) (k : string) : list A := default [] (m !! k).

(** The body of the loop over the roles of the application. *)
Definition scanRole (acc : strs * gmap string string) (role : AppRole) : strs * gmap string string :=
  let '(current, enabled) := acc in
  if negb (contains (AllowedMemberTypes role) "User") then (current, enabled)
  else (current ++ [RoleValue role],
        if IsEnabled role then <[RoleID role := RoleValue role]> enabled else enabled).

(** The body of the loop over the assignments. *)
Definition grantAssignment (enabled : gmap string string) (groups : gmap string strs)
    (a : AppRoleAssignment) : gmap string strs :=
  match enabled !! AppRoleID a with
  | None => groups
  | Some value =>
      if negb (bool_decide (PrincipalType a = "Group"))
         || bool_decide (AppRoleID a = defaultAccessRoleID)
      then groups
      else <[PrincipalID a := sortedSet [index_list groups (PrincipalID a); [value]]]> groups
  end.

(** [ResolveRoleScope] *)
Definition ResolveRoleScope (principal : ServicePrincipal)
    (assignments : list AppRoleAssignment) : result RoleScope :=
  let '(current, enabled) := foldl scanRole ([], ∅) (AppRoles principal) in
  if bool_decide (length current = 0) then inl ErrNoUserRoles
  else inr {| currentValues := sortedSet [current];
              grantsByGroup := foldl (grantAssignment enabled) ∅ assignments |}.

(** ** Lemmas *)

(** Roles that can be assigned to users. *)
Definition userRoles (roles : list AppRole) : list AppRole :=
  filter (λ r, "User" ∈ AllowedMemberTypes r) roles.

Definition enabledRoles (roles : list AppRole) : list AppRole :=
  filter (λ r, "User" ∈ AllowedMemberTypes r ∧ IsEnabled r = true) roles.

Lemma scanRoles_fst roles acc :
  (foldl scanRole acc roles).1 = acc.1 ++ (RoleValue <$> userRoles roles).
Proof.
  revert acc. induction roles as [|r roles IH]; intros [cur en]; cbn [foldl].
  - cbn. by rewrite app_nil_r.
  - rewrite IH. unfold scanRole, userRoles. rewrite filter_cons.
    destruct (contains _ _) eqn:E; cbn.
    + apply contains_true in E. rewrite decide_True by done. cbn. by rewrite <-app_assoc.
    + apply contains_false in E. by rewrite decide_False.
Qed.

(** The enabled map keeps the last enabled User role of an ID. *)
Lemma scanRoles_snd roles acc :
  (foldl scanRole acc roles).2 =
  foldl (λ m r, <[RoleID r := RoleValue r]> m) acc.2 (enabledRoles roles).
Proof.
  revert acc. induction roles as [|r roles IH]; intros [cur en]; cbn [foldl]; [done|].
  rewrite IH. unfold scanRole, enabledRoles. rewrite filter_cons.
  destruct (contains _ _) eqn:E; cbn.
  - apply contains_true in E. destruct (IsEnabled r) eqn:Hen.
    + by rewrite decide_True.
    + by rewrite decide_False by naive_solver.
  - apply contains_false in E. by rewrite decide_False by naive_solver.
Qed.

Definition enabledMap (roles : list AppRole) : gmap string string :=
  (foldl scanRole ([], ∅) roles).2.

Lemma enabledMap_lookup_1 roles id v :
  enabledMap roles !! id = Some v →
  ∃ r, r ∈ enabledRoles roles ∧ RoleID r = id ∧ RoleValue r = v.
Proof.
  unfold enabledMap. rewrite scanRoles_snd; cbn.
  generalize (enabledRoles roles); intros l.
  induction l as [|r l IH] using rev_ind; [done|].
  rewrite foldl_app; cbn. destruct (decide (RoleID r = id)) as [<-|].
  - rewrite lookup_insert_eq. intros [= <-]. exists r. set_solver.
  - rewrite lookup_insert_ne by done. intros H. destruct (IH H) as (r' & ? & ? & ?).
    exists r'. set_solver.
Qed.

(** With distinct role IDs the map is exact. *)
Lemma enabledMap_lookup_2 roles r :
  NoDup (RoleID <$> roles) → r ∈ enabledRoles roles →
  enabledMap roles !! RoleID r = Some (RoleValue r).
Proof.
  intros Hnd. unfold enabledMap. rewrite scanRoles_snd; cbn.
  assert (NoDup (RoleID <$> enabledRoles roles)) as Hnd'.
  { eapply sublist_NoDup; [exact Hnd|]. apply fmap_sublist, sublist_filter. }
  revert Hnd'. generalize (enabledRoles roles); intros l. clear Hnd roles.
  induction l as [|r' l IH] using rev_ind; [set_solver|].
  rewrite fmap_app, foldl_app; cbn. intros [Hl [Hdis _]]%NoDup_app Hr.
  destruct (decide (r = r')) as [->|Hne]; [by rewrite lookup_insert_eq|].
  apply elem_of_app in Hr as [Hr|Hr%list_elem_of_singleton]; [|done].
  rewrite lookup_insert_ne; [by apply IH|].
  intros E. apply (Hdis (RoleID r)); [|rewrite E; left].
  apply list_elem_of_fmap; eauto.
Qed.

Lemma elem_of_grants enabled assignments g v :
  v ∈ index_list (foldl (grantAssignment enabled) ∅ assignments) g ↔
  ∃ a, a ∈ assignments ∧ PrincipalID a = g ∧ PrincipalType a = "Group" ∧
    AppRoleID a ≠ defaultAccessRoleID ∧ enabled !! AppRoleID a = Some v.
Proof.
  induction assignments as [|a l IH] using rev_ind; [set_solver|].
  rewrite foldl_app; cbn [foldl].
  assert ((∃ a0, a0 ∈ l ++ [a] ∧ PrincipalID a0 = g ∧ PrincipalType a0 = "Group" ∧
      AppRoleID a0 ≠ defaultAccessRoleID ∧ enabled !! AppRoleID a0 = Some v) ↔
    (∃ a0, a0 ∈ l ∧ PrincipalID a0 = g ∧ PrincipalType a0 = "Group" ∧
      AppRoleID a0 ≠ defaultAccessRoleID ∧ enabled !! AppRoleID a0 = Some v) ∨
    (PrincipalID a = g ∧ PrincipalType a = "Group" ∧
      AppRoleID a ≠ defaultAccessRoleID ∧ enabled !! AppRoleID a = Some v)) as ->.
  { setoid_rewrite elem_of_app. setoid_rewrite list_elem_of_singleton.
    split.
    - intros (a0 & [?|Ha0] & Ha1); [left; by exists a0|right; by subst].
    - intros [(a0 & ? & ?)|?]; [exists a0|exists a]; tauto. }
  rewrite <-IH. unfold grantAssignment.
  destruct (enabled !! AppRoleID a) as [value|] eqn:Hen;
    [|split; [by left|intros [?|(? & ? & ? & ?)]; done]].
  case_test; reflect_bools;
    [split; [by left|by intros [?|(? & ? & ? & ?)]]..|].
  unfold index_list. destruct (decide (PrincipalID a = g)) as [->|].
  - rewrite lookup_insert_eq; cbn. rewrite elem_of_sortedSet2, list_elem_of_singleton.
    split.
    + intros [?| ->]; [by left|right]. by split_and!.
    + intros [?|(? & ? & ? & ?)]; [by left|right; congruence].
  - rewrite lookup_insert_ne by done. split; [by left|]. intros [?|(? & ? & ? & ?)]; done.
Qed.

(** Every recorded group has a grant. *)
Lemma grants_nonempty enabled assignments g l :
  foldl (grantAssignment enabled) ∅ assignments !! g = Some l → l ≠ [].
Proof.
  revert l. induction assignments as [|a as' IH] using rev_ind; intros l; [done|].
  rewrite foldl_app; cbn [foldl]. set (m := foldl (grantAssignment enabled) ∅ as') in *.
  unfold grantAssignment. destruct (enabled !! AppRoleID a) as [value|]; [|apply IH].
  case_test; [apply IH|].
  destruct (decide (PrincipalID a = g)) as [->|].
  - rewrite lookup_insert_eq. intros [= <-] E.
    assert (value ∈ sortedSet [index_list m g; [value]]) as Hv by (rewrite elem_of_sortedSet2; set_solver).
    rewrite E in Hv. set_solver.
  - rewrite lookup_insert_ne by done. apply IH.
Qed.

Lemma elem_of_GroupIDs s g : g ∈ GroupIDs s ↔ is_Some (grantsByGroup s !! g).
Proof.
  unfold GroupIDs. rewrite elem_of_slices_sort, list_elem_of_fmap. split.
  - intros [[k l] [-> H%elem_of_map_to_list]]. by exists l.
  - intros [l H]. exists (g, l). by rewrite elem_of_map_to_list.
Qed.

Lemma GroupIDs_nodup s : NoDup (GroupIDs s).
Proof. unfold GroupIDs. rewrite slices_sort_perm. apply NoDup_fst_map_to_list. Qed.

#[export] Hint Resolve GroupIDs_nodup : mz.

Lemma ResolveRoleScope_inv principal assignments scope :
  ResolveRoleScope principal assignments = inr scope →
  userRoles (AppRoles principal) ≠ [] ∧
  currentValues scope = sortedSet [RoleValue <$> userRoles (AppRoles principal)] ∧
  grantsByGroup scope = foldl (grantAssignment (enabledMap (AppRoles principal))) ∅ assignments.
Proof.
  unfold ResolveRoleScope, enabledMap.
  pose proof (scanRoles_fst (AppRoles principal) ([], ∅)) as Hf.
  destruct (foldl scanRole _ _) as [current enabled]; cbn in Hf |- *. subst current.
  case_bool_decide as Hlen; [done|]. intros [= <-]; cbn. split_and!; try done.
  intros E. by rewrite E in Hlen.
Qed.

(** ** Properties *)

(** C7. A role sync manages the values of every role that users can hold,
    enabled or not, and fails exactly when there is none; a group grants a
    value exactly when it is assigned an enabled such role (never the default
    access role).  So every granted value is a managed one, and the group list
    is the sorted list of the groups that grant something. *)
Theorem ResolveRoleScope_correct (principal : ServicePrincipal)
    (assignments : list AppRoleAssignment) :
  let roles := AppRoles principal in
  NoDup (RoleID <$> roles) →
  match ResolveRoleScope principal assignments with
  | inl e => e = ErrNoUserRoles ∧ ∀ r, r ∈ roles → "User" ∉ AllowedMemberTypes r
  | inr scope =>
      (∀ v, v ∈ currentValues scope ↔
         ∃ r, r ∈ roles ∧ "User" ∈ AllowedMemberTypes r ∧ RoleValue r = v) ∧
      currentValues scope ≠ [] ∧
      (∀ g v, v ∈ index_list (grantsByGroup scope) g ↔
         ∃ a r, a ∈ assignments ∧ r ∈ roles ∧ PrincipalID a = g ∧ PrincipalType a = "Group" ∧
           AppRoleID a = RoleID r ∧ RoleID r ≠ defaultAccessRoleID ∧
           "User" ∈ AllowedMemberTypes r ∧ IsEnabled r = true ∧ RoleValue r = v) ∧
      (∀ g, g ∈ GroupIDs scope ↔ index_list (grantsByGroup scope) g ≠ []) ∧
      StronglySorted String.le (GroupIDs scope) ∧ NoDup (GroupIDs scope)
  end.
Proof.
  intros roles Hnd. destruct (ResolveRoleScope principal assignments) as [e|scope] eqn:Hres.
  - revert Hres. unfold ResolveRoleScope.
    pose proof (scanRoles_fst roles ([], ∅)) as Hf. subst roles.
    destruct (foldl scanRole _ _) as [current enabled]; cbn in Hf |- *. subst current.
    case_bool_decide as Hlen; [|done]. intros [= <-]. split; [done|]. intros r Hr Hu.
    rewrite length_fmap in Hlen. apply nil_length_inv in Hlen.
    assert (r ∈ userRoles (AppRoles principal)) as H
      by (apply list_elem_of_filter; by split).
    rewrite Hlen in H. set_solver.
  - apply ResolveRoleScope_inv in Hres as (Hne & Hcur & Hgr). fold roles in Hne, Hcur, Hgr.
    split_and!.
    + intros v. rewrite Hcur, elem_of_sortedSet1, list_elem_of_fmap.
      unfold userRoles. setoid_rewrite list_elem_of_filter. split.
      * intros (r & -> & ? & ?). by exists r.
      * intros (r & ? & ? & <-). by exists r.
    + rewrite Hcur, sortedSet_nil_iff. by destruct (userRoles roles).
    + intros g v. rewrite Hgr, elem_of_grants. split.
      * intros (a & Ha & Hg & Ht & Hd & Hen).
        apply enabledMap_lookup_1 in Hen as (r & Hr & HrID & HrV).
        apply list_elem_of_filter in Hr as [[? ?] ?]. exists a, r.
        rewrite <-HrID in Hd. by split_and!.
      * intros (a & r & ? & ? & ? & ? & HID & ? & ? & ? & <-). exists a.
        split_and!; try done; [congruence|]. rewrite HID. apply enabledMap_lookup_2; [done|].
        by apply list_elem_of_filter.
    + intros g. rewrite elem_of_GroupIDs. unfold index_list.
      destruct (grantsByGroup scope !! g) as [l|] eqn:Hl; cbn.
      * rewrite Hgr in Hl. apply grants_nonempty in Hl. split; [done|by eexists].
      * split; [by intros []|done].
    + unfold GroupIDs. auto with mz.
    + auto with mz.
Qed.

Lemma ResolveRoleScope_correct_witness :
  let role id v en := {| RoleID := id; RoleValue := v; AllowedMemberTypes := ["User"];
                         IsEnabled := en |} in
  let p := {| PrincipalObjectID := "sp"; AppRoles := [role "1" "alpha" true; role "2" "beta" false] |} in
  let asg g r := {| PrincipalID := g; PrincipalType := "Group"; AppRoleID := r |} in
  match ResolveRoleScope p [asg "g1" "1"; asg "g2" "2"] with
  | inl _ => False
  | inr s => currentValues s = ["alpha"; "beta"] ∧ GroupIDs s = ["g1"] ∧ NoDup (GroupIDs s)
  end.
Proof.
  intros role p asg.
  pose proof (ResolveRoleScope_correct p [asg "g1" "1"; asg "g2" "2"]) as H.
  split_and!; [by vm_compute|by vm_compute|].
  apply H. apply (bool_decide_eq_true_1 _). by vm_compute.
Defined.
