(* ===== verification/ZitiTypes.v ===== *)
(** * The data of the OpenZiti client

    The structs of [internal/openziti/client/client.go] and
    [identity_models.go] that the operator exchanges with the management
    client. *)

From S2P Require Import Prelude GoSlices.

(** [Identity] *)
Record Identity := {
  IdentID : string;
  IdentName : string;
  IdentType : string;
  IdentRoleAttributes : strs;
  IdentCreateOTT : bool;
  IdentExternalID : string;
}.
#[export] Instance Identity_eq_dec : EqDecision Identity.
Proof. solve_decision. Defined.

(** [Service] *)
Record Service := {
  ServiceID : string;
  ServiceName : string;
  ServiceRoleAttributes : strs;
  ServiceConfigIDs : strs;
}.
#[export] Instance Service_eq_dec : EqDecision Service.
Proof. solve_decision. Defined.

(** The values of a config payload ([map[string]any]): those the operator puts
    into it, and any other value that it reads. *)
Inductive payloadValue :=
  | PStrings (l : strs)
  | PPortRanges (l : list (gmap string Z))
  | PString (s : string)
  | PInt (n : Z)
  | POther (json : string).
#[export] Instance payloadValue_eq_dec : EqDecision payloadValue.
Proof. solve_decision. Defined.

(** [ServiceConfig] *)
Record ServiceConfig := {
  ConfigID : string;
  ConfigName : string;
  ConfigType : string;
  ConfigPayload : gmap string payloadValue;
}.
#[export] Instance ServiceConfig_eq_dec : EqDecision ServiceConfig.
Proof. solve_decision. Defined.

(** [EdgeRouter] *)
Record EdgeRouter := { EdgeRouterID : string; EdgeRouterName : string }.
#[export] Instance EdgeRouter_eq_dec : EqDecision EdgeRouter.
Proof. solve_decision. Defined.

(** [AccessPolicy] *)
Record AccessPolicy := {
  PolicyID : string;
  PolicyName : string;
  PolicyType : string;
  PolicyIdentityRoles : strs;
  PolicyServiceRoles : strs;
  PolicyIdentityRolesRaw : strs;
  PolicyServiceRolesRaw : strs;
  PolicySemantic : string;
}.
#[export] Instance AccessPolicy_eq_dec : EqDecision AccessPolicy.
Proof. solve_decision. Defined.

(** [ServiceEdgeRouterPolicy] *)
Record ServiceEdgeRouterPolicy := {
  SerpID : string;
  SerpName : string;
  SerpEdgeRouterRoles : strs;
  SerpServiceRoles : strs;
  SerpSemantic : string;
}.
#[export] Instance ServiceEdgeRouterPolicy_eq_dec : EqDecision ServiceEdgeRouterPolicy.
Proof. solve_decision. Defined.
