(* ===== verification/Planner.v ===== *)
(** * The planner

    [internal/rolesync/planner.go] and [internal/rolesync/matching.go]: from
    complete snapshots of the directory, the identities and the recorded
    claims, the list of patches to send. *)

From S2P Require Import Prelude GoSlices GoStrings Errors Entra Ownership Scope ZitiTypes.

(** ** Data *)

(** [IdentityOwner] ([ownership.go]) *)
Record IdentityOwner := {
  OwnerResource : ResourceKey;
  OwnerIdentityID : string;
  OwnerIdentityName : string;
}.

(** [Input] *)
Record Input := {
  InScope : RoleScope;
  MembersByGroup : gmap string (list User);
  Identities : list Identity;
  IdentityOwners : list IdentityOwner;
  InSelf : SyncClaim;
  OtherClaims : list SyncClaim;
  UserProperty : string;
}.

(** [IdentityPatch] *)
Record IdentityPatch := {
  PatchIdentityID : string;
  PatchExternalID : string;
  GrantedAttributes : strs;
  PatchRoleAttributes : strs;
}.
#[export] Instance IdentityPatch_eq_dec : EqDecision IdentityPatch.
Proof. solve_decision. Defined.

(** [RetirementHolder] *)
Record RetirementHolder := { HolderIdentityID : string; HolderValues : strs }.
#[export] Instance RetirementHolder_eq_dec : EqDecision RetirementHolder.
Proof. solve_decision. Defined.

(** [UnmatchedMember] *)
Record UnmatchedMember := {
  UnmatchedID : string;
  UnmatchedDisplayName : string;
  UnmatchedExternalID : string;
  UnmatchedReason : string;
}.
#[export] Instance UnmatchedMember_eq_dec : EqDecision UnmatchedMember.
Proof. solve_decision. Defined.

(** [PlanResult] *)
Record PlanResult := {
  CurrentValues : strs;
  ManagedValues : strs;
  PlanOwnership : OwnershipResult;
  Patches : list IdentityPatch;
  RetirementHolders : list RetirementHolder;
  UnmatchedMembers : list UnmatchedMember;
  MatchedIdentities : nat;
  MembersWithoutIdentity : nat;
  WouldRemoveAll : bool;
}.

(** [PlanResult{}] *)
Definition emptyPlan : PlanResult :=
  {| CurrentValues := []; ManagedValues := [];
     PlanOwnership := {| Owners := ∅; Conflicts := [] |};
     Patches := []; RetirementHolders := []; UnmatchedMembers := [];
     MatchedIdentities := 0; MembersWithoutIdentity := 0; WouldRemoveAll := false |}.

(** Assignments to the fields of a plan. *)
Definition setPatches (ps : list IdentityPatch) (p : PlanResult) : PlanResult :=
  {| CurrentValues := CurrentValues p; ManagedValues := ManagedValues p;
     PlanOwnership := PlanOwnership p; Patches := ps;
     RetirementHolders := RetirementHolders p; UnmatchedMembers := UnmatchedMembers p;
     MatchedIdentities := MatchedIdentities p;
     MembersWithoutIdentity := MembersWithoutIdentity p; WouldRemoveAll := WouldRemoveAll p |}.
Definition setHolders (hs : list RetirementHolder) (p : PlanResult) : PlanResult :=
  {| CurrentValues := CurrentValues p; ManagedValues := ManagedValues p;
     PlanOwnership := PlanOwnership p; Patches := Patches p;
     RetirementHolders := hs; UnmatchedMembers := UnmatchedMembers p;
     MatchedIdentities := MatchedIdentities p;
     MembersWithoutIdentity := MembersWithoutIdentity p; WouldRemoveAll := WouldRemoveAll p |}.
Definition setUnmatched (us : list UnmatchedMember) (p : PlanResult) : PlanResult :=
  {| CurrentValues := CurrentValues p; ManagedValues := ManagedValues p;
     PlanOwnership := PlanOwnership p; Patches := Patches p;
     RetirementHolders := RetirementHolders p; UnmatchedMembers := us;
     MatchedIdentities := MatchedIdentities p;
     MembersWithoutIdentity := MembersWithoutIdentity p; WouldRemoveAll := WouldRemoveAll p |}.
Definition setMatched (n : nat) (p : PlanResult) : PlanResult :=
  {| CurrentValues := CurrentValues p; ManagedValues := ManagedValues p;
     PlanOwnership := PlanOwnership p; Patches := Patches p;
     RetirementHolders := RetirementHolders p; UnmatchedMembers := UnmatchedMembers p;
     MatchedIdentities := n;
     MembersWithoutIdentity := MembersWithoutIdentity p; WouldRemoveAll := WouldRemoveAll p |}.
Definition setWithoutIdentity (n : nat) (p : PlanResult) : PlanResult :=
  {| CurrentValues := CurrentValues p; ManagedValues := ManagedValues p;
     PlanOwnership := PlanOwnership p; Patches := Patches p;
     RetirementHolders := RetirementHolders p; UnmatchedMembers := UnmatchedMembers p;
     MatchedIdentities := MatchedIdentities p;
     MembersWithoutIdentity := n; WouldRemoveAll := WouldRemoveAll p |}.
Definition setWouldRemoveAll (b : bool) (p : PlanResult) : PlanResult :=
  {| CurrentValues := CurrentValues p; ManagedValues := ManagedValues p;
     PlanOwnership := PlanOwnership p; Patches := Patches p;
     RetirementHolders := RetirementHolders p; UnmatchedMembers := UnmatchedMembers p;
     MatchedIdentities := MatchedIdentities p;
     MembersWithoutIdentity := MembersWithoutIdentity p; WouldRemoveAll := b |}.

(** ** Operations *)

(** [(p *PlanResult) report]: at most 50 entries are kept. *)
Definition report (p : PlanResult) (member : UnmatchedMember) : PlanResult :=
  if bool_decide (length (UnmatchedMembers p) < 50)
  then setUnmatched (UnmatchedMembers p ++ [member]) p else p.

(** The retired values among the attributes of an identity, in the order of
    [retired]. *)
Definition heldValues (retired attributes : strs) : strs :=
  filter (λ value, contains attributes value = true) retired.

(** [(p *PlanResult) observeRetirement] *)
Definition observeRetirement (p : PlanResult) (identity : Identity) (retired : strs) : PlanResult :=
  let values := heldValues retired (IdentRoleAttributes identity) in
  if bool_decide (0 < length values)
  then setHolders (RetirementHolders p ++
         [{| HolderIdentityID := IdentID identity; HolderValues := sortedSet [values] |}]) p
  else p.

(** [overlaps] *)
Definition overlaps (values managed : strs) : bool := existsb (contains managed) values.

(** [MergeAttributes] *)
Definition MergeAttributes (current managed granted : strs) : strs :=
  filter (λ value, contains managed value = false) current ++ sortedSet [granted].

(** [IdentityOwned] *)
Definition ownerMatches (identity : Identity) (owner : IdentityOwner) : bool :=
  (negb (bool_decide (OwnerIdentityID owner = "")) &&
     bool_decide (IdentID identity = OwnerIdentityID owner)) ||
  (negb (bool_decide (OwnerIdentityName owner = "")) &&
     bool_decide (IdentName identity = OwnerIdentityName owner)).

Definition IdentityOwned (identity : Identity) (owners : list IdentityOwner) : bool :=
  existsb (ownerMatches identity) owners.

(** [selectedProperty] *)
Definition selectedProperty (user : User) (property : string) : string :=
  if bool_decide (property = "id") then UserID user
  else if bool_decide (property = "userPrincipalName") then UserPrincipalName user
  else Mail user.

Section Planner.
Context `{UnicodeTables}.

(** The inner loop body of [memberGrants]: the state is the grant map, the set
    of users already reported and the plan. *)
Definition memberStep (property : string) (values : strs)
    (st : gmap string strs * gmap string bool * PlanResult) (user : User)
    : gmap string strs * gmap string bool * PlanResult :=
  let '(grants, missing, result) := st in
  let prop := selectedProperty user property in
  if bool_decide (prop = "") then
    if default false (missing !! UserID user) then (grants, missing, result)
    else (grants, <[UserID user := true]> missing,
          report result {| UnmatchedID := UserID user; UnmatchedDisplayName := UserDisplayName user;
                           UnmatchedExternalID := ""; UnmatchedReason := "MissingProperty" |})
  else let key := ToLower prop in
       (<[key := sortedSet [index_list grants key; values]]> grants, missing, result).

(** [memberGrants] *)
Definition memberGrants (input : Input) (result : PlanResult) : gmap string strs * PlanResult :=
  let '(grants, _, result) :=
    foldl (λ st group,
      foldl (memberStep (UserProperty input) (index_list (grantsByGroup (InScope input)) group))
        st (index_list (MembersByGroup input) group))
      (∅, ∅, result) (GroupIDs (InScope input)) in
  (grants, result).

(** [identityIndex] *)
Definition identityIndex (identities : list Identity) : gmap string (list Identity) :=
  foldl (λ index identity,
    if negb (bool_decide (IdentExternalID identity = ""))
    then let key := ToLower (IdentExternalID identity) in
         <[key := index_list index key ++ [identity]]> index
    else index) ∅ identities.

(** [eligibleIdentity]: the verdict and the plan with the report it made. *)
Definition eligibleIdentity (identity : Identity) (owners : list IdentityOwner)
    (index : gmap string (list Identity)) (result : PlanResult) : bool * PlanResult :=
  if bool_decide (IdentExternalID identity = "") then (false, result)
  else
    let reason :=
      if IdentityOwned identity owners then "ManagedByZitiIdentity"
      else if bool_decide (1 < length (index_list index (ToLower (IdentExternalID identity))))
      then "DuplicateIdentity" else "" in
    if negb (bool_decide (reason = ""))
    then (false, report result {| UnmatchedID := IdentID identity;
                                  UnmatchedDisplayName := IdentName identity;
                                  UnmatchedExternalID := IdentExternalID identity;
                                  UnmatchedReason := reason |})
    else (true, result).

(** The body of the loop over the identities: the state is the plan and the
    flags [hadManaged] and [willHaveManaged]. *)
Definition planIdentity (input : Input) (retired : strs) (grants : gmap string strs)
    (index : gmap string (list Identity)) (st : PlanResult * bool * bool) (identity : Identity)
    : PlanResult * bool * bool :=
  let '(result, had, will) := st in
  let result := observeRetirement result identity retired in
  let '(ok, result) := eligibleIdentity identity (IdentityOwners input) index result in
  if negb ok then (result, had, will)
  else
    let granted := index_list grants (ToLower (IdentExternalID identity)) in
    let result := if bool_decide (0 < length granted)
                  then setMatched (S (MatchedIdentities result)) result else result in
    let next := MergeAttributes (IdentRoleAttributes identity) (ManagedValues result) granted in
    let had := had || overlaps (IdentRoleAttributes identity) (ManagedValues result) in
    let will := will || overlaps next (ManagedValues result) in
    let result :=
      if negb (slices_equal (sortedSet [IdentRoleAttributes identity]) (sortedSet [next]))
      then setPatches (Patches result ++
             [{| PatchIdentityID := IdentID identity; PatchExternalID := IdentExternalID identity;
                 GrantedAttributes := granted; PatchRoleAttributes := next |}]) result
      else result in
    (result, had, will).

(** The values of the claim that are no longer current. *)
Definition retiredValues (current previous : strs) : strs :=
  filter (λ value, contains current value = false) previous.

(** [BuildPlan]; on error the Go function also returns the empty plan, which
    no caller uses. *)
Definition BuildPlan (input : Input) : result PlanResult :=
  let current := currentValues (InScope input) in
  if bool_decide (length current = 0) then inl ErrNoUserRoles
  else
    let managed := sortedSet [current; ManagedAttributes (InSelf input)] in
    let result := {| CurrentValues := current; ManagedValues := managed;
         PlanOwnership := ResolveOwnership {| Self := InSelf input; Candidates := managed;
                                              Others := OtherClaims input |};
         Patches := []; RetirementHolders := []; UnmatchedMembers := [];
         MatchedIdentities := 0; MembersWithoutIdentity := 0; WouldRemoveAll := false |} in
    let retired := retiredValues current (ManagedAttributes (InSelf input)) in
    let '(grants, result) := memberGrants input result in
    let index := identityIndex (Identities input) in
    let result := setWithoutIdentity (MembersWithoutIdentity result +
        length (filter (λ key, length (index_list index key) = 0) (map_to_list grants).*1)) result in
    let '(result, hadManaged, willHaveManaged) :=
      foldl (planIdentity input retired grants index) (result, false, false) (Identities input) in
    let result := setWouldRemoveAll (hadManaged && negb willHaveManaged) result in
    let result := if bool_decide (0 < length (Conflicts (PlanOwnership result)))
                  then setPatches [] result else result in
    inr result.

End Planner.
