(* ===== verification/PlannerSpec.v ===== *)
(** * What the planner promises

    A declarative plan ([specPlan]: list comprehensions over the snapshots, no
    maps, no mutation) and the refinement theorem that [BuildPlan] computes
    it, then the properties of the plan. *)

From S2P Require Import Prelude GoSlices GoStrings Errors Entra Ownership Scope ZitiTypes Planner.

(** Computes the fields of plan records and nothing else. *)
Ltac plan_fields :=
  unfold setPatches, setHolders, setUnmatched, setMatched, setWithoutIdentity, setWouldRemoveAll;
  cbn [CurrentValues ManagedValues PlanOwnership Patches RetirementHolders UnmatchedMembers
    MatchedIdentities MembersWithoutIdentity WouldRemoveAll].

Section Spec.
Context `{UnicodeTables}.

(** ** The declarative plan *)

(** Every (member, values granted through the group) pair, group by group. *)
Definition memberList (input : Input) : list (User * strs) :=
  GroupIDs (InScope input) ≫= λ group,
    (λ u, (u, index_list (grantsByGroup (InScope input)) group)) <$>
      index_list (MembersByGroup input) group.

Definition memberProperty (input : Input) (m : User * strs) : string :=
  selectedProperty m.1 (UserProperty input).

(** The member is matched by the key, compared in lower case. *)
Definition memberHasKey (input : Input) (key : string) (m : User * strs) : Prop :=
  memberProperty input m ≠ "" ∧ ToLower (memberProperty input m) = key.

#[export] Instance memberHasKey_dec input key m : Decision (memberHasKey input key m).
Proof. unfold memberHasKey. apply _. Defined.

(** The values granted to the owner of an external ID. *)
Definition grantedFor (input : Input) (key : string) : strs :=
  sortedSet ((filter (memberHasKey input key) (memberList input)).*2).

(** The identities that carry an external ID. *)
Definition withExternalID (identities : list Identity) (key : string) : list Identity :=
  filter (λ i, IdentExternalID i ≠ "" ∧ ToLower (IdentExternalID i) = key) identities.

Definition identityKey (i : Identity) : string := ToLower (IdentExternalID i).

Definition isDuplicate (input : Input) (i : Identity) : Prop :=
  1 < length (withExternalID (Identities input) (identityKey i)).

#[export] Instance isDuplicate_dec input i : Decision (isDuplicate input i).
Proof. unfold isDuplicate. apply _. Defined.

(** The identities the sync may change. *)
Definition eligible (input : Input) (i : Identity) : Prop :=
  IdentExternalID i ≠ "" ∧ IdentityOwned i (IdentityOwners input) = false ∧ ¬ isDuplicate input i.
#[export] Instance eligible_dec input i : Decision (eligible input i).
Proof. unfold eligible. apply _. Defined.

Definition managedValues (input : Input) : strs :=
  sortedSet [currentValues (InScope input); ManagedAttributes (InSelf input)].

Definition inputRetired (input : Input) : strs :=
  retiredValues (currentValues (InScope input)) (ManagedAttributes (InSelf input)).

(** The attributes an identity should have. *)
Definition desiredAttributes (input : Input) (i : Identity) : strs :=
  MergeAttributes (IdentRoleAttributes i) (managedValues input) (grantedFor input (identityKey i)).

Definition specPatch (input : Input) (i : Identity) : option IdentityPatch :=
  if bool_decide (eligible input i) &&
     negb (slices_equal (sortedSet [IdentRoleAttributes i]) (sortedSet [desiredAttributes input i]))
  then Some {| PatchIdentityID := IdentID i; PatchExternalID := IdentExternalID i;
               GrantedAttributes := grantedFor input (identityKey i);
               PatchRoleAttributes := desiredAttributes input i |}
  else None.

Definition specHolder (input : Input) (i : Identity) : option RetirementHolder :=
  let values := heldValues (inputRetired input) (IdentRoleAttributes i) in
  if bool_decide (values = []) then None
  else Some {| HolderIdentityID := IdentID i; HolderValues := sortedSet [values] |}.

(** The first report of each member without the selected property. *)
Fixpoint missingReports (input : Input) (seen : gmap string bool) (l : list (User * strs))
    : list UnmatchedMember :=
  match l with
  | [] => []
  | m :: l' =>
      if bool_decide (memberProperty input m ≠ "") || default false (seen !! UserID m.1)
      then missingReports input seen l'
      else {| UnmatchedID := UserID m.1; UnmatchedDisplayName := UserDisplayName m.1;
              UnmatchedExternalID := ""; UnmatchedReason := "MissingProperty" |}
           :: missingReports input (<[UserID m.1 := true]> seen) l'
  end.

(** The report of an identity that carries an external ID and is excluded. *)
Definition exclusionReport (input : Input) (i : Identity) : option UnmatchedMember :=
  let entry reason := {| UnmatchedID := IdentID i; UnmatchedDisplayName := IdentName i;
                         UnmatchedExternalID := IdentExternalID i; UnmatchedReason := reason |} in
  if bool_decide (IdentExternalID i = "") then None
  else if IdentityOwned i (IdentityOwners input) then Some (entry "ManagedByZitiIdentity")
  else if bool_decide (isDuplicate input i) then Some (entry "DuplicateIdentity") else None.

Definition grantKeys (input : Input) : strs :=
  sortedSet [(λ m, ToLower (memberProperty input m)) <$>
               filter (λ m, memberProperty input m ≠ "") (memberList input)].

Definition specOwnership (input : Input) : OwnershipResult :=
  ResolveOwnership {| Self := InSelf input; Candidates := managedValues input;
                      Others := OtherClaims input |}.

Definition holdsManaged (input : Input) (attributes : strs) : bool :=
  overlaps attributes (managedValues input).

Definition specPlan (input : Input) : PlanResult :=
  let scope := filter (eligible input) (Identities input) in
  {| CurrentValues := currentValues (InScope input);
     ManagedValues := managedValues input;
     PlanOwnership := specOwnership input;
     Patches := if bool_decide (Conflicts (specOwnership input) = [])
                then omap (specPatch input) (Identities input) else [];
     RetirementHolders := omap (specHolder input) (Identities input);
     UnmatchedMembers := take 50 (missingReports input ∅ (memberList input) ++
                                  omap (exclusionReport input) (Identities input));
     MatchedIdentities := length (filter (λ i, grantedFor input (identityKey i) ≠ []) scope);
     MembersWithoutIdentity :=
       length (filter (λ key, withExternalID (Identities input) key = []) (grantKeys input));
     WouldRemoveAll :=
       existsb (λ i, holdsManaged input (IdentRoleAttributes i)) scope &&
       negb (existsb (λ i, holdsManaged input (desiredAttributes input i)) scope) |}.

(** ** Members and grants *)

Definition grantStep (input : Input) (grants : gmap string strs) (m : User * strs)
    : gmap string strs :=
  if bool_decide (memberProperty input m = "") then grants
  else let key := ToLower (memberProperty input m) in
       <[key := sortedSet [index_list grants key; m.2]]> grants.

(** The two nested loops are one loop over [memberList]. *)
Lemma member_loops input gs st :
  foldl (λ st group,
    foldl (memberStep (UserProperty input) (index_list (grantsByGroup (InScope input)) group))
      st (index_list (MembersByGroup input) group)) st gs =
  foldl (λ st m, memberStep (UserProperty input) m.2 st m.1) st
    (gs ≫= λ group, (λ u, (u, index_list (grantsByGroup (InScope input)) group)) <$>
                       index_list (MembersByGroup input) group).
Proof.
  revert st. induction gs as [|g gs IH]; intros st; [done|].
  cbn [foldl]. rewrite bind_cons, foldl_app, IH. f_equal.
  generalize (index_list (MembersByGroup input) g). intros us. revert st.
  induction us as [|u us IHu]; intros st; cbn; [done|apply IHu].
Qed.

Lemma report_take p m us :
  length (UnmatchedMembers p) ≤ 50 →
  setUnmatched (take 50 (UnmatchedMembers (report p m) ++ us)) (report p m) =
  setUnmatched (take 50 (UnmatchedMembers p ++ m :: us)) p.
Proof.
  intros Hlen. unfold report. case_bool_decide as Hlt; cbn.
  - by rewrite <-app_assoc.
  - unfold setUnmatched. cbn. f_equal. assert (length (UnmatchedMembers p) = 50) by lia.
    by rewrite !take_app_length' by lia.
Qed.

Lemma report_length p m :
  length (UnmatchedMembers p) ≤ 50 → length (UnmatchedMembers (report p m)) ≤ 50.
Proof.
  intros Hlen. unfold report. case_bool_decide; cbn; [|lia]. rewrite length_app. cbn. lia.
Qed.

Lemma setUnmatched_id p : length (UnmatchedMembers p) ≤ 50 →
  setUnmatched (take 50 (UnmatchedMembers p ++ [])) p = p.
Proof. intros Hlen. rewrite app_nil_r, take_ge by done. by destruct p. Qed.

Lemma member_fold input l grants missing p :
  length (UnmatchedMembers p) ≤ 50 →
  ∃ missing',
  foldl (λ st m, memberStep (UserProperty input) m.2 st m.1) (grants, missing, p) l =
  (foldl (grantStep input) grants l, missing',
   setUnmatched (take 50 (UnmatchedMembers p ++ missingReports input missing l)) p).
Proof.
  revert grants missing p. induction l as [|m l IH]; intros grants missing p Hlen.
  - exists missing. cbn [foldl missingReports]. by rewrite setUnmatched_id.
  - cbn [foldl missingReports]. unfold memberStep at 2, grantStep at 2.
    fold (memberProperty input m).
    destruct (decide (memberProperty input m = "")) as [E|E].
    + rewrite !bool_decide_true, (bool_decide_false (_ ≠ _)) by tauto. cbn [orb].
      destruct (default false _) eqn:Hs.
      * by apply IH.
      * destruct (IH grants (<[UserID m.1 := true]> missing)
          (report p {| UnmatchedID := UserID m.1; UnmatchedDisplayName := UserDisplayName m.1;
                       UnmatchedExternalID := ""; UnmatchedReason := "MissingProperty" |}))
          as [missing' ->]; [by apply report_length|].
        exists missing'. by rewrite report_take.
    + rewrite !bool_decide_false, (bool_decide_true (_ ≠ _)) by tauto. cbn [orb]. by apply IH.
Qed.

Definition grantMap (input : Input) : gmap string strs :=
  foldl (grantStep input) ∅ (memberList input).

Lemma memberGrants_eq input p :
  length (UnmatchedMembers p) ≤ 50 →
  memberGrants input p =
  (grantMap input,
   setUnmatched (take 50 (UnmatchedMembers p ++ missingReports input ∅ (memberList input))) p).
Proof.
  intros Hlen. unfold memberGrants. rewrite member_loops.
  destruct (member_fold input (memberList input) ∅ ∅ p Hlen) as [missing' E].
  unfold memberList in E. by rewrite E.
Qed.

Lemma grantStep_lookup input l key v :
  v ∈ index_list (foldl (grantStep input) ∅ l) key ↔
  ∃ m, m ∈ l ∧ memberHasKey input key m ∧ v ∈ m.2.
Proof.
  induction l as [|m l IH] using rev_ind; [set_solver|].
  rewrite foldl_app; cbn [foldl]. set (g := foldl (grantStep input) ∅ l) in *.
  setoid_rewrite elem_of_app. setoid_rewrite list_elem_of_singleton.
  assert ((∃ m0, (m0 ∈ l ∨ m0 = m) ∧ memberHasKey input key m0 ∧ v ∈ m0.2) ↔
    v ∈ index_list g key ∨ (memberHasKey input key m ∧ v ∈ m.2)) as ->.
  { rewrite IH. split; [intros (? & [?| ->] & ?); eauto|intros [(? & ? & ?)|?]; eauto]. }
  unfold grantStep, memberHasKey. case_bool_decide as E; [naive_solver|].
  unfold index_list at 1. destruct (decide (ToLower (memberProperty input m) = key)) as [<-|].
  - rewrite lookup_insert_eq; cbn. rewrite elem_of_sortedSet2. naive_solver.
  - rewrite lookup_insert_ne by done. fold (index_list g key). naive_solver.
Qed.

(** Every entry of the map is a sorted set. *)
Lemma grantStep_sorted input l key :
  StronglySorted String.le (index_list (foldl (grantStep input) ∅ l) key) ∧
  NoDup (index_list (foldl (grantStep input) ∅ l) key).
Proof.
  induction l as [|m l IH] using rev_ind; [split; constructor|].
  rewrite foldl_app; cbn [foldl]. set (g := foldl (grantStep input) ∅ l) in *.
  unfold grantStep. case_bool_decide; [done|].
  unfold index_list at 1 3. destruct (decide (ToLower (memberProperty input m) = key)) as [<-|].
  - rewrite lookup_insert_eq; cbn. auto with mz.
  - by rewrite lookup_insert_ne.
Qed.

Lemma grantMap_lookup input key : index_list (grantMap input) key = grantedFor input key.
Proof.
  apply sorted_nodup_unique;
    [apply grantStep_sorted..|apply sortedSet_sorted|apply sortedSet_nodup|].
  intros v. unfold grantMap, grantedFor. rewrite grantStep_lookup, elem_of_sortedSet.
  setoid_rewrite list_elem_of_fmap. setoid_rewrite list_elem_of_filter.
  split.
  - intros (m & ? & ? & ?). exists m.2. eauto 10.
  - intros (? & (m & -> & ? & ?) & ?). eauto 10.
Qed.

Lemma grantStep_dom input l key :
  is_Some (foldl (grantStep input) ∅ l !! key) ↔ ∃ m, m ∈ l ∧ memberHasKey input key m.
Proof.
  induction l as [|m l IH] using rev_ind.
  { cbn. rewrite lookup_empty, is_Some_alt. set_solver. }
  rewrite foldl_app; cbn [foldl]. set (g := foldl (grantStep input) ∅ l) in *.
  setoid_rewrite elem_of_app. setoid_rewrite list_elem_of_singleton.
  assert ((∃ m0, (m0 ∈ l ∨ m0 = m) ∧ memberHasKey input key m0) ↔
    is_Some (g !! key) ∨ memberHasKey input key m) as ->.
  { rewrite IH. split; [intros (? & [?| ->] & ?); eauto|intros [(? & ? & ?)|?]; eauto]. }
  unfold grantStep, memberHasKey. case_bool_decide as E; [naive_solver|].
  rewrite lookup_insert_is_Some.
  destruct (decide (ToLower (memberProperty input m) = key)); naive_solver.
Qed.

Lemma grantMap_keys input : (map_to_list (grantMap input)).*1 ≡ₚ grantKeys input.
Proof.
  apply NoDup_Permutation; [apply NoDup_fst_map_to_list|apply sortedSet_nodup|].
  intros key. unfold grantKeys. rewrite elem_of_sortedSet1, !list_elem_of_fmap.
  setoid_rewrite list_elem_of_filter. unfold memberHasKey in *.
  transitivity (is_Some (grantMap input !! key)).
  - split.
    + intros [[k l] [-> Hl%elem_of_map_to_list]]. by exists l.
    + intros [l Hl]. exists (key, l). by rewrite elem_of_map_to_list.
  - unfold grantMap. rewrite grantStep_dom. unfold memberHasKey.
    split; intros (m & ?); exists m; naive_solver.
Qed.

Lemma identityIndex_lookup ids key :
  index_list (identityIndex ids) key = withExternalID ids key.
Proof.
  unfold identityIndex, withExternalID.
  induction ids as [|i ids IH] using rev_ind; [done|].
  rewrite foldl_app, filter_app; cbn [foldl].
  set (g := foldl _ ∅ ids) in *. rewrite <-IH, filter_cons, filter_nil.
  destruct (decide (IdentExternalID i = "")) as [E|E].
  - rewrite bool_decide_true, decide_False by tauto. cbn. by rewrite app_nil_r.
  - rewrite bool_decide_false by done. cbn. unfold index_list at 1.
    destruct (decide (ToLower (IdentExternalID i) = key)) as [<-|Hk].
    + by rewrite lookup_insert_eq, decide_True.
    + rewrite lookup_insert_ne, decide_False by tauto. by rewrite app_nil_r.
Qed.

(** ** The loop over the identities *)

(** The identities that were matched to a granted member. *)
Definition matchedIn (input : Input) (ids : list Identity) : list Identity :=
  filter (λ i, grantedFor input (identityKey i) ≠ []) (filter (eligible input) ids).

(** The plan after the loop has handled [ids]. *)
Definition planAfter (input : Input) (p : PlanResult) (ids : list Identity) : PlanResult :=
  {| CurrentValues := CurrentValues p; ManagedValues := ManagedValues p;
     PlanOwnership := PlanOwnership p;
     Patches := Patches p ++ omap (specPatch input) ids;
     RetirementHolders := RetirementHolders p ++ omap (specHolder input) ids;
     UnmatchedMembers := take 50 (UnmatchedMembers p ++ omap (exclusionReport input) ids);
     MatchedIdentities := MatchedIdentities p + length (matchedIn input ids);
     MembersWithoutIdentity := MembersWithoutIdentity p;
     WouldRemoveAll := WouldRemoveAll p |}.

Lemma planAfter_cons input p i ids :
  length (UnmatchedMembers p) ≤ 50 →
  planAfter input (planAfter input p [i]) ids = planAfter input p (i :: ids).
Proof.
  intros Hlen. unfold planAfter. plan_fields.
  change (i :: ids) with ([i] ++ ids).
  rewrite !omap_app, !app_assoc. f_equal.
  - by rewrite take_take_app.
  - unfold matchedIn. rewrite !filter_app, length_app. lia.
Qed.

(** [eligibleIdentity] decides [eligible] and makes the exclusion report. *)
Lemma eligibleIdentity_eq input p i :
  length (UnmatchedMembers p) ≤ 50 →
  eligibleIdentity i (IdentityOwners input) (identityIndex (Identities input)) p =
  (bool_decide (eligible input i),
   setUnmatched (take 50 (UnmatchedMembers p ++ omap (exclusionReport input) [i])) p).
Proof.
  intros Hlen. unfold eligibleIdentity. cbn [omap list_omap].
  rewrite identityIndex_lookup. fold (identityKey i).
  destruct (decide (IdentExternalID i = "")) as [E|E].
  { unfold exclusionReport. rewrite !(bool_decide_true (_ = "")) by done.
    rewrite (bool_decide_false (eligible input i)) by (unfold eligible; tauto).
    by rewrite setUnmatched_id. }
  unfold exclusionReport. rewrite !(bool_decide_false (IdentExternalID i = "")) by done.
  assert (∀ m, report p m = setUnmatched (take 50 (UnmatchedMembers p ++ [m])) p) as Hrep.
  { intros m. rewrite <-report_take by done.
    by rewrite setUnmatched_id by (by apply report_length). }
  destruct (IdentityOwned i (IdentityOwners input)) eqn:Ho.
  { rewrite (bool_decide_false (eligible input i)) by (unfold eligible; rewrite Ho; naive_solver).
    rewrite bool_decide_false by done. cbn [negb]. by rewrite Hrep. }
  destruct (decide (isDuplicate input i)) as [Hd|Hd].
  - rewrite !(bool_decide_true (isDuplicate input i)) by done.
    rewrite (bool_decide_false (eligible input i)) by (unfold eligible; tauto).
    rewrite ?(bool_decide_true (1 < _)) by done.
    rewrite bool_decide_false by done. cbn [negb]. by rewrite Hrep.
  - rewrite !(bool_decide_false (isDuplicate input i)) by done.
    rewrite (bool_decide_true (eligible input i)) by (by unfold eligible).
    rewrite ?(bool_decide_false (1 < _)) by done.
    rewrite bool_decide_true by done. cbn [negb]. by rewrite setUnmatched_id.
Qed.

Definition scopeExists (input : Input) (f : Identity → bool) (ids : list Identity) : bool :=
  existsb f (filter (eligible input) ids).

Lemma planIdentity_eq input p had will i :
  ManagedValues p = managedValues input → length (UnmatchedMembers p) ≤ 50 →
  planIdentity input (inputRetired input) (grantMap input) (identityIndex (Identities input))
    (p, had, will) i =
  (planAfter input p [i],
   had || scopeExists input (λ i, holdsManaged input (IdentRoleAttributes i)) [i],
   will || scopeExists input (λ i, holdsManaged input (desiredAttributes input i)) [i]).
Proof.
  intros Hm Hlen. unfold planIdentity.
  rewrite eligibleIdentity_eq
    by (by unfold observeRetirement; case_bool_decide).
  set (q := setUnmatched _ (observeRetirement p i _)).
  assert (q = setPatches (Patches p) (setMatched (MatchedIdentities p) (planAfter input p [i]))) as Hq.
  { unfold q, observeRetirement, planAfter, setUnmatched, setPatches, setMatched, setHolders; cbn.
    unfold specHolder, inputRetired.
    destruct (heldValues _ _) as [|x l]; cbn.
    - rewrite app_nil_r. by destruct p.
    - by destruct p. }
  assert (ManagedValues q = managedValues input) as Hmq by (by rewrite Hq).
  clearbody q. unfold scopeExists. rewrite filter_cons, filter_nil.
  destruct (decide (eligible input i)) as [He|He]; cbn [negb].
  - rewrite (bool_decide_true _ He). cbn [negb existsb].
    rewrite grantMap_lookup. fold (identityKey i).
    assert (∀ b : bool, (if b then setMatched (S (MatchedIdentities q)) q else q) =
      setMatched (if b then S (MatchedIdentities q) else MatchedIdentities q) q) as E
      by (by intros []; [|destruct q]).
    rewrite E. cbn [setMatched ManagedValues Patches]. rewrite Hmq, !orb_false_r.
    fold (desiredAttributes input i). f_equal. f_equal. rewrite Hq.
    unfold planAfter, matchedIn. plan_fields. cbn [omap list_omap]. unfold specPatch.
    rewrite (bool_decide_true _ He), filter_cons, filter_nil, decide_True by done.
    rewrite filter_cons, filter_nil.
    destruct (grantedFor input (identityKey i)) as [|x l];
      [rewrite decide_False by tauto; rewrite bool_decide_false by (cbn; lia)
      |rewrite decide_True by done; rewrite bool_decide_true by (cbn; lia)];
      cbn [andb length]; destruct (slices_equal _ _); cbn [negb]; plan_fields;
      f_equal; rewrite ?app_nil_r; done || lia.
  - rewrite (bool_decide_false _ He). cbn [negb existsb]. rewrite !orb_false_r. f_equal. f_equal.
    rewrite Hq. unfold planAfter, matchedIn. plan_fields. cbn [omap list_omap]. unfold specPatch.
    rewrite (bool_decide_false _ He), filter_cons, filter_nil, decide_False by done. cbn.
    rewrite app_nil_r. f_equal. lia.
Qed.

Lemma plan_fold input ids p had will :
  ManagedValues p = managedValues input → length (UnmatchedMembers p) ≤ 50 →
  foldl (planIdentity input (inputRetired input) (grantMap input) (identityIndex (Identities input)))
    (p, had, will) ids =
  (planAfter input p ids,
   had || scopeExists input (λ i, holdsManaged input (IdentRoleAttributes i)) ids,
   will || scopeExists input (λ i, holdsManaged input (desiredAttributes input i)) ids).
Proof.
  revert p had will. induction ids as [|i ids IH]; intros p had will Hm Hlen.
  - cbn. unfold planAfter, scopeExists; cbn. rewrite !app_nil_r, take_ge, !orb_false_r by done.
    rewrite Nat.add_0_r. by destruct p.
  - cbn [foldl]. rewrite planIdentity_eq by done. rewrite IH.
    + rewrite planAfter_cons by done. unfold scopeExists. f_equal; [f_equal|];
        rewrite <-orb_assoc, <-existsb_app, <-filter_app; done.
    + by unfold planAfter.
    + unfold planAfter; cbn. rewrite length_take. lia.
Qed.

Lemma withoutIdentity_count input :
  length (filter (λ key, length (index_list (identityIndex (Identities input)) key) = 0)
    (map_to_list (grantMap input)).*1) =
  length (filter (λ key, withExternalID (Identities input) key = []) (grantKeys input)).
Proof.
  rewrite <-grantMap_keys. f_equal. apply filter_iff_in. intros key _.
  rewrite identityIndex_lookup. by destruct (withExternalID _ _).
Qed.

(** The whole of [BuildPlan]. *)
Lemma BuildPlan_eq (input : Input) :
  BuildPlan input =
  if bool_decide (currentValues (InScope input) = []) then inl ErrNoUserRoles
  else inr (specPlan input).
Proof.
  unfold BuildPlan.
  destruct (decide (currentValues (InScope input) = [])) as [E|E].
  { by rewrite !bool_decide_true by (by rewrite ?E). }
  rewrite !bool_decide_false by (by destruct (currentValues (InScope input))).
  rewrite memberGrants_eq by (cbn; lia). plan_fields.
  fold (managedValues input) (inputRetired input).
  rewrite plan_fold; [|done|cbn; rewrite length_take; lia].
  cbn [orb]. unfold planAfter. plan_fields. f_equal.
  rewrite take_take_app, withoutIdentity_count. unfold specPlan.
  fold (specOwnership input).
  destruct (Conflicts (specOwnership input)) as [|c cs]; cbn [length];
    [rewrite bool_decide_false by lia|rewrite bool_decide_true by lia]; done.
Qed.

(** ** Properties *)

(** C4. The planner computes the declarative plan: the mutable maps, the
    shared result and the flags of [BuildPlan] add up to the list
    comprehensions of [specPlan], in the order of the identity snapshot; the
    only error is the absence of roles for users. *)
Theorem BuildPlan_refines (input : Input) :
  BuildPlan input =
  if bool_decide (currentValues (InScope input) = []) then inl ErrNoUserRoles
  else inr (specPlan input).
Proof. exact (BuildPlan_eq input). Qed.

(** ** Consequences for the patches *)

Lemma elem_of_MergeAttributes current managed granted v :
  v ∈ MergeAttributes current managed granted ↔ (v ∈ current ∧ v ∉ managed) ∨ v ∈ granted.
Proof.
  unfold MergeAttributes.
  rewrite elem_of_app, list_elem_of_filter, contains_false, elem_of_sortedSet1. tauto.
Qed.

Lemma sortedSet_id l : StronglySorted String.le l → NoDup l → sortedSet [l] = l.
Proof.
  intros. apply sorted_nodup_unique; auto with mz. intros x. apply elem_of_sortedSet1.
Qed.

Lemma grantedFor_eq input key : sortedSet [grantedFor input key] = grantedFor input key.
Proof. apply sortedSet_id; apply sortedSet_sorted || apply sortedSet_nodup. Qed.

Lemma elem_of_grantedFor input key v :
  v ∈ grantedFor input key ↔
  ∃ g u, g ∈ GroupIDs (InScope input) ∧ u ∈ index_list (MembersByGroup input) g ∧
    selectedProperty u (UserProperty input) ≠ "" ∧
    ToLower (selectedProperty u (UserProperty input)) = key ∧
    v ∈ index_list (grantsByGroup (InScope input)) g.
Proof.
  unfold grantedFor. rewrite elem_of_sortedSet.
  setoid_rewrite list_elem_of_fmap. setoid_rewrite list_elem_of_filter.
  unfold memberList. setoid_rewrite list_elem_of_bind. setoid_rewrite list_elem_of_fmap.
  unfold memberHasKey, memberProperty. split.
  - intros (? & (m & -> & [? ?] & g & (u & -> & ?) & ?) & ?). exists g, u. by split_and!.
  - intros (g & u & ? & ? & ? & ? & ?).
    exists (index_list (grantsByGroup (InScope input)) g).
    split; [|done]. exists (u, index_list (grantsByGroup (InScope input)) g).
    split_and!; try done. exists g. split; [|done]. by exists u.
Qed.

(** Values are granted only if they are current values of the role scope. *)
Lemma granted_current principal assignments input key :
  ResolveRoleScope principal assignments = inr (InScope input) →
  grantedFor input key ⊆ currentValues (InScope input).
Proof.
  intros (_ & Hcur & Hgr)%ResolveRoleScope_inv v.
  rewrite elem_of_grantedFor. intros (g & u & _ & _ & _ & _ & Hv).
  rewrite Hgr, elem_of_grants in Hv. destruct Hv as (a & _ & _ & _ & _ & Hen).
  apply enabledMap_lookup_1 in Hen as (r & Hr & _ & <-).
  rewrite Hcur, elem_of_sortedSet1. apply list_elem_of_fmap. exists r. split; [done|].
  unfold enabledRoles in Hr. apply list_elem_of_filter in Hr as [[? _] ?].
  by apply list_elem_of_filter.
Qed.

Lemma specPatch_Some input i patch :
  specPatch input i = Some patch ↔
  eligible input i ∧
  ¬ (∀ v, v ∈ IdentRoleAttributes i ↔ v ∈ desiredAttributes input i) ∧
  patch = {| PatchIdentityID := IdentID i; PatchExternalID := IdentExternalID i;
             GrantedAttributes := grantedFor input (identityKey i);
             PatchRoleAttributes := desiredAttributes input i |}.
Proof.
  unfold specPatch. rewrite <-sortedSet1_eq, <-slices_equal_true, not_true_iff_false.
  destruct (decide (eligible input i)); [rewrite bool_decide_true by done|
    rewrite bool_decide_false by done; naive_solver].
  cbn [andb]. destruct (slices_equal _ _); cbn [negb]; naive_solver.
Qed.

Lemma specPatch_None input i :
  specPatch input i = None ↔
  (eligible input i → ∀ v, v ∈ IdentRoleAttributes i ↔ v ∈ desiredAttributes input i).
Proof.
  unfold specPatch. rewrite <-sortedSet1_eq, <-slices_equal_true.
  destruct (decide (eligible input i)); [rewrite bool_decide_true by done|
    rewrite bool_decide_false by done; naive_solver].
  cbn [andb]. destruct (slices_equal _ _); cbn [negb]; naive_solver.
Qed.

(** Two eligible identities never share an external ID. *)
Lemma eligible_unique input i j :
  i ∈ Identities input → j ∈ Identities input → eligible input i →
  IdentExternalID j ≠ "" → identityKey j = identityKey i → j = i.
Proof.
  intros Hi Hj (Hext & _ & Hdup) Hextj Hkey.
  assert (∀ k, k ∈ Identities input → IdentExternalID k ≠ "" → identityKey k = identityKey i →
    k ∈ withExternalID (Identities input) (identityKey i)) as Hin
    by (intros; by apply list_elem_of_filter).
  pose proof (Hin i Hi Hext eq_refl) as H1. pose proof (Hin j Hj Hextj Hkey) as H2.
  unfold isDuplicate in Hdup.
  destruct (withExternalID _ _) as [|a [|b l]]; cbn in Hdup; [set_solver| |lia].
  apply list_elem_of_singleton in H1, H2. congruence.
Qed.

Lemma BuildPlan_inv input p : BuildPlan input = inr p → p = specPlan input.
Proof. rewrite BuildPlan_eq. case_bool_decide; [done|]. by intros [= <-]. Qed.

Lemma elem_of_Patches input patch :
  patch ∈ Patches (specPlan input) ↔
  Conflicts (specOwnership input) = [] ∧
  ∃ i, i ∈ Identities input ∧ specPatch input i = Some patch.
Proof.
  cbn [specPlan Patches]. case_bool_decide.
  - rewrite list_elem_of_omap. naive_solver.
  - set_solver.
Qed.

(** C5. Every patch of a plan is justified: the plan has no ownership
    conflict; the patch is for one identity of the snapshot that has an
    external ID, belongs to no ZitiIdentity resource and shares its external
    ID with no other identity; it keeps the identity's unmanaged attributes in
    their order and appends, sorted and without repetition, exactly the values
    that the groups of the matching members grant, all of them current values;
    and it really changes the attribute set. *)
Theorem BuildPlan_patch_sound (principal : ServicePrincipal)
    (assignments : list AppRoleAssignment) (input : Input) (p : PlanResult) (patch : IdentityPatch) :
  ResolveRoleScope principal assignments = inr (InScope input) →
  BuildPlan input = inr p → patch ∈ Patches p →
  Conflicts (PlanOwnership p) = [] ∧
  ∃ i, i ∈ Identities input ∧
    PatchIdentityID patch = IdentID i ∧ PatchExternalID patch = IdentExternalID i ∧
    IdentExternalID i ≠ "" ∧ IdentityOwned i (IdentityOwners input) = false ∧
    (∀ j, j ∈ Identities input → IdentExternalID j ≠ "" →
       ToLower (IdentExternalID j) = ToLower (IdentExternalID i) → j = i) ∧
    PatchRoleAttributes patch =
      filter (λ v, contains (ManagedValues p) v = false) (IdentRoleAttributes i) ++
      GrantedAttributes patch ∧
    (∀ v, v ∈ GrantedAttributes patch ↔
       ∃ g u, g ∈ GroupIDs (InScope input) ∧ u ∈ index_list (MembersByGroup input) g ∧
         selectedProperty u (UserProperty input) ≠ "" ∧
         ToLower (selectedProperty u (UserProperty input)) = ToLower (IdentExternalID i) ∧
         v ∈ index_list (grantsByGroup (InScope input)) g) ∧
    StronglySorted String.le (GrantedAttributes patch) ∧ NoDup (GrantedAttributes patch) ∧
    GrantedAttributes patch ⊆ CurrentValues p ∧
    ¬ (∀ v, v ∈ IdentRoleAttributes i ↔ v ∈ PatchRoleAttributes patch).
Proof.
  intros Hscope ->%BuildPlan_inv (Hno & i & Hi & Hp)%elem_of_Patches.
  split; [done|]. apply specPatch_Some in Hp as (He & Hch & ->). exists i.
  destruct He as (Hext & Hown & Hdup).
  cbn [PatchIdentityID PatchExternalID GrantedAttributes PatchRoleAttributes specPlan
    ManagedValues CurrentValues].
  split_and!; try done.
  - intros j Hj Hextj Hkey. by apply (eligible_unique input i j).
  - unfold desiredAttributes, MergeAttributes. by rewrite grantedFor_eq.
  - intros v. apply elem_of_grantedFor.
  - apply sortedSet_sorted.
  - apply sortedSet_nodup.
  - by apply (granted_current principal assignments).
Qed.

(** ** Convergence *)

(** The identities after the patches have been applied, by identity ID. *)
Definition applyPatch (patches : list IdentityPatch) (i : Identity) : Identity :=
  match List.find (λ p, bool_decide (PatchIdentityID p = IdentID i)) patches with
  | Some p => {| IdentID := IdentID i; IdentName := IdentName i; IdentType := IdentType i;
                 IdentRoleAttributes := PatchRoleAttributes p;
                 IdentCreateOTT := IdentCreateOTT i; IdentExternalID := IdentExternalID i |}
  | None => i
  end.

Definition withIdentities (input : Input) (ids : list Identity) : Input :=
  {| InScope := InScope input; MembersByGroup := MembersByGroup input; Identities := ids;
     IdentityOwners := IdentityOwners input; InSelf := InSelf input;
     OtherClaims := OtherClaims input; UserProperty := UserProperty input |}.

Lemma find_omap_patch input ids i :
  NoDup (IdentID <$> ids) → i ∈ ids →
  List.find (λ p, bool_decide (PatchIdentityID p = IdentID i)) (omap (specPatch input) ids) =
  specPatch input i.
Proof.
  assert (∀ j p, specPatch input j = Some p → PatchIdentityID p = IdentID j) as Hid
    by (by intros j p (_ & _ & ->)%specPatch_Some).
  assert (∀ l, IdentID i ∉ IdentID <$> l →
    List.find (λ p, bool_decide (PatchIdentityID p = IdentID i)) (omap (specPatch input) l) = None)
    as Hnone.
  { induction l as [|j l IH]; intros Hl; [done|]. cbn in Hl.
    cbn [omap list_omap]. destruct (specPatch input j) eqn:Hj; [|by apply IH; set_solver].
    cbn [List.find]. rewrite bool_decide_false; [by apply IH; set_solver|].
    rewrite (Hid _ _ Hj). set_solver. }
  induction ids as [|j ids IH]; [set_solver|]. cbn. intros [Hj Hnd]%NoDup_cons Hi.
  apply elem_of_cons in Hi as [<-|Hi].
  - destruct (specPatch input i) eqn:Hp; cbn.
    + by rewrite bool_decide_true by (by apply Hid).
    + by apply Hnone.
  - assert (IdentID j ≠ IdentID i).
    { intros E. apply Hj. rewrite E. apply list_elem_of_fmap. eauto. }
    destruct (specPatch input j) eqn:Hp; cbn; [|by apply IH].
    rewrite bool_decide_false by (by rewrite (Hid _ _ Hp)). by apply IH.
Qed.

Lemma applyPatch_fields ps i :
  IdentID (applyPatch ps i) = IdentID i ∧ IdentName (applyPatch ps i) = IdentName i ∧
  IdentExternalID (applyPatch ps i) = IdentExternalID i.
Proof. unfold applyPatch. by destruct (List.find _ _). Qed.

Lemma withExternalID_apply ps ids key :
  length (withExternalID (applyPatch ps <$> ids) key) = length (withExternalID ids key).
Proof.
  unfold withExternalID. induction ids as [|i ids IH]; [done|]. cbn [fmap list_fmap].
  rewrite !filter_cons. destruct (applyPatch_fields ps i) as (_ & _ & ->).
  case_decide; cbn; [by f_equal|done].
Qed.

Lemma eligible_apply input ps i :
  eligible (withIdentities input (applyPatch ps <$> Identities input)) (applyPatch ps i) ↔
  eligible input i.
Proof.
  unfold eligible, isDuplicate, identityKey. cbn [Identities withIdentities IdentityOwners].
  rewrite withExternalID_apply. unfold IdentityOwned, ownerMatches.
  by destruct (applyPatch_fields ps i) as (-> & -> & ->).
Qed.

(** C6. One round of patches converges: after the patches of a conflict-free
    plan have been applied to the identities they name, planning again over
    the same directory and claims sends nothing.  So every eligible identity
    that got no patch already had exactly the attributes it should have, and
    a sync that repeats does not rewrite identities. *)
Theorem BuildPlan_converges (input : Input) (p : PlanResult) :
  NoDup (IdentID <$> Identities input) → BuildPlan input = inr p →
  Conflicts (PlanOwnership p) = [] →
  ∃ p', BuildPlan (withIdentities input (applyPatch (Patches p) <$> Identities input)) = inr p' ∧
    Patches p' = [] ∧ Conflicts (PlanOwnership p') = [].
Proof.
  intros Hnd Hb Hno. pose proof (BuildPlan_inv _ _ Hb) as ->. revert Hb.
  rewrite !BuildPlan_eq. cbn [InScope withIdentities].
  case_bool_decide; [done|]. intros _. eexists; split; [done|].
  split; [|exact Hno]. cbn in Hno. cbn [specPlan Patches].
  rewrite bool_decide_true by exact Hno. rewrite (bool_decide_true _ Hno).
  set (ps := omap (specPatch input) (Identities input)).
  set (input' := withIdentities _ _). cbn [Identities withIdentities].
  apply elem_of_nil_inv. intros q Hq. apply list_elem_of_omap in Hq as (j & Hj & Hq).
  apply list_elem_of_fmap in Hj as (i & -> & Hi).
  apply specPatch_Some in Hq as (He & Hch & _). apply Hch. clear Hch q. intros v.
  unfold input' in He. rewrite eligible_apply in He.
  unfold desiredAttributes, identityKey.
  destruct (applyPatch_fields ps i) as (_ & _ & ->). fold (identityKey i).
  change (managedValues input') with (managedValues input).
  change (grantedFor input' (identityKey i)) with (grantedFor input (identityKey i)).
  rewrite elem_of_MergeAttributes. unfold applyPatch, ps.
  rewrite find_omap_patch by done. destruct (specPatch input i) as [q|] eqn:Hp.
  - apply specPatch_Some in Hp as (_ & _ & ->). cbn [IdentRoleAttributes PatchRoleAttributes].
    unfold desiredAttributes. rewrite elem_of_MergeAttributes. naive_solver.
  - rewrite specPatch_None in Hp. specialize (Hp He v). unfold desiredAttributes in Hp.
    by rewrite elem_of_MergeAttributes in Hp.
Qed.

Lemma overlaps_true values managed :
  overlaps values managed = true ↔ ∃ v, v ∈ values ∧ v ∈ managed.
Proof.
  unfold overlaps. rewrite existsb_exists. setoid_rewrite contains_true.
  by setoid_rewrite <-list_elem_of_In.
Qed.

Lemma scope_exists input (f : Identity → bool) :
  existsb f (filter (eligible input) (Identities input)) = true ↔
  ∃ i, i ∈ Identities input ∧ eligible input i ∧ f i = true.
Proof.
  rewrite existsb_exists. setoid_rewrite <-list_elem_of_In.
  setoid_rewrite list_elem_of_filter. naive_solver.
Qed.

Lemma elem_of_heldValues input i v :
  v ∈ heldValues (inputRetired input) (IdentRoleAttributes i) ↔
  v ∈ ManagedAttributes (InSelf input) ∧ v ∉ currentValues (InScope input) ∧
  v ∈ IdentRoleAttributes i.
Proof.
  unfold heldValues, inputRetired, retiredValues.
  rewrite !list_elem_of_filter, contains_true, contains_false. tauto.
Qed.

(** Every identity with a retired value is a retirement holder. *)
Lemma BuildPlan_holders input p i v :
  BuildPlan input = inr p → i ∈ Identities input → v ∈ ManagedAttributes (InSelf input) →
  v ∉ CurrentValues p → v ∈ IdentRoleAttributes i →
  ∃ h, h ∈ RetirementHolders p ∧ HolderIdentityID h = IdentID i ∧ v ∈ HolderValues h.
Proof.
  intros ->%BuildPlan_inv Hi Hm Hc Ha. cbn [specPlan RetirementHolders CurrentValues] in *.
  pose proof (proj2 (elem_of_heldValues input i v) (conj Hm (conj Hc Ha))) as Hv.
  eexists. split; [|split].
  - apply list_elem_of_omap. exists i. split; [done|]. unfold specHolder.
    rewrite bool_decide_false; [done|]. intros E. rewrite E in Hv. set_solver.
  - done.
  - cbn. by apply elem_of_sortedSet1.
Qed.

(** A plan manages the current values and the previous claim. *)
Lemma BuildPlan_managed input p v :
  BuildPlan input = inr p →
  v ∈ ManagedValues p ↔ v ∈ CurrentValues p ∨ v ∈ ManagedAttributes (InSelf input).
Proof. intros ->%BuildPlan_inv. cbn. apply elem_of_sortedSet2. Qed.

(** C8. The guards of a plan.  A plan with an ownership conflict has no patches, for
    any identity; at most 50 members and identities are reported.  The guards see
    the whole snapshot: [WouldRemoveAll] is set
    exactly when some eligible identity holds a managed value now and no
    eligible identity would hold one afterwards; and the retirement holders
    list exactly the identities, excluded ones too, that hold a value of the
    previous claim that is no longer current, with all the values they hold. *)
Theorem BuildPlan_guards (input : Input) (p : PlanResult) :
  BuildPlan input = inr p →
  (Conflicts (PlanOwnership p) ≠ [] → Patches p = []) ∧
  length (UnmatchedMembers p) ≤ 50 ∧
  (WouldRemoveAll p = true ↔
     (∃ i v, i ∈ Identities input ∧ eligible input i ∧ v ∈ IdentRoleAttributes i ∧
             v ∈ ManagedValues p) ∧
     (∀ i v, i ∈ Identities input → eligible input i → v ∈ desiredAttributes input i →
             v ∉ ManagedValues p)) ∧
  (∀ h, h ∈ RetirementHolders p → HolderValues h ≠ [] ∧ ∃ i, i ∈ Identities input ∧
     HolderIdentityID h = IdentID i ∧
     ∀ v, v ∈ HolderValues h ↔ v ∈ ManagedAttributes (InSelf input) ∧
          v ∉ CurrentValues p ∧ v ∈ IdentRoleAttributes i) ∧
  (∀ i v, i ∈ Identities input → v ∈ ManagedAttributes (InSelf input) → v ∉ CurrentValues p →
     v ∈ IdentRoleAttributes i →
     ∃ h, h ∈ RetirementHolders p ∧ HolderIdentityID h = IdentID i ∧ v ∈ HolderValues h).
Proof.
  intros Hb. pose proof (BuildPlan_inv _ _ Hb) as ->.
  split_and!; [| | | |intros; by eapply BuildPlan_holders].
  { cbn [specPlan PlanOwnership Patches]. intros Hc. by rewrite bool_decide_false. }
  { cbn [specPlan UnmatchedMembers]. rewrite length_take. lia. }
  all: cbn [specPlan WouldRemoveAll ManagedValues RetirementHolders CurrentValues].
  - rewrite andb_true_iff, negb_true_iff, <-not_true_iff_false, !scope_exists.
    unfold holdsManaged. setoid_rewrite overlaps_true. naive_solver.
  - intros h (i & Hi & Hh)%list_elem_of_omap. unfold specHolder in Hh.
    case_bool_decide as Hne; [done|]. injection Hh as <-. cbn [HolderValues HolderIdentityID].
    rewrite sortedSet_nil_iff. split; [done|]. exists i. split_and!; [done..|].
    intros v. by rewrite elem_of_sortedSet1, elem_of_heldValues.
Qed.

End Spec.

(** ** A concrete sync *)

Section Example.
#[local] Existing Instance asciiTables.

Definition exRole (id v : string) (en : bool) : AppRole :=
  {| RoleID := id; RoleValue := v; AllowedMemberTypes := ["User"]; IsEnabled := en |}.
Definition exPrincipal : ServicePrincipal :=
  {| PrincipalObjectID := "sp"; AppRoles := [exRole "1" "alpha" true; exRole "2" "beta" true] |}.
Definition exAssignments : list AppRoleAssignment :=
  [{| PrincipalID := "g1"; PrincipalType := "Group"; AppRoleID := "1" |}].
Definition exScope : RoleScope :=
  match ResolveRoleScope exPrincipal exAssignments with
  | inr s => s
  | inl _ => {| currentValues := []; grantsByGroup := ∅ |}
  end.
Definition exUser : User :=
  {| UserID := "u1"; UserDisplayName := "Ann"; Mail := "Ann@x.org"; UserPrincipalName := "ann" |}.
Definition exIdentity (id ext : string) (attrs : strs) : Identity :=
  {| IdentID := id; IdentName := id; IdentType := "User"; IdentRoleAttributes := attrs;
     IdentCreateOTT := false; IdentExternalID := ext |}.

(** Ann is granted [alpha]; [gamma] is retired; Bob keeps only [ops]. *)
Definition exInput : Input :=
  {| InScope := exScope; MembersByGroup := {[ "g1" := [exUser] ]};
     Identities := [exIdentity "i1" "ann@X.org" ["ops"; "gamma"]; exIdentity "i2" "bob@x.org" ["ops"]];
     IdentityOwners := []; InSelf := exampleClaim "sync" 1 ["alpha"; "beta"; "gamma"];
     OtherClaims := []; UserProperty := "mail" |}.

Definition exPatch : IdentityPatch :=
  {| PatchIdentityID := "i1"; PatchExternalID := "ann@X.org"; GrantedAttributes := ["alpha"];
     PatchRoleAttributes := ["ops"; "alpha"] |}.

Lemma BuildPlan_patch_sound_witness :
  exPatch ∈ Patches (specPlan exInput) ∧ Conflicts (PlanOwnership (specPlan exInput)) = [].
Proof.
  assert (exPatch ∈ Patches (specPlan exInput)) as Hin
    by (replace (Patches (specPlan exInput)) with [exPatch] by (by vm_compute); left).
  split; [exact Hin|].
  apply (BuildPlan_patch_sound exPrincipal exAssignments exInput (specPlan exInput) exPatch);
    [by vm_compute|by vm_compute|exact Hin].
Defined.

Lemma BuildPlan_converges_witness :
  ∃ p', BuildPlan (withIdentities exInput
          (applyPatch (Patches (specPlan exInput)) <$> Identities exInput)) = inr p' ∧
    Patches p' = [] ∧ Conflicts (PlanOwnership p') = [].
Proof.
  apply (BuildPlan_converges exInput (specPlan exInput)); [|by vm_compute|by vm_compute].
  apply (bool_decide_eq_true_1 _). by vm_compute.
Defined.

Lemma BuildPlan_guards_witness :
  RetirementHolders (specPlan exInput) =
    [{| HolderIdentityID := "i1"; HolderValues := ["gamma"] |}] ∧
  ∃ i, i ∈ Identities exInput ∧ "i1" = IdentID i.
Proof.
  assert (RetirementHolders (specPlan exInput) =
    [{| HolderIdentityID := "i1"; HolderValues := ["gamma"] |}]) as E by (by vm_compute).
  split; [exact E|].
  destruct (BuildPlan_guards exInput (specPlan exInput)) as (_ & _ & _ & Hh & _); [by vm_compute|].
  destruct (Hh {| HolderIdentityID := "i1"; HolderValues := ["gamma"] |}) as (_ & i & Hi & Hid & _);
    [rewrite E; left|].
  exists i. split; [exact Hi|exact Hid].
Defined.
End Example.
