(* ===== verification/Retirement.v ===== *)
(** * Completion and retirement

    [internal/rolesync/retirement.go]: from a plan and the outcomes of its
    write phase, the status to record: which claims to keep, whether the sync
    is ready, and why not. *)

From S2P Require Import Prelude GoSlices Errors Ownership Planner.

(** ** Data *)

(** [OutcomeKind] *)
Inductive OutcomeKind := Observed | Patched | Deleted | Skipped | Failed | Conflicted.
#[export] Instance OutcomeKind_eq_dec : EqDecision OutcomeKind.
Proof. solve_decision. Defined.

(** [IdentityOutcome]; [None] is a nil error. *)
Record IdentityOutcome := {
  OutcomeIdentityID : string;
  Kind : OutcomeKind;
  OutcomeRoleAttributes : strs;
  OutcomeErr : option error;
  ConflictValues : strs;
}.
#[export] Instance IdentityOutcome_eq_dec : EqDecision IdentityOutcome.
Proof. solve_decision. Defined.

(** [CompletionInput] *)
Record CompletionInput := {
  Plan : PlanResult;
  PreviousValues : strs;
  Outcomes : list IdentityOutcome;
  BlockReason : string;
  ClaimRecorded : bool;
}.

(** [Completion] *)
Record Completion := {
  DoneManagedAttributes : strs;
  Ready : bool;
  Reason : string;
  AdvanceLastSyncTime : bool;
  IdentitiesUpdated : nat;
  DoneErr : option error;
  DoneConflictValues : strs;
}.
#[export] Instance Completion_eq_dec : EqDecision Completion.
Proof. solve_decision. Defined.

(** ** Operations *)

(** [(o IdentityOutcome) StopsWrites]; [errors.Is] of a nil error is false. *)
Definition StopsWrites (o : IdentityOutcome) : bool :=
  bool_decide (Kind o = Conflicted) ||
  match OutcomeErr o with
  | Some e => errorsIs e Canceled || errorsIs e DeadlineExceeded
  | None => false
  end.

(** The body of the loop over the outcomes in [retirementPending]. *)
Definition clearHolder (retired : strs) (holders : gmap string strs) (o : IdentityOutcome)
    : gmap string strs :=
  match Kind o with
  | Deleted => delete (OutcomeIdentityID o) holders
  | Observed | Patched | Skipped =>
      let values := filter (λ v, contains (OutcomeRoleAttributes o) v = true) retired in
      if bool_decide (length values = 0) then delete (OutcomeIdentityID o) holders
      else <[OutcomeIdentityID o := sortedSet [values]]> holders
  | Failed | Conflicted => holders
  end.

(** [retirementPending] *)
Definition retirementPending (input : CompletionInput) : bool :=
  let retired := filter (λ v, contains (CurrentValues (Plan input)) v = false)
                        (PreviousValues input) in
  let holders := foldl (λ hs h,
      <[HolderIdentityID h :=
          sortedSet [default [] (hs !! HolderIdentityID h); HolderValues h]]> hs)
    (∅ : gmap string strs) (RetirementHolders (Plan input)) in
  bool_decide (0 < size (foldl (clearHolder retired) holders (Outcomes input))).

(** The loop over the outcomes in [Complete]: the flag [failed] and the fields
    of the result that the loop assigns. *)
Record progress := {
  pFailed : bool;
  pUpdated : nat;
  pErr : option error;
  pReason : string;
  pConflicts : strs;
}.

Definition countOutcome (st : progress) (o : IdentityOutcome) : progress :=
  match Kind o with
  | Patched => {| pFailed := pFailed st; pUpdated := S (pUpdated st); pErr := pErr st;
                  pReason := pReason st; pConflicts := pConflicts st |}
  | Failed => {| pFailed := true; pUpdated := pUpdated st;
                 pErr := match pErr st with None => OutcomeErr o | e => e end;
                 pReason := pReason st; pConflicts := pConflicts st |}
  | Conflicted => {| pFailed := pFailed st; pUpdated := pUpdated st; pErr := pErr st;
                     pReason := "Conflict";
                     pConflicts := sortedSet [pConflicts st; ConflictValues o] |}
  | _ => st
  end.

(** [Complete] *)
Definition Complete (input : CompletionInput) : Completion :=
  let conflicts := sortedSet [Conflicts (PlanOwnership (Plan input))] in
  if negb (ClaimRecorded input) then
    {| DoneManagedAttributes := sortedSet [PreviousValues input]; Ready := false;
       Reason := BlockReason input; AdvanceLastSyncTime := false; IdentitiesUpdated := 0;
       DoneErr := None; DoneConflictValues := conflicts |}
  else
    let st := foldl countOutcome
      {| pFailed := false; pUpdated := 0; pErr := None; pReason := BlockReason input;
         pConflicts := conflicts |} (Outcomes input) in
    let reason := if pFailed st then "ZitiError" else pReason st in
    let unfinished r :=
      {| DoneManagedAttributes := sortedSet [ManagedValues (Plan input)]; Ready := false;
         Reason := r; AdvanceLastSyncTime := false; IdentitiesUpdated := pUpdated st;
         DoneErr := pErr st; DoneConflictValues := pConflicts st |} in
    if negb (bool_decide (reason = "")) then unfinished reason
    else if retirementPending input then unfinished "CleanupPending"
    else {| DoneManagedAttributes := sortedSet [CurrentValues (Plan input)]; Ready := true;
            Reason := "Synced"; AdvanceLastSyncTime := true; IdentitiesUpdated := pUpdated st;
            DoneErr := pErr st; DoneConflictValues := pConflicts st |}.

(** ** The loop over the outcomes *)

Definition isKind (k : OutcomeKind) (o : IdentityOutcome) : bool := bool_decide (Kind o = k).

(** The error of the first failed outcome that carries one. *)
Fixpoint firstError (os : list IdentityOutcome) : option error :=
  match os with
  | [] => None
  | o :: os' =>
      match Kind o, OutcomeErr o with
      | Failed, Some e => Some e
      | _, _ => firstError os'
      end
  end.

Lemma count_fold os st :
  let st' := foldl countOutcome st os in
  pFailed st' = pFailed st || existsb (isKind Failed) os ∧
  pUpdated st' = pUpdated st + length (filter (λ o, Kind o = Patched) os) ∧
  pErr st' = match pErr st with Some e => Some e | None => firstError os end ∧
  pReason st' = if existsb (isKind Conflicted) os then "Conflict" else pReason st.
Proof.
  revert st. induction os as [|o os IH]; intros st.
  - cbn. rewrite orb_false_r. split_and!; try done. by destruct (pErr st).
  - cbn [foldl]. specialize (IH (countOutcome st o)) as (H1 & H2 & H3 & H4).
    cbv zeta in *. rewrite H1, H2, H3, H4.
    unfold countOutcome, isKind. cbn [existsb firstError]. rewrite filter_cons.
    destruct (Kind o) eqn:Hk; cbn; rewrite ?orb_true_r; split_and!; try done; try lia.
    all: try (by destruct (pErr st), (OutcomeErr o)).
    rewrite (bool_decide_true (Conflicted = Conflicted)) by done. cbn [orb]. by case_test.
Qed.

Lemma count_conflicts os st v :
  v ∈ pConflicts (foldl countOutcome st os) ↔ v ∈ pConflicts st ∨
     ∃ o, o ∈ os ∧ Kind o = Conflicted ∧ v ∈ ConflictValues o.
Proof.
  revert st. induction os as [|o os IH]; intros st; [set_solver|].
  cbn [foldl]. rewrite IH, exists_cons. unfold countOutcome.
  destruct (Kind o); cbn; rewrite ?elem_of_sortedSet2; naive_solver.
Qed.

(** ** Retirement *)

(** The outcome that decides the fate of an identity: the last one that
    observed or deleted it. *)
Definition clears (o : IdentityOutcome) : bool :=
  match Kind o with Failed | Conflicted => false | _ => true end.

Definition lastReading (id : string) (os : list IdentityOutcome) : option IdentityOutcome :=
  last (filter (λ o, clears o = true ∧ OutcomeIdentityID o = id) os).

(** The outcome shows the identity without retired values. *)
Definition showsCleared (retired : strs) (o : IdentityOutcome) : Prop :=
  Kind o = Deleted ∨ ∀ v, v ∈ retired → v ∉ OutcomeRoleAttributes o.

Lemma clearHolder_lookup retired hs o id :
  clearHolder retired hs o !! id = None ↔
  if decide (clears o = true ∧ OutcomeIdentityID o = id) then showsCleared retired o
  else hs !! id = None.
Proof.
  assert (∀ vs : strs, vs = filter (λ v, contains (OutcomeRoleAttributes o) v = true) retired →
    (length vs = 0 ↔ ∀ v, v ∈ retired → v ∉ OutcomeRoleAttributes o)) as Hf.
  { intros vs ->. split.
    - intros Hl%nil_length_inv v Hv Ho.
      assert (v ∈ filter (λ v, contains (OutcomeRoleAttributes o) v = true) retired) as H
        by (apply list_elem_of_filter; by rewrite contains_true).
      rewrite Hl in H. set_solver.
    - intros Hn. rewrite filter_none; [done|]. intros v Hv. rewrite contains_true. by apply Hn. }
  unfold clearHolder, showsCleared, clears.
  destruct (Kind o); cbv zeta.
  all: try (case_bool_decide as Hl; rewrite (Hf _ eq_refl) in Hl).
  all: destruct (decide (_ ∧ _)) as [[? <-]|Hne]; try done.
  all: rewrite ?lookup_delete_eq, ?lookup_insert_eq, ?lookup_delete_ne, ?lookup_insert_ne
    by tauto; try done; try tauto.
  all: split; [done|intros [?|?]; done].
Qed.

Lemma clear_fold_lookup retired os hs id :
  foldl (clearHolder retired) hs os !! id = None ↔
  match lastReading id os with
  | Some o => showsCleared retired o
  | None => hs !! id = None
  end.
Proof.
  unfold lastReading. induction os as [|o os IH] using rev_ind; [done|].
  rewrite foldl_app, filter_app, filter_cons, filter_nil. cbn [foldl].
  rewrite clearHolder_lookup. case_decide.
  - by rewrite last_snoc.
  - by rewrite app_nil_r.
Qed.

(** [retirementPending] is false exactly when every holder of a retired value
    was last read without one (or deleted), and nobody else was last read with
    one. *)
Definition retiredOf (input : CompletionInput) : strs :=
  filter (λ v, contains (CurrentValues (Plan input)) v = false) (PreviousValues input).

Lemma holders_dom (l : list RetirementHolder) (m : gmap string strs) id :
  foldl (λ hs h, <[HolderIdentityID h :=
      sortedSet [default [] (hs !! HolderIdentityID h); HolderValues h]]> hs) m l !! id = None ↔
  m !! id = None ∧ ∀ h, h ∈ l → HolderIdentityID h ≠ id.
Proof.
  revert m. induction l as [|h l IH]; intros m; cbn [foldl]; [set_solver|].
  rewrite IH, lookup_insert_None. set_solver.
Qed.

Lemma retirementPending_false input :
  retirementPending input = false ↔
  ∀ id, match lastReading id (Outcomes input) with
        | Some o => showsCleared (retiredOf input) o
        | None => ∀ h, h ∈ RetirementHolders (Plan input) → HolderIdentityID h ≠ id
        end.
Proof.
  unfold retirementPending. fold (retiredOf input).
  rewrite bool_decide_eq_false.
  set (m := foldl (clearHolder _) _ _).
  assert (¬ 0 < size m ↔ m = ∅) as ->
    by (rewrite <-map_size_empty_iff; lia).
  assert (m = ∅ ↔ ∀ id, m !! id = None) as ->.
  { split; [by intros -> ?|]. intros E. apply map_eq. intros id. by rewrite E. }
  apply forall_proper. intros id. unfold m. rewrite clear_fold_lookup.
  destruct (lastReading id _); [done|]. rewrite holders_dom. rewrite lookup_empty. tauto.
Qed.

Lemma firstError_none os : existsb (isKind Failed) os = false → firstError os = None.
Proof.
  induction os as [|o os IH]; [done|]. unfold isKind; cbn.
  destruct (Kind o); cbn; try done; exact IH.
Qed.

(** ** Properties *)

(** The row of the result table that an input selects. *)
Definition completionReason (input : CompletionInput) : string :=
  if negb (ClaimRecorded input) then BlockReason input
  else if existsb (isKind Failed) (Outcomes input) then "ZitiError"
  else if existsb (isKind Conflicted) (Outcomes input) then "Conflict"
  else if negb (bool_decide (BlockReason input = "")) then BlockReason input
  else if retirementPending input then "CleanupPending" else "Synced".

Lemma Complete_unfold input :
  Complete input =
  let done := ClaimRecorded input && negb (existsb (isKind Failed) (Outcomes input)) &&
    negb (existsb (isKind Conflicted) (Outcomes input)) && bool_decide (BlockReason input = "") &&
    negb (retirementPending input) in
  let st := foldl countOutcome
      {| pFailed := false; pUpdated := 0; pErr := None; pReason := BlockReason input;
         pConflicts := sortedSet [Conflicts (PlanOwnership (Plan input))] |} (Outcomes input) in
  {| DoneManagedAttributes :=
       sortedSet [if negb (ClaimRecorded input) then PreviousValues input
                  else if done then CurrentValues (Plan input) else ManagedValues (Plan input)];
     Ready := done; Reason := completionReason input; AdvanceLastSyncTime := done;
     IdentitiesUpdated := if ClaimRecorded input then pUpdated st else 0;
     DoneErr := if ClaimRecorded input then pErr st else None;
     DoneConflictValues := if ClaimRecorded input then pConflicts st
                           else sortedSet [Conflicts (PlanOwnership (Plan input))] |}.
Proof.
  unfold Complete, completionReason.
  destruct (ClaimRecorded input); cbn [negb andb]; [|done]. cbv zeta.
  set (st := foldl _ _ _).
  destruct (count_fold (Outcomes input)
    {| pFailed := false; pUpdated := 0; pErr := None; pReason := BlockReason input;
       pConflicts := sortedSet [Conflicts (PlanOwnership (Plan input))] |}) as (Hf & _ & _ & Hr).
  cbn in Hf, Hr. fold st in Hf, Hr. rewrite Hf, Hr.
  destruct (existsb (isKind Failed) _); cbn; [done|].
  destruct (existsb (isKind Conflicted) _); cbn; [done|].
  destruct (bool_decide (BlockReason input = "")); cbn; [|done].
  by destruct (retirementPending input).
Qed.

(** When a value may leave the claim. *)
Lemma Complete_release (input : CompletionInput) (v : string) :
  (∀ x, x ∈ PreviousValues input → x ∈ ManagedValues (Plan input)) →
  v ∈ PreviousValues input → v ∉ CurrentValues (Plan input) →
  v ∉ DoneManagedAttributes (Complete input) →
  Ready (Complete input) = true ∧ ClaimRecorded input = true ∧
  (∀ o, o ∈ Outcomes input → Kind o ≠ Failed ∧ Kind o ≠ Conflicted) ∧
  ∀ h, h ∈ RetirementHolders (Plan input) →
    ∃ o, lastReading (HolderIdentityID h) (Outcomes input) = Some o ∧
      (Kind o = Deleted ∨ v ∉ OutcomeRoleAttributes o).
Proof.
  intros Hsub Hv Hcur. rewrite Complete_unfold; cbv zeta; cbn [DoneManagedAttributes Ready].
  rewrite elem_of_sortedSet1. destruct (ClaimRecorded input); cbn [negb andb]; [|done].
  destruct (_ && _) eqn:Hdone; [intros _|by intros []; apply Hsub].
  repeat (apply andb_true_iff in Hdone as [Hdone ?]). reflect_bools.
  split_and!; [done..| |].
  - intros o Ho. split; intros Hk; rewrite <-not_true_iff_false, existsb_exists in *.
    + apply Hdone. exists o. rewrite <-list_elem_of_In. unfold isKind.
      by rewrite bool_decide_eq_true.
    + apply H1. exists o. rewrite <-list_elem_of_In. unfold isKind.
      by rewrite bool_decide_eq_true.
  - intros h Hh. rewrite retirementPending_false in H. specialize (H (HolderIdentityID h)).
    destruct (lastReading _ _) as [o|]; [|by destruct (H h)].
    exists o. split; [done|]. destruct H as [|H]; [by left|right]. apply H.
    apply list_elem_of_filter. by rewrite contains_false.
Qed.

(** C9. No claim is forgotten early.  A value of the previous claim that is no
    longer current disappears from the recorded claim only when the sync is
    ready: the claim had been recorded, no outcome failed or conflicted, and
    every identity of the snapshot that held a retired value was read during
    this run, after its last write, without that value (or found deleted). *)
Theorem Complete_keeps_claims (input : CompletionInput) (v : string) :
  (∀ x, x ∈ PreviousValues input → x ∈ ManagedValues (Plan input)) →
  v ∈ PreviousValues input → v ∉ CurrentValues (Plan input) →
  v ∉ DoneManagedAttributes (Complete input) →
  Ready (Complete input) = true ∧ ClaimRecorded input = true ∧
  (∀ o, o ∈ Outcomes input → Kind o ≠ Failed ∧ Kind o ≠ Conflicted) ∧
  ∀ h, h ∈ RetirementHolders (Plan input) →
    ∃ o, lastReading (HolderIdentityID h) (Outcomes input) = Some o ∧
      (Kind o = Deleted ∨ v ∉ OutcomeRoleAttributes o).
Proof. apply Complete_release. Qed.

(** The result table of a write phase: the recorded claim, the reason, the
    readiness and the first error of [Complete] for every combination of
    recorded claim, failed and conflicting outcomes, block reason and pending
    retirement; only a ready sync advances the sync time. *)
Theorem Complete_table (input : CompletionInput) :
  let c := Complete input in
  Reason c = completionReason input ∧
  Ready c = ClaimRecorded input && negb (existsb (isKind Failed) (Outcomes input)) &&
    negb (existsb (isKind Conflicted) (Outcomes input)) && bool_decide (BlockReason input = "") &&
    negb (retirementPending input) ∧
  AdvanceLastSyncTime c = Ready c ∧
  (Ready c = true → Reason c = "Synced" ∧ DoneErr c = None ∧
     DoneManagedAttributes c = sortedSet [CurrentValues (Plan input)]) ∧
  (Ready c = false → DoneManagedAttributes c =
     sortedSet [if ClaimRecorded input then ManagedValues (Plan input) else PreviousValues input]) ∧
  (ClaimRecorded input = true →
     IdentitiesUpdated c = length (filter (λ o, Kind o = Patched) (Outcomes input)) ∧
     DoneErr c = firstError (Outcomes input) ∧
     ∀ v, v ∈ DoneConflictValues c ↔ v ∈ Conflicts (PlanOwnership (Plan input)) ∨
       ∃ o, o ∈ Outcomes input ∧ Kind o = Conflicted ∧ v ∈ ConflictValues o).
Proof.
  cbv zeta. rewrite Complete_unfold. cbv zeta.
  cbn [DoneManagedAttributes Ready Reason AdvanceLastSyncTime IdentitiesUpdated DoneErr
    DoneConflictValues].
  set (st := foldl _ _ _).
  destruct (count_fold (Outcomes input)
    {| pFailed := false; pUpdated := 0; pErr := None; pReason := BlockReason input;
       pConflicts := sortedSet [Conflicts (PlanOwnership (Plan input))] |}) as (_ & Hu & He & _).
  cbn in Hu, He. fold st in Hu, He.
  split_and!; [done..| | |].
  - intros Hd. rewrite Hd. repeat (apply andb_true_iff in Hd as [Hd ?]). reflect_bools.
    unfold completionReason. rewrite Hd in *. cbn [negb]. rewrite He.
    assert (firstError (Outcomes input) = None) as ->.
    { by apply firstError_none. }
    rewrite H2, H1, H. by rewrite bool_decide_true.
  - intros Hd. rewrite Hd. by destruct (ClaimRecorded input).
  - intros Hc. rewrite Hc. split_and!; [done..|]. intros v. unfold st.
    rewrite count_conflicts. cbn. by rewrite elem_of_sortedSet1.
Qed.

(** The claim [gamma] is released once the identity that held it was patched. *)
Definition exRetiring : CompletionInput :=
  {| Plan := setHolders [{| HolderIdentityID := "i1"; HolderValues := ["gamma"] |}]
       {| CurrentValues := ["alpha"]; ManagedValues := ["alpha"; "gamma"];
          PlanOwnership := {| Owners := ∅; Conflicts := [] |}; Patches := [];
          RetirementHolders := []; UnmatchedMembers := []; MatchedIdentities := 1;
          MembersWithoutIdentity := 0; WouldRemoveAll := false |};
     PreviousValues := ["alpha"; "gamma"];
     Outcomes := [{| OutcomeIdentityID := "i1"; Kind := Patched;
                     OutcomeRoleAttributes := ["alpha"; "ops"]; OutcomeErr := None;
                     ConflictValues := [] |}];
     BlockReason := ""; ClaimRecorded := true |}.

Lemma Complete_keeps_claims_witness :
  "gamma" ∉ DoneManagedAttributes (Complete exRetiring) ∧ Ready (Complete exRetiring) = true.
Proof.
  assert ("gamma" ∉ DoneManagedAttributes (Complete exRetiring)) as Hn.
  { replace (DoneManagedAttributes (Complete exRetiring)) with ["alpha"] by (by vm_compute).
    by rewrite elem_of_cons, elem_of_nil; intros [|]. }
  split; [exact Hn|].
  apply (Complete_keeps_claims exRetiring "gamma"); [| | |exact Hn].
  - intros x Hx. exact Hx.
  - cbn. by right; left.
  - cbn. by rewrite elem_of_cons, elem_of_nil; intros [|].
Defined.
