(* ===== verification/Effects.v ===== *)
(** * Programs with effects

    The reconcilers and the management client are sequential programs that
    call their environment: the Kubernetes API, the OpenZiti client, Microsoft
    Graph, the clock.  A [prog] is such a program: a tree of calls, each with
    one continuation per possible answer, so nothing is assumed about the
    environment.  A nil dereference is a [Fault].

    [reaches p t] says that the calls and answers [t] can be observed while
    [p] runs, its completion included or not: every property of a reachable
    trace also holds when the process dies after [t].  [runs p t a] says that
    [p] completes with the trace [t] and the result [a].  [wp] computes what
    must hold for every call to satisfy a guard over the history and for the
    result to satisfy a postcondition; [wp_reaches] and [wp_runs] turn it into
    statements about traces.  [exec] and [eval] run a program against an
    environment with a state. *)

From S2P Require Import Prelude.

(** The ways a program can end without a result. *)
Inductive fault := NilDereference | OutOfFuel.

Section Prog.
Context {O : Type} {R : O → Type}.

Inductive prog (A : Type) : Type :=
  | Ret (a : A)
  | Fault (f : fault)
  | Vis (o : O) (k : R o → prog A).
#[global] Arguments Ret {A} a.
#[global] Arguments Fault {A} f.
#[global] Arguments Vis {A} o k.

(** One call and its answer. *)
Record event := Ev { ev_op : O; ev_resp : R ev_op }.

Definition call (o : O) : prog (R o) := Vis o Ret.

Fixpoint bind {A B} (p : prog A) (f : A → prog B) : prog B :=
  match p with
  | Ret a => f a
  | Fault e => Fault e
  | Vis o k => Vis o (λ r, bind (k r) f)
  end.

(** ** Traces *)

Fixpoint runs {A} (p : prog A) (t : list event) (a : A) : Prop :=
  match p with
  | Ret x => t = [] ∧ x = a
  | Fault _ => False
  | Vis o k => ∃ r t', t = Ev o r :: t' ∧ runs (k r) t' a
  end.

Fixpoint reaches {A} (p : prog A) (t : list event) {struct t} : Prop :=
  match t with
  | [] => True
  | e :: t' =>
      match p with
      | Vis o k => ∃ r, e = Ev o r ∧ reaches (k r) t'
      | _ => False
      end
  end.

(** No run ends in a nil dereference. *)
Fixpoint no_panic {A} (p : prog A) : Prop :=
  match p with
  | Ret _ => True
  | Fault f => f ≠ NilDereference
  | Vis o k => ∀ r, no_panic (k r)
  end.

(** ** Guards and postconditions *)

Fixpoint wp {A} (Q : list event → O → Prop) (p : prog A) (Φ : A → list event → Prop)
    (h : list event) : Prop :=
  match p with
  | Ret a => Φ a h
  | Fault _ => True
  | Vis o k => Q h o ∧ ∀ r, wp Q (k r) Φ (h ++ [Ev o r])
  end.

(** Every call the program can make satisfies [P]. *)
Fixpoint only {A} (P : O → Prop) (p : prog A) : Prop :=
  match p with
  | Vis o k => P o ∧ ∀ r, only P (k r)
  | _ => True
  end.

(** The program ends without a fault whenever its calls are answered as
    [allowed]. *)
Fixpoint returns {A} (allowed : ∀ o, R o → Prop) (p : prog A) : Prop :=
  match p with
  | Ret _ => True
  | Fault _ => False
  | Vis o k => ∀ r, allowed o r → returns allowed (k r)
  end.

(** ** Execution against an environment with state [W] *)

Fixpoint exec {A W} (env : W → ∀ o, W * R o) (w : W) (p : prog A)
    : W * list event * option A :=
  match p with
  | Ret a => (w, [], Some a)
  | Fault _ => (w, [], None)
  | Vis o k =>
      let '(w1, r) := env w o in
      let '(w2, t, a) := exec env w1 (k r) in
      (w2, Ev o r :: t, a)
  end.

(** The same without the trace. *)
Fixpoint eval {A W} (env : W → ∀ o, W * R o) (w : W) (p : prog A) : W * option A :=
  match p with
  | Ret a => (w, Some a)
  | Fault _ => (w, None)
  | Vis o k => eval env (env w o).1 (k (env w o).2)
  end.

(** The result when every call is answered by a function; [None] when the
    program faults. *)
Fixpoint answer {A} (env : ∀ o, R o) (p : prog A) : option A :=
  match p with
  | Ret a => Some a
  | Fault _ => None
  | Vis o k => answer env (k (env o))
  end.

(** ** Lemmas *)

Lemma answer_bind {A B} env (p : prog A) (f : A → prog B) :
  answer env (bind p f) = match answer env p with Some a => answer env (f a) | None => None end.
Proof. induction p as [a|e|o k IH]; cbn; [done..|]. apply IH. Qed.

Lemma eval_exec {A W} (env : W → ∀ o, W * R o) w (p : prog A) :
  eval env w p = ((exec env w p).1.1, (exec env w p).2).
Proof.
  revert w. induction p as [a|e|o k IH]; intros w; cbn; [done..|]. rewrite IH.
  destruct (env w o) as [w1 r]. cbn. by destruct (exec env w1 (k r)) as [[w2 t] a].
Qed.

Lemma eval_bind {A B W} (env : W → ∀ o, W * R o) w (p : prog A) (f : A → prog B) w1 a :
  eval env w p = (w1, Some a) → eval env w (bind p f) = eval env w1 (f a).
Proof. revert w. induction p as [x|e|o k IH]; intros w; cbn; [by intros [= <- <-]|done|apply IH]. Qed.

Lemma eval_call {A W} (env : W → ∀ o, W * R o) w o (f : R o → prog A) w1 r :
  env w o = (w1, r) → eval env w (bind (call o) f) = eval env w1 (f r).
Proof. intros E. cbn. by rewrite E. Qed.

Lemma eval_one {W} (env : W → ∀ o, W * R o) w o w1 r : env w o = (w1, r) → eval env w (call o) = (w1, Some r).
Proof. intros E. cbn. by rewrite E. Qed.

Lemma answer_runs {A} env (p : prog A) a : answer env p = Some a → ∃ t, runs p t a.
Proof.
  induction p as [x|e|o k IH]; cbn; [intros [= ->]; by exists []|done|].
  intros [t Ht]%IH. exists (Ev o (env o) :: t). by exists (env o), t.
Qed.

Lemma runs_bind {A B} (p : prog A) (f : A → prog B) t b :
  runs (bind p f) t b ↔ ∃ t1 t2 a, t = t1 ++ t2 ∧ runs p t1 a ∧ runs (f a) t2 b.
Proof.
  revert t. induction p as [a|e|o k IH]; intros t; cbn.
  - split.
    + intros H. by exists [], t, a.
    + intros (t1 & t2 & a' & -> & [-> ->] & H). done.
  - split; [done|]. by intros (?&?&?&?&?&?).
  - split.
    + intros (r & t' & -> & H). apply IH in H as (t1 & t2 & a & -> & H1 & H2).
      exists (Ev o r :: t1), t2, a. split_and!; [done|by exists r, t1|done].
    + intros (t1 & t2 & a & -> & (r & t1' & -> & H1) & H2).
      exists r, (t1' ++ t2). split; [done|]. apply IH. by exists t1', t2, a.
Qed.

Lemma returns_bind {A B} allowed (p : prog A) (f : A → prog B) :
  returns allowed p → (∀ t a, runs p t a → Forall (λ e, allowed (ev_op e) (ev_resp e)) t → returns allowed (f a)) →
  returns allowed (bind p f).
Proof.
  induction p as [a|e|o k IH]; cbn; intros Hp Hf; [by apply (Hf [] a)|done|].
  intros r Hr. apply IH; [by apply Hp|]. intros t a Ht Ha. apply (Hf (Ev o r :: t)); [by exists r, t|].
  by constructor.
Qed.

Lemma runs_reaches {A} (p : prog A) t a : runs p t a → reaches p t.
Proof.
  revert t. induction p as [x|e|o k IH]; intros t; cbn.
  - by intros [-> _].
  - done.
  - intros (r & t' & -> & H). exists r. split; [done|]. by apply IH.
Qed.

Lemma reaches_prefix {A} (p : prog A) t1 t2 : reaches p (t1 ++ t2) → reaches p t1.
Proof.
  revert p. induction t1 as [|e t1 IH]; intros p; [done|]. cbn.
  destruct p; [done..|]. intros (r & -> & H). exists r. eauto.
Qed.

Lemma no_panic_bind {A B} (p : prog A) (f : A → prog B) :
  no_panic p → (∀ t a, runs p t a → no_panic (f a)) → no_panic (bind p f).
Proof.
  induction p as [a|e|o k IH]; cbn; intros Hp Hf; [by apply (Hf [])|intros; done|].
  intros r. apply IH; [done|]. intros t a H. apply (Hf (Ev o r :: t)). by exists r, t.
Qed.

Lemma wp_bind {A B} Q (p : prog A) (f : A → prog B) Φ h :
  wp Q (bind p f) Φ h ↔ wp Q p (λ a, wp Q (f a) Φ) h.
Proof.
  revert h. induction p as [a|e|o k IH]; intros h; cbn; [done..|].
  by setoid_rewrite IH.
Qed.

Lemma wp_mono {A} (Q Q' : list event → O → Prop) (p : prog A) (Φ Φ' : A → list event → Prop) h :
  (∀ h o, Q h o → Q' h o) → (∀ a h, Φ a h → Φ' a h) → wp Q p Φ h → wp Q' p Φ' h.
Proof.
  intros HQ HΦ. revert h. induction p as [a|e|o k IH]; intros h; cbn; [auto|done|].
  intros [H1 H2]. split; [auto|]. intros r. by apply IH.
Qed.

Lemma wp_conj {A} (Q1 Q2 : list event → O → Prop) (p : prog A) Φ1 Φ2 h :
  wp Q1 p Φ1 h → wp Q2 p Φ2 h →
  wp (λ h o, Q1 h o ∧ Q2 h o) p (λ a h, Φ1 a h ∧ Φ2 a h) h.
Proof.
  revert h. induction p as [a|e|o k IH]; intros h; cbn; [done..|].
  intros [H1 H2] [H3 H4]. split; [done|]. intros r. by apply IH.
Qed.

(** The history only grows, and by a run of the program. *)
Lemma wp_runs_history {A} Q (p : prog A) Φ h :
  wp Q p Φ h → wp Q p (λ a h', Φ a h' ∧ ∃ t, h' = h ++ t ∧ runs p t a) h.
Proof.
  revert h. induction p as [a|e|o k IH]; intros h; cbn.
  - intros H. split; [done|]. exists []. by rewrite app_nil_r.
  - done.
  - intros [HQ Hk]. split; [done|]. intros r. specialize (IH r _ (Hk r)).
    revert IH. apply wp_mono; [done|]. intros a h' (H & t & -> & Ht). split; [done|].
    exists (Ev o r :: t). split; [by rewrite <-app_assoc|]. by exists r, t.
Qed.

Lemma wp_runs {A} Q (p : prog A) Φ h t a : wp Q p Φ h → runs p t a → Φ a (h ++ t).
Proof.
  revert h t. induction p as [x|e|o k IH]; intros h t; cbn; [|done|].
  - by intros H [-> ->]; rewrite app_nil_r.
  - intros [_ H] (r & t' & -> & Hr). rewrite (cons_middle (Ev o r) h t'), app_assoc. eauto.
Qed.

Lemma wp_reaches {A} Q (p : prog A) Φ h t1 e t2 :
  wp Q p Φ h → reaches p (t1 ++ e :: t2) → Q (h ++ t1) (ev_op e).
Proof.
  revert h t1. induction p as [x|f|o k IH]; intros h t1 Hwp Hr.
  1, 2: by destruct t1.
  destruct Hwp as [HQ Hk]. destruct t1 as [|e1 t1]; cbn in Hr; destruct Hr as (r & -> & Hr).
  - by rewrite app_nil_r.
  - rewrite (cons_middle (Ev o r) h t1), app_assoc. by eapply IH.
Qed.

Lemma only_bind {A B} P (p : prog A) (f : A → prog B) :
  only P p → (∀ a, only P (f a)) → only P (bind p f).
Proof. induction p as [a|e|o k IH]; cbn; [auto|done|]. intros [? ?] ?. split; [done|auto]. Qed.

Lemma only_mono {A} (P P' : O → Prop) (p : prog A) :
  (∀ o, P o → P' o) → only P p → only P' p.
Proof. intros HP. induction p as [a|e|o k IH]; cbn; [done..|]. intros [? ?]. split; auto. Qed.

Lemma only_runs {A} P (p : prog A) t a : only P p → runs p t a → Forall (λ e, P (ev_op e)) t.
Proof.
  revert t. induction p as [x|e|o k IH]; cbn; intros t; [by intros _ [-> _]|done|].
  intros [? ?] (r & t' & -> & Hr). constructor; [done|]. by eapply IH.
Qed.

(** The history before a call of a complete run, and the call. *)
Lemma reaches_at {A} (p : prog A) t a n e :
  runs p t a → t !! n = Some e → reaches p (take n t ++ [e]).
Proof.
  intros Hr%runs_reaches He. rewrite <-(take_drop_middle _ _ _ He), cons_middle, app_assoc in Hr.
  by apply reaches_prefix in Hr.
Qed.

(** A program whose calls are all innocuous only has to establish the
    postcondition for its complete runs. *)
Lemma wp_only {A} P Q (p : prog A) Φ h :
  only P p → (∀ t o, P o → Q (h ++ t) o) → (∀ t a, runs p t a → Φ a (h ++ t)) → wp Q p Φ h.
Proof.
  revert h. induction p as [a|e|o k IH]; cbn; intros h Hp HQ HΦ.
  - specialize (HΦ [] a). rewrite app_nil_r in HΦ. auto.
  - done.
  - destruct Hp as [Ho Hk]. split; [specialize (HQ [] o Ho); by rewrite app_nil_r in HQ|].
    intros r. apply IH; [done| |].
    + intros t o' Ho'. rewrite <-app_assoc. auto.
    + intros t a Hr. rewrite <-app_assoc. apply HΦ. by exists r, t.
Qed.

Lemma exec_runs {A W} (env : W → ∀ o, W * R o) w (p : prog A) w' t a :
  exec env w p = (w', t, Some a) → runs p t a.
Proof.
  revert w w' t. induction p as [x|e|o k IH]; intros w w' t; cbn.
  - by intros [= _ <- <-].
  - done.
  - destruct (env w o) as [w1 r]. destruct (exec env w1 (k r)) as [[w2 t'] a'] eqn:E.
    intros [= _ <- ->]. exists r, t'. split; [done|]. by eapply IH.
Qed.

End Prog.

Arguments prog : clear implicits.
Arguments event : clear implicits.
Arguments Ev {O R}.
Arguments ev_op {O R}.
Arguments ev_resp {O R}.

(** [x ← p; q] runs [p], then [q] with its result. *)
Notation "'let!' x ':=' p 'in' q" := (bind p (λ x, q))
  (at level 10, x pattern, p at level 100, q at level 200) : mz_scope.
