(* ===== verification/ApiTypes.v ===== *)
(** * The custom resources

    The types of [api/v1alpha1] and the part of the Kubernetes object metadata
    the operator reads and writes.  A nil slice and an empty slice are both
    [[]]: every place that compares statuses does so semantically, which
    identifies them.  Times are nanoseconds; [DeletionTimestamp] is [None] when
    [IsZero] holds. *)

From S2P Require Import Prelude GoSlices.

(** [types.NamespacedName], also [client.ObjectKey] *)
Record NamespacedName := { KeyNamespace : string; KeyName : string }.
#[export] Instance NamespacedName_eq_dec : EqDecision NamespacedName.
Proof. solve_decision. Defined.

(** [metav1.OwnerReference]: the fields that decide control. *)
Record OwnerReference := { OwnerUID : string; OwnerIsController : bool }.
#[export] Instance OwnerReference_eq_dec : EqDecision OwnerReference.
Proof. solve_decision. Defined.

(** [metav1.ObjectMeta] *)
Record ObjectMeta := {
  MetaNamespace : string;
  MetaName : string;
  UID : string;
  ResourceVersion : string;
  Generation : Z;
  MetaCreationTimestamp : Z;
  DeletionTimestamp : option Z;
  Finalizers : strs;
  OwnerReferences : list OwnerReference;
}.
#[export] Instance ObjectMeta_eq_dec : EqDecision ObjectMeta.
Proof. solve_decision. Defined.

Definition SetFinalizers (fs : strs) (m : ObjectMeta) : ObjectMeta :=
  {| MetaNamespace := MetaNamespace m; MetaName := MetaName m; UID := UID m;
     ResourceVersion := ResourceVersion m; Generation := Generation m;
     MetaCreationTimestamp := MetaCreationTimestamp m; DeletionTimestamp := DeletionTimestamp m;
     Finalizers := fs; OwnerReferences := OwnerReferences m |}.

Definition setResourceVersion (v : string) (m : ObjectMeta) : ObjectMeta :=
  {| MetaNamespace := MetaNamespace m; MetaName := MetaName m; UID := UID m;
     ResourceVersion := v; Generation := Generation m;
     MetaCreationTimestamp := MetaCreationTimestamp m; DeletionTimestamp := DeletionTimestamp m;
     Finalizers := Finalizers m; OwnerReferences := OwnerReferences m |}.

(** [client.ObjectKeyFromObject] *)
Definition ObjectKeyFromObject (m : ObjectMeta) : NamespacedName :=
  {| KeyNamespace := MetaNamespace m; KeyName := MetaName m |}.

(** ** Status *)

(** [metav1.Condition]; the status is [True], [False] or [Unknown]. *)
Record Condition := {
  CondType : string;
  CondStatus : string;
  CondReason : string;
  CondMessage : string;
  CondObservedGeneration : Z;
  CondLastTransitionTime : Z;
}.
#[export] Instance Condition_eq_dec : EqDecision Condition.
Proof. solve_decision. Defined.

Definition ConditionTypeReady : string := "Ready".
Definition ConditionTypeReconciling : string := "Reconciling".
Definition ConditionTypeDegraded : string := "Degraded".
Definition ConditionTrue : string := "True".
Definition ConditionFalse : string := "False".

(** [CommonStatus] *)
Record CommonStatus := {
  StatusID : string;
  Conditions : list Condition;
  ObservedGeneration : Z;
  LastError : string;
}.
#[export] Instance CommonStatus_eq_dec : EqDecision CommonStatus.
Proof. solve_decision. Defined.

(** [(s *CommonStatus) SetConditions] for a non-nil receiver. *)
Definition SetConditions (cs : list Condition) (s : CommonStatus) : CommonStatus :=
  {| StatusID := StatusID s; Conditions := cs;
     ObservedGeneration := ObservedGeneration s; LastError := LastError s |}.
Definition setStatusID (id : string) (s : CommonStatus) : CommonStatus :=
  {| StatusID := id; Conditions := Conditions s;
     ObservedGeneration := ObservedGeneration s; LastError := LastError s |}.
Definition setObserved (generation : Z) (err : string) (s : CommonStatus) : CommonStatus :=
  {| StatusID := StatusID s; Conditions := Conditions s;
     ObservedGeneration := generation; LastError := err |}.

(** ** ZitiEntraRoleSync *)

Record ZitiEntraRoleSyncSpec := {
  TenantID : string;
  AppID : string;
  CredentialsSecretName : string;
  SpecUserProperty : string;
  Interval : string;
}.
#[export] Instance ZitiEntraRoleSyncSpec_eq_dec : EqDecision ZitiEntraRoleSyncSpec.
Proof. solve_decision. Defined.

Record EntraUnmatchedMember := {
  MemberID : string;
  MemberDisplayName : string;
  MemberExternalID : string;
  MemberReason : string;
}.
#[export] Instance EntraUnmatchedMember_eq_dec : EqDecision EntraUnmatchedMember.
Proof. solve_decision. Defined.

Record ZitiEntraRoleSyncStatus := {
  SyncCommon : CommonStatus;
  LastSyncTime : option Z;
  StatusManagedAttributes : strs;
  StatusMatchedIdentities : nat;
  StatusIdentitiesUpdated : nat;
  StatusMembersWithoutIdentity : nat;
  StatusUnmatchedMembers : list EntraUnmatchedMember;
}.
#[export] Instance ZitiEntraRoleSyncStatus_eq_dec : EqDecision ZitiEntraRoleSyncStatus.
Proof. solve_decision. Defined.

Record ZitiEntraRoleSync := {
  SyncMeta : ObjectMeta;
  SyncSpec : ZitiEntraRoleSyncSpec;
  SyncStatus : ZitiEntraRoleSyncStatus;
}.
#[export] Instance ZitiEntraRoleSync_eq_dec : EqDecision ZitiEntraRoleSync.
Proof. solve_decision. Defined.

(** ** ZitiIdentity *)

Record EnrollmentSpec := { CreateJWTSecret : bool; SpecJWTSecretName : string }.
#[export] Instance EnrollmentSpec_eq_dec : EqDecision EnrollmentSpec.
Proof. solve_decision. Defined.

Record ZitiIdentitySpec := {
  IdentitySpecName : string;
  IdentitySpecType : string;
  IdentitySpecRoleAttributes : strs;
  Enrollment : EnrollmentSpec;
}.
#[export] Instance ZitiIdentitySpec_eq_dec : EqDecision ZitiIdentitySpec.
Proof. solve_decision. Defined.

Record ZitiIdentityStatus := { IdentityCommon : CommonStatus; StatusJWTSecretName : string }.
#[export] Instance ZitiIdentityStatus_eq_dec : EqDecision ZitiIdentityStatus.
Proof. solve_decision. Defined.

Record ZitiIdentity := {
  IdentityMeta : ObjectMeta;
  IdentitySpec : ZitiIdentitySpec;
  IdentityStatus : ZitiIdentityStatus;
}.
#[export] Instance ZitiIdentity_eq_dec : EqDecision ZitiIdentity.
Proof. solve_decision. Defined.

(** ** ZitiService; the ports are [int32] values. *)

Record PortRange := { Low : Z; High : Z }.
#[export] Instance PortRange_eq_dec : EqDecision PortRange.
Proof. solve_decision. Defined.

Record InterceptConfigSpec := {
  Protocols : strs;
  Addresses : strs;
  PortRanges : list PortRange;
}.
#[export] Instance InterceptConfigSpec_eq_dec : EqDecision InterceptConfigSpec.
Proof. solve_decision. Defined.

Record HostConfigSpec := { Protocol : string; Address : string; Port : Z }.
#[export] Instance HostConfigSpec_eq_dec : EqDecision HostConfigSpec.
Proof. solve_decision. Defined.

Record ServiceRouterSpec := {
  RouterName : string;
  AdditionalAllowedEdgeRouterNames : strs;
}.
#[export] Instance ServiceRouterSpec_eq_dec : EqDecision ServiceRouterSpec.
Proof. solve_decision. Defined.

(** [Spec.Configs] is flattened into its two documents. *)
Record ZitiServiceSpec := {
  ServiceSpecName : string;
  ServiceSpecRoleAttributes : strs;
  Router : option ServiceRouterSpec;
  Intercept : InterceptConfigSpec;
  Host : HostConfigSpec;
}.
#[export] Instance ZitiServiceSpec_eq_dec : EqDecision ZitiServiceSpec.
Proof. solve_decision. Defined.

Record ZitiServiceStatus := {
  ServiceCommon : CommonStatus;
  InterceptConfigID : string;
  HostConfigID : string;
  BindPolicyID : string;
  ServiceEdgeRouterPolicyID : string;
}.
#[export] Instance ZitiServiceStatus_eq_dec : EqDecision ZitiServiceStatus.
Proof. solve_decision. Defined.

Record ZitiService := {
  ServiceMeta : ObjectMeta;
  ServiceSpec : ZitiServiceSpec;
  ServiceStatus : ZitiServiceStatus;
}.
#[export] Instance ZitiService_eq_dec : EqDecision ZitiService.
Proof. solve_decision. Defined.

(** ** ZitiAccessPolicy *)

Record SelectorSpec := { MatchNames : strs; MatchRoleAttributes : strs }.
#[export] Instance SelectorSpec_eq_dec : EqDecision SelectorSpec.
Proof. solve_decision. Defined.

Definition AccessPolicyTypeDial : string := "Dial".
Definition AccessPolicyTypeBind : string := "Bind".

Record ZitiAccessPolicySpec := {
  PolicySpecType : string;
  IdentitySelector : SelectorSpec;
  ServiceSelector : SelectorSpec;
}.
#[export] Instance ZitiAccessPolicySpec_eq_dec : EqDecision ZitiAccessPolicySpec.
Proof. solve_decision. Defined.

(** The counts are [int32] values. *)
Record ZitiAccessPolicyStatus := {
  PolicyCommon : CommonStatus;
  ResolvedIdentityCount : Z;
  ResolvedServiceCount : Z;
}.
#[export] Instance ZitiAccessPolicyStatus_eq_dec : EqDecision ZitiAccessPolicyStatus.
Proof. solve_decision. Defined.

Record ZitiAccessPolicy := {
  PolicyMeta : ObjectMeta;
  PolicySpec : ZitiAccessPolicySpec;
  PolicyStatus : ZitiAccessPolicyStatus;
}.
#[export] Instance ZitiAccessPolicy_eq_dec : EqDecision ZitiAccessPolicy.
Proof. solve_decision. Defined.

(** ** Secrets: [Data] as read, [StringData] as created. *)

Record Secret := {
  SecretMeta : ObjectMeta;
  SecretType : string;
  Data : gmap string string;
  StringData : gmap string string;
}.
#[export] Instance Secret_eq_dec : EqDecision Secret.
Proof. solve_decision. Defined.

(** ** Object kinds and what the controllers share between them *)

Inductive kind := KRoleSync | KIdentity | KService | KAccessPolicy | KSecret.
#[export] Instance kind_eq_dec : EqDecision kind.
Proof. solve_decision. Defined.

Definition obj (k : kind) : Type :=
  match k with
  | KRoleSync => ZitiEntraRoleSync
  | KIdentity => ZitiIdentity
  | KService => ZitiService
  | KAccessPolicy => ZitiAccessPolicy
  | KSecret => Secret
  end.

Definition status (k : kind) : Type :=
  match k with
  | KRoleSync => ZitiEntraRoleSyncStatus
  | KIdentity => ZitiIdentityStatus
  | KService => ZitiServiceStatus
  | KAccessPolicy => ZitiAccessPolicyStatus
  | KSecret => unit
  end.

(** The accessors through which [reconcile_helpers.go] and the [markReady] and
    [markFailed] methods of the three finalizer-driven controllers reach an
    object, and their laws. *)
Class StatusResource (k : kind) := {
  meta : obj k → ObjectMeta;
  withMeta : ObjectMeta → obj k → obj k;
  common : obj k → CommonStatus;
  withCommon : CommonStatus → obj k → obj k;
  statusOf : obj k → status k;
  status_eq_dec :: EqDecision (status k);
  meta_withMeta m o : meta (withMeta m o) = m;
  common_withMeta m o : common (withMeta m o) = common o;
  meta_withCommon c o : meta (withCommon c o) = meta o;
  common_withCommon c o : common (withCommon c o) = c;
  withCommon_withCommon c c' o : withCommon c (withCommon c' o) = withCommon c o;
  common_statusOf o o' : statusOf o = statusOf o' → common o = common o';
  statusOf_withMeta m o : statusOf (withMeta m o) = statusOf o;
}.

#[export] Program Instance StatusResource_RoleSync : StatusResource KRoleSync := {|
  meta := SyncMeta;
  withMeta m o := {| SyncMeta := m; SyncSpec := SyncSpec o; SyncStatus := SyncStatus o |};
  common o := SyncCommon (SyncStatus o);
  withCommon c o := {| SyncMeta := SyncMeta o; SyncSpec := SyncSpec o; SyncStatus :=
    {| SyncCommon := c; LastSyncTime := LastSyncTime (SyncStatus o);
       StatusManagedAttributes := StatusManagedAttributes (SyncStatus o);
       StatusMatchedIdentities := StatusMatchedIdentities (SyncStatus o);
       StatusIdentitiesUpdated := StatusIdentitiesUpdated (SyncStatus o);
       StatusMembersWithoutIdentity := StatusMembersWithoutIdentity (SyncStatus o);
       StatusUnmatchedMembers := StatusUnmatchedMembers (SyncStatus o) |} |};
  statusOf := SyncStatus; status_eq_dec := ZitiEntraRoleSyncStatus_eq_dec |}.
Solve All Obligations with by cbn; intros; congruence.

#[export] Program Instance StatusResource_Identity : StatusResource KIdentity := {|
  meta := IdentityMeta;
  withMeta m o := {| IdentityMeta := m; IdentitySpec := IdentitySpec o;
                     IdentityStatus := IdentityStatus o |};
  common o := IdentityCommon (IdentityStatus o);
  withCommon c o := {| IdentityMeta := IdentityMeta o; IdentitySpec := IdentitySpec o;
    IdentityStatus := {| IdentityCommon := c;
                         StatusJWTSecretName := StatusJWTSecretName (IdentityStatus o) |} |};
  statusOf := IdentityStatus; status_eq_dec := ZitiIdentityStatus_eq_dec |}.
Solve All Obligations with by cbn; intros; congruence.

#[export] Program Instance StatusResource_Service : StatusResource KService := {|
  meta := ServiceMeta;
  withMeta m o := {| ServiceMeta := m; ServiceSpec := ServiceSpec o;
                     ServiceStatus := ServiceStatus o |};
  common o := ServiceCommon (ServiceStatus o);
  withCommon c o := {| ServiceMeta := ServiceMeta o; ServiceSpec := ServiceSpec o;
    ServiceStatus := {| ServiceCommon := c;
      InterceptConfigID := InterceptConfigID (ServiceStatus o);
      HostConfigID := HostConfigID (ServiceStatus o);
      BindPolicyID := BindPolicyID (ServiceStatus o);
      ServiceEdgeRouterPolicyID := ServiceEdgeRouterPolicyID (ServiceStatus o) |} |};
  statusOf := ServiceStatus; status_eq_dec := ZitiServiceStatus_eq_dec |}.
Solve All Obligations with by cbn; intros; congruence.

#[export] Program Instance StatusResource_AccessPolicy : StatusResource KAccessPolicy := {|
  meta := PolicyMeta;
  withMeta m o := {| PolicyMeta := m; PolicySpec := PolicySpec o; PolicyStatus := PolicyStatus o |};
  common o := PolicyCommon (PolicyStatus o);
  withCommon c o := {| PolicyMeta := PolicyMeta o; PolicySpec := PolicySpec o;
    PolicyStatus := {| PolicyCommon := c;
      ResolvedIdentityCount := ResolvedIdentityCount (PolicyStatus o);
      ResolvedServiceCount := ResolvedServiceCount (PolicyStatus o) |} |};
  statusOf := PolicyStatus; status_eq_dec := ZitiAccessPolicyStatus_eq_dec |}.
Solve All Obligations with by cbn; intros; congruence.
