(* ===== verification/World.v ===== *)
(** * The environment of the controllers

    The calls a reconciler makes, each with the type of its answer: the
    Kubernetes client (cached) and its uncached [APIReader], the methods of the
    [openziti.Client] interface ([internal/openziti/client/client.go]), the
    methods of the [entra.Directory] interface
    ([internal/entra/directory.go]), the context's error, the clock and the
    event recorder.  A Go result [( *T, error )] is an error, or a pointer that
    may be nil: [result (option T)]. *)

From S2P Require Import Prelude GoSlices Errors Entra ZitiTypes ApiTypes.
From S2P Require Export Effects.

(** [client.Client] reads through a cache, [APIReader] does not. *)
Inductive reader := Cached | APIReader.
#[export] Instance reader_eq_dec : EqDecision reader.
Proof. solve_decision. Defined.

(** What [DirectoryFactory] builds a directory from. *)
Record directory := { DirTenantID : string; DirClientID : string; DirClientSecret : string }.

(** [openziti.Client] *)
Inductive zitiOp :=
  | OpGetIdentity (id : string)
  | OpFindIdentityByName (name : string)
  | OpListIdentities
  | OpCreateIdentity (identity : Identity)
  | OpUpdateIdentity (identity : Identity)
  | OpPatchIdentityRoleAttributes (id : string) (attrs : strs)
  | OpDeleteIdentity (id : string)
  | OpGetEnrollmentJWT (id : string)
  | OpGetService (id : string)
  | OpFindServiceByName (name : string)
  | OpCreateService (service : Service)
  | OpUpdateService (service : Service)
  | OpDeleteService (id : string)
  | OpGetConfig (id : string)
  | OpCreateConfig (cfg : ServiceConfig)
  | OpUpdateConfig (cfg : ServiceConfig)
  | OpDeleteConfig (id : string)
  | OpFindEdgeRouterByName (name : string)
  | OpGetAccessPolicy (id : string)
  | OpFindAccessPolicyByName (name : string)
  | OpCreateAccessPolicy (policy : AccessPolicy)
  | OpUpdateAccessPolicy (policy : AccessPolicy)
  | OpDeleteAccessPolicy (id : string)
  | OpGetServiceEdgeRouterPolicy (id : string)
  | OpFindServiceEdgeRouterPolicyByName (name : string)
  | OpCreateServiceEdgeRouterPolicy (policy : ServiceEdgeRouterPolicy)
  | OpUpdateServiceEdgeRouterPolicy (policy : ServiceEdgeRouterPolicy)
  | OpDeleteServiceEdgeRouterPolicy (id : string).

Definition zitiResp (o : zitiOp) : Type :=
  match o with
  | OpGetIdentity _ | OpFindIdentityByName _ | OpCreateIdentity _ | OpUpdateIdentity _ =>
      result (option Identity)
  | OpListIdentities => result (list Identity)
  | OpGetEnrollmentJWT _ => result string
  | OpGetService _ | OpFindServiceByName _ | OpCreateService _ | OpUpdateService _ =>
      result (option Service)
  | OpGetConfig _ | OpCreateConfig _ | OpUpdateConfig _ => result (option ServiceConfig)
  | OpFindEdgeRouterByName _ => result (option EdgeRouter)
  | OpGetAccessPolicy _ | OpFindAccessPolicyByName _ | OpCreateAccessPolicy _
  | OpUpdateAccessPolicy _ => result (option AccessPolicy)
  | OpGetServiceEdgeRouterPolicy _ | OpFindServiceEdgeRouterPolicyByName _
  | OpCreateServiceEdgeRouterPolicy _ | OpUpdateServiceEdgeRouterPolicy _ =>
      result (option ServiceEdgeRouterPolicy)
  | OpPatchIdentityRoleAttributes _ _ | OpDeleteIdentity _ | OpDeleteService _ | OpDeleteConfig _
  | OpDeleteAccessPolicy _ | OpDeleteServiceEdgeRouterPolicy _ => result unit
  end.

(** [entra.Directory] *)
Inductive dirOp :=
  | OpGetServicePrincipal (appID : string)
  | OpListAppRoleAssignedTo (servicePrincipalID : string)
  | OpListGroupUsers (groupID : string).

Definition dirResp (o : dirOp) : Type :=
  match o with
  | OpGetServicePrincipal _ => result (option ServicePrincipal)
  | OpListAppRoleAssignedTo _ => result (list AppRoleAssignment)
  | OpListGroupUsers _ => result (list User)
  end.

(** Updates and creations fill the object that is passed with the server's
    answer: the answer is the object afterwards. *)
Inductive op :=
  | Get (r : reader) (k : kind) (key : NamespacedName)
  | List (r : reader) (k : kind) (namespace : option string)
  | Update (k : kind) (o : obj k)
  | StatusUpdate (k : kind) (o : obj k)
  | Create (k : kind) (o : obj k)
  | Delete (k : kind) (o : obj k)
  | Ziti (o : zitiOp)
  | Dir (d : directory) (o : dirOp)
  | CtxErr
  | Now
  | Event (about : NamespacedName) (eventType reason message : string).

Definition resp (o : op) : Type :=
  match o with
  | Get _ k _ => result (obj k)
  | List _ k _ => result (list (obj k))
  | Update k _ | StatusUpdate k _ | Create k _ => result (obj k)
  | Delete _ _ => result unit
  | Ziti o => zitiResp o
  | Dir _ o => dirResp o
  | CtxErr => option error
  | Now => Z
  | Event _ _ _ _ => unit
  end.

Abbreviation action A := (prog op resp A).
Abbreviation trace := (list (event op resp)).

(** The call [o] answered by [r]. *)
Abbreviation ev o r := (@Ev op resp o r).

(** One call. *)
Definition do (o : op) : action (resp o) := call o.
Definition ziti (o : zitiOp) : action (zitiResp o) := call (Ziti o : op).

(** [p] dereferenced by [f]: a nil pointer panics. *)
Definition deref {A B} (p : option A) (f : A → action B) : action B :=
  match p with Some a => f a | None => Fault NilDereference end.

(** [ctrl.Result] and the outcome of a reconciliation. *)
Record Result := { Requeue : bool; RequeueAfter : Z }.
#[export] Instance Result_eq_dec : EqDecision Result.
Proof. solve_decision. Defined.
Definition noResult : Result := {| Requeue := false; RequeueAfter := 0 |}.
Abbreviation outcome := (Result * option error)%type.

(** The constants of [corev1] event types. *)
Definition EventTypeNormal : string := "Normal".
Definition EventTypeWarning : string := "Warning".

(** ** Calls that change something *)

(** A call that writes to the OpenZiti controller; [GetEnrollmentJWT] creates
    an enrollment when the identity has none. *)
Definition zitiWrites (o : zitiOp) : bool :=
  match o with
  | OpCreateIdentity _ | OpUpdateIdentity _ | OpPatchIdentityRoleAttributes _ _
  | OpDeleteIdentity _ | OpGetEnrollmentJWT _ | OpCreateService _ | OpUpdateService _
  | OpDeleteService _ | OpCreateConfig _ | OpUpdateConfig _ | OpDeleteConfig _ | OpCreateAccessPolicy _
  | OpUpdateAccessPolicy _ | OpDeleteAccessPolicy _ | OpCreateServiceEdgeRouterPolicy _
  | OpUpdateServiceEdgeRouterPolicy _ | OpDeleteServiceEdgeRouterPolicy _ => true
  | _ => false
  end.

Definition writesBackend (o : op) : bool := match o with Ziti z => zitiWrites z | _ => false end.

(** A call that writes to the Kubernetes API. *)
Definition writesKube (o : op) : bool :=
  match o with Update _ _ | StatusUpdate _ _ | Create _ _ | Delete _ _ => true | _ => false end.

(** A call that changes nothing. *)
Definition isRead (o : op) : Prop := writesBackend o = false ∧ writesKube o = false.

(** Proves [only P p] by following the branches of [p]. *)
Ltac only_calls :=
  repeat first
    [ done
    | progress intros
    | progress cbn [only bind do ziti call isRead writesBackend writesKube zitiWrites]
    | split
    | match goal with
      | |- only _ (match ?x with _ => _ end) => destruct x
      | |- only _ (if ?b then _ else _) => destruct b
      | |- only _ (bind _ _) => apply only_bind
      | |- only _ (let '(_, _) := ?x in _) => destruct x
      end ].

(** Proves [no_panic p] by following the branches of [p]. *)
Ltac no_panic_calls :=
  repeat first
    [ done
    | progress intros
    | progress cbn [no_panic bind do ziti call]
    | match goal with
      | |- no_panic (match ?x with _ => _ end) => destruct x
      | |- no_panic (if ?b then _ else _) => destruct b
      | |- no_panic (bind _ _) => apply no_panic_bind
      | |- no_panic (let '(_, _) := ?x in _) => destruct x
      end ].

(** ** A concrete environment

    It accepts every write, finds and lists nothing, and its clock stands at
    [1]: the base on which the examples override single answers. *)
Definition quietZiti (o : zitiOp) : zitiResp o :=
  match o with
  | OpGetIdentity _ | OpFindIdentityByName _ | OpCreateIdentity _ | OpUpdateIdentity _ => inr None
  | OpListIdentities => inr []
  | OpGetEnrollmentJWT _ => inr "jwt"
  | OpGetService _ | OpFindServiceByName _ | OpCreateService _ | OpUpdateService _ => inr None
  | OpGetConfig _ | OpCreateConfig _ | OpUpdateConfig _ => inr None
  | OpFindEdgeRouterByName _ => inr None
  | OpGetAccessPolicy _ | OpFindAccessPolicyByName _ | OpCreateAccessPolicy _
  | OpUpdateAccessPolicy _ => inr None
  | OpGetServiceEdgeRouterPolicy _ | OpFindServiceEdgeRouterPolicyByName _
  | OpCreateServiceEdgeRouterPolicy _ | OpUpdateServiceEdgeRouterPolicy _ => inr None
  | OpPatchIdentityRoleAttributes _ _ | OpDeleteIdentity _ | OpDeleteService _ | OpDeleteConfig _
  | OpDeleteAccessPolicy _ | OpDeleteServiceEdgeRouterPolicy _ => inr tt
  end.

Definition quiet (o : op) : resp o :=
  match o with
  | Get _ _ _ => inl (StatusError "NotFound" "not found")
  | List _ _ _ => inr []
  | Update _ o | StatusUpdate _ o | Create _ o => inr o
  | Delete _ _ => inr tt
  | Ziti z => quietZiti z
  | Dir _ (OpGetServicePrincipal _) => inr None
  | Dir _ (OpListAppRoleAssignedTo _) => inr []
  | Dir _ (OpListGroupUsers _) => inr []
  | CtxErr => None
  | Now => 1%Z
  | Event _ _ _ _ => tt
  end.

(** Runs a program in an environment that answers every call by a function. *)
Definition execWith {A} (env : ∀ o, resp o) (p : action A) : trace * option A :=
  let '(_, t, a) := exec (λ (_ : unit) o, (tt, env o)) tt p in (t, a).

Lemma execWith_runs {A} env (p : action A) t a :
  execWith env p = (t, Some a) → runs p t a.
Proof.
  unfold execWith. destruct (exec _ tt p) as [[w t'] a'] eqn:E. intros [= -> ->].
  by eapply exec_runs.
Qed.

(** The trace of a program in an environment; when the program ends in it, the
    call at a position is reached after what comes before. *)
Definition traceIn {A} (env : ∀ o, resp o) (p : action A) : trace := fst (execWith env p).

Lemma traceIn_runs {A} env (p : action A) a :
  snd (execWith env p) = Some a → runs p (traceIn env p) a.
Proof.
  intros H. apply (execWith_runs env). unfold traceIn. by rewrite <-H, <-surjective_pairing.
Qed.

Lemma traceIn_reaches {A} env (p : action A) a n e :
  snd (execWith env p) = Some a → traceIn env p !! n = Some e →
  reaches p (take n (traceIn env p) ++ [e]).
Proof. intros H. by apply reaches_at with a, traceIn_runs. Qed.
