(* ===== verification/ReconcileHelpers.v ===== *)
(** * Helpers of the reconcilers

    [internal/controller/reconcile_helpers.go]: conditions, finalizers, the
    test for a repeated failure and the normal form of error messages; and the
    methods [markReady] and [markFailed], which [zitiidentity_controller.go],
    [zitiservice_controller.go] and [zitiaccesspolicy_controller.go] repeat
    word for word for their own resource: one definition here, for every
    [StatusResource]. *)

From S2P Require Import Prelude GoSlices GoStrings Errors ZitiTypes ApiTypes World.

#[local] Open Scope mz_scope.

(** ** Conditions *)

(** [FindStatusCondition] and [SetStatusCondition] of the package
    [apimachinery/pkg/api/meta]. *)
Class MetaConditions := {
  FindStatusCondition : list Condition → string → option Condition;
  metaSetStatusCondition : list Condition → Condition → list Condition;
}.

(** [a] and [b] differ at most in the transition time. *)
Definition sameCondition (a b : Condition) : bool :=
  bool_decide (CondStatus a = CondStatus b) && bool_decide (CondReason a = CondReason b) &&
  bool_decide (CondMessage a = CondMessage b) &&
  bool_decide (CondObservedGeneration a = CondObservedGeneration b).

(** What the documentation of these functions says: the condition of the given
    type afterwards carries the new fields, and no other type changes. *)
Class MetaConditionsLaws `{MetaConditions} := {
  find_set_same cs c : ∃ c', FindStatusCondition (metaSetStatusCondition cs c) (CondType c) = Some c' ∧
    CondType c' = CondType c ∧ sameCondition c' c = true;
  find_set_other cs c t : t ≠ CondType c →
    FindStatusCondition (metaSetStatusCondition cs c) t = FindStatusCondition cs t;
}.

Section Helpers.
Context `{MetaConditions}.

Definition withTransitionTime (t : Z) (c : Condition) : Condition :=
  {| CondType := CondType c; CondStatus := CondStatus c; CondReason := CondReason c;
     CondMessage := CondMessage c; CondObservedGeneration := CondObservedGeneration c;
     CondLastTransitionTime := t |}.

(** [SetStatusCondition] *)
Definition SetStatusCondition (status : CommonStatus) (condition : Condition) : CommonStatus :=
  let condition :=
    match FindStatusCondition (Conditions status) (CondType condition) with
    | Some existing =>
        if sameCondition existing condition
        then withTransitionTime (CondLastTransitionTime existing) condition else condition
    | None => condition
    end in
  SetConditions (metaSetStatusCondition (Conditions status) condition) status.

(** [hasMatchingFailureStatus] *)
Definition hasMatchingFailureStatus (status : CommonStatus) (generation : Z)
    (reason message : string) : bool :=
  if negb (ObservedGeneration status =? generation)%Z || negb (bool_decide (LastError status = message))
  then false
  else
    let matches c wanted :=
      bool_decide (CondStatus c = wanted) && bool_decide (CondReason c = reason) &&
      bool_decide (CondMessage c = message) in
    match FindStatusCondition (Conditions status) ConditionTypeReady,
          FindStatusCondition (Conditions status) ConditionTypeReconciling,
          FindStatusCondition (Conditions status) ConditionTypeDegraded with
    | Some ready, Some reconciling, Some degraded =>
        matches ready ConditionFalse && matches reconciling ConditionFalse &&
        matches degraded ConditionTrue
    | _, _, _ => false
    end.

End Helpers.

(** The loop [filtered := xs[:0]; for _, x := range xs { if keep(x) {
    filtered = append(filtered, x) } }], which writes into the array it reads:
    [i] elements were read and [w] written. *)
Fixpoint filterInPlace {A} (keep : A → bool) (fuel i w : nat) (xs : list A) : list A :=
  match fuel, xs !! i with
  | S fuel', Some x =>
      if keep x then filterInPlace keep fuel' (S i) (S w) (<[w := x]> xs)
      else filterInPlace keep fuel' (S i) w xs
  | _, _ => take w xs
  end.

(** [RemoveStatusCondition] *)
Definition RemoveStatusCondition (status : CommonStatus) (conditionType : string) : CommonStatus :=
  SetConditions (filterInPlace (λ c, negb (bool_decide (CondType c = conditionType)))
    (length (Conditions status)) 0 0 (Conditions status)) status.

(** ** Finalizers: whether the object changed, and the object. *)

Section Finalizers.
Context {k : kind} `{!StatusResource k}.

(** [EnsureFinalizer] *)
Definition EnsureFinalizer (o : obj k) (finalizer : string) : bool * obj k :=
  if contains (Finalizers (meta o)) finalizer then (false, o)
  else (true, withMeta (SetFinalizers (Finalizers (meta o) ++ [finalizer]) (meta o)) o).

(** [RemoveFinalizer] *)
Definition RemoveFinalizer (o : obj k) (finalizer : string) : bool * obj k :=
  let finalizers := Finalizers (meta o) in
  if negb (contains finalizers finalizer) then (false, o)
  else (true, withMeta (SetFinalizers
          (filterInPlace (λ f, negb (bool_decide (f = finalizer))) (length finalizers) 0 0 finalizers)
          (meta o)) o).

End Finalizers.

(** [EmitEvent]; [recorder] tells whether a recorder is configured. *)
Definition EmitEvent (recorder : bool) (m : ObjectMeta) (eventType reason message : string)
    : action unit :=
  if negb recorder then Ret tt
  else do (Event (ObjectKeyFromObject m) eventType reason message).

(** [RequeueWithError] *)
Definition RequeueWithError (err : error) : outcome := (noResult, Some err).

(** ** Error messages

    [requestIDPattern] matches a mark (a backslash or a double quote), the word
    requestId, a mark, a colon, blanks, a mark, one or more characters that are
    no marks, and a mark; everything up to the value and the last mark are its
    groups.  The classes that follow each other are disjoint, so a match is
    found without backtracking. *)

(** The class of the marks. *)
Definition isMark (c : ascii) : bool := (c =? "034")%char || (c =? "092")%char.

(** The class of the blanks. *)
Definition isBlank (c : ascii) : bool :=
  (c =? " ")%char || (c =? "009")%char || (c =? "010")%char || (c =? "012")%char ||
  (c =? "013")%char.

(** The longest prefix whose characters satisfy [p], and the rest. *)
Fixpoint span (p : ascii → bool) (s : string) : string * string :=
  match s with
  | String c s' => if p c then let '(a, b) := span p s' in (String c a, b) else ("", s)
  | "" => ("", "")
  end.

Fixpoint stripPrefix (p s : string) : option string :=
  match p, s with
  | "", _ => Some s
  | String a p', String b s' => if (a =? b)%char then stripPrefix p' s' else None
  | String _ _, "" => None
  end.

(** A match at the start of [s]: the two groups and what follows. *)
Definition matchRequestID (s : string) : option (string * string * string) :=
  match s with
  | String q1 s1 =>
      if negb (isMark q1) then None else
      match stripPrefix "requestId" s1 with
      | Some (String q2 (String ":" s2)) =>
          if negb (isMark q2) then None else
          let '(ws, s3) := span isBlank s2 in
          match s3 with
          | String q3 s4 =>
              if negb (isMark q3) then None else
              let '(value, s5) := span (λ c, negb (isMark c)) s4 in
              match value, s5 with
              | String _ _, String q4 s6 =>
                  Some (String q1 ("requestId" +:+ String q2 (String ":" (ws +:+ String q3 ""))),
                        String q4 "", s6)
              | _, _ => None
              end
          | "" => None
          end
      | _ => None
      end
  | "" => None
  end.

(** [ReplaceAllString] by the first group, the text <redacted> and the second
    group; [skip] counts the bytes
    of the last match that remain. *)
Fixpoint redact (skip : nat) (s : string) : string :=
  match s with
  | "" => ""
  | String c s' =>
      match skip with
      | S n => redact n s'
      | O =>
          match matchRequestID s with
          | Some (g1, g2, rest) =>
              g1 +:+ "<redacted>" +:+ g2 +:+ redact (String.length s' - String.length rest) s'
          | None => String c (redact 0 s')
          end
      end
  end.

(** [normalizeReconcileErrorMessage] *)
Definition normalizeReconcileErrorMessage (message : string) : string := redact 0 message.

(** ** [markReady] and [markFailed] *)

Section Mark.
Context `{MetaConditions} {k : kind} `{!StatusResource k}.

Definition setStatus (o : obj k) (condition : Condition) : obj k :=
  withCommon (SetStatusCondition (common o) condition) o.

(** One of the conditions the methods set, at the current time. *)
Definition setConditionNow (o : obj k) (type status reason message : string) : action (obj k) :=
  let! now := do Now in
  Ret (setStatus o {| CondType := type; CondStatus := status; CondReason := reason;
                      CondMessage := message; CondObservedGeneration := Generation (meta o);
                      CondLastTransitionTime := now |}).

(** [markReady]; [message] is the text that names the kind of resource. *)
Definition markReady (o : obj k) (message : string) : action (option error) :=
  let o := withCommon (setObserved (Generation (meta o)) "" (common o)) o in
  let! o := setConditionNow o ConditionTypeReady ConditionTrue "Reconciled" message in
  let! o := setConditionNow o ConditionTypeReconciling ConditionFalse "Idle"
              "No reconciliation in progress" in
  let! o := setConditionNow o ConditionTypeDegraded ConditionFalse "AsExpected"
              "No actionable reconciliation errors" in
  let! r := do (StatusUpdate k o) in
  Ret match r with inl err => Some err | inr _ => None end.

(** [markFailed] *)
Definition markFailed (recorder : bool) (o : obj k) (reconcileErr : error) (reason : string)
    (retryable : bool) : action outcome :=
  let message := normalizeReconcileErrorMessage (Error reconcileErr) in
  let result := if retryable then RequeueWithError reconcileErr else (noResult, None) in
  if hasMatchingFailureStatus (common o) (Generation (meta o)) reason message then Ret result
  else
    let previous := statusOf o in
    let o := withCommon (setObserved (Generation (meta o)) message (common o)) o in
    let! o := setConditionNow o ConditionTypeReady ConditionFalse reason message in
    let! o := setConditionNow o ConditionTypeReconciling ConditionFalse reason message in
    let! o := setConditionNow o ConditionTypeDegraded ConditionTrue reason message in
    if bool_decide (previous = statusOf o) then Ret result
    else
      let! r := do (StatusUpdate k o) in
      match r with
      | inl err => Ret (noResult, Some err)
      | inr o => let! _ := EmitEvent recorder (meta o) EventTypeWarning reason message in
                 Ret result
      end.

End Mark.

(** ** Lemmas *)

Lemma filterInPlace_spec {A} (keep : A → bool) fuel i w (xs : list A) :
  w ≤ i → i ≤ length xs → length xs ≤ i + fuel →
  filterInPlace keep fuel i w xs = take w xs ++ filter (λ x, keep x = true) (drop i xs).
Proof.
  revert i w xs. induction fuel as [|fuel IH]; intros i w xs Hw Hi Hf; cbn [filterInPlace].
  - rewrite drop_ge by lia. by rewrite filter_nil, app_nil_r.
  - destruct (xs !! i) as [x|] eqn:Hx.
    + pose proof (lookup_lt_Some _ _ _ Hx). rewrite (drop_S xs x i Hx), filter_cons.
      destruct (keep x) eqn:Hk.
      * rewrite IH; rewrite ?length_insert; try lia.
        rewrite drop_insert_lt by lia. rewrite decide_True by done.
        rewrite (take_S_r _ _ x) by (rewrite list_lookup_insert_eq; [done|lia]).
        rewrite take_insert_ge by lia. by rewrite <-app_assoc.
      * rewrite IH by lia. by rewrite decide_False.
    + apply lookup_ge_None in Hx. rewrite drop_ge by lia. by rewrite filter_nil, app_nil_r.
Qed.

(** The in-place loop computes the list of the kept elements. *)
Lemma filterInPlace_filter {A} (keep : A → bool) (xs : list A) :
  filterInPlace keep (length xs) 0 0 xs = filter (λ x, keep x = true) xs.
Proof. rewrite filterInPlace_spec by lia. done. Qed.

#[export] Hint Rewrite @filterInPlace_filter : mz_spec.

Section MarkLemmas.
Context `{!MetaConditions} `{!MetaConditionsLaws} {k : kind} `{!StatusResource k}.

Lemma find_setStatus (o : obj k) c t :
  CondType c = t →
  ∃ c', FindStatusCondition (Conditions (common (setStatus o c))) t = Some c' ∧
    CondType c' = t ∧ sameCondition c' c = true.
Proof.
  intros <-. unfold setStatus. rewrite common_withCommon. unfold SetStatusCondition. cbn [SetConditions Conditions].
  destruct (FindStatusCondition (Conditions (common o)) (CondType c)) as [old|]; [|apply find_set_same].
  destruct (sameCondition old c) eqn:E; [|apply find_set_same].
  destruct (find_set_same (Conditions (common o))
    (withTransitionTime (CondLastTransitionTime old) c)) as (c' & ? & ? & ?). by exists c'.
Qed.

Lemma find_setStatus_other (o : obj k) c t :
  t ≠ CondType c →
  FindStatusCondition (Conditions (common (setStatus o c))) t =
  FindStatusCondition (Conditions (common o)) t.
Proof.
  intros Ht. unfold setStatus. rewrite common_withCommon. unfold SetStatusCondition. cbn [SetConditions Conditions].
  destruct (FindStatusCondition (Conditions (common o)) (CondType c)) as [old|]; [|by apply find_set_other].
  destruct (sameCondition old c); by apply find_set_other.
Qed.

Lemma setStatus_fields (o : obj k) c :
  meta (setStatus o c) = meta o ∧
  StatusID (common (setStatus o c)) = StatusID (common o) ∧
  ObservedGeneration (common (setStatus o c)) = ObservedGeneration (common o) ∧
  LastError (common (setStatus o c)) = LastError (common o).
Proof. unfold setStatus. by rewrite meta_withCommon, !common_withCommon. Qed.

(** The three conditions of a failure, once set, are recognised. *)
Definition failed (o : obj k) (reason message : string) (t1 t2 t3 : Z) : obj k :=
  let c type status t := {| CondType := type; CondStatus := status; CondReason := reason;
    CondMessage := message; CondObservedGeneration := Generation (meta o);
    CondLastTransitionTime := t |} in
  let o := withCommon (setObserved (Generation (meta o)) message (common o)) o in
  setStatus (setStatus (setStatus o (c ConditionTypeReady ConditionFalse t1))
    (c ConditionTypeReconciling ConditionFalse t2)) (c ConditionTypeDegraded ConditionTrue t3).

Lemma failed_fields o reason message t1 t2 t3 :
  meta (failed o reason message t1 t2 t3) = meta o ∧
  StatusID (common (failed o reason message t1 t2 t3)) = StatusID (common o) ∧
  LastError (common (failed o reason message t1 t2 t3)) = message.
Proof.
  unfold failed. cbv zeta. split_and!;
    repeat (rewrite ?(proj1 (setStatus_fields _ _)),
                    ?(proj1 (proj2 (setStatus_fields _ _))),
                    ?(proj2 (proj2 (proj2 (setStatus_fields _ _)))));
    by rewrite ?meta_withCommon, ?common_withCommon.
Qed.

Lemma failed_matches o reason message t1 t2 t3 :
  hasMatchingFailureStatus (common (failed o reason message t1 t2 t3)) (Generation (meta o))
    reason message = true.
Proof.
  unfold hasMatchingFailureStatus, failed. cbv zeta.
  repeat rewrite (proj1 (proj2 (proj2 (setStatus_fields _ _)))).
  repeat rewrite (proj2 (proj2 (proj2 (setStatus_fields _ _)))).
  rewrite !common_withCommon; cbn [setObserved ObservedGeneration LastError].
  rewrite Z.eqb_refl, bool_decide_true by done. cbn [negb orb].
  match goal with |- context [setStatus ?o0 ?c0] =>
    match c0 with context [ConditionTypeDegraded] =>
      destruct (find_setStatus o0 c0 ConditionTypeDegraded eq_refl) as (d & -> & _ & Hd) end end.
  rewrite !(find_setStatus_other _ _ ConditionTypeReady) by done.
  rewrite (find_setStatus_other _ _ ConditionTypeReconciling) by done.
  match goal with |- context [setStatus ?o0 ?c0] =>
    match c0 with context [ConditionTypeReconciling] =>
      destruct (find_setStatus o0 c0 ConditionTypeReconciling eq_refl) as (r & -> & _ & Hr) end end.
  match goal with |- context [setStatus ?o0 ?c0] =>
    destruct (find_setStatus o0 c0 ConditionTypeReady eq_refl) as (y & -> & _ & Hy) end.
  unfold sameCondition in *; cbn in *. reflect_bools.
  repeat match goal with E : CondStatus _ = _ |- _ => rewrite E; clear E
    | E : CondReason _ = _ |- _ => rewrite E; clear E
    | E : CondMessage _ = _ |- _ => rewrite E; clear E end.
  by rewrite !bool_decide_true.
Qed.

End MarkLemmas.

Lemma EmitEvent_only recorder m ty reason message :
  only isRead (EmitEvent recorder m ty reason message).
Proof. unfold EmitEvent. only_calls. Qed.

(** A call that writes at most the status of [o], whose conditions, generation
    and error it may change, but not its ID. *)
Definition marks {k} `{!StatusResource k} (o : obj k) (c : op) : Prop :=
  isRead c ∨ ∃ common', StatusID common' = StatusID (common o) ∧ c = StatusUpdate k (withCommon common' o).

(** A call that writes at most the status of an object of kind [k]. *)
Definition isStatusWrite (k : kind) (o : op) : Prop := isRead o ∨ ∃ s, o = StatusUpdate k s.

(** The status of [o] reports a failure of the current generation: the
    conditions Ready, Reconciling and Degraded say so. *)
Definition reportsFailure `{MetaConditions} {k} `{!StatusResource k} (o : obj k) : Prop :=
  ∃ reason, hasMatchingFailureStatus (common o) (Generation (meta o)) reason (LastError (common o)) = true.

Lemma only_reads {A} k (p : action A) : only isRead p → only (isStatusWrite k) p.
Proof. apply only_mono. by left. Qed.

Section MarkCalls.
Context `{MetaConditions} {k : kind} `{!StatusResource k}.

Lemma setStatus_eq (o : obj k) c condition :
  setStatus (withCommon c o) condition = withCommon (SetStatusCondition c condition) o.
Proof. unfold setStatus. by rewrite common_withCommon, withCommon_withCommon. Qed.

Lemma markReady_marks (o : obj k) message : only (marks o) (markReady o message).
Proof.
  unfold markReady, setConditionNow. cbn [bind do call only].
  repeat (split; [by left|intros]). split; [right|done].
  rewrite !setStatus_eq. eexists. split; [|done]. done.
Qed.

Lemma markFailed_marks recorder (o : obj k) err reason retryable :
  only (marks o) (markFailed recorder o err reason retryable).
Proof.
  unfold markFailed, setConditionNow. cbv zeta. case_test; [done|]. cbn [bind do call only].
  repeat (split; [by left|intros]). case_test; [done|]. cbn [bind do call only].
  split; [right; rewrite !setStatus_eq; eexists; split; [|done]; done|]. intros [e|a]; [done|].
  apply only_bind; [|done]. eapply only_mono; [|apply EmitEvent_only]. by left.
Qed.

(** [markFailed] writes a failure. *)
Lemma markFailed_reports `{!MetaConditionsLaws} recorder (o : obj k) err reason retryable :
  only (λ c, isRead c ∨ ∃ common', c = StatusUpdate k (withCommon common' o) ∧
      StatusID common' = StatusID (common o) ∧ reportsFailure (withCommon common' o))
    (markFailed recorder o err reason retryable).
Proof.
  unfold markFailed, setConditionNow. cbv zeta. case_test; [done|]. cbn [bind do call only].
  split; [by left|]. intros t1. split; [by left|]. intros t2. split; [by left|]. intros t3.
  case_test; [done|]. cbn [bind do call only]. split.
  - set (message := normalizeReconcileErrorMessage (Error err)).
    destruct (failed_fields o reason message t1 t2 t3) as (Hmeta & _ & Herr).
    pose proof (failed_matches o reason message t1 t2 t3) as Hf.
    rewrite !(proj1 (setStatus_fields _ _)), !meta_withCommon. fold (failed o reason message t1 t2 t3).
    right. unfold failed in *. cbv zeta in *. rewrite !setStatus_eq in *. eexists. split; [done|].
    split; [done|]. exists reason. by rewrite Hmeta, Herr.
  - intros [e|a]; [done|]. apply only_bind; [|done]. eapply only_mono; [|apply EmitEvent_only]. by left.
Qed.

Lemma markReady_only (o : obj k) message : only (isStatusWrite k) (markReady o message).
Proof.
  unfold markReady, setConditionNow. cbn [bind do call only].
  repeat (split; [by left|intros]). split; [right; by eexists|done].
Qed.

Lemma markFailed_only recorder (o : obj k) err reason retryable :
  only (isStatusWrite k) (markFailed recorder o err reason retryable).
Proof.
  unfold markFailed, setConditionNow. cbv zeta. case_test; [done|]. cbn [bind do call only].
  repeat (split; [by left|intros]). case_test; [done|]. cbn [bind do call only].
  split; [right; by eexists|]. intros [e|a]; [done|].
  apply only_bind; [apply only_reads, EmitEvent_only|done].
Qed.

Lemma markReady_no_panic (o : obj k) message : no_panic (markReady o message).
Proof. unfold markReady, setConditionNow. no_panic_calls. Qed.

Lemma markFailed_no_panic recorder (o : obj k) err reason retryable :
  no_panic (markFailed recorder o err reason retryable).
Proof. unfold markFailed, setConditionNow, EmitEvent. cbv zeta. no_panic_calls. Qed.

End MarkCalls.

(** ** The redaction of request IDs *)

#[local] Arguments String.append !_ _ : simpl nomatch.

Fixpoint allChars (p : ascii → bool) (s : string) : bool :=
  match s with "" => true | String c s => p c && allChars p s end.

Lemma span_split p s a b :
  span p s = (a, b) →
  s = a +:+ b ∧ allChars p a = true ∧ match b with String c _ => p c = false | "" => True end.
Proof.
  revert a b. induction s as [|c s IH]; cbn; intros a b.
  - by intros [= <- <-].
  - destruct (p c) eqn:Hc.
    + destruct (span p s) as [a' b'] eqn:E. intros [= <- <-].
      destruct (IH a' b' eq_refl) as (-> & Ha & Hb). cbn. by rewrite Hc.
    + intros [= <- <-]. cbn. by rewrite Hc.
Qed.

Lemma span_app p a b :
  allChars p a = true → match b with String c _ => p c = false | "" => True end →
  span p (a +:+ b) = (a, b).
Proof.
  induction a as [|c a IH]; cbn; intros Ha Hb.
  - destruct b as [|c b]; cbn; [done|]. by rewrite Hb.
  - apply andb_true_iff in Ha as [-> Ha]. by rewrite IH.
Qed.

Lemma stripPrefix_app p s r : stripPrefix p s = Some r ↔ s = p +:+ r.
Proof.
  revert s. induction p as [|a p IH]; intros s; cbn; [naive_solver|].
  destruct s as [|b s]; [done|]. destruct (Ascii.eqb_spec a b) as [->|Hne].
  - rewrite IH. naive_solver.
  - naive_solver.
Qed.

Lemma blank_not_mark c : isBlank c = true → isMark c = false.
Proof.
  unfold isBlank, isMark. intros Hb. reflect_bools;
    match goal with H : (_ =? _)%char = true |- _ => apply Ascii.eqb_eq in H; subst end; done.
Qed.

(** The parts of a match. *)
Definition isMatch (q1 q2 : ascii) (ws : string) (q3 : ascii) (value : string) (q4 : ascii) : Prop :=
  isMark q1 = true ∧ isMark q2 = true ∧ allChars isBlank ws = true ∧ isMark q3 = true ∧
  allChars (λ c, negb (isMark c)) value = true ∧ value ≠ "" ∧ isMark q4 = true.

Definition matchHead (q1 q2 : ascii) (ws : string) (q3 : ascii) : string :=
  String q1 ("requestId" +:+ String q2 (String ":" (ws +:+ String q3 ""))).

Lemma matchRequestID_Some q1 q2 ws q3 value q4 rest :
  isMatch q1 q2 ws q3 value q4 →
  matchRequestID (matchHead q1 q2 ws q3 +:+ value +:+ String q4 rest) =
  Some (matchHead q1 q2 ws q3, String q4 "", rest).
Proof.
  intros (H1 & H2 & H3 & H4 & H5 & H6 & H7). unfold matchHead. cbn.
  rewrite H1. cbn. rewrite H2, string_app_assoc. cbn. rewrite span_app; [|done|].
  - rewrite H4. cbn. rewrite span_app; [|done|by rewrite H7].
    by destruct value.
  - destruct (isBlank q3) eqn:E; [|done]. apply blank_not_mark in E. congruence.
Qed.

Lemma matchRequestID_inv s g1 g2 rest :
  matchRequestID s = Some (g1, g2, rest) →
  ∃ q1 q2 ws q3 value q4, isMatch q1 q2 ws q3 value q4 ∧
    g1 = matchHead q1 q2 ws q3 ∧ g2 = String q4 "" ∧
    s = matchHead q1 q2 ws q3 +:+ value +:+ String q4 rest.
Proof.
  unfold matchRequestID. destruct s as [|q1 s1]; [done|].
  destruct (isMark q1) eqn:H1; [|done]. cbn [negb].
  destruct (stripPrefix "requestId" s1) as [r|] eqn:Hs; [|done]. apply stripPrefix_app in Hs as ->.
  destruct r as [|q2 [|col s2]]; [done..|].
  destruct (Ascii.eqb_spec col ":") as [->|Hc]; cycle 1.
  { destruct col as [[] [] [] [] [] [] [] []]; done. }
  destruct (isMark q2) eqn:H2; [|done]. cbn [negb].
  destruct (span isBlank s2) as [ws s3] eqn:Hw. apply span_split in Hw as (-> & Hw & _).
  destruct s3 as [|q3 s4]; [done|]. destruct (isMark q3) eqn:H3; [|done]. cbn [negb].
  destruct (span _ s4) as [value s5] eqn:Hv. apply span_split in Hv as (-> & Hv & Hq4).
  destruct value as [|v0 value]; [done|]. destruct s5 as [|q4 s6]; [done|].
  intros [= <- <- <-]. apply negb_false_iff in Hq4.
  exists q1, q2, ws, q3, (String v0 value), q4. split_and!; try done. unfold matchHead.
  cbn. by rewrite string_app_assoc.
Qed.

Lemma redact_skip n m s : String.length m = n → redact n (m +:+ s) = redact 0 s.
Proof.
  revert n. induction m as [|c m IH]; intros n; cbn; [by intros <-|].
  destruct n; [done|]. intros [= H]. by apply IH.
Qed.

Lemma redact_match s g1 g2 rest :
  matchRequestID s = Some (g1, g2, rest) →
  redact 0 s = g1 +:+ "<redacted>" +:+ g2 +:+ redact 0 rest.
Proof.
  intros Hm. pose proof (matchRequestID_inv _ _ _ _ Hm) as (q1 & q2 & ws & q3 & v & q4 & _ & _ & _ & Hs).
  assert (∃ m, s = String q1 (m +:+ rest)) as [m E].
  { exists (("requestId" +:+ String q2 (String ":" (ws +:+ String q3 ""))) +:+ v +:+ String q4 "").
    rewrite Hs. unfold matchHead. by rewrite !string_app_assoc. }
  rewrite E in *. cbn [redact]. rewrite Hm. do 3 f_equal.
  rewrite string_length_app. replace (_ + _ - _) with (String.length m) by lia.
  by rewrite redact_skip.
Qed.

Lemma redact_no_match c s :
  matchRequestID (String c s) = None → redact 0 (String c s) = String c (redact 0 s).
Proof. cbn [redact]. by intros ->. Qed.

Lemma redact_plain c s : isMark c = false → redact 0 (String c s) = String c (redact 0 s).
Proof. intros Hc. apply redact_no_match. cbn. by rewrite Hc. Qed.

(** The first character survives. *)
Lemma redact_head s c x : redact 0 s = String c x → ∃ s', s = String c s'.
Proof.
  destruct s as [|d s]; [done|]. destruct (matchRequestID (String d s)) as [[[g1 g2] rest]|] eqn:Hm.
  - rewrite (redact_match _ _ _ _ Hm).
    apply matchRequestID_inv in Hm as (q1 & q2 & ws & q3 & v & q4 & _ & -> & _ & [= <- _]).
    intros [= <- _]. by exists s.
  - rewrite redact_no_match by done. intros [= <- _]. by exists s.
Qed.

(** Text without marks comes out unchanged. *)
Lemma redact_unmarked w s x :
  allChars (λ c, negb (isMark c)) w = true → redact 0 s = w +:+ x →
  ∃ s', s = w +:+ s' ∧ redact 0 s' = x.
Proof.
  revert s. induction w as [|c w IH]; intros s Hw Hs; cbn in *; [by exists s|].
  reflect_bools. destruct (redact_head _ _ _ Hs) as [s1 ->].
  rewrite redact_plain in Hs by done. injection Hs as Hs.
  destruct (IH s1) as (s' & -> & <-); [done..|]. by exists s'.
Qed.

(** After a mark comes the redacted rest, or the mark starts a match. *)
Lemma redact_marked q s x :
  redact 0 s = String q x →
  ∃ s', s = String q s' ∧
    (redact 0 s' = x ∨
     ∃ q2 s2 x2, isMark q2 = true ∧ s' = "requestId" +:+ String q2 s2 ∧
       x = "requestId" +:+ String q2 x2).
Proof.
  intros Hs. destruct (redact_head _ _ _ Hs) as [s1 ->]. exists s1. split; [done|].
  destruct (matchRequestID (String q s1)) as [[[g1 g2] rest]|] eqn:Hm.
  - right. rewrite (redact_match _ _ _ _ Hm) in Hs.
    apply matchRequestID_inv in Hm as (q1 & q2 & ws & q3 & v & q4 & Hq & -> & _ & [= <- ->]).
    injection Hs as <-. eexists q2, _, _. split_and!; [apply Hq|done|done].
  - left. rewrite redact_no_match in Hs by done. by injection Hs.
Qed.

(** Redacting the tail creates no match at the head. *)
Lemma redact_no_new_match c s :
  matchRequestID (String c s) = None → matchRequestID (String c (redact 0 s)) = None.
Proof.
  intros Hnone. destruct (matchRequestID (String c (redact 0 s))) as [[[g1 g2] rest]|] eqn:Hm; [|done].
  exfalso. apply matchRequestID_inv in Hm as (q1 & q2 & ws & q3 & v & q4 & Hq & _ & _ & Hs).
  unfold matchHead in Hs. rewrite <-?string_app_assoc in Hs. cbn in Hs. injection Hs as -> Hs.
  destruct Hq as (H1 & H2 & H3 & H4 & H5 & H6 & H7).
  assert (∀ v' r, allChars (λ c, negb (isMark c)) v' = true → v' ≠ "" → ∀ q, isMark q = true →
    s = "requestId" +:+ String q2 (String ":" (ws +:+ String q3 (v' +:+ String q r))) → False) as Hno.
  { intros v' r Hv' Hne q Hq' ->.
    pose proof (matchRequestID_Some q1 q2 ws q3 v' q r) as E. unfold matchHead in E.
    cbn in E, Hnone. rewrite string_app_assoc in E. cbn in E. rewrite E in Hnone; [done|].
    by split_and!. }
  apply (redact_unmarked "requestId") in Hs as (s2 & -> & Hs); [|done].
  apply redact_marked in Hs as (s3 & -> & [Hs|(?&?&?&_&_&?)]); [|done].
  rewrite !string_app_assoc in Hs. cbn in Hs.
  apply (redact_unmarked (String ":" ws)) in Hs as (s4 & -> & Hs); cycle 1.
  { cbn. clear -H3. induction ws as [|b ws IH]; cbn in *; [done|]. reflect_bools.
    rewrite blank_not_mark by done. by apply IH. }
  apply redact_marked in Hs as (s5 & -> & [Hs|(q & r & x & Hq & -> & _)]).
  - apply redact_unmarked in Hs as (s6 & -> & Hs); [|done].
    apply redact_head in Hs as [s7 ->]. by apply (Hno v s7 H5 H6 q4).
  - by apply (Hno "requestId" r eq_refl ltac:(done) q Hq).
Qed.

(** ** A concrete instance of the condition functions *)

Fixpoint findCondition (cs : list Condition) (t : string) : option Condition :=
  match cs with
  | [] => None
  | c :: cs => if bool_decide (CondType c = t) then Some c else findCondition cs t
  end.

(** The first condition of the type is updated, keeping its transition time
    while its status stays; a new type is appended. *)
Fixpoint upsertCondition (cs : list Condition) (c : Condition) : list Condition :=
  match cs with
  | [] => [c]
  | d :: cs =>
      if bool_decide (CondType d = CondType c)
      then withTransitionTime (if bool_decide (CondStatus d = CondStatus c)
                               then CondLastTransitionTime d else CondLastTransitionTime c) c :: cs
      else d :: upsertCondition cs c
  end.

Definition upsertConditions : MetaConditions :=
  {| FindStatusCondition := findCondition; metaSetStatusCondition := upsertCondition |}.

Lemma upsertConditions_laws : @MetaConditionsLaws upsertConditions.
Proof.
  split; cbn.
  - intros cs c. unfold sameCondition. induction cs as [|d cs IH]; cbn.
    + rewrite bool_decide_true by done. exists c. split_and!; [done..|].
      by rewrite !bool_decide_true.
    + case_bool_decide; cbn; [|by rewrite bool_decide_false].
      rewrite bool_decide_true by done. eexists. split_and!; [done..|]. cbn.
      by rewrite !bool_decide_true.
  - intros cs c t Ht. induction cs as [|d cs IH]; cbn.
    + by rewrite bool_decide_false.
    + destruct (bool_decide (CondType d = CondType c)) eqn:Hd; cbn; [|by rewrite IH].
      apply bool_decide_eq_true in Hd. by rewrite !bool_decide_false by congruence.
Qed.

(** ** Properties *)

Section Properties.
Context `{!MetaConditions} `{!MetaConditionsLaws} {k : kind} `{!StatusResource k}.

(** C11. What [markFailed] does, on every branch.  A failure that the status
    already records (same generation, reason and normalised message) causes no
    call at all; any other failure writes exactly one status, which keeps the
    metadata and the backend ID, carries the message and is one that the next
    identical failure recognises, and then emits one warning unless the write
    failed.  In particular the test that the status changed never suppresses
    the write.  The error is returned for a retry exactly when the failure is
    retryable and the write succeeded. *)
Theorem markFailed_correct (recorder : bool) (o : obj k) (err : error) (reason : string)
    (retryable : bool) (t : trace) (out : outcome) :
  let message := normalizeReconcileErrorMessage (Error err) in
  let result := (noResult, if retryable then Some err else None) in
  runs (markFailed recorder o err reason retryable) t out →
  if hasMatchingFailureStatus (common o) (Generation (meta o)) reason message
  then t = [] ∧ out = result
  else ∃ t1 t2 t3 o' r tail,
    t = [Ev Now t1; Ev Now t2; Ev Now t3; Ev (StatusUpdate k o') r] ++ tail ∧
    meta o' = meta o ∧ StatusID (common o') = StatusID (common o) ∧
    LastError (common o') = message ∧
    hasMatchingFailureStatus (common o') (Generation (meta o)) reason message = true ∧
    match r with
    | inl e => tail = [] ∧ out = (noResult, Some e)
    | inr o'' =>
        tail = (if recorder
                then [Ev (Event (ObjectKeyFromObject (meta o'')) EventTypeWarning reason message) tt]
                else []) ∧
        out = result
    end.
Proof.
  cbv zeta. unfold markFailed. cbv zeta.
  set (message := normalizeReconcileErrorMessage _).
  destruct (hasMatchingFailureStatus _ _ _ _) eqn:Hm.
  { cbn. intros [-> <-]. by destruct retryable. }
  unfold setConditionNow. cbn [bind do call].
  intros (t1 & ? & -> & t2 & ? & -> & t3 & ? & -> & Hr).
  rewrite !(proj1 (setStatus_fields _ _)), !meta_withCommon in Hr.
  fold (failed o reason message t1 t2 t3) in Hr.
  destruct (failed_fields o reason message t1 t2 t3) as (Hmeta & Hid & Herr).
  pose proof (failed_matches o reason message t1 t2 t3) as Hmatch.
  set (o' := failed _ _ _ _ _ _) in *. clearbody o'.
  rewrite bool_decide_false in Hr; cycle 1.
  { intros E%common_statusOf. congruence. }
  destruct Hr as (r & t' & -> & Hr). exists t1, t2, t3, o', r, t'. split_and!; [done..|].
  destruct r as [e|o'']; [by destruct Hr as [-> <-]|]. apply runs_bind in Hr.
  destruct Hr as (ta & tb & [] & -> & Ha & [-> <-]). unfold EmitEvent in Ha.
  destruct recorder; cbn in Ha.
  - destruct Ha as (? & ? & -> & -> & _). destruct x. by destruct retryable.
  - destruct Ha as [-> _]. by destruct retryable.
Qed.

End Properties.

Section FinalizerProperties.
Context {k : kind} `{!StatusResource k}.

Lemma RemoveFinalizer_in (o : obj k) (f : string) : f ∈ Finalizers (meta o) →
  RemoveFinalizer o f = (true, withMeta (SetFinalizers (filter (λ g, g ≠ f) (Finalizers (meta o))) (meta o)) o).
Proof.
  intros Hin. unfold RemoveFinalizer. apply contains_true in Hin. rewrite Hin. cbn [negb].
  rewrite filterInPlace_filter. do 4 f_equal. apply filter_iff_in. intros g _.
  by rewrite negb_true_iff, bool_decide_eq_false.
Qed.

(** Finalizers.  Adding a finalizer reports a change exactly when it was
    absent and leaves it present; removing it afterwards, by the loop that
    filters the slice in place, reports a change, restores the other finalizers
    in their order and touches neither the status nor any other metadata. *)
Theorem finalizers_correct (o : obj k) (f : string) :
  let '(added, o1) := EnsureFinalizer o f in
  let '(removed, o2) := RemoveFinalizer o1 f in
  added = negb (contains (Finalizers (meta o)) f) ∧
  f ∈ Finalizers (meta o1) ∧ (added = false → o1 = o) ∧
  removed = true ∧
  Finalizers (meta o2) = filter (λ g, g ≠ f) (Finalizers (meta o)) ∧
  meta o2 = SetFinalizers (Finalizers (meta o2)) (meta o) ∧
  statusOf o2 = statusOf o ∧ RemoveFinalizer o2 f = (false, o2).
Proof.
  pose proof (λ o1, RemoveFinalizer_in o1 f) as Hrem.
  assert (∀ o2 : obj k, f ∉ Finalizers (meta o2) → RemoveFinalizer o2 f = (false, o2)) as Hnone.
  { intros o2 Hin. unfold RemoveFinalizer. apply contains_false in Hin. by rewrite Hin. }
  assert (∀ l : strs, f ∉ filter (λ g, g ≠ f) l) as Hf by (intros l [? _]%list_elem_of_filter; done).
  unfold EnsureFinalizer. destruct (contains _ f) eqn:Hc; cbn [negb].
  - apply contains_true in Hc. rewrite Hrem by done.
    split_and!; rewrite ?meta_withMeta, ?statusOf_withMeta; try done.
    apply Hnone. rewrite meta_withMeta. apply Hf.
  - apply contains_false in Hc. rewrite Hrem by (rewrite meta_withMeta; set_solver).
    split_and!; rewrite ?meta_withMeta, ?statusOf_withMeta; cbn [SetFinalizers Finalizers]; try done; [set_solver| |].
    + by rewrite filter_app, filter_cons_False, filter_nil, app_nil_r by tauto.
    + apply Hnone. rewrite meta_withMeta. apply Hf.
Qed.

End FinalizerProperties.

(** The normal form of a message is stable: normalising it again changes
    nothing.  So the message kept in a status is its own normal form, and an
    error that quotes a recorded message is recognised as the same failure. *)
Theorem normalizeReconcileErrorMessage_idempotent (message : string) :
  normalizeReconcileErrorMessage (normalizeReconcileErrorMessage message) =
  normalizeReconcileErrorMessage message.
Proof.
  unfold normalizeReconcileErrorMessage.
  induction message as [s IH] using string_length_induction.
  destruct (matchRequestID s) as [[[g1 g2] rest]|] eqn:Hm.
  - rewrite (redact_match _ _ _ _ Hm).
    apply matchRequestID_inv in Hm as (q1 & q2 & ws & q3 & v & q4 & Hq & -> & -> & ->).
    rewrite (redact_match _ (matchHead q1 q2 ws q3) (String q4 "") (redact 0 rest)).
    + rewrite IH; [done|]. rewrite !string_length_app. cbn. lia.
    + apply (matchRequestID_Some q1 q2 ws q3 "<redacted>" q4). unfold isMatch in *. naive_solver.
  - destruct s as [|c s]; [done|]. rewrite redact_no_match by done.
    rewrite redact_no_match by (by apply redact_no_new_match). f_equal. apply IH. cbn. lia.
Qed.

(** ** Examples *)

Definition exQuoted (id : string) : string :=
  "{" +:+ doubleQuote +:+ "requestId" +:+ doubleQuote +:+ ": " +:+ doubleQuote +:+ id +:+
  doubleQuote +:+ "} failed".

Example normalize_example :
  normalizeReconcileErrorMessage (exQuoted "4f2a") = exQuoted "<redacted>".
Proof. by vm_compute. Qed.

Definition exMeta (name : string) : ObjectMeta :=
  {| MetaNamespace := "ziti"; MetaName := name; UID := "uid-" +:+ name; ResourceVersion := "7";
     Generation := 2; MetaCreationTimestamp := 5; DeletionTimestamp := None;
     Finalizers := []; OwnerReferences := [] |}.

Definition exCommon : CommonStatus :=
  {| StatusID := "id-1"; Conditions := []; ObservedGeneration := 1; LastError := "" |}.

Definition exZitiIdentity : obj KIdentity :=
  {| IdentityMeta := exMeta "ann";
     IdentitySpec := {| IdentitySpecName := "ann"; IdentitySpecType := "User";
       IdentitySpecRoleAttributes := []; Enrollment := {| CreateJWTSecret := false;
                                                          SpecJWTSecretName := "" |} |};
     IdentityStatus := {| IdentityCommon := exCommon; StatusJWTSecretName := "" |} |}.

(** A first failure is written and reported, and requeued with its error. *)
Lemma markFailed_correct_witness :
  let err := ErrorString (exQuoted "4f2a") in
  let p := @markFailed upsertConditions KIdentity _ true exZitiIdentity err "IdentitySyncFailed" true in
  ∃ t out, runs p t out ∧ length t = 5 ∧ out = (noResult, Some err).
Proof.
  intros err p.
  destruct (execWith quiet p) as [t a] eqn:E.
  assert (length t = 5 ∧ a = Some (noResult, Some err)) as [Hlen ->].
  { replace t with (fst (execWith quiet p)) by (by rewrite E).
    replace a with (snd (execWith quiet p)) by (by rewrite E). by vm_compute. }
  pose proof (execWith_runs quiet p t _ E) as Hruns.
  exists t, (noResult, Some err). split; [exact Hruns|].
  pose proof (@markFailed_correct upsertConditions upsertConditions_laws KIdentity _ true
    exZitiIdentity err "IdentitySyncFailed" true t (noResult, Some err) Hruns) as H.
  cbv zeta in H.
  rewrite (if_false (@hasMatchingFailureStatus upsertConditions _ _ _ _)) in H by (by vm_compute).
  split; [exact Hlen|]. destruct H as (?&?&?&?&[|]&?&_&_&_&_&_&_&H); [done|exact H].
Defined.
