(* ===== verification/Lifecycle.v ===== *)
(** * The life of a resource with a finalizer

    The three reconcilers that own backend objects (identities, services and
    access policies) share one shape: read the resource; when it is being
    deleted, remove the backend objects and then the finalizer; otherwise add
    the finalizer before anything else, and only then create backend objects.
    [lifecycle] is that shape, with the two parts that differ as arguments.
    Each controller's [Reconcile] is an instance of it (by computation), so the
    laws of this file are proved once. *)

From S2P Require Import Prelude GoSlices Errors ApiTypes World ReconcileHelpers.

#[local] Open Scope mz_scope.

Section Lifecycle.
Context {k : kind} `{!StatusResource k} (finalizer : string).
Context (reconcileDelete body : obj k → action outcome).

Definition lifecycle (req : NamespacedName) : action outcome :=
  let! r := do (Get Cached k req) in
  match r with
  | inl err => Ret (noResult, IgnoreNotFound err)
  | inr resource =>
      if negb (bool_decide (DeletionTimestamp (meta resource) = None)) then reconcileDelete resource
      else
        match EnsureFinalizer resource finalizer with
        | (true, resource) =>
            let! r := do (Update k resource) in
            match r with
            | inl err => Ret (noResult, Some err)
            | inr _ => Ret ({| Requeue := true; RequeueAfter := 0 |}, None)
            end
        | (false, resource) => body resource
        end
  end.

(** The resource is alive and carries the finalizer. *)
Definition guarded (resource : obj k) : Prop :=
  DeletionTimestamp (meta resource) = None ∧ finalizer ∈ Finalizers (meta resource).

(** The resource is being deleted and still carries the finalizer. *)
Definition dying (resource : obj k) : Prop :=
  DeletionTimestamp (meta resource) ≠ None ∧ finalizer ∈ Finalizers (meta resource).

(** The two updates of the object itself: the finalizer is added to a live
    resource, or removed from a dying one once its backend objects are [gone]. *)
Definition finalizerUpdate (resource o : obj k) (gone : Prop) : Prop :=
  (DeletionTimestamp (meta resource) = None ∧ finalizer ∉ Finalizers (meta resource) ∧
   o = withMeta (SetFinalizers (Finalizers (meta resource) ++ [finalizer]) (meta resource)) resource) ∨
  (dying resource ∧ o = snd (RemoveFinalizer resource finalizer) ∧ gone).

(** Every call of a run satisfies a guard when the reads do, the addition of
    the finalizer does, and the two parts do in their situations. *)
Lemma lifecycle_wp (Q : trace → op → Prop) req :
  (∀ h o, isRead o → Q h o) →
  (∀ resource o, finalizerUpdate resource o False →
     Q [ev (Get Cached k req) (inr resource)] (Update k o)) →
  (∀ resource, DeletionTimestamp (meta resource) ≠ None →
     wp Q (reconcileDelete resource) (λ _ _, True) [ev (Get Cached k req) (inr resource)]) →
  (∀ resource, guarded resource →
     wp Q (body resource) (λ _ _, True) [ev (Get Cached k req) (inr resource)]) →
  wp Q (lifecycle req) (λ _ _, True) [].
Proof.
  intros Hread Hupdate Hdelete Hbody. unfold lifecycle. cbn [bind do call wp app].
  split; [by apply Hread|]. intros [e|resource]; [done|]. case_test; reflect_bools; [by apply Hdelete|].
  unfold EnsureFinalizer. destruct (contains _ finalizer) eqn:Hc.
  - apply contains_true in Hc. by apply Hbody.
  - apply contains_false in Hc. cbn [bind do call wp]. split; [|by intros []].
    apply Hupdate. by left.
Qed.

Lemma lifecycle_no_panic req :
  (∀ resource, no_panic (reconcileDelete resource)) → (∀ resource, no_panic (body resource)) →
  no_panic (lifecycle req).
Proof.
  intros Hdelete Hbody. unfold lifecycle. cbn [bind do call no_panic]. intros [e|resource]; [done|].
  case_test; [done|]. destruct (EnsureFinalizer resource finalizer) as [[] o]; [|done].
  cbn. by intros [].
Qed.

End Lifecycle.

(** A write guard holds of the calls that are reads or status updates of the
    resource when it holds of these. *)
Lemma wp_status_writes {A} k (Q : trace → op → Prop) (p : action A) Φ h :
  (∀ h o, isStatusWrite k o → Q h o) → only (isStatusWrite k) p → (∀ h a, Φ a h) → wp Q p Φ h.
Proof. intros HQ Hp HΦ. by apply (wp_only (isStatusWrite k)); [|intros; apply HQ|]. Qed.

(** The run is about [s], the resource that was read first. *)
Definition started {k} (req : NamespacedName) (s : obj k) (h : trace) : Prop :=
  head h = Some (ev (Get Cached k req) (inr s)).

Lemma started_app {k} req (s : obj k) h t : started req s h → started req s (h ++ t).
Proof. unfold started. by destruct h. Qed.

(** A backend object with the ID [id] is gone: there was none, or [e], its
    deletion, was answered. *)
Definition gone (h : trace) (id : string) (e : event op resp) : Prop := id = "" ∨ e ∈ h.

Lemma gone_app h t id e : gone h id e → gone (h ++ t) id e.
Proof. intros [?|?]; [by left|right; apply elem_of_app; by left]. Qed.
Lemma gone_last h id e : gone (h ++ [e]) id e.
Proof. right. apply elem_of_app. right. by left. Qed.
#[export] Hint Resolve started_app gone_app gone_last : mz.

(** The event that ends a reconciliation is no write. *)
Lemma event_wp (Q : trace → op → Prop) recorder m ty reason message h :
  (∀ h o, isRead o → Q h o) →
  wp Q (let! _ := EmitEvent recorder m ty reason message in
    Ret ((noResult, None) : outcome)) (λ _ _, True) h.
Proof.
  intros HQ. apply wp_bind. apply (wp_only isRead); [apply EmitEvent_only|intros; by apply HQ|done].
Qed.
