(* ===== verification/Duration.v ===== *)
(** * Durations

    [time.ParseDuration] of the Go standard library, which reads the interval
    of a role sync.  A [time.Duration] is an [int64] of nanoseconds; the parser
    works on [uint64] values and uses [float64] only to scale a fraction, so
    the model uses integers with the checks written out and the IEEE 754
    binary64 operations of the Standard Library. *)

From Stdlib Require Import SpecFloat.
From S2P Require Import Prelude GoStrings.

Definition Nanosecond : Z := 1.
Definition Microsecond : Z := 1000.
Definition Millisecond : Z := 1000 * Microsecond.
Definition Second : Z := 1000 * Millisecond.
Definition Minute : Z := 60 * Second.
Definition Hour : Z := 60 * Minute.

Definition pow63 : Z := 2 ^ 63.
Definition pow64 : Z := 2 ^ 64.

Definition digitValue (c : ascii) : Z := byteZ c - 48.

(** [leadingInt]: the value of the leading digits and the rest. *)
Fixpoint leadingInt (x : Z) (s : string) : option (Z * string) :=
  match s with
  | String c s' =>
      if negb (isDigit c) then Some (x, s)
      else if (pow63 / 10 <? x)%Z then None
      else let x := (x * 10 + digitValue c)%Z in
           if (pow63 <? x)%Z then None else leadingInt x s'
  | "" => Some (x, s)
  end.

(** [float64] arithmetic. *)
Definition float64 (z : Z) : spec_float := binary_normalize 53 1024 z 0 false.
Definition floatMul : spec_float → spec_float → spec_float := SFmul 53 1024.
Definition floatDiv : spec_float → spec_float → spec_float := SFdiv 53 1024.

(** The conversion of a non-negative [float64] to [uint64]. *)
Definition floatToUint64 (f : spec_float) : Z :=
  match f with
  | S754_finite _ m e => if (0 <=? e)%Z then Z.shiftl (Zpos m) e else Z.shiftr (Zpos m) (- e)
  | _ => 0
  end.

(** [leadingFraction]: the digits, their scale and the rest. *)
Fixpoint leadingFraction (x : Z) (scale : spec_float) (overflow : bool) (s : string)
    : Z * spec_float * string :=
  match s with
  | String c s' =>
      if negb (isDigit c) then (x, scale, s)
      else if overflow then leadingFraction x scale overflow s'
      else if ((pow63 - 1) / 10 <? x)%Z then leadingFraction x scale true s'
      else let y := (x * 10 + digitValue c)%Z in
           if (pow63 <? y)%Z then leadingFraction x scale true s'
           else leadingFraction y (floatMul scale (float64 10)) overflow s'
  | "" => (x, scale, s)
  end.

(** The unit: everything up to the next digit or point. *)
Fixpoint leadingUnit (s : string) : string * string :=
  match s with
  | String c s' =>
      if (c =? ".")%char || isDigit c then ("", s)
      else let '(u, r) := leadingUnit s' in (String c u, r)
  | "" => ("", "")
  end.

(** [unitMap]; the micro sign is U+00B5 or U+03BC. *)
Definition unitMap (u : string) : option Z :=
  if bool_decide (u = "ns") then Some Nanosecond
  else if bool_decide (u = "us") then Some Microsecond
  else if bool_decide (u = String "194" (String "181" "s")) then Some Microsecond
  else if bool_decide (u = String "206" (String "188" "s")) then Some Microsecond
  else if bool_decide (u = "ms") then Some Millisecond
  else if bool_decide (u = "s") then Some Second
  else if bool_decide (u = "m") then Some Minute
  else if bool_decide (u = "h") then Some Hour
  else None.

(** One number with its unit: the nanoseconds and the rest. *)
Definition parseTerm (s : string) : option (Z * string) :=
  match s with
  | "" => None
  | String c _ =>
      if negb ((c =? ".")%char || isDigit c) then None else
      match leadingInt 0 s with
      | None => None
      | Some (v, s1) =>
          let pre := negb (Nat.eqb (String.length s) (String.length s1)) in
          let '(f, scale, s2, post) :=
            match s1 with
            | String "." s1' =>
                let '(f, scale, s2) := leadingFraction 0 (float64 1) false s1' in
                (f, scale, s2, negb (Nat.eqb (String.length s1') (String.length s2)))
            | _ => (0%Z, float64 1, s1, false)
            end in
          if negb pre && negb post then None else
          let '(u, s3) := leadingUnit s2 in
          if bool_decide (u = "") then None else
          match unitMap u with
          | None => None
          | Some unit =>
              if (pow63 / unit <? v)%Z then None else
              let v := (v * unit)%Z in
              if (0 <? f)%Z then
                let v := ((v + floatToUint64 (floatMul (float64 f) (floatDiv (float64 unit) scale)))
                          mod pow64)%Z in
                if (pow63 <? v)%Z then None else Some (v, s3)
              else Some (v, s3)
          end
      end
  end.

(** The loop over the terms: every term consumes a character, so [fuel] of the
    length of the text suffices. *)
Fixpoint parseTerms (fuel : nat) (d : Z) (s : string) : option Z :=
  match s, fuel with
  | "", _ => Some d
  | _, O => None
  | _, S fuel =>
      match parseTerm s with
      | None => None
      | Some (v, s) =>
          let d := ((d + v) mod pow64)%Z in
          if (pow63 <? d)%Z then None else parseTerms fuel d s
      end
  end.

(** [time.ParseDuration]; [None] is an error. *)
Definition ParseDuration (s : string) : option Z :=
  let '(neg, s) :=
    match s with
    | String "-" s' => (true, s')
    | String "+" s' => (false, s')
    | _ => (false, s)
    end in
  if bool_decide (s = "0") then Some 0%Z
  else if bool_decide (s = "") then None
  else
    match parseTerms (String.length s) 0 s with
    | None => None
    | Some d =>
        if neg then
          (* the negation of the int64 that d converts to: -2^63 stays *)
          Some (- d)%Z
        else if (pow63 - 1 <? d)%Z then None
        else Some d
    end.

(** ** Lemmas *)

#[local] Arguments String.append !_ _ : simpl nomatch.

Lemma pow63_pos : (0 < pow63)%Z.
Proof. done. Qed.

Lemma digitValue_range c : isDigit c = true → (0 <= digitValue c <= 9)%Z.
Proof. unfold isDigit, digitValue. intros H. reflect_bools. lia. Qed.

Lemma byteZ_range c : (0 <= byteZ c <= 255)%Z.
Proof. unfold byteZ. pose proof (N_ascii_bounded c). lia. Qed.

Lemma leadingInt_bounds s x v r :
  (0 <= x <= pow63)%Z → leadingInt x s = Some (v, r) →
  (0 <= v <= pow63)%Z ∧ String.length r ≤ String.length s.
Proof.
  revert x. induction s as [|c s IH]; cbn [leadingInt]; intros x Hx.
  - intros [= <- <-]. done.
  - destruct (isDigit c) eqn:Hc; cbn [negb]; [|by intros [= <- <-]].
    apply digitValue_range in Hc. destruct (_ <? x)%Z; [done|].
    destruct (_ <? _)%Z eqn:Hlt; [done|]. apply Z.ltb_ge in Hlt.
    intros [H1 H2]%IH; cbn; lia.
Qed.

Lemma leadingFraction_length s x f o v g r :
  leadingFraction x f o s = (v, g, r) → String.length r ≤ String.length s.
Proof.
  revert x f o. induction s as [|c s IH]; cbn [leadingFraction]; intros x f o.
  - by intros [= <- <- <-].
  - repeat case_test; try (by intros [= <- <- <-]); intros H%IH; cbn; lia.
Qed.

Lemma leadingUnit_length s u r :
  leadingUnit s = (u, r) → String.length s = String.length u + String.length r.
Proof.
  revert u r. induction s as [|c s IH]; cbn [leadingUnit]; intros u r.
  - by intros [= <- <-].
  - case_test; [by intros [= <- <-]|]. destruct (leadingUnit s) as [u' r'] eqn:E.
    intros [= <- <-]. cbn. by rewrite (IH u' r').
Qed.

Lemma unitMap_range u unit : unitMap u = Some unit → (1 <= unit <= Hour)%Z ∧ u ≠ "".
Proof.
  unfold unitMap. repeat case_bool_decide; try done; intros [= <-]; subst; done.
Qed.

Lemma parseTerm_bounds s v r :
  parseTerm s = Some (v, r) → (0 <= v <= pow63)%Z ∧ String.length r < String.length s.
Proof.
  unfold parseTerm. destruct s as [|c s0]; [done|]. set (s := String c s0).
  case_test; [done|]. destruct (leadingInt 0 s) as [[n s1]|] eqn:Hn; [|done].
  apply leadingInt_bounds in Hn as [Hn Hl1]; [|pose proof pow63_pos; lia].
  match goal with |- context [match ?m with (_, _) => _ end] => destruct m as [[[f sc] s2] post] eqn:Hm end.
  assert (String.length s2 ≤ String.length s1) as Hl2.
  { destruct s1 as [|a s1']; [by injection Hm as <- <- <- <-|].
    destruct (Ascii.eqb_spec a ".") as [->|Ha].
    - destruct (leadingFraction _ _ _ s1') as [[f' sc'] s2'] eqn:Hf.
      apply leadingFraction_length in Hf. injection Hm as <- <- <- <-. cbn. lia.
    - replace s2 with (String a s1'); [done|].
      destruct a as [[] [] [] [] [] [] [] []]; try done; by injection Hm. }
  case_test; [done|]. destruct (leadingUnit s2) as [u s3] eqn:Hu.
  apply leadingUnit_length in Hu. case_test; [done|].
  destruct (unitMap u) as [unit|] eqn:Hunit; [|done]. apply unitMap_range in Hunit as [Hunit Hne].
  assert (0 < String.length u) by (destruct u; cbn; [done|lia]).
  destruct (_ <? n)%Z eqn:Hlt; [done|]. apply Z.ltb_ge in Hlt.
  assert (n * unit <= pow63)%Z.
  { transitivity (pow63 / unit * unit)%Z; [nia|]. rewrite Z.mul_comm. apply Z.mul_div_le. lia. }
  case_test.
  - destruct (pow63 <? _)%Z eqn:Hlt2; [done|]. apply Z.ltb_ge in Hlt2. intros [= <- <-].
    split; [|lia]. split; [|done]. by apply Z.mod_pos_bound.
  - intros [= <- <-]. split; [nia|lia].
Qed.

Lemma parseTerms_bounds fuel d s r :
  (0 <= d <= pow63)%Z → parseTerms fuel d s = Some r → (0 <= r <= pow63)%Z.
Proof.
  revert d s. induction fuel as [|fuel IH]; intros d s Hd; destruct s as [|c s]; cbn [parseTerms];
    try (by intros [= <-]); try done.
  destruct (parseTerm _) as [[v s']|]; [|done]. destruct (_ <? _)%Z eqn:Hlt; [done|].
  apply Z.ltb_ge in Hlt. apply IH. split; [|done]. by apply Z.mod_pos_bound.
Qed.

(** The fuel is enough: more of it changes nothing. *)
Lemma parseTerms_fuel fuel d s :
  String.length s ≤ fuel → parseTerms fuel d s = parseTerms (String.length s) d s.
Proof.
  revert d s. induction fuel as [fuel IH] using lt_wf_ind. intros d s Hf.
  destruct s as [|c s]; [by destruct fuel|]. destruct fuel as [|fuel]; [cbn in Hf; lia|].
  cbn [parseTerms String.length]. destruct (parseTerm (String c s)) as [[v r]|] eqn:E; [|done].
  apply parseTerm_bounds in E as [_ E]. cbn in E, Hf. case_test; [done|].
  rewrite (IH fuel), (IH (String.length s)) by lia. done.
Qed.

(** ** Whole numbers of a unit *)

Fixpoint allDigits (s : string) : bool :=
  match s with "" => true | String c s => isDigit c && allDigits s end.

(** The number written in decimal, after [x]. *)
Fixpoint decimal (x : Z) (s : string) : Z :=
  match s with "" => x | String c s => decimal (x * 10 + digitValue c) s end.

Lemma decimal_ge s x : allDigits s = true → (0 <= x)%Z → (x <= decimal x s)%Z.
Proof.
  revert x. induction s as [|c s IH]; cbn; intros x Hs Hx; [lia|].
  apply andb_true_iff in Hs as [Hc Hs]. apply digitValue_range in Hc.
  specialize (IH (x * 10 + digitValue c)%Z Hs). lia.
Qed.

Lemma leadingInt_digits s x r :
  allDigits s = true → (0 <= x <= pow63)%Z →
  match r with String c _ => isDigit c = false | "" => True end →
  leadingInt x (s +:+ r) = if (decimal x s <=? pow63)%Z then Some (decimal x s, r) else None.
Proof.
  intros Hs Hx Hr. revert x Hs Hx. induction s as [|c s IH]; cbn; intros x Hs Hx.
  - rewrite if_true by lia. destruct r as [|c r]; cbn; [done|]. by rewrite Hr.
  - apply andb_true_iff in Hs as [Hc Hs]. rewrite Hc. cbn [negb].
    apply digitValue_range in Hc.
    pose proof (decimal_ge s (x * 10 + digitValue c) Hs ltac:(lia)) as Hge.
    assert (10 * (pow63 / 10) + 8 = pow63)%Z by done.
    destruct (_ <? x)%Z eqn:E1; [by rewrite (if_false (_ <=? _)%Z) by lia|].
    destruct (pow63 <? _)%Z eqn:E2; [by rewrite (if_false (_ <=? _)%Z) by lia|].
    apply IH; [done|lia].
Qed.

Lemma unitMap_text u unit :
  unitMap u = Some unit →
  leadingUnit u = (u, "") ∧
  match u with String c _ => isDigit c = false ∧ c ≠ "."%char | "" => True end.
Proof. unfold unitMap. repeat case_bool_decide; try done; by subst. Qed.

Lemma parseTerm_whole ds u unit :
  allDigits ds = true → ds ≠ "" → unitMap u = Some unit →
  parseTerm (ds +:+ u) =
    if (decimal 0 ds * unit <=? pow63)%Z then Some (decimal 0 ds * unit, "")%Z else None.
Proof.
  intros Hds Hne Hu. pose proof (unitMap_text _ _ Hu) as [Hlu Hhead].
  pose proof (unitMap_range _ _ Hu) as [Hunit Hune].
  pose proof (decimal_ge ds 0 Hds ltac:(lia)) as Hpos.
  assert (leadingInt 0 (ds +:+ u) = if (decimal 0 ds <=? pow63)%Z then Some (decimal 0 ds, u) else None)
    as Hint.
  { apply leadingInt_digits; [done|by pose proof pow63_pos; lia|]. destruct u; naive_solver. }
  unfold parseTerm. destruct ds as [|c ds]; [done|]. cbn [String.append] in *.
  assert (isDigit c = true) as Hc by (cbn in Hds; by reflect_bools).
  rewrite Hc, orb_true_r, Hint. cbn [negb].
  destruct (decimal 0 (String c ds) <=? pow63)%Z eqn:Hle; cycle 1.
  { rewrite if_false; [done|]. apply Z.leb_gt in Hle. apply Z.leb_gt. nia. }
  destruct u as [|a u]; [done|]. destruct Hhead as [_ Ha].
  assert (∀ X Y : Z * spec_float * string * bool,
    match a with "."%char => X | _ => Y end = Y) as Hdot
    by (intros; destruct a as [[] [] [] [] [] [] [] []]; done).
  rewrite Hdot, Hlu. rewrite (bool_decide_false (String a u = "")) by done. rewrite Hu.
  replace (Nat.eqb _ _) with false; cycle 1.
  { symmetry. apply Nat.eqb_neq. cbn [String.length]. rewrite string_length_app. cbn. lia. }
  cbn [negb andb]. assert ((0 <? 0)%Z = false) as -> by done.
  assert ((pow63 / unit <? decimal 0 (String c ds)) = negb (decimal 0 (String c ds) * unit <=? pow63))%Z
    as ->.
  { apply Bool.eq_iff_eq_true. rewrite negb_true_iff, Z.ltb_lt, Z.leb_gt.
    rewrite Z.mul_comm. split.
    - intros H. apply Z.lt_nge. intros H2. apply Z.div_le_lower_bound in H2; lia.
    - intros H. apply Z.div_lt_upper_bound; lia. }
  by destruct (_ * unit <=? pow63)%Z.
Qed.

Lemma ParseDuration_text ds u unit :
  allDigits ds = true → ds ≠ "" → unitMap u = Some unit →
  ParseDuration (ds +:+ u) =
    if (decimal 0 ds * unit <=? pow63 - 1)%Z then Some (decimal 0 ds * unit)%Z else None.
Proof.
  intros Hds Hne Hu. pose proof (parseTerm_whole _ _ _ Hds Hne Hu) as Hterm.
  pose proof (unitMap_range _ _ Hu) as [Hunit Hune].
  pose proof (decimal_ge ds 0 Hds ltac:(lia)) as Hpos.
  unfold ParseDuration. destruct ds as [|c ds]; [done|]. cbn [String.append] in *.
  assert (isDigit c = true) as Hc by (cbn in Hds; by reflect_bools).
  assert (∀ X Y Z : bool * string,
    match c with "-"%char => X | "+"%char => Y | _ => Z end = Z) as Hsign
    by (intros; destruct c as [[] [] [] [] [] [] [] []]; done).
  rewrite Hsign. rewrite bool_decide_false; cycle 1.
  { intros [= _ E]. destruct ds; [|done]. cbn in E. by subst. }
  rewrite bool_decide_false by done. cbn [String.length parseTerms]. rewrite Hterm.
  destruct (_ <=? pow63)%Z eqn:Hle; cycle 1.
  { rewrite if_false; [done|]. apply Z.leb_gt in Hle. apply Z.leb_gt. lia. }
  apply Z.leb_le in Hle. rewrite Z.add_0_l, Z.mod_small by (unfold pow64, pow63 in *; lia).
  rewrite if_false by lia.
  replace (parseTerms _ _ "") with (Some (decimal 0 (String c ds) * unit)%Z)
    by (by destruct (String.length (ds +:+ u))).
  destruct (_ <=? pow63 - 1)%Z eqn:Hle2.
  - by rewrite if_false by lia.
  - by rewrite if_true by lia.
Qed.

Lemma ParseDuration_range s d : ParseDuration s = Some d → (- pow63 <= d <= pow63 - 1)%Z.
Proof.
  unfold ParseDuration. pose proof pow63_pos.
  match goal with |- context [match ?m with (_, _) => _ end] => destruct m as [neg r] end.
  case_test; [by intros [= <-]|]. case_test; [done|].
  destruct (parseTerms _ _ _) as [v|] eqn:E; [|done].
  apply parseTerms_bounds in E; [|lia]. destruct neg; [intros [= <-]; lia|].
  case_test; [done|]. intros [= <-]. lia.
Qed.

Example ParseDuration_examples :
  ParseDuration "10m" = Some (10 * Minute)%Z ∧
  ParseDuration "1h30m" = Some (90 * Minute)%Z ∧
  ParseDuration "1.5h" = Some (90 * Minute)%Z ∧
  ParseDuration "-2us" = Some (-2000)%Z ∧
  ParseDuration "0" = Some 0%Z ∧
  ParseDuration "0.3333333333333333333h" = Some 1200000000000%Z ∧
  ParseDuration "9223372036854775807ns" = Some (pow63 - 1)%Z ∧
  ParseDuration "9223372036854775808ns" = None ∧
  ParseDuration ".m" = None ∧ ParseDuration "3" = None ∧ ParseDuration "" = None.
Proof. by vm_compute. Qed.

(** Whole numbers of a unit are read exactly, and nothing overflows: the
    digits [ds] followed by one of the units denote their decimal value times
    the unit when that fits an [int64] and are an error otherwise; and every
    duration the parser accepts, whatever its text, fits an [int64]. *)
Theorem ParseDuration_whole (ds u : string) (unit : Z) :
  allDigits ds = true → ds ≠ "" → unitMap u = Some unit →
  ParseDuration (ds +:+ u) =
    (if (decimal 0 ds * unit <=? pow63 - 1)%Z then Some (decimal 0 ds * unit)%Z else None) ∧
  ∀ s d, ParseDuration s = Some d → (- pow63 <= d <= pow63 - 1)%Z.
Proof.
  intros Hds Hne Hu. split.
  - apply ParseDuration_text; done.
  - apply ParseDuration_range.
Qed.

Lemma ParseDuration_whole_witness :
  ParseDuration "10m" = Some (10 * Minute)%Z ∧ ParseDuration "99999999999999999999h" = None.
Proof.
  split.
  - change "10m" with ("10" +:+ "m")%string.
    rewrite (proj1 (ParseDuration_whole "10" "m" Minute eq_refl ltac:(discriminate) eq_refl)).
    by vm_compute.
  - change "99999999999999999999h" with ("99999999999999999999" +:+ "h")%string.
    rewrite (proj1 (ParseDuration_whole "99999999999999999999" "h" Hour eq_refl
      ltac:(discriminate) eq_refl)).
    by vm_compute.
Defined.
