(* ===== verification/RoleSyncReads.v ===== *)
(** * Role sync: validation and reads

    [internal/controller/zitientrarolesync_reads.go]: what a run of the role
    sync reads before it writes (its spec, the credentials, the directory, the
    claims of every role sync and the owners of identities) and the record of
    its own claims, which comes before the first write to an identity. *)

From S2P Require Import Prelude GoSlices GoStrings Errors Entra Ownership Scope ZitiTypes.
From S2P Require Import Planner ApiTypes World Duration.

#[local] Open Scope mz_scope.

(** ** The spec *)

Definition isHex (c : ascii) : bool :=
  isDigit c || ((97 <=? byteZ c)%Z && (byteZ c <=? 102)%Z)
            || ((65 <=? byteZ c)%Z && (byteZ c <=? 70)%Z).

(** What follows [n] hexadecimal digits. *)
Fixpoint hexDigitsThen (n : nat) (s : string) : option string :=
  match n, s with
  | O, _ => Some s
  | S n, String c s' => if isHex c then hexDigitsThen n s' else None
  | S _, "" => None
  end.

(** Groups of hexadecimal digits of the given lengths, separated by dashes, and
    nothing else. *)
Fixpoint hexGroups (groups : list nat) (s : string) : bool :=
  match groups with
  | [] => false
  | [n] => bool_decide (hexDigitsThen n s = Some "")
  | n :: groups =>
      match hexDigitsThen n s with
      | Some (String "-" s') => hexGroups groups s'
      | _ => false
      end
  end.

(** [roleSyncGUID.MatchString] *)
Definition roleSyncGUID (s : string) : bool := hexGroups [8; 4; 4; 4; 12] s.

(** [validateRoleSyncSpec]: the interval and the error, which is [None] for nil. *)
Definition validateRoleSyncSpec (resource : ZitiEntraRoleSync) : Z * option error :=
  let spec := SyncSpec resource in
  let interval := (10 * Minute)%Z in
  let checks (interval : Z) :=
    if (interval <? Minute)%Z
    then ((10 * Minute)%Z, Some (ErrorString "sync interval must be at least 1m"))
    else if negb (roleSyncGUID (TenantID spec)) || negb (roleSyncGUID (AppID spec))
    then (interval, Some (ErrorString "tenantId and appId must be GUIDs"))
    else if bool_decide (CredentialsSecretName spec = "")
    then (interval, Some (ErrorString "credentials Secret name is required"))
    else if negb (contains [""; "mail"; "userPrincipalName"; "id"] (SpecUserProperty spec))
    then (interval, Some (ErrorString "unsupported userProperty"))
    else (interval, None) in
  if negb (bool_decide (Interval spec = "")) then
    match ParseDuration (Interval spec) with
    | None => (interval, Some (ErrorString "invalid sync interval"))
    | Some parsed => checks parsed
    end
  else checks interval.

(** ** The directory *)

(** [readDirectory] *)
Definition readDirectory (resource : ZitiEntraRoleSync) : action (result directory) :=
  let! r := do (Get Cached KSecret
     {| KeyNamespace := MetaNamespace (SyncMeta resource);
        KeyName := CredentialsSecretName (SyncSpec resource) |}) in
  match r with
  | inl err => Ret (inl (WrapError "read Entra credentials Secret" err))
  | inr secret =>
      let id := default "" (Data secret !! "clientId") in
      let key := default "" (Data secret !! "clientSecret") in
      if bool_decide (id = "") || bool_decide (key = "")
      then Ret (inl (ErrorString "credentials Secret requires clientId and clientSecret"))
      else Ret (inr {| DirTenantID := TenantID (SyncSpec resource); DirClientID := id;
                       DirClientSecret := key |})
  end.

(** [rolesync.Input{MembersByGroup: map[string][]entra.User{}}] with the scope
    and the members that were read; the caller fills in the rest. *)
Definition graphInput (scope : RoleScope) (members : gmap string (list User)) : Input :=
  {| InScope := scope; MembersByGroup := members; Identities := []; IdentityOwners := [];
     InSelf := {| Resource := {| Namespace := ""; Name := "" |}; CreationTimestamp := 0;
                  ManagedAttributes := [] |};
     OtherClaims := []; UserProperty := "" |}.

(** The loop of [readGraph] over the groups of the scope. *)
Fixpoint readGroups (d : directory) (ids : strs) (members : gmap string (list User))
    : action (result (gmap string (list User))) :=
  match ids with
  | [] => Ret (inr members)
  | id :: ids =>
      let! r := do (Dir d (OpListGroupUsers id)) in
      match r with
      | inl err => Ret (inl err)
      | inr users =>
          if existsb (λ user, bool_decide (UserPrincipalName user = "")) users
          then Ret (inl ErrLimitedUserData)
          else readGroups d ids (<[id := users]> members)
      end
  end.

(** [readGraph] *)
Definition readGraph (d : directory) (resource : ZitiEntraRoleSync) : action (result Input) :=
  let! r := do (Dir d (OpGetServicePrincipal (AppID (SyncSpec resource)))) in
  match r with
  | inl err => Ret (inl err)
  | inr None => Ret (inl (ErrorString "graph returned no service principal"))
  | inr (Some principal) =>
      let! r := do (Dir d (OpListAppRoleAssignedTo (PrincipalObjectID principal))) in
      match r with
      | inl err => Ret (inl err)
      | inr assignments =>
          match ResolveRoleScope principal assignments with
          | inl err => Ret (inl err)
          | inr scope =>
              let! r := readGroups d (GroupIDs scope) ∅ in
              match r with
              | inl err => Ret (inl err)
              | inr members => Ret (inr (graphInput scope members))
              end
          end
      end
  end.

(** ** Claims *)

(** [roleClaim] *)
Definition roleClaim (resource : ZitiEntraRoleSync) : SyncClaim :=
  {| Resource := {| Namespace := MetaNamespace (SyncMeta resource);
                    Name := MetaName (SyncMeta resource) |};
     CreationTimestamp := MetaCreationTimestamp (SyncMeta resource);
     ManagedAttributes := StatusManagedAttributes (SyncStatus resource) |}.

(** [readRoleSync] *)
Definition readRoleSync (resource : ZitiEntraRoleSync) : action (result ZitiEntraRoleSync) :=
  let! r := do (Get APIReader KRoleSync (ObjectKeyFromObject (SyncMeta resource))) in
  match r with
  | inl err => Ret (inl err)
  | inr current =>
      if negb (bool_decide (UID (SyncMeta current) = UID (SyncMeta resource))) ||
         negb (bool_decide (DeletionTimestamp (SyncMeta current) = None))
      then Ret (inl (ErrorString "role sync resource was replaced or is deleting"))
      else Ret (inr current)
  end.

(** The claims of the other resources, and the owners of identities. *)
Definition otherClaims (resource : ZitiEntraRoleSync) (items : list ZitiEntraRoleSync)
    : list SyncClaim :=
  roleClaim <$> filter (λ item, ObjectKeyFromObject (SyncMeta item) ≠
                                ObjectKeyFromObject (SyncMeta resource)) items.

Definition identityOwner (identity : ZitiIdentity) : IdentityOwner :=
  {| OwnerResource := {| Namespace := MetaNamespace (IdentityMeta identity);
                         Name := MetaName (IdentityMeta identity) |};
     OwnerIdentityID := StatusID (IdentityCommon (IdentityStatus identity));
     OwnerIdentityName := IdentitySpecName (IdentitySpec identity) |}.

(** [readOwnership] *)
Definition readOwnership (resource : ZitiEntraRoleSync)
    : action (result (SyncClaim * list SyncClaim * list IdentityOwner)) :=
  let! r := readRoleSync resource in
  match r with
  | inl err => Ret (inl err)
  | inr self =>
      let! r := do (List APIReader KRoleSync None) in
      match r with
      | inl err => Ret (inl err)
      | inr syncs =>
          let! r := do (List APIReader KIdentity None) in
          match r with
          | inl err => Ret (inl err)
          | inr identities =>
              Ret (inr (roleClaim self, otherClaims resource syncs, identityOwner <$> identities))
          end
      end
  end.

(** [sameRoleSet] *)
Definition sameRoleSet (a b : strs) : bool :=
  slices_equal (slices_compact (slices_sort a)) (slices_compact (slices_sort b)).

Definition setManagedAttributes (values : strs) (r : ZitiEntraRoleSync) : ZitiEntraRoleSync :=
  let s := SyncStatus r in
  {| SyncMeta := SyncMeta r; SyncSpec := SyncSpec r; SyncStatus :=
     {| SyncCommon := SyncCommon s; LastSyncTime := LastSyncTime s;
        StatusManagedAttributes := values; StatusMatchedIdentities := StatusMatchedIdentities s;
        StatusIdentitiesUpdated := StatusIdentitiesUpdated s;
        StatusMembersWithoutIdentity := StatusMembersWithoutIdentity s;
        StatusUnmatchedMembers := StatusUnmatchedMembers s |} |}.

Definition setSyncVersion (v : string) (r : ZitiEntraRoleSync) : ZitiEntraRoleSync :=
  {| SyncMeta := setResourceVersion v (SyncMeta r); SyncSpec := SyncSpec r;
     SyncStatus := SyncStatus r |}.

(** [recordRoleClaims]: the resource, whose version and claims it updates, and
    the error. *)
Definition recordRoleClaims (resource : ZitiEntraRoleSync) (self : SyncClaim) (values : strs)
    : action (ZitiEntraRoleSync * option error) :=
  if sameRoleSet (ManagedAttributes self) values then Ret (resource, None)
  else
    let! r := readRoleSync resource in
    match r with
    | inl err => Ret (resource, Some err)
    | inr current =>
        if negb (sameRoleSet (StatusManagedAttributes (SyncStatus current)) (ManagedAttributes self))
        then Ret (resource, Some (ErrorString "recorded claims changed during sync"))
        else
          let! r := do (StatusUpdate KRoleSync (setManagedAttributes values current)) in
          match r with
          | inl err => Ret (resource, Some err)
          | inr current =>
              Ret (setManagedAttributes values
                     (setSyncVersion (ResourceVersion (SyncMeta current)) resource), None)
          end
    end.
