(* ===== verification/RoleSyncWrites.v ===== *)
(** * Role sync: the write phase

    [internal/controller/zitientrarolesync_writes.go]: the patches of a plan,
    each preceded by fresh reads of the identity and of every claim. *)

From S2P Require Import Prelude GoSlices GoStrings Errors Entra Ownership Scope ZitiTypes.
From S2P Require Import Planner Retirement ApiTypes World ReconcileHelpers Duration.
From S2P Require Import RoleSyncReads.

#[local] Open Scope mz_scope.

(** [roleChanges] *)
Definition roleChanges (before after : strs) : strs * strs :=
  let added := filter (λ value, contains before value = false) after in
  let removed := filter (λ value, contains after value = false) before in
  (slices_compact (slices_sort added), slices_compact (slices_sort removed)).

(** The [%v] verb for a slice of strings. *)
Definition formatSlice (l : strs) : string := "[" +:+ GoStrings.Join l " " +:+ "]".

Section Writes.
Context `{UnicodeTables} (recorder : bool).

Definition outcomeOf (id : string) (kind : OutcomeKind) (attrs : strs) (err : option error)
    (conflicts : strs) : IdentityOutcome :=
  {| OutcomeIdentityID := id; Kind := kind; OutcomeRoleAttributes := attrs; OutcomeErr := err;
     ConflictValues := conflicts |}.

(** [applyRolePatch] *)
Definition applyRolePatch (resource : ZitiEntraRoleSync) (plan : PlanResult) (patch : IdentityPatch)
    : action IdentityOutcome :=
  let outcome kind attrs err conflicts := outcomeOf (PatchIdentityID patch) kind attrs err conflicts in
  let! r := ziti (OpGetIdentity (PatchIdentityID patch)) in
  match r with
  | inl err => Ret (outcome Failed [] (Some err) [])
  | inr fresh =>
      let attrs := match fresh with Some f => IdentRoleAttributes f | None => [] end in
      let! r := readOwnership resource in
      match r with
      | inl err => Ret (outcome Failed attrs (Some err) [])
      | inr (self, others, owners) =>
          let ownership := ResolveOwnership
            {| Self := self; Candidates := ManagedValues plan; Others := others |} in
          if bool_decide (0 < length (Conflicts ownership))
          then Ret (outcome Conflicted attrs None (Conflicts ownership))
          else
            match fresh with
            | None => Ret (outcome Deleted attrs None [])
            | Some f =>
                if IdentityOwned f owners || bool_decide (IdentExternalID f = "") ||
                   negb (EqualFold (IdentExternalID f) (PatchExternalID patch))
                then Ret (outcome Skipped attrs None [])
                else
                  let next := MergeAttributes (IdentRoleAttributes f) (ManagedValues plan)
                                (GrantedAttributes patch) in
                  if sameRoleSet (IdentRoleAttributes f) next
                  then Ret (outcome Observed attrs None [])
                  else
                    let! err := do CtxErr in
                    match err with
                    | Some err => Ret (outcome Failed attrs (Some err) [])
                    | None =>
                        let! r := ziti (OpPatchIdentityRoleAttributes (PatchIdentityID patch) next) in
                        match r with
                        | inl err => Ret (outcome Failed attrs (Some err) [])
                        | inr tt =>
                            let '(added, removed) := roleChanges (IdentRoleAttributes f) next in
                            let! _ := EmitEvent recorder (SyncMeta resource) EventTypeNormal
                              "RoleAttributesUpdated"
                              ("Identity " +:+ PatchIdentityID patch +:+ " (externalId=" +:+
                               Quote (IdentExternalID f) +:+ "): added=" +:+ formatSlice added +:+
                               " removed=" +:+ formatSlice removed) in
                            Ret (outcome Patched next None [])
                        end
                    end
            end
      end
  end.

(** [writeRolePlan]; the loop stops at a cancelled context, a conflict or an
    outcome that carries the cancellation. *)
Fixpoint writePatches (resource : ZitiEntraRoleSync) (plan : PlanResult)
    (patches : list IdentityPatch) (outcomes : list IdentityOutcome) : action (list IdentityOutcome) :=
  match patches with
  | [] =>
      let! err := do CtxErr in
      match err with
      | Some err => Ret (outcomes ++ [outcomeOf "" Failed [] (Some err) []])
      | None => Ret outcomes
      end
  | patch :: patches =>
      let! err := do CtxErr in
      match err with
      | Some err => Ret (outcomes ++ [outcomeOf (PatchIdentityID patch) Failed [] (Some err) []])
      | None =>
          let! outcome := applyRolePatch resource plan patch in
          if StopsWrites outcome then Ret (outcomes ++ [outcome])
          else writePatches resource plan patches (outcomes ++ [outcome])
      end
  end.

Definition writeRolePlan (resource : ZitiEntraRoleSync) (plan : PlanResult)
    : action (list IdentityOutcome) := writePatches resource plan (Patches plan) [].

End Writes.
