(* ===== verification/RoleSyncStatus.v ===== *)
(** * Role sync: the status and the retry

    [internal/controller/zitientrarolesync_status.go]: how the result of a run
    is persisted, and when the resource is reconciled again. *)

From S2P Require Import Prelude GoSlices GoStrings Errors Entra Ownership Scope ZitiTypes.
From S2P Require Import Planner Retirement ApiTypes World ReconcileHelpers Duration.
From S2P Require Import RoleSyncReads.

#[local] Open Scope mz_scope.

(** [syncRunResult]; [RunErr] is [None] for nil. *)
Record syncRunResult := {
  RunPlan : option PlanResult;
  RunCompletion : option Completion;
  WritePhaseStarted : bool;
  RunReason : string;
  RunErr : option error;
  RunRetryAfter : Z;
}.

Definition runFailure (reason : string) (err : error) (retryAfter : Z) : syncRunResult :=
  {| RunPlan := None; RunCompletion := None; WritePhaseStarted := false; RunReason := reason;
     RunErr := Some err; RunRetryAfter := retryAfter |}.

(** [graphRunFailure] *)
Definition graphRunFailure (err : error) : syncRunResult :=
  let retryAfter := match asGraphError err with Some g => GraphRetryAfter g | None => 0%Z end in
  let retryAfter := match asTokenError err with Some t => TokenRetryAfter t | None => retryAfter end in
  runFailure "GraphError" err retryAfter.

(** [roleSyncMessage] *)
Definition roleSyncMessage (result : syncRunResult) : string :=
  match RunErr result with
  | Some err => normalizeReconcileErrorMessage (Error err)
  | None =>
      let reason := RunReason result in
      if bool_decide (reason = "Synced") then "Entra role attributes are synchronized"
      else if bool_decide (reason = "CleanupPending")
      then "Retired attributes remain on skipped identities"
      else if bool_decide (reason = "WouldRemoveAll")
      then "Refusing to remove every managed attribute from eligible identities"
      else if bool_decide (reason = "Conflict") then
        match RunCompletion result with
        | Some c => "Attributes owned by another role sync: " +:+
                    GoStrings.Join (DoneConflictValues c) ", "
        | None => "Another role sync owns a managed attribute"
        end
      else reason
  end.

(** [updateRoleSyncCounters] *)
Definition updateRoleSyncCounters (status : ZitiEntraRoleSyncStatus) (plan : PlanResult)
    (completion : Completion) : ZitiEntraRoleSyncStatus :=
  {| SyncCommon := SyncCommon status; LastSyncTime := LastSyncTime status;
     StatusManagedAttributes := StatusManagedAttributes status;
     StatusMatchedIdentities := MatchedIdentities plan;
     StatusIdentitiesUpdated := IdentitiesUpdated completion;
     StatusMembersWithoutIdentity := MembersWithoutIdentity plan;
     StatusUnmatchedMembers :=
       (λ m, {| MemberID := UnmatchedID m; MemberDisplayName := UnmatchedDisplayName m;
                MemberExternalID := UnmatchedExternalID m; MemberReason := UnmatchedReason m |})
       <$> take 50 (UnmatchedMembers plan) |}.

Definition withSyncStatus (s : ZitiEntraRoleSyncStatus) (r : ZitiEntraRoleSync) : ZitiEntraRoleSync :=
  {| SyncMeta := SyncMeta r; SyncSpec := SyncSpec r; SyncStatus := s |}.

(** The fields of the status that [persistSyncResult] assigns from the
    completion; [now] is the time of the sync. *)
Definition setSyncFields (claims : strs) (time : option Z) (s : ZitiEntraRoleSyncStatus)
    : ZitiEntraRoleSyncStatus :=
  {| SyncCommon := SyncCommon s; LastSyncTime := time; StatusManagedAttributes := claims;
     StatusMatchedIdentities := StatusMatchedIdentities s;
     StatusIdentitiesUpdated := StatusIdentitiesUpdated s;
     StatusMembersWithoutIdentity := StatusMembersWithoutIdentity s;
     StatusUnmatchedMembers := StatusUnmatchedMembers s |}.

Section Status.
Context `{MetaConditions} (recorder : bool).

(** The body of the loop of [setRoleSyncConditions]. *)
Definition setSyncCondition (current : obj KRoleSync) (generation : Z)
    (type status reason message : string) : action (obj KRoleSync) :=
  let! now := do Now in
  Ret (setStatus current
    {| CondType := type; CondStatus := status; CondReason := reason; CondMessage := message;
       CondObservedGeneration := generation; CondLastTransitionTime := now |}).

(** [setRoleSyncConditions] *)
Definition setRoleSyncConditions (current : obj KRoleSync) (generation : Z)
    (reason message : string) (ready : bool) : action (obj KRoleSync) :=
  let readyStatus := if ready then ConditionTrue else ConditionFalse in
  let degradedStatus := if ready then ConditionFalse else ConditionTrue in
  let reconcilingReason := if ready then "Reconciled" else reason in
  let degradedReason := if ready then "AsExpected" else reason in
  let! current := setSyncCondition current generation ConditionTypeReady readyStatus reason message in
  let! current := setSyncCondition current generation ConditionTypeReconciling ConditionFalse
                    reconcilingReason message in
  setSyncCondition current generation ConditionTypeDegraded degradedStatus degradedReason message.

(** [result.Completion != nil && result.Completion.Ready] *)
Definition runReady (result : syncRunResult) : bool :=
  match RunCompletion result with Some c => Ready c | None => false end.

(** The assignments of the completion to the status. *)
Definition applyCompletion (current : obj KRoleSync) (result : syncRunResult) : action (obj KRoleSync) :=
  match RunCompletion result with
  | None => Ret current
  | Some c =>
      if AdvanceLastSyncTime c then
        let! now := do Now in
        Ret (withSyncStatus (setSyncFields (DoneManagedAttributes c) (Some now)
                               (SyncStatus current)) current)
      else Ret (withSyncStatus (setSyncFields (DoneManagedAttributes c)
                                  (LastSyncTime (SyncStatus current)) (SyncStatus current)) current)
  end.

Definition applyCounters (current : obj KRoleSync) (result : syncRunResult) : obj KRoleSync :=
  match WritePhaseStarted result, RunPlan result, RunCompletion result with
  | true, Some plan, Some c =>
      withSyncStatus (updateRoleSyncCounters (SyncStatus current) plan c) current
  | _, _, _ => current
  end.

(** [persistSyncResult]: the error.  The caller does not use the resource
    afterwards. *)
Definition persistSyncResult (resource : ZitiEntraRoleSync) (result : syncRunResult)
    : action (option error) :=
  let! r := readRoleSync resource in
  match r with
  | inl err => Ret (Some err)
  | inr current =>
      let previous := SyncStatus current in
      let ready := runReady result in
      let message := roleSyncMessage result in
      let generation := Generation (SyncMeta resource) in
      let repeatedFailure := negb ready &&
        hasMatchingFailureStatus (SyncCommon (SyncStatus current)) generation (RunReason result)
          message in
      let current : obj KRoleSync :=
        withCommon (setObserved generation (if ready then "" else message)
          (setStatusID "" (SyncCommon (SyncStatus current)))) (current : obj KRoleSync) in
      let! current := applyCompletion current result in
      let current := applyCounters current result in
      let! current := setRoleSyncConditions current generation (RunReason result) message ready in
      let emit :=
        if negb ready && negb repeatedFailure
        then let! _ := EmitEvent recorder (SyncMeta resource) EventTypeWarning (RunReason result)
                         message in
             Ret None
        else Ret None in
      if negb (bool_decide (previous = SyncStatus current)) then
        let! r := do (StatusUpdate KRoleSync current) in
        match r with
        | inl err => Ret (Some err)
        | inr _ => emit
        end
      else emit
  end.

End Status.

(** [retryResult] *)
Definition retryResult (interval : Z) (reason : string) (err : option error) (retryAfter : Z)
    : outcome :=
  let atInterval := ({| Requeue := false; RequeueAfter := interval |}, None) in
  let failure :=
    (noResult, Some match err with
                    | Some e => e
                    | None => ErrorString ("role sync failed: " +:+ reason)
                    end) in
  if contains ["Synced"; "CleanupPending"; "InvalidSpec"; "Conflict"; "WouldRemoveAll"] reason
  then atInterval
  else if bool_decide (reason = "GraphError") then
    match err with
    | None => failure
    | Some e =>
        if errorsIs e ErrServicePrincipalNotFound || errorsIs e ErrLimitedUserData ||
           errorsIs e ErrNoUserRoles
        then atInterval
        else
          let stopToken := match asTokenError e with Some t => negb (Transient t) | None => false end in
          if stopToken then atInterval
          else
            let status := match asTokenError e with Some t => TokenStatusCode t | None => 0%Z end in
            let stopGraph := match asGraphError e with
                             | Some g => (GraphStatusCode g =? 401)%Z || (GraphStatusCode g =? 403)%Z
                             | None => false
                             end in
            if stopGraph then atInterval
            else
              let status := match asGraphError e with Some g => GraphStatusCode g | None => status end in
              if ((status =? 429)%Z || (status =? 503)%Z) && (0 <? retryAfter)%Z
              then ({| Requeue := false; RequeueAfter := retryAfter |}, None)
              else failure
    end
  else failure.
