(* ===== verification/RoleSync.v ===== *)
(** * Role sync: the reconciler

    [internal/controller/zitientrarolesync_controller.go]: one run of a sync
    and the reconciliation of a resource.  The deadline of the run shows in the
    answers to [CtxErr] and in the errors of the calls. *)

From S2P Require Import Prelude GoSlices GoStrings Errors Entra Ownership Scope ZitiTypes.
From S2P Require Import Planner Retirement ApiTypes World ReconcileHelpers Duration.
From S2P Require Import RoleSyncReads RoleSyncWrites RoleSyncStatus.

#[local] Open Scope mz_scope.

Section Controller.
Context `{UnicodeTables} `{MetaConditions} (recorder : bool).

(** [input] with the fields that [runSync] assigns. *)
Definition completeInput (input : Input) (identities : list Identity) (self : SyncClaim)
    (others : list SyncClaim) (owners : list IdentityOwner) (property : string) : Input :=
  {| InScope := InScope input; MembersByGroup := MembersByGroup input; Identities := identities;
     IdentityOwners := owners; InSelf := self; OtherClaims := others; UserProperty := property |}.

Definition blockReason (plan : PlanResult) : string :=
  if bool_decide (0 < length (Conflicts (PlanOwnership plan))) then "Conflict"
  else if WouldRemoveAll plan then "WouldRemoveAll" else "".

(** The part of [runSync] that follows the plan. *)
Definition executePlan (resource : ZitiEntraRoleSync) (self : SyncClaim) (plan : PlanResult)
    : action (ZitiEntraRoleSync * syncRunResult) :=
  let completionInput recorded outcomes :=
    {| Retirement.Plan := plan; PreviousValues := ManagedAttributes self; Outcomes := outcomes;
       BlockReason := blockReason plan; ClaimRecorded := recorded |} in
  if negb (bool_decide (blockReason plan = "")) then
    let completion := Complete (completionInput false []) in
    Ret (resource, {| RunPlan := Some plan; RunCompletion := Some completion;
                      WritePhaseStarted := false; RunReason := Reason completion;
                      RunErr := None; RunRetryAfter := 0 |})
  else
    let! r := recordRoleClaims resource self (ManagedValues plan) in
    match r with
    | (resource, Some err) =>
        Ret (resource, {| RunPlan := Some plan; RunCompletion := None; WritePhaseStarted := false;
                          RunReason := "ZitiError"; RunErr := Some err; RunRetryAfter := 0 |})
    | (resource, None) =>
        let! outcomes := writeRolePlan recorder resource plan in
        let completion := Complete (completionInput true outcomes) in
        Ret (resource, {| RunPlan := Some plan; RunCompletion := Some completion;
                          WritePhaseStarted := true; RunReason := Reason completion;
                          RunErr := DoneErr completion; RunRetryAfter := 0 |})
    end.

(** [runSync]: the resource, which the record of claims updates, and the result. *)
Definition runSync (resource : ZitiEntraRoleSync) : action (ZitiEntraRoleSync * syncRunResult) :=
  match snd (validateRoleSyncSpec resource) with
  | Some err => Ret (resource, runFailure "InvalidSpec" err 0)
  | None =>
      let! r := readDirectory resource in
      match r with
      | inl err => Ret (resource, runFailure "InvalidSpec" err 0)
      | inr d =>
          let! r := readGraph d resource in
          match r with
          | inl err => Ret (resource, graphRunFailure err)
          | inr input =>
              let! r := ziti OpListIdentities in
              match r with
              | inl err => Ret (resource, runFailure "ZitiError" err 0)
              | inr identities =>
                  let! r := readOwnership resource in
                  match r with
                  | inl err => Ret (resource, runFailure "ZitiError" err 0)
                  | inr (self, others, owners) =>
                      match BuildPlan (completeInput input identities self others owners
                              (SpecUserProperty (SyncSpec resource))) with
                      | inl err => Ret (resource, graphRunFailure err)
                      | inr plan => executePlan resource self plan
                      end
                  end
              end
          end
      end
  end.

(** [Reconcile] *)
Definition Reconcile (req : NamespacedName) : action outcome :=
  let! r := do (Get Cached KRoleSync req) in
  match r with
  | inl err => Ret (noResult, IgnoreNotFound err)
  | inr resource =>
      if negb (bool_decide (DeletionTimestamp (SyncMeta resource) = None))
      then Ret (noResult, None)
      else
        let interval := fst (validateRoleSyncSpec resource) in
        let! (resource, result) := runSync resource in
        let! err := persistSyncResult recorder resource result in
        match err with
        | Some err => Ret (noResult, Some err)
        | None => Ret (retryResult interval (RunReason result) (RunErr result) (RunRetryAfter result))
        end
  end.

End Controller.
