(* ===== verification/RoleSyncTraces.v ===== *)
(** * Role sync: what its parts do

    For every part of a run, the trace of its calls: which calls it makes at
    all, and what a successful result says about the answers it received.  The
    safety properties of [RoleSyncSafety] are assembled from these lemmas. *)

From S2P Require Import Prelude GoSlices GoStrings Errors Entra Ownership Scope ZitiTypes.
From S2P Require Import Planner Retirement ApiTypes World ReconcileHelpers Duration.
From S2P Require Import RoleSyncReads RoleSyncWrites RoleSyncStatus RoleSync.

(** ** Reads *)

Lemma readDirectory_only r : only isRead (readDirectory r).
Proof. unfold readDirectory. only_calls. Qed.

Lemma readGroups_only d ids ms : only isRead (readGroups d ids ms).
Proof. revert ms. induction ids as [|id ids IH]; intros ms; cbn [readGroups]; only_calls. Qed.

Lemma readGraph_only d r : only isRead (readGraph d r).
Proof. unfold readGraph. only_calls. apply readGroups_only. Qed.

Lemma readRoleSync_only r : only isRead (readRoleSync r).
Proof. unfold readRoleSync. only_calls. Qed.

Lemma readOwnership_only r : only isRead (readOwnership r).
Proof. unfold readOwnership. only_calls; apply readRoleSync_only. Qed.

(** The resource is only identified by its key and UID. *)
Definition sameResource (a b : ZitiEntraRoleSync) : Prop :=
  ObjectKeyFromObject (SyncMeta a) = ObjectKeyFromObject (SyncMeta b) ∧
  UID (SyncMeta a) = UID (SyncMeta b).

(** The read of the resource behind [readRoleSync]. *)
Definition freshRead (resource current : ZitiEntraRoleSync) : event op resp :=
  Ev (Get APIReader KRoleSync (ObjectKeyFromObject (SyncMeta resource))) (inr current).

Definition isLive (resource current : ZitiEntraRoleSync) : Prop :=
  UID (SyncMeta current) = UID (SyncMeta resource) ∧ DeletionTimestamp (SyncMeta current) = None.

Lemma readRoleSync_runs resource t current :
  runs (readRoleSync resource) t (inr current) →
  t = [freshRead resource current] ∧ isLive resource current.
Proof.
  unfold readRoleSync. cbn. intros (r & t' & -> & Hr). destruct r as [e|c]; [by destruct Hr|].
  destruct (_ || _) eqn:E; destruct Hr as [-> [= ->]]. reflect_bools. by split.
Qed.

(** The three reads behind a successful [readOwnership]. *)
Definition ownershipReads (resource self : ZitiEntraRoleSync) (syncs : list ZitiEntraRoleSync)
    (ids : list ZitiIdentity) : trace :=
  [freshRead resource self; Ev (List APIReader KRoleSync None) (inr syncs);
   Ev (List APIReader KIdentity None) (inr ids)].

Lemma readOwnership_runs resource t self others owners :
  runs (readOwnership resource) t (inr (self, others, owners)) →
  ∃ current syncs ids, t = ownershipReads resource current syncs ids ∧ isLive resource current ∧
    self = roleClaim current ∧ others = otherClaims resource syncs ∧ owners = identityOwner <$> ids.
Proof.
  unfold readOwnership. intros (t1 & t2 & r & -> & H1 & H2)%runs_bind.
  destruct r as [e|current]; [by destruct H2|]. apply readRoleSync_runs in H1 as [-> Hlive].
  cbn in H2. destruct H2 as (syncs & t' & -> & H2). destruct syncs as [e|syncs]; [by destruct H2|].
  destruct H2 as (ids & t'' & -> & H2). destruct ids as [e|ids]; [by destruct H2|].
  destruct H2 as [-> [= <- <- <-]]. by exists current, syncs, ids.
Qed.

Lemma readGroups_runs d ids ms t ms' :
  NoDup ids → runs (readGroups d ids ms) t (inr ms') →
  ∀ g, if decide (g ∈ ids)
       then ∃ users, Ev (Dir d (OpListGroupUsers g)) (inr users) ∈ t ∧ ms' !! g = Some users ∧
              ∀ u, u ∈ users → UserPrincipalName u ≠ ""
       else ms' !! g = ms !! g.
Proof.
  revert ms t. induction ids as [|id ids IH]; intros ms t Hnd.
  - intros [-> [= <-]] g. by rewrite decide_False by set_solver.
  - apply NoDup_cons in Hnd as [Hid Hnd]. cbn [readGroups bind do call runs].
    intros (r & t' & -> & Hr) g. destruct r as [e|users]; [by destruct Hr|].
    destruct (existsb _ users) eqn:Hex; [by destruct Hr|].
    specialize (IH _ _ Hnd Hr g). destruct (decide (g = id)) as [->|Hne].
    + rewrite decide_False in IH by done. rewrite decide_True by set_solver.
      exists users. rewrite IH, lookup_insert_eq. split_and!; [by left|done|].
      intros u Hu Hn. rewrite <-not_true_iff_false, existsb_exists in Hex. apply Hex.
      exists u. rewrite <-list_elem_of_In. by rewrite bool_decide_true.
    + rewrite lookup_insert_ne in IH by done. destruct (decide (g ∈ ids)).
      * rewrite decide_True by set_solver. destruct IH as (us & ? & ? & ?). exists us.
        split_and!; [by right|done..].
      * by rewrite decide_False by set_solver.
Qed.

(** The whole directory was read, without an error, before the plan. *)
Definition directoryRead (t : trace) (resource : ZitiEntraRoleSync) (input : Input) : Prop :=
  ∃ d principal assignments,
    Ev (Dir d (OpGetServicePrincipal (AppID (SyncSpec resource)))) (inr (Some principal)) ∈ t ∧
    Ev (Dir d (OpListAppRoleAssignedTo (PrincipalObjectID principal))) (inr assignments) ∈ t ∧
    ResolveRoleScope principal assignments = inr (InScope input) ∧
    ∀ g, g ∈ GroupIDs (InScope input) →
      ∃ users, Ev (Dir d (OpListGroupUsers g)) (inr users) ∈ t ∧
        MembersByGroup input !! g = Some users ∧ ∀ u, u ∈ users → UserPrincipalName u ≠ "".

Lemma readGraph_runs d resource t input :
  runs (readGraph d resource) t (inr input) → directoryRead t resource input.
Proof.
  unfold readGraph. cbn [bind do call runs]. intros (r & t' & -> & Hr).
  destruct r as [e|[principal|]]; [by destruct Hr| |by destruct Hr].
  destruct Hr as (r & t2 & -> & Hr). destruct r as [e|assignments]; [by destruct Hr|].
  destruct (ResolveRoleScope principal assignments) as [e|scope] eqn:Hs; [by destruct Hr|].
  apply runs_bind in Hr as (t3 & t4 & r & -> & H1 & H2).
  destruct r as [e|members]; destruct H2 as [-> [= <-]].
  pose proof (readGroups_runs _ _ _ _ _ (GroupIDs_nodup scope) H1) as Hg.
  exists d, principal, assignments. cbn. split_and!; [by left|by right; left|done|].
  intros g Hin. specialize (Hg g). rewrite decide_True in Hg by done.
  destruct Hg as (us & ? & ? & ?). exists us. split_and!; [|done..]. rewrite app_nil_r. by do 2 right.
Qed.

(** ** The record of the claims *)

Lemma sameRoleSet_spec a b : sameRoleSet a b = true ↔ ∀ x, x ∈ a ↔ x ∈ b.
Proof.
  unfold sameRoleSet. rewrite slices_equal_true. apply (sort_compact_eq a b).
Qed.

(** The claim [values] is in the API server: it was read there, or written. *)
Definition claimRecorded (t : trace) (resource : ZitiEntraRoleSync) (values : strs) : Prop :=
  (∃ current, freshRead resource current ∈ t ∧
     ∀ v, v ∈ StatusManagedAttributes (SyncStatus current) ↔ v ∈ values) ∨
  (∃ o answer, Ev (StatusUpdate KRoleSync o) (inr answer) ∈ t ∧
     UID (SyncMeta o) = UID (SyncMeta resource) ∧
     StatusManagedAttributes (SyncStatus o) = values).

Lemma recordRoleClaims_runs resource self values t resource' :
  runs (recordRoleClaims resource self values) t (resource', None) →
  sameResource resource' resource ∧
  ((sameRoleSet (ManagedAttributes self) values = true ∧ t = []) ∨
   ∃ current answer,
     t = [freshRead resource current;
          Ev (StatusUpdate KRoleSync (setManagedAttributes values current)) (inr answer)] ∧
     isLive resource current ∧
     sameRoleSet (StatusManagedAttributes (SyncStatus current)) (ManagedAttributes self) = true).
Proof.
  unfold recordRoleClaims. destruct (sameRoleSet (ManagedAttributes self) values) eqn:Hsame.
  { intros [-> [= ->]]. split; [done|by left]. }
  intros (t1 & t2 & r & -> & H1 & H2)%runs_bind. destruct r as [e|current]; [by destruct H2|].
  apply readRoleSync_runs in H1 as [-> Hlive]. cbn [negb] in H2.
  destruct (sameRoleSet (StatusManagedAttributes _) _) eqn:Hs2; cbn in H2; [|by destruct H2].
  destruct H2 as (r & t' & -> & H2). destruct r as [e|answer]; destruct H2 as [-> [= <-]].
  split; [by destruct resource as [[] ? []]|]. right. by exists current, answer.
Qed.

(** Every call of the record of the claims, with the update it can make. *)
Lemma recordRoleClaims_only resource self values :
  only (λ o, isRead o ∨ ∃ current, o = StatusUpdate KRoleSync (setManagedAttributes values current))
    (recordRoleClaims resource self values).
Proof.
  unfold recordRoleClaims. case_test; [done|]. apply only_bind.
  - eapply only_mono; [|apply readRoleSync_only]. by left.
  - intros [e|current]; [done|]. case_test; [done|]. cbn. split; [right; by exists current|].
    by intros [].
Qed.

(** ** The write of a patch *)

Section Writes.
Context `{UnicodeTables} `{MetaConditions} (recorder : bool).

(** What is checked right before a patch is sent: the last five calls read the
    identity, the resource itself, every claim and every owner, and the context;
    on these answers nothing speaks against the patch, and it changes something. *)
Definition checkedPatch (t : trace) (resource : ZitiEntraRoleSync) (managed : strs)
    (patch : IdentityPatch) (id : string) (attrs : strs) : Prop :=
  ∃ t0 fresh self syncs ids,
    t = t0 ++ [Ev (Ziti (OpGetIdentity id)) (inr (Some fresh))] ++
        ownershipReads resource self syncs ids ++ [Ev CtxErr None] ∧
    isLive resource self ∧ PatchIdentityID patch = id ∧
    Conflicts (ResolveOwnership {| Self := roleClaim self; Candidates := managed;
                                   Others := otherClaims resource syncs |}) = [] ∧
    IdentityOwned fresh (identityOwner <$> ids) = false ∧ IdentExternalID fresh ≠ "" ∧
    EqualFold (IdentExternalID fresh) (PatchExternalID patch) = true ∧
    attrs = MergeAttributes (IdentRoleAttributes fresh) managed (GrantedAttributes patch) ∧
    ¬ (∀ v, v ∈ IdentRoleAttributes fresh ↔ v ∈ attrs).

(** The other calls of the write phase. *)
Definition isPatch (o : op) : bool :=
  match o with Ziti (OpPatchIdentityRoleAttributes _ _) => true | _ => false end.

Lemma isRead_not_patch o : isRead o → isPatch o = false.
Proof. destruct o as [| | | | | |[]| | | |]; by try (intros [? ?]). Qed.

(** A guard that only constrains patches. *)
Lemma applyRolePatch_wp (Q : trace → op → Prop) resource plan patch Φ h :
  (∀ h o, isPatch o = false → Q h o) →
  (∀ h' id attrs, checkedPatch (h ++ h') resource (ManagedValues plan) patch id attrs →
     Q (h ++ h') (Ziti (OpPatchIdentityRoleAttributes id attrs))) →
  (∀ a t, Φ a (h ++ t)) →
  wp Q (applyRolePatch recorder resource plan patch) Φ h.
Proof.
  intros HQ Hpatch HΦ. unfold applyRolePatch. cbn [bind ziti call wp].
  split; [by apply HQ|]. intros r. destruct r as [e|fresh]; [apply HΦ|].
  apply wp_bind. eapply wp_only; [apply readOwnership_only|intros; by apply HQ, isRead_not_patch|].
  intros t [e|[[self others] owners]] Hruns; [cbn; rewrite <-app_assoc; apply HΦ|].
  apply readOwnership_runs in Hruns as (cur & syncs & ids & -> & Hlive & -> & -> & ->).
  case_test; [cbn; rewrite <-app_assoc; apply HΦ|]. reflect_bools.
  destruct fresh as [f|]; [|cbn; rewrite <-app_assoc; apply HΦ].
  case_test; [cbn; rewrite <-app_assoc; apply HΦ|]. reflect_bools.
  case_test; [cbn; rewrite <-app_assoc; apply HΦ|].
  cbn [bind do call wp]. split; [by apply HQ|]. intros [e|]; [cbn; rewrite <-!app_assoc; apply HΦ|].
  cbn [bind ziti call wp]. rewrite <-!app_assoc. split.
  - apply Hpatch. eexists h, f, cur, syncs, ids. split_and!; try done.
    + destruct (Conflicts _); [done|]. cbn in *. lia.
    + rewrite <-not_true_iff_false in *. by rewrite <-sameRoleSet_spec.
  - intros [e|[]]; [cbn; rewrite <-!app_assoc; apply HΦ|].
    destruct (roleChanges _ _). apply wp_bind.
    eapply wp_only; [apply EmitEvent_only|intros; by apply HQ, isRead_not_patch|].
    intros t a _. cbn. rewrite <-!app_assoc. apply HΦ.
Qed.

(** ** The status *)

Lemma setSyncCondition_only current g ty st reason message :
  only isRead (setSyncCondition current g ty st reason message).
Proof. unfold setSyncCondition. only_calls. Qed.

Lemma setRoleSyncConditions_only current g reason message ready :
  only isRead (setRoleSyncConditions current g reason message ready).
Proof.
  unfold setRoleSyncConditions. do 2 (apply only_bind; [apply setSyncCondition_only|intros]).
  apply setSyncCondition_only.
Qed.

Lemma applyCompletion_only current result : only isRead (applyCompletion current result).
Proof. unfold applyCompletion. only_calls. Qed.

(** Only the completion assigns the claims. *)
Lemma applyCompletion_runs current result t current' :
  runs (applyCompletion current result) t current' →
  StatusManagedAttributes (SyncStatus current') =
  match RunCompletion result with
  | Some c => DoneManagedAttributes c
  | None => StatusManagedAttributes (SyncStatus current)
  end.
Proof.
  unfold applyCompletion. destruct (RunCompletion result) as [c|]; [|by intros [_ <-]].
  case_test; cbn; [by intros (now & t' & -> & _ & <-)|by intros [_ <-]].
Qed.

Lemma applyCounters_claims current result :
  StatusManagedAttributes (SyncStatus (applyCounters current result)) =
  StatusManagedAttributes (SyncStatus current).
Proof. unfold applyCounters. by repeat case_match. Qed.

Lemma setSyncCondition_runs current g ty st reason message t current' :
  runs (setSyncCondition current g ty st reason message) t current' →
  StatusManagedAttributes (SyncStatus current') = StatusManagedAttributes (SyncStatus current).
Proof. unfold setSyncCondition. cbn. by intros (now & t' & -> & _ & <-). Qed.

Lemma setRoleSyncConditions_runs current g reason message ready t current' :
  runs (setRoleSyncConditions current g reason message ready) t current' →
  StatusManagedAttributes (SyncStatus current') = StatusManagedAttributes (SyncStatus current).
Proof.
  unfold setRoleSyncConditions. intros (t1 & t2 & c1 & _ & H1 & Hr)%runs_bind.
  apply runs_bind in Hr as (t3 & t4 & c2 & _ & H2 & H3).
  by rewrite (setSyncCondition_runs _ _ _ _ _ _ _ _ H3), (setSyncCondition_runs _ _ _ _ _ _ _ _ H2),
    (setSyncCondition_runs _ _ _ _ _ _ _ _ H1).
Qed.

Lemma persistSyncResult_only resource result :
  only (λ o, isRead o ∨ ∃ current, o = StatusUpdate KRoleSync current)
    (persistSyncResult recorder resource result).
Proof.
  assert (∀ A (p : action A), only isRead p →
    only (λ o, isRead o ∨ ∃ current, o = StatusUpdate KRoleSync current) p) as Hr
    by (intros A p; apply only_mono; by left).
  unfold persistSyncResult. apply only_bind; [apply Hr, readRoleSync_only|].
  intros [e|current]; [done|]. apply only_bind.
  { apply Hr, applyCompletion_only. }
  intros current'. apply only_bind.
  { apply Hr, setRoleSyncConditions_only. }
  intros current2.
  assert (∀ b : bool, only (λ o, isRead o ∨ ∃ current, o = StatusUpdate KRoleSync current)
    (if b then bind (EmitEvent recorder (SyncMeta resource) EventTypeWarning (RunReason result)
       (roleSyncMessage result)) (λ _, Ret None) else Ret (@None error))) as Hemit.
  { intros []; [|done]. apply only_bind; [apply Hr, EmitEvent_only|done]. }
  case_test; [|apply Hemit]. cbn [bind do call only]. split; [right; by eexists|].
  intros [e|answer]; [done|apply Hemit].
Qed.

Lemma applyRolePatch_only resource plan patch :
  only (λ o, isRead o ∨ isPatch o = true) (applyRolePatch recorder resource plan patch).
Proof.
  assert (∀ A (p : action A), only isRead p → only (λ o, isRead o ∨ isPatch o = true) p) as Hr
    by (intros A p; apply only_mono; by left).
  unfold applyRolePatch. cbn [bind ziti call only]. split; [by left|]. intros [e|fresh]; [done|].
  apply only_bind; [apply Hr, readOwnership_only|]. intros [e|[[self others] owners]]; [done|].
  case_test; [done|]. destruct fresh as [f|]; [|done]. repeat (case_test; [done|]).
  cbn [bind do call only]. split; [by left|]. intros [e|]; [done|]. cbn [bind ziti call only].
  split; [by right|]. intros [e|[]]; [done|]. destruct (roleChanges _ _).
  apply only_bind; [apply Hr, EmitEvent_only|done].
Qed.

Lemma writePatches_only resource plan patches os :
  only (λ o, isRead o ∨ isPatch o = true) (writePatches recorder resource plan patches os).
Proof.
  revert os. induction patches as [|patch patches IH]; intros os; cbn [writePatches bind do call only].
  - split; [by left|]. by intros [].
  - split; [by left|]. intros [e|]; [done|]. apply only_bind; [apply applyRolePatch_only|].
    intros o. by case_test.
Qed.

(** ** Outcomes tell the truth *)

(** The answers behind an outcome. *)
Definition witnessed (t : trace) (o : IdentityOutcome) : Prop :=
  let id := OutcomeIdentityID o in
  match Kind o with
  | Deleted => ev (Ziti (OpGetIdentity id)) (inr None) ∈ t
  | Observed | Skipped =>
      ∃ f, ev (Ziti (OpGetIdentity id)) (inr (Some f)) ∈ t ∧
           OutcomeRoleAttributes o = IdentRoleAttributes f
  | Patched => ev (Ziti (OpPatchIdentityRoleAttributes id (OutcomeRoleAttributes o))) (inr tt) ∈ t
  | Failed | Conflicted => True
  end.

Lemma witnessed_app t t' o : witnessed t o → witnessed (t ++ t') o.
Proof.
  unfold witnessed. destruct (Kind o); try done; try (intros ?; apply elem_of_app; by left).
  all: intros (f & ? & ?); exists f; split; [apply elem_of_app; by left|done].
Qed.

Lemma witnessed_cons t e o : witnessed t o → witnessed (e :: t) o.
Proof.
  unfold witnessed. destruct (Kind o); try done; try (intros ?; by right).
  all: intros (f & ? & ?); exists f; split; [by right|done].
Qed.

(** The successful patches of a trace. *)
Definition patchDone (e : event op resp) : bool :=
  match e with
  | Ev (Ziti (OpPatchIdentityRoleAttributes _ _)) (inr _) => true
  | _ => false
  end.

Definition patchesDone (t : trace) : nat := length (List.filter patchDone t).

Lemma patchesDone_app t t' : patchesDone (t ++ t') = patchesDone t + patchesDone t'.
Proof. unfold patchesDone. by rewrite List.filter_app, length_app. Qed.

Lemma patchesDone_only t : Forall (λ e, isPatch (ev_op e) = false) t → patchesDone t = 0.
Proof.
  induction 1 as [|e t He Ht IH]; [done|]. unfold patchesDone in *. cbn.
  destruct e as [[| | | | | |[]| | | |] r]; by try (destruct r).
Qed.

Lemma reads_no_patches {A} (p : action A) t a :
  only isRead p → runs p t a → patchesDone t = 0.
Proof.
  intros Hp Hr. apply patchesDone_only.
  apply (only_runs (λ o, isPatch o = false) p t a); [|done]. eapply only_mono; [|done]. apply isRead_not_patch.
Qed.

Lemma applyRolePatch_runs resource plan patch t o :
  runs (applyRolePatch recorder resource plan patch) t o →
  OutcomeIdentityID o = PatchIdentityID patch ∧ witnessed t o ∧
  patchesDone t = if bool_decide (Kind o = Patched) then 1 else 0.
Proof.
  unfold applyRolePatch. cbn [bind ziti call runs]. intros (r & t1 & -> & Hr).
  destruct r as [e|fresh]; [by destruct Hr as [-> <-]|].
  apply runs_bind in Hr as (t2 & t3 & r & -> & Hown & Hr).
  pose proof (reads_no_patches _ _ _ (readOwnership_only _) Hown) as Hn2.
  assert (∀ o', t3 = [] ∧ o' = o → OutcomeIdentityID o' = PatchIdentityID patch →
    (Kind o' ≠ Patched) → witnessed [ev (Ziti (OpGetIdentity (PatchIdentityID patch))) (inr fresh)] o' →
    OutcomeIdentityID o = PatchIdentityID patch ∧
    witnessed (ev (Ziti (OpGetIdentity (PatchIdentityID patch))) (inr fresh) :: t2 ++ t3) o ∧
    patchesDone (ev (Ziti (OpGetIdentity (PatchIdentityID patch))) (inr fresh) :: t2 ++ t3) =
      if bool_decide (Kind o = Patched) then 1 else 0) as Hret.
  { intros o' [-> <-] Hid Hk Hw. rewrite bool_decide_false by done. split_and!; [done| |].
    - by apply (witnessed_app [_] (t2 ++ [])).
    - unfold patchesDone in *. cbn. by rewrite app_nil_r. }
  destruct r as [e|[[self others] owners]]; [by apply (Hret _ Hr)|].
  destruct (bool_decide (0 < _)); [by apply (Hret _ Hr)|].
  destruct fresh as [f|]; [|apply (Hret _ Hr); [done..|]; by left].
  destruct (_ || _ || _); [apply (Hret _ Hr); [done..|]; exists f; split; [by left|done]|].
  destruct (sameRoleSet _ _); [apply (Hret _ Hr); [done..|]; exists f; split; [by left|done]|].
  clear Hret. cbn [bind do ziti call runs] in Hr. destruct Hr as (err & t4 & -> & Hr).
  destruct err as [e|].
  { destruct Hr as [-> <-]. split_and!; [done..|].
    rewrite bool_decide_false by done. unfold patchesDone in *. cbn.
    by rewrite List.filter_app, length_app, Hn2. }
  cbn [bind do ziti call runs] in Hr. destruct Hr as (r & t5 & -> & Hr). destruct r as [e|[]].
  { destruct Hr as [-> <-]. split_and!; [done..|].
    rewrite bool_decide_false by done. unfold patchesDone in *. cbn.
    by rewrite List.filter_app, length_app, Hn2. }
  destruct (roleChanges _ _). apply runs_bind in Hr as (t6 & t7 & u & -> & Hev & [-> <-]).
  pose proof (reads_no_patches _ _ _ (EmitEvent_only _ _ _ _ _) Hev) as Hn6.
  split_and!; [done| |].
  - apply witnessed_cons. unfold witnessed; cbn. set_solver.
  - rewrite bool_decide_true by done. unfold patchesDone in *. cbn.
    rewrite List.filter_app, length_app, Hn2. cbn. by rewrite app_nil_r, Hn6.
Qed.

(** The outcomes that [writePatches] appends. *)
Lemma writePatches_runs resource plan patches os t os' :
  runs (writePatches recorder resource plan patches os) t os' →
  ∃ done rest, os' = os ++ done ++ rest ∧
    OutcomeIdentityID <$> done = take (length done) (PatchIdentityID <$> patches) ∧
    (∀ o, o ∈ done → witnessed t o) ∧
    patchesDone t = length (filter (λ o, Kind o = Patched) done) ∧
    (∀ k o, done !! k = Some o → StopsWrites o = true → S k = length done ∧ rest = []) ∧
    (rest = [] ∧ (length done = length patches ∨ ∃ o, last done = Some o ∧ StopsWrites o = true) ∨
     ∃ id e, rest = [outcomeOf id Failed [] (Some e) []] ∧ ev CtxErr (Some e) ∈ t).
Proof.
  revert os t. induction patches as [|patch patches IH]; intros os t;
    cbn [writePatches bind do call runs]; intros (err & t1 & -> & Hr).
  - exists []. destruct err as [e|]; destruct Hr as [-> <-].
    + exists [outcomeOf "" Failed [] (Some e) []]. split_and!; try done; [set_solver|].
      right. exists "", e. split; [done|by left].
    + exists []. rewrite !app_nil_r. split_and!; try done; [set_solver|]. left. split; [done|by left].
  - destruct err as [e|].
    { destruct Hr as [-> <-]. exists [], [outcomeOf (PatchIdentityID patch) Failed [] (Some e) []].
      split_and!; try done; [set_solver|]. right. eexists _, e. split; [done|by left]. }
    apply runs_bind in Hr as (t2 & t3 & o & -> & Ha & Hr).
    apply applyRolePatch_runs in Ha as (Hid & Hw & Hn).
    assert (patchesDone (ev CtxErr None :: t2 ++ t3) = patchesDone t2 + patchesDone t3) as Hsum
      by (unfold patchesDone; cbn; by rewrite List.filter_app, length_app).
    destruct (StopsWrites o) eqn:Hstop.
    + destruct Hr as [-> <-]. exists [o], []. rewrite app_nil_r. split_and!.
      * done.
      * cbn. by rewrite Hid.
      * intros o' ->%list_elem_of_singleton. apply witnessed_cons. by rewrite app_nil_r.
      * rewrite Hsum, Hn, filter_cons. cbn. case_bool_decide; case_decide; done.
      * intros [|k] o'; cbn; [by intros [= <-] _|done].
      * left. split; [done|]. right. by exists o.
    + apply IH in Hr as (done & rest & -> & Hids & Hwit & Hcount & Hstops & Hend).
      exists (o :: done), rest. rewrite <-app_assoc. split_and!.
      * done.
      * cbn. rewrite Hid. f_equal. exact Hids.
      * intros o' [->|Ho']%elem_of_cons; apply witnessed_cons.
        { by apply witnessed_app. }
        { specialize (Hwit _ Ho'). clear -Hwit. induction t2; [done|]. by apply witnessed_cons. }
      * rewrite Hsum, Hn, Hcount, filter_cons. case_bool_decide; case_decide; done.
      * intros [|k] o'; cbn; [intros [= <-]; congruence|]. intros Hk Hs.
        destruct (Hstops _ _ Hk Hs) as [<- ?]. done.
      * destruct Hend as [[-> [Hlen|(o' & Hl & Hs)]]|(id & e & -> & Hin)]; [left..|right].
        { split; [done|]. left. cbn. by rewrite Hlen. }
        { split; [done|]. right. exists o'. split; [|done]. by rewrite last_cons, Hl. }
        { exists id, e. split; [done|]. right. apply elem_of_app. by right. }
Qed.

End Writes.
