(* ===== verification/RoleSyncExample.v ===== *)
(** * Role sync: a concrete environment

    The environment in which the theorems about the reconciler are evaluated:
    a role sync that has recorded the retired value gamma, an application whose
    role alpha is assigned to the group of one user, and that user's identity. *)

From S2P Require Import Prelude GoSlices GoStrings Errors Entra Ownership Scope ZitiTypes.
From S2P Require Import Planner PlannerSpec Retirement ApiTypes World ReconcileHelpers Duration.
From S2P Require Import RoleSyncReads RoleSyncWrites RoleSyncStatus RoleSync.

Definition exGUID : string := "01234567-89ab-cdef-0123-456789abCDEF".

Definition exSync : ZitiEntraRoleSync :=
  {| SyncMeta := exMeta "sync";
     SyncSpec := {| TenantID := exGUID; AppID := exGUID; CredentialsSecretName := "entra";
                    SpecUserProperty := "mail"; Interval := "1h" |};
     SyncStatus := {| SyncCommon := exCommon; LastSyncTime := None;
                      StatusManagedAttributes := ["gamma"]; StatusMatchedIdentities := 0;
                      StatusIdentitiesUpdated := 0; StatusMembersWithoutIdentity := 0;
                      StatusUnmatchedMembers := [] |} |}.

Definition exSecret : Secret :=
  {| SecretMeta := exMeta "entra"; SecretType := "Opaque";
     Data := {[ "clientId" := "id"; "clientSecret" := "secret" ]}; StringData := ∅ |}.

Definition exRequest : NamespacedName := {| KeyNamespace := "ziti"; KeyName := "sync" |}.

Definition exWorld (o : op) : resp o :=
  match o with
  | Get _ KRoleSync _ => inr exSync
  | Get _ KSecret _ => inr exSecret
  | List _ KRoleSync _ => inr [exSync]
  | Dir _ (OpGetServicePrincipal _) => inr (Some exPrincipal)
  | Dir _ (OpListAppRoleAssignedTo _) => inr exAssignments
  | Dir _ (OpListGroupUsers _) => inr [exUser]
  | Ziti OpListIdentities => inr (Identities exInput)
  | Ziti (OpGetIdentity _) => inr (Some (exIdentity "i1" "ann@X.org" ["ops"; "gamma"]))
  | o => quiet o
  end.

Definition exReconcile : action outcome := @Reconcile asciiTables upsertConditions true exRequest.

(** The trace of the whole reconciliation. *)
Definition exTrace : trace := fst (execWith exWorld exReconcile).

(** The resource is reconciled again after its interval of one hour. *)
Definition exOutcome : outcome := ({| Requeue := false; RequeueAfter := Hour |}, None).

Lemma exReconcile_runs : runs exReconcile exTrace exOutcome.
Proof.
  apply (execWith_runs exWorld). unfold exTrace.
  assert (snd (execWith exWorld exReconcile) = Some exOutcome) as H by (by vm_compute).
  by rewrite <-H, <-surjective_pairing.
Qed.

(** The call at a position of the trace, and what was observed before it. *)
Definition exBefore (n : nat) : trace := take n exTrace.

Lemma exReaches n e : exTrace !! n = Some e → reaches exReconcile (exBefore n ++ [e]).
Proof. apply (reaches_at _ _ exOutcome), exReconcile_runs. Qed.

(** The eighteenth call patches the identity: alpha is granted and gamma
    withdrawn; the last one records the claims without gamma. *)
Definition exPatched : event op resp :=
  ev (Ziti (OpPatchIdentityRoleAttributes "i1" ["ops"; "alpha"])) (inr tt).

Definition exRecorded : ZitiEntraRoleSync :=
  match last exTrace with
  | Some (Ev (StatusUpdate KRoleSync o) _) => o
  | _ => exSync
  end.

Example exTrace_patch : exTrace !! 17 = Some exPatched.
Proof. by vm_compute. Qed.

Example exTrace_record :
  exTrace !! 25 = Some (ev (StatusUpdate KRoleSync exRecorded) (inr exRecorded)) ∧
  StatusManagedAttributes (SyncStatus exRecorded) = ["alpha"; "beta"].
Proof. by vm_compute. Qed.

(** The write phase alone, for the plan of one patch. *)
Definition exPlan : PlanResult := @specPlan asciiTables exInput.
Definition exWrites : action (list IdentityOutcome) :=
  @writeRolePlan asciiTables true exSync exPlan.
Definition exWritesTrace : trace := fst (execWith exWorld exWrites).
Definition exOutcomes : list IdentityOutcome :=
  [{| OutcomeIdentityID := "i1"; Kind := Patched; OutcomeRoleAttributes := ["ops"; "alpha"];
      OutcomeErr := None; ConflictValues := [] |}].

Lemma exWrites_runs : runs exWrites exWritesTrace exOutcomes.
Proof.
  apply (execWith_runs exWorld). unfold exWritesTrace.
  assert (snd (execWith exWorld exWrites) = Some exOutcomes) as H by (by vm_compute).
  by rewrite <-H, <-surjective_pairing.
Qed.
