(* ===== verification/RoleSyncSafety.v ===== *)
(** * Role sync: safety

    What every run of [RoleSync.Reconcile] guarantees, whatever its environment
    answers and wherever the process dies: when an identity may be patched, and
    when a claim may be given up. *)

From S2P Require Import Prelude GoSlices GoStrings Errors Entra Ownership Scope ZitiTypes.
From S2P Require Import Planner PlannerSpec Retirement ApiTypes World ReconcileHelpers Duration.
From S2P Require Import RoleSyncReads RoleSyncWrites RoleSyncStatus RoleSync RoleSyncTraces.
From S2P Require Import RoleSyncExample.

(** ** Resources that differ in version and claims only *)

Lemma checkedPatch_same `{UnicodeTables} t r r' managed patch id attrs :
  sameResource r' r → checkedPatch t r' managed patch id attrs →
  checkedPatch t r managed patch id attrs.
Proof.
  intros [Hkey Huid] (t0 & f & self & syncs & ids & -> & [Hu Hd] & Hid & Hc & Hrest).
  exists t0, f, self, syncs, ids. unfold ownershipReads, freshRead, otherClaims, isLive in *.
  rewrite Hkey in *. by rewrite Huid in Hu.
Qed.

(** ** A patch is justified *)

Section Safety.
Context `{UnicodeTables} `{MetaConditions} (recorder : bool).

(** The plan of a run, and the reads it was computed from. *)
Definition plannedFrom (h : trace) (resource : ZitiEntraRoleSync) (input : Input)
    (plan : PlanResult) : Prop :=
  directoryRead h resource input ∧
  ev (Ziti OpListIdentities) (inr (Identities input)) ∈ h ∧
  (∃ current syncs ids,
     (∀ e, e ∈ ownershipReads resource current syncs ids → e ∈ h) ∧ isLive resource current ∧
     InSelf input = roleClaim current ∧ OtherClaims input = otherClaims resource syncs ∧
     IdentityOwners input = (identityOwner <$> ids)) ∧
  UserProperty input = SpecUserProperty (SyncSpec resource) ∧
  BuildPlan input = inr plan.

Definition patchJustified (req : NamespacedName) (h : trace) (o : op) : Prop :=
  match o with
  | Ziti (OpPatchIdentityRoleAttributes id attrs) =>
      ∃ resource input plan patch,
        ev (Get Cached KRoleSync req) (inr resource) ∈ h ∧
        DeletionTimestamp (SyncMeta resource) = None ∧
        snd (validateRoleSyncSpec resource) = None ∧
        plannedFrom h resource input plan ∧ blockReason plan = "" ∧ patch ∈ Patches plan ∧
        claimRecorded h resource (ManagedValues plan) ∧
        checkedPatch h resource (ManagedValues plan) patch id attrs
  | _ => True
  end.

Lemma patchJustified_other req h o : isPatch o = false → patchJustified req h o.
Proof. by destruct o as [| | | | | |[]| | | |]. Qed.

Lemma writePatches_wp (Q : trace → op → Prop) resource plan patches os h :
  (∀ h o, isPatch o = false → Q h o) →
  (∀ h' patch id attrs, patch ∈ patches →
     checkedPatch (h ++ h') resource (ManagedValues plan) patch id attrs →
     Q (h ++ h') (Ziti (OpPatchIdentityRoleAttributes id attrs))) →
  wp Q (writePatches recorder resource plan patches os) (λ _ _, True) h.
Proof.
  intros HQ. revert os h. induction patches as [|patch patches IH]; intros os h Hpatch;
    cbn [writePatches bind do call wp].
  - split; [by apply HQ|]. by intros [].
  - split; [by apply HQ|]. intros [e|]; [done|]. apply wp_bind, applyRolePatch_wp; [done| |].
    + intros h' id attrs. rewrite <-app_assoc. apply Hpatch. by left.
    + intros o t. case_test; [done|]. apply IH. intros h' p id attrs Hp.
      rewrite <-!app_assoc. apply Hpatch. by right.
Qed.

(** The claims are recorded when [recordRoleClaims] succeeds after the plan was
    made from the claim [self], read in [h]. *)
Lemma recorded_after h resource current values t resource' :
  freshRead resource current ∈ h →
  runs (recordRoleClaims resource (roleClaim current) values) t (resource', None) →
  sameResource resource' resource ∧ claimRecorded (h ++ t) resource values.
Proof.
  intros Hcur [Hsame Hrec]%recordRoleClaims_runs. split; [done|].
  destruct Hrec as [[E ->]|(cur' & answer & -> & [Huid _] & _)].
  - left. exists current. split; [apply elem_of_app; by left|]. by apply sameRoleSet_spec.
  - right. exists (setManagedAttributes values cur'), answer.
    split_and!; [apply elem_of_app; right; by right; left|done..].
Qed.

Lemma claimRecorded_same h h' r r' values :
  sameResource r' r → claimRecorded h r values → claimRecorded (h ++ h') r' values.
Proof.
  intros [Hk Hu] [(c & Hc & Hv)|(o & a & Ho & Huid & Hv)]; [left; exists c|right; exists o, a].
  - unfold freshRead in *. rewrite Hk. split; [apply elem_of_app; by left|done].
  - rewrite Hu. split_and!; [apply elem_of_app; by left|done..].
Qed.

Lemma plannedFrom_app h h' resource input plan :
  plannedFrom h resource input plan → plannedFrom (h ++ h') resource input plan.
Proof.
  intros ((d & p & as_ & Hp & Has & Hs & Hg) & Hl & (c & sy & ids & He & Hrest) & Hu & Hb).
  assert (∀ e, e ∈ h → e ∈ h ++ h') as Happ by (intros; apply elem_of_app; by left).
  split_and!; [|by apply Happ| |done..].
  - exists d, p, as_. split_and!; [by apply Happ..|done|].
    intros g Hin. destruct (Hg g Hin) as (us & ? & ?). exists us. split; [by apply Happ|done].
  - exists c, sy, ids. split; [|done]. auto.
Qed.

(** From the plan on, the patches are justified. *)
Lemma executePlan_wp req h resource input plan :
  ev (Get Cached KRoleSync req) (inr resource) ∈ h →
  DeletionTimestamp (SyncMeta resource) = None → snd (validateRoleSyncSpec resource) = None →
  plannedFrom h resource input plan →
  wp (patchJustified req) (executePlan recorder resource (InSelf input) plan) (λ _ _, True) h.
Proof.
  intros Hget Hdel Hval Hplan. unfold executePlan. case_test; [done|]. reflect_bools.
  apply wp_bind. eapply wp_only; [apply recordRoleClaims_only| |].
  { intros h' o [Ho|[cur ->]]; [|done]. by apply patchJustified_other, isRead_not_patch. }
  intros t [resource' [e|]] Hrec; [done|].
  pose proof Hplan as (_ & _ & (cur & syncs & ids & Hreads & Hlive & Hself & _) & _).
  rewrite Hself in Hrec. apply (recorded_after h) in Hrec as [Hsame Hrec];
    [|by apply Hreads; left].
  apply wp_bind. eapply wp_mono; [done| |apply writePatches_wp; [apply patchJustified_other|]].
  { by intros. }
  intros h' patch id attrs Hin Hchecked. exists resource, input, plan, patch. split_and!; try done.
  - rewrite <-!app_assoc. apply elem_of_app. by left.
  - rewrite <-!app_assoc. by apply plannedFrom_app.
  - apply (claimRecorded_same _ _ resource); [by destruct Hsame|done].
  - by apply (checkedPatch_same _ resource resource').
Qed.

(** The plan of [runSync] comes from the reads that precede it. *)
Lemma plannedFrom_reads h t1 t2 resource input identities cur syncs ids plan :
  directoryRead t2 resource input → isLive resource cur →
  BuildPlan (completeInput input identities (roleClaim cur) (otherClaims resource syncs)
    (identityOwner <$> ids) (SpecUserProperty (SyncSpec resource))) = inr plan →
  plannedFrom ((((h ++ t1) ++ t2) ++ [ev (Ziti OpListIdentities) (inr identities)])
      ++ ownershipReads resource cur syncs ids) resource
    (completeInput input identities (roleClaim cur) (otherClaims resource syncs)
      (identityOwner <$> ids) (SpecUserProperty (SyncSpec resource))) plan.
Proof.
  intros (d' & p & as_ & Hp & Has & Hs & Hgr) Hlive Hplan.
  assert (∀ e, e ∈ t2 → e ∈ (((h ++ t1) ++ t2) ++ [ev (Ziti OpListIdentities) (inr identities)])
    ++ ownershipReads resource cur syncs ids) as Happ by set_solver.
  split_and!; [|set_solver| |done..].
  - exists d', p, as_. split_and!; [by apply Happ..|done|]. intros g Hin.
    destruct (Hgr g Hin) as (us & ? & ?). exists us. split; [by apply Happ|done].
  - exists cur, syncs, ids. split; [set_solver|done].
Qed.

Lemma runSync_wp req h resource :
  ev (Get Cached KRoleSync req) (inr resource) ∈ h →
  DeletionTimestamp (SyncMeta resource) = None →
  wp (patchJustified req) (runSync recorder resource) (λ _ _, True) h.
Proof.
  intros Hget Hdel. unfold runSync.
  assert (∀ h o, isRead o → patchJustified req h o) as HQ
    by (intros; by apply patchJustified_other, isRead_not_patch).
  destruct (snd (validateRoleSyncSpec resource)) eqn:Hval; [done|].
  apply wp_bind. eapply wp_only; [apply readDirectory_only|by intros; apply HQ|]. intros t1 [e|d] _; [done|].
  apply wp_bind. eapply wp_only; [apply readGraph_only|by intros; apply HQ|]. intros t2 [e|input] Hg; [done|].
  apply readGraph_runs in Hg. cbn [bind ziti call wp]. split; [done|]. intros [e|identities]; [done|].
  apply wp_bind. eapply wp_only; [apply readOwnership_only|by intros; apply HQ|].
  intros t3 [e|[[self others] owners]] Ho; [done|].
  apply readOwnership_runs in Ho as (cur & syncs & ids & -> & Hlive & -> & -> & ->).
  destruct (BuildPlan _) as [e|plan] eqn:Hplan; [done|].
  apply (executePlan_wp _ _ _ (completeInput input identities (roleClaim cur)
    (otherClaims resource syncs) (identityOwner <$> ids) (SpecUserProperty (SyncSpec resource))) plan).
  - rewrite <-!app_assoc. apply elem_of_app. by left.
  - done.
  - done.
  - by apply plannedFrom_reads.
Qed.

(** C15. Every patch is justified, wherever a run is cut off.  When
    [Reconcile] patches the role attributes of an identity, then: the resource
    it reconciles is valid and not being deleted; the whole directory, the
    identities, the claims and the owners had been read without an error, and
    the patch comes from the plan computed from exactly these reads, which has
    no ownership conflict and does not remove everything; the claim on all the
    values the plan manages is recorded in the API server; and the five calls
    right before the patch re-read the identity, the live resource, all claims,
    all owners and the context, on whose answers there is no conflict, the
    identity belongs to no ZitiIdentity, still carries the external ID that was
    matched, and the attributes sent are its fresh attributes with the managed
    ones replaced by the granted ones, which changes something. *)
Theorem patches_justified (req : NamespacedName) (t : trace) (e : event op resp) :
  reaches (Reconcile recorder req) (t ++ [e]) → patchJustified req t (ev_op e).
Proof.
  apply (wp_reaches _ _ (λ _ _, True) []). unfold Reconcile. cbn [bind do call wp app].
  split; [done|]. intros [err|resource]; [done|]. case_test; [done|]. reflect_bools.
  apply wp_bind. eapply wp_mono; [done| |apply runSync_wp; [by left|done]].
  intros [resource' result] h _. apply wp_bind.
  eapply wp_only; [apply persistSyncResult_only| |].
  - intros h' o Ho. apply patchJustified_other. destruct o as [| | | | | |[]| | | |]; try done;
      by destruct Ho as [[? ?]|[? ?]].
  - by intros t' [err|] _.
Qed.

(** C16. The write phase.  Its outcomes are one per patch, in the order of the
    plan, up to the patch that stops it, and perhaps a last one for a cancelled
    context.  Nothing follows an outcome that stops the writes (a conflict or a
    cancellation); without one, every patch is attempted.  Each outcome states
    what the OpenZiti controller answered, and the patches the controller
    accepted are counted exactly by the outcomes of kind [Patched]. *)
Theorem writeRolePlan_correct (resource : ZitiEntraRoleSync) (plan : PlanResult) (t : trace)
    (os : list IdentityOutcome) :
  runs (writeRolePlan recorder resource plan) t os →
  ∃ attempted rest, os = attempted ++ rest ∧
    OutcomeIdentityID <$> attempted =
      take (length attempted) (PatchIdentityID <$> Patches plan) ∧
    (∀ o, o ∈ attempted → witnessed t o) ∧
    patchesDone t = length (filter (λ o, Kind o = Patched) attempted) ∧
    (∀ k o, attempted !! k = Some o → StopsWrites o = true → S k = length attempted ∧ rest = []) ∧
    (rest = [] ∧ (length attempted = length (Patches plan) ∨
                  ∃ o, last attempted = Some o ∧ StopsWrites o = true) ∨
     ∃ id e, rest = [outcomeOf id Failed [] (Some e) []] ∧ ev CtxErr (Some e) ∈ t).
Proof. intros H1. by apply (writePatches_runs recorder) in H1. Qed.

(** ** Claims are given up last *)

(** An answer of the OpenZiti controller shows that the identity does not carry
    the value. *)
Definition confirmedWithout (t : trace) (id v : string) : Prop :=
  ev (Ziti (OpGetIdentity id)) (inr None) ∈ t ∨
  (∃ f, ev (Ziti (OpGetIdentity id)) (inr (Some f)) ∈ t ∧ v ∉ IdentRoleAttributes f) ∨
  (∃ attrs, ev (Ziti (OpPatchIdentityRoleAttributes id attrs)) (inr tt) ∈ t ∧ v ∉ attrs).

(** Every value read in a claim of the resource so far. *)
Definition alwaysClaimed (t : trace) (v : string) : Prop :=
  ∀ key current, ev (Get APIReader KRoleSync key) (inr current) ∈ t →
    v ∈ StatusManagedAttributes (SyncStatus current).

(** The value is retired: the plan of the run does not grant it, and every
    identity of the snapshot that carried it was confirmed to have lost it. *)
Definition retiredEverywhere (t : trace) (v : string) : Prop :=
  ∃ resource input plan, plannedFrom t resource input plan ∧ v ∉ CurrentValues plan ∧
    ∀ i, i ∈ Identities input → v ∈ IdentRoleAttributes i → confirmedWithout t (IdentID i) v.

Definition claimKept (v : string) (h : trace) (o : op) : Prop :=
  match o with
  | StatusUpdate KRoleSync o =>
      alwaysClaimed h v → v ∉ StatusManagedAttributes (SyncStatus o) → retiredEverywhere h v
  | _ => True
  end.

Lemma claimKept_read v h o : isRead o → claimKept v h o.
Proof. destruct o as [| | |[]| | |[]| | | |]; try done; by intros [? ?]. Qed.

Lemma confirmedWithout_app t t' id v : confirmedWithout t id v → confirmedWithout (t ++ t') id v.
Proof.
  assert (∀ e, e ∈ t → e ∈ t ++ t') as Happ by (intros; apply elem_of_app; by left).
  intros [Hg|[(f & Hf & ?)|(a & Ha & ?)]]; [left|right; left; exists f|right; right; exists a]; auto.
Qed.

Lemma retiredEverywhere_app t t' v : retiredEverywhere t v → retiredEverywhere (t ++ t') v.
Proof.
  intros (r & i & p & Hp & Hc & Hall). exists r, i, p. split_and!; [by apply plannedFrom_app|done|].
  intros j Hj Ha. by apply confirmedWithout_app, Hall.
Qed.

Lemma alwaysClaimed_app t t' v : alwaysClaimed (t ++ t') v → alwaysClaimed t v.
Proof. intros Ha key c Hc. apply (Ha key). apply elem_of_app. by left. Qed.

(** What a run leaves for the status: the claims of its completion may drop a
    value only when it is retired everywhere. *)
Definition completionKeeps (v : string) (result : syncRunResult) (h : trace) : Prop :=
  ∀ c, RunCompletion result = Some c → alwaysClaimed h v → v ∉ DoneManagedAttributes c →
    retiredEverywhere h v.

(** The outcomes confirm the retirement. *)
Lemma outcome_confirms t o id v :
  witnessed t o → OutcomeIdentityID o = id → clears o = true →
  Kind o = Deleted ∨ v ∉ OutcomeRoleAttributes o → confirmedWithout t id v.
Proof.
  unfold witnessed, clears, confirmedWithout. intros Hw <- Hc Hv. destruct (Kind o); try done.
  - destruct Hw as (f & Hf & E). rewrite E in Hv. right; left. exists f. naive_solver.
  - right; right. exists (OutcomeRoleAttributes o). naive_solver.
  - by left.
  - destruct Hw as (f & Hf & E). rewrite E in Hv. right; left. exists f. naive_solver.
Qed.

Lemma completion_releases h input plan resource outcomes recorded reason v :
  plannedFrom h resource input plan → v ∈ ManagedAttributes (InSelf input) →
  (∀ o, o ∈ outcomes → clears o = true → witnessed h o) →
  v ∉ DoneManagedAttributes (Complete
    {| Retirement.Plan := plan; PreviousValues := ManagedAttributes (InSelf input);
       Outcomes := outcomes; BlockReason := reason; ClaimRecorded := recorded |}) →
  retiredEverywhere h v.
Proof.
  intros Hplan Hv Hwit Hdrop. pose proof Hplan as (_ & _ & _ & _ & Hb).
  assert (∀ x, x ∈ ManagedAttributes (InSelf input) → x ∈ ManagedValues plan) as Hsub.
  { intros x Hx. apply (BuildPlan_managed _ _ _ Hb). by right. }
  assert (v ∉ CurrentValues plan) as Hcur.
  { intros Hc. apply Hdrop. rewrite Complete_unfold. cbv zeta. cbn.
    rewrite elem_of_sortedSet1. destruct recorded; cbn; [|done]. by case_match; auto. }
  destruct (Complete_release {| Retirement.Plan := plan;
    PreviousValues := ManagedAttributes (InSelf input); Outcomes := outcomes;
    BlockReason := reason; ClaimRecorded := recorded |} v Hsub Hv Hcur Hdrop) as (_ & _ & _ & Hholders).
  exists resource, input, plan. split_and!; [done..|]. intros i Hi Ha.
  destruct (BuildPlan_holders _ _ i v Hb Hi Hv Hcur Ha) as (hd & Hhd & Hid & _).
  destruct (Hholders hd Hhd) as (o & Hlast & Ho). rewrite Hid in Hlast. unfold lastReading in Hlast.
  apply last_Some_elem_of, list_elem_of_filter in Hlast as ([Hcl Hoid] & Hin). cbn in Hin.
  eapply outcome_confirms; eauto.
Qed.

Lemma plannedFrom_claimed h resource input plan v :
  plannedFrom h resource input plan → alwaysClaimed h v → v ∈ ManagedAttributes (InSelf input).
Proof.
  intros (_ & _ & (cur & syncs & ids & Hreads & _ & -> & _) & _) Ha. cbn.
  apply (Ha (ObjectKeyFromObject (SyncMeta resource))), Hreads. by left.
Qed.

Lemma executePlan_claims v h resource input plan :
  plannedFrom h resource input plan →
  wp (claimKept v) (executePlan recorder resource (InSelf input) plan)
    (λ r, completionKeeps v r.2) h.
Proof.
  intros Hplan. unfold executePlan. case_test.
  { intros c [= <-] Ha Hdrop.
    apply (completion_releases h input plan resource [] false (blockReason plan));
      [done|by eapply plannedFrom_claimed|set_solver|exact Hdrop]. }
  apply wp_bind. eapply wp_only; [apply recordRoleClaims_only| |].
  { intros t o [Ho|[cur ->]]; [by apply claimKept_read|]. intros Ha Hdrop. destruct Hdrop. cbn.
    pose proof Hplan as (_ & _ & _ & _ & Hb). apply (BuildPlan_managed _ _ _ Hb). right.
    eapply plannedFrom_claimed; [done|]. by eapply alwaysClaimed_app. }
  intros t1 [resource' [e|]] _; [by intros c|]. apply wp_bind. eapply wp_only.
  - apply (writePatches_only recorder).
  - intros t o [Ho|Ho]; [by apply claimKept_read|]. by destruct o as [| | |[]| | |[]| | | |].
  - intros t2 os Hw. apply (writePatches_runs recorder) in Hw as (done & rest & -> & _ & Hwit & _ & _ & Hend).
    intros c [= <-] Ha Hdrop.
    apply (completion_releases _ input plan resource (done ++ rest) true (blockReason plan));
      [| | |exact Hdrop].
    + rewrite <-app_assoc. by apply plannedFrom_app.
    + eapply plannedFrom_claimed; [done|]. eapply alwaysClaimed_app. by rewrite app_assoc.
    + intros o [Ho|Ho]%elem_of_app Hc.
      * specialize (Hwit o Ho). clear -Hwit. induction (h ++ t1) as [|e l IH]; [done|].
        by apply witnessed_cons.
      * destruct Hend as [[-> _]|(id & e & -> & _)]; [set_solver|].
        by apply list_elem_of_singleton in Ho as ->.
Qed.

Lemma runSync_claims v h resource :
  wp (claimKept v) (runSync recorder resource) (λ r, completionKeeps v r.2) h.
Proof.
  unfold runSync.
  assert (∀ h t o, isRead o → claimKept v (h ++ t) o) as HQ by (intros; by apply claimKept_read).
  destruct (snd (validateRoleSyncSpec resource)); [by intros c|].
  apply wp_bind. eapply wp_only; [apply readDirectory_only|apply HQ|]. intros t1 [e|d] _; [by intros c|].
  apply wp_bind. eapply wp_only; [apply readGraph_only|apply HQ|]. intros t2 [e|input] Hg; [by intros c|].
  apply readGraph_runs in Hg. cbn [bind ziti call wp]. split; [done|]. intros [e|identities]; [by intros c|].
  apply wp_bind. eapply wp_only; [apply readOwnership_only|apply HQ|].
  intros t3 [e|[[self others] owners]] Ho; [by intros c|].
  apply readOwnership_runs in Ho as (cur & syncs & ids & -> & Hlive & -> & -> & ->).
  destruct (BuildPlan _) as [e|plan] eqn:Hplan; [by intros c|].
  apply (executePlan_claims _ _ _ (completeInput input identities (roleClaim cur)
    (otherClaims resource syncs) (identityOwner <$> ids) (SpecUserProperty (SyncSpec resource))) plan).
  by apply plannedFrom_reads.
Qed.

Lemma persistSyncResult_claims v resource result h :
  completionKeeps v result h →
  wp (claimKept v) (persistSyncResult recorder resource result) (λ _ _, True) h.
Proof.
  intros Hkeep. unfold persistSyncResult.
  assert (∀ h t o, isRead o → claimKept v (h ++ t) o) as HQ by (intros; by apply claimKept_read).
  apply wp_bind. eapply wp_only; [apply readRoleSync_only|apply HQ|].
  intros t1 [e|current] Hr; [done|]. apply readRoleSync_runs in Hr as [-> _].
  apply wp_bind. eapply wp_only; [apply applyCompletion_only|apply HQ|].
  intros t2 current2 Hc2. apply applyCompletion_runs in Hc2.
  apply wp_bind. eapply wp_only; [apply setRoleSyncConditions_only|apply HQ|].
  intros t3 current3 Hc3. apply setRoleSyncConditions_runs in Hc3.
  rewrite applyCounters_claims in Hc3. rewrite Hc2 in Hc3. clear Hc2.
  assert (∀ (b : bool) h', wp (claimKept v)
    (if b then bind (EmitEvent recorder (SyncMeta resource) EventTypeWarning (RunReason result)
       (roleSyncMessage result)) (λ _, Ret None) else Ret (@None error)) (λ _ _, True) h') as Hemit.
  { intros [] h'; [|done]. apply wp_bind. eapply wp_only; [apply EmitEvent_only|apply HQ|done]. }
  case_test; [|apply Hemit]. cbn [bind do call wp]. split; [|by intros [e|a]; [|apply Hemit]].
  intros Ha Hdrop. cbn in Hc3. rewrite Hc3 in Hdrop.
  destruct (RunCompletion result) as [c|] eqn:Hcomp.
  - rewrite <-!app_assoc in Ha |- *. apply retiredEverywhere_app. eapply Hkeep; [done| |done].
    by eapply alwaysClaimed_app.
  - destruct Hdrop. apply (Ha (ObjectKeyFromObject (SyncMeta resource))). set_solver.
Qed.

(** C17. No claim is forgotten, wherever a run is cut off.  If every read of
    the resource's claim during a run contains a value, then a status that the
    run writes can lack this value only when the value is retired everywhere:
    no role of the scope carries it any more, and every identity of the
    snapshot that had it was read again without it, patched without it, or
    found deleted, during this very run. *)
Theorem claims_not_forgotten (req : NamespacedName) (t : trace) (v : string)
    (o : ZitiEntraRoleSync) (r : result ZitiEntraRoleSync) :
  reaches (Reconcile recorder req) (t ++ [ev (StatusUpdate KRoleSync o) r]) →
  alwaysClaimed t v → v ∉ StatusManagedAttributes (SyncStatus o) → retiredEverywhere t v.
Proof.
  apply (wp_reaches (claimKept v) _ (λ _ _, True) [] t (ev (StatusUpdate KRoleSync o) r) []).
  unfold Reconcile. cbn [bind do call wp app].
  split; [done|]. intros [err|resource]; [done|]. case_test; [done|].
  apply wp_bind. eapply wp_mono; [done| |apply runSync_claims].
  intros [resource' result] h Hkeep. apply wp_bind.
  eapply wp_mono; [done| |by apply persistSyncResult_claims]. by intros [err|] h' _.
Qed.

(** ** The schedule *)

Lemma validateRoleSyncSpec_interval r : (Minute <= fst (validateRoleSyncSpec r))%Z.
Proof.
  assert (Minute <= 10 * Minute)%Z as Hten by (by vm_compute).
  unfold validateRoleSyncSpec. cbv zeta. repeat (case_match || case_test); cbn [fst]; try lia.
Qed.

(** The delay a throttling answer of Microsoft asked for. *)
Definition throttled (e : error) (delay : Z) : Prop :=
  (0 < delay)%Z ∧
  ((∃ g, asGraphError e = Some g ∧ GraphRetryAfter g = delay ∧
         (GraphStatusCode g = 429 ∨ GraphStatusCode g = 503)%Z) ∨
   (∃ k, asTokenError e = Some k ∧ TokenRetryAfter k = delay ∧
         (TokenStatusCode k = 429 ∨ TokenStatusCode k = 503)%Z)).

(** The errors that the directory answered in a trace. *)
Definition dirFailure (o : dirOp) : dirResp o → option error :=
  match o return dirResp o → option error with
  | OpGetServicePrincipal _ | OpListAppRoleAssignedTo _ | OpListGroupUsers _ =>
      λ r, match r with inl err => Some err | inr _ => None end
  end.

Definition refusedWith (e : event op resp) : option error :=
  match e with Ev (Dir _ o) r => dirFailure o r | _ => None end.

Definition refusals (t : trace) : list error := omap refusedWith t.

Lemma refusals_split t1 t2 : refusals (t1 ++ t2) = refusals t1 ++ refusals t2.
Proof. apply omap_app. Qed.

(** An error that no server sent. *)
Definition unsent (e : error) : Prop := asGraphError e = None ∧ asTokenError e = None.

Lemma unsent_throttled e delay : unsent e → ¬ throttled e delay.
Proof. intros [Hg Ht] [_ [(g & ? & _)|(k & ? & _)]]; congruence. Qed.

Definition notDir (o : op) : Prop := match o with Dir _ _ => False | _ => True end.

Lemma notDir_refusals {A} (p : action A) t a : only notDir p → runs p t a → refusals t = [].
Proof.
  intros Hp Hr. apply (only_runs _ _ _ _ Hp) in Hr. induction Hr as [|[o r] t Ho _ IH]; [done|].
  unfold refusals in *. cbn. rewrite IH. by destruct o.
Qed.

(** The directory is read up to its first error, which is the one of the run. *)
Lemma readGroups_refusals d ids ms t a :
  runs (readGroups d ids ms) t a →
  match a with inl e => refusals t = [e] ∨ refusals t = [] ∧ unsent e | inr _ => refusals t = [] end.
Proof.
  revert ms t. induction ids as [|id ids IH]; intros ms t; cbn [readGroups]; [by intros [-> <-]|].
  cbn [bind do call runs]. intros (r & t' & -> & Hr). destruct r as [e|users].
  { destruct Hr as [-> <-]. by left. }
  destruct (existsb _ users); [destruct Hr as [-> <-]; by right|]. exact (IH _ _ Hr).
Qed.

Lemma readGraph_refusals d resource t a :
  runs (readGraph d resource) t a →
  match a with inl e => refusals t = [e] ∨ refusals t = [] ∧ unsent e | inr _ => refusals t = [] end.
Proof.
  unfold readGraph. cbn [bind do call runs]. intros (r & t' & -> & Hr).
  destruct r as [e|[principal|]]; [destruct Hr as [-> <-]; by left| |destruct Hr as [-> <-]; by right].
  destruct Hr as (r & t2 & -> & Hr). destruct r as [e|assignments]; [destruct Hr as [-> <-]; by left|].
  destruct (ResolveRoleScope principal assignments) as [e|scope] eqn:Hs.
  { destruct Hr as [-> <-]. right. split; [done|]. revert Hs. unfold ResolveRoleScope.
    destruct (foldl _ _ _). case_test; [|done]. by intros [= <-]. }
  apply runs_bind in Hr as (t3 & t4 & r & -> & H1 & H2). apply readGroups_refusals in H1.
  destruct r as [e|members]; destruct H2 as [-> <-]; rewrite app_nil_r; exact H1.
Qed.

(** Only the directory is asked for a directory. *)
Lemma readDirectory_notDir r : only notDir (readDirectory r).
Proof. unfold readDirectory. only_calls. Qed.

Lemma readOwnership_notDir r : only notDir (readOwnership r).
Proof. unfold readOwnership, readRoleSync. only_calls. Qed.

Lemma writePatches_notDir resource plan patches os : only notDir (writePatches recorder resource plan patches os).
Proof.
  revert os. induction patches as [|patch patches IH]; intros os; cbn [writePatches]; [only_calls|].
  unfold applyRolePatch, EmitEvent. only_calls; try apply readOwnership_notDir; apply IH.
Qed.

Lemma executePlan_notDir resource self plan : only notDir (executePlan recorder resource self plan).
Proof.
  unfold executePlan, recordRoleClaims, readRoleSync, writeRolePlan. cbv zeta.
  only_calls; apply writePatches_notDir.
Qed.

Lemma persistSyncResult_notDir resource result : only notDir (persistSyncResult recorder resource result).
Proof.
  unfold persistSyncResult, readRoleSync, applyCompletion, setRoleSyncConditions, setSyncCondition, EmitEvent.
  cbv zeta. only_calls.
Qed.

Lemma graphError_or_tokenError e g k :
  asGraphError e = Some g → asTokenError e = Some k → False.
Proof. unfold asGraphError, asTokenError. by destruct (rootCause e). Qed.

Lemma rootCause_idem e : rootCause (rootCause e) = rootCause e.
Proof. by induction e. Qed.

Lemma throttled_dec e : (∃ delay, throttled e delay) ∨ ∀ delay, ¬ throttled e delay.
Proof.
  set (ask := λ status delay : Z, (0 < delay ∧ (status = 429 ∨ status = 503))%Z).
  assert (∀ s d, Decision (ask s d)) as Hdec by (intros; unfold ask; apply _).
  destruct (asGraphError e) as [g|] eqn:Hg.
  { destruct (Hdec (GraphStatusCode g) (GraphRetryAfter g)) as [[? ?]|Hn].
    - left. exists (GraphRetryAfter g). split; [done|]. left. by exists g.
    - right. intros d [Hd [(g' & Hg' & <- & Hs)|(k & Hk & _)]]; [|by eapply graphError_or_tokenError].
      rewrite Hg in Hg'. injection Hg' as <-. by destruct Hn. }
  destruct (asTokenError e) as [k|] eqn:Hk; [|right; intros d [_ [(g & ? & _)|(k & ? & _)]]; congruence].
  destruct (Hdec (TokenStatusCode k) (TokenRetryAfter k)) as [[? ?]|Hn].
  - left. exists (TokenRetryAfter k). split; [done|]. right. by exists k.
  - right. intros d [Hd [(g & ? & _)|(k' & Hk' & <- & Hs)]]; [congruence|].
    rewrite Hk in Hk'. injection Hk' as <-. by destruct Hn.
Qed.

(** A run whose directory refused a call is the failure of that call, and a run
    with another result carries no delay. *)
Definition directoryOutcome (resource resource' : ZitiEntraRoleSync) (result : syncRunResult)
    (refused : list error) : Prop :=
  (∃ e, refused = [e] ∧ resource' = resource ∧ result = graphRunFailure e) ∨
  refused = [] ∧ (RunReason result = "GraphError" → ∃ e, result = graphRunFailure e ∧ unsent e).

Lemma executePlan_reason resource self plan t resource' result :
  runs (executePlan recorder resource self plan) t (resource', result) → RunReason result ≠ "GraphError".
Proof.
  unfold executePlan. case_test.
  - intros [_ [= <- <-]]. cbn. unfold blockReason. by repeat case_match.
  - intros (t1 & t2 & [r [e|]] & _ & _ & Hr)%runs_bind; [by destruct Hr as [_ [= <- <-]]|].
    apply runs_bind in Hr as (t3 & t4 & os & _ & _ & [_ [= <- <-]]). cbn [RunReason].
    rewrite Complete_unfold. cbn. unfold completionReason. cbn.
    unfold blockReason. by repeat case_match.
Qed.

Lemma runSync_outcome resource t resource' result :
  runs (runSync recorder resource) t (resource', result) →
  directoryOutcome resource resource' result (refusals t).
Proof.
  unfold runSync, directoryOutcome. destruct (snd (validateRoleSyncSpec resource)).
  { intros [-> [= <- <-]]. by right. }
  intros (t1 & t2 & d & -> & H1 & Hr)%runs_bind.
  apply notDir_refusals in H1; [|apply readDirectory_notDir]. rewrite refusals_split, H1. cbn [app].
  destruct d as [e|d]; [destruct Hr as [-> [= <- <-]]; by right|].
  apply runs_bind in Hr as (t3 & t4 & g & -> & H2 & Hr). apply readGraph_refusals in H2. rewrite refusals_split.
  destruct g as [e|input].
  { destruct Hr as [-> [= <- <-]]. rewrite app_nil_r. destruct H2 as [H2|[H2 Hu]]; [left|right]; eauto. }
  rewrite H2. cbn [app bind ziti call runs] in *. destruct Hr as (ids & t5 & -> & Hr).
  change (refusals (Ev (Ziti OpListIdentities) ids :: t5)) with (refusals t5). right.
  destruct ids as [e|ids]; [by destruct Hr as [-> [= <- <-]]|].
  apply runs_bind in Hr as (t6 & t7 & own & -> & H3 & Hr).
  apply notDir_refusals in H3; [|apply readOwnership_notDir]. rewrite refusals_split, H3. cbn [app].
  destruct own as [e|[[self others] owners]]; [by destruct Hr as [-> [= <- <-]]|].
  destruct (BuildPlan _) as [e|plan] eqn:Hplan.
  { destruct Hr as [-> [= <- <-]]. split; [done|]. intros _. exists e. split; [done|].
    revert Hplan. unfold BuildPlan. case_test; [by intros [= <-]|]. by repeat case_match. }
  split; [by eapply notDir_refusals, Hr; apply executePlan_notDir|].
  intros Hg. by eapply executePlan_reason in Hr.
Qed.

(** The status is not read, is the one of a replaced or deleted resource, or is
    not written. *)
Definition persistFailure (resource : ZitiEntraRoleSync) (t : trace) (err : error) : Prop :=
  let key := ObjectKeyFromObject (SyncMeta resource) in
  ev (Get APIReader KRoleSync key) (inl err) ∈ t ∨
  (∃ current, ev (Get APIReader KRoleSync key) (inr current) ∈ t ∧ ¬ isLive resource current) ∨
  (∃ current, ev (StatusUpdate KRoleSync current) (inl err) ∈ t).

Lemma persistFailure_app resource t t' err :
  persistFailure resource t err → persistFailure resource (t' ++ t) err.
Proof.
  intros [Hp|[(c & Hp & ?)|(c & Hp)]]; [left|right; left; exists c|right; right; exists c];
    rewrite ?elem_of_app; auto.
Qed.

Lemma readRoleSync_error resource t err :
  runs (readRoleSync resource) t (inl err) → persistFailure resource t err.
Proof.
  unfold readRoleSync. cbn. intros (r & t' & -> & Hr). destruct r as [e|c].
  { destruct Hr as [-> [= <-]]. left. by left. }
  destruct (_ || _) eqn:E; destruct Hr as [-> [= <-]]. right. left. exists c. split; [by left|].
  intros [Hu Hd]. apply orb_true_iff in E as [E|E]; apply negb_true_iff, bool_decide_eq_false in E; done.
Qed.

Lemma persistSyncResult_error resource result t err :
  runs (persistSyncResult recorder resource result) t (Some err) → persistFailure resource t err.
Proof.
  unfold persistSyncResult. intros (t1 & t2 & r & -> & H1 & Hr)%runs_bind.
  destruct r as [e|current].
  { destruct Hr as [-> [= <-]]. rewrite app_nil_r. by apply readRoleSync_error. }
  apply persistFailure_app. apply runs_bind in Hr as (t3 & t4 & c1 & -> & _ & Hr).
  apply persistFailure_app. apply runs_bind in Hr as (t5 & t6 & c2 & -> & _ & Hr).
  apply persistFailure_app.
  assert (∀ (b : bool) t', runs (if b then bind (EmitEvent recorder (SyncMeta resource) EventTypeWarning
      (RunReason result) (roleSyncMessage result)) (λ _, Ret None) else Ret None) t' (Some err) → False)
    as Hemit.
  { intros [] t'; [|by intros [_ ?]]. by intros (? & ? & ? & _ & _ & [_ ?])%runs_bind. }
  revert Hr. case_test; [|by intros ?%Hemit].
  cbn [bind do call runs]. intros ([e|a] & t7 & -> & Hr); [|by apply Hemit in Hr].
  destruct Hr as [-> [= <-]]. right; right. eexists. by left.
Qed.

(** The retry of a failure of the directory. *)
Lemma retryResult_throttled interval e delay :
  throttled e delay →
  retryResult interval "GraphError" (Some e) (RunRetryAfter (graphRunFailure e)) =
    ({| Requeue := false; RequeueAfter := delay |}, None).
Proof.
  intros [Hpos Hcase]. unfold retryResult. cbv zeta.
  replace (contains _ "GraphError") with false by (by vm_compute).
  rewrite bool_decide_eq_true_2 by done.
  assert (∀ x, (∀ p e', x ≠ WrapError p e') → asGraphError x = None → asTokenError x = None →
    errorsIs e x = false) as Hnot.
  { intros x Hx Hg Ht. rewrite errorsIs_root by done. apply bool_decide_eq_false_2. intros <-.
    unfold asGraphError, asTokenError in Hg, Ht, Hcase. rewrite rootCause_idem in Hg, Ht. naive_solver. }
  rewrite !Hnot by done. cbn [orb RunRetryAfter graphRunFailure runFailure].
  destruct Hcase as [(g & Hg & <- & Hs)|(k & Hk & <- & Hs)].
  - rewrite Hg. destruct (asTokenError e) as [k|] eqn:Hk; [by destruct (graphError_or_tokenError e g k)|].
    destruct Hs as [Hs|Hs]; rewrite Hs; cbn [Z.eqb Pos.eqb orb andb]; by rewrite (proj2 (Z.ltb_lt _ _) Hpos).
  - rewrite Hk. destruct (asGraphError e) as [g|] eqn:Hg; [by destruct (graphError_or_tokenError e g k)|].
    assert (Transient k = true) as ->.
    { unfold Transient. destruct Hs as [Hs|Hs]; rewrite Hs; by rewrite ?orb_true_r. }
    destruct Hs as [Hs|Hs]; rewrite Hs; cbn [negb Z.eqb Pos.eqb orb andb]; by rewrite (proj2 (Z.ltb_lt _ _) Hpos).
Qed.

Definition atInterval (interval : Z) (o : outcome) : Prop :=
  o = ({| Requeue := false; RequeueAfter := interval |}, None) ∨ ∃ e, o = (noResult, Some e).

Lemma retryResult_unthrottled interval e :
  (∀ delay, ¬ throttled e delay) →
  atInterval interval (retryResult interval "GraphError" (Some e) (RunRetryAfter (graphRunFailure e))).
Proof.
  intros Hnot. unfold retryResult, atInterval. cbv zeta.
  replace (contains _ "GraphError") with false by (by vm_compute).
  rewrite bool_decide_eq_true_2 by done.
  destruct (_ || _ || _); [by left|].
  destruct (match asTokenError e with Some t => negb (Transient t) | None => false end); [by left|].
  destruct (match asGraphError e with Some g => _ | None => false end); [by left|].
  destruct (_ && _) eqn:Hstatus; [|right; by eexists].
  destruct (Hnot (RunRetryAfter (graphRunFailure e))).
  cbn [RunRetryAfter graphRunFailure runFailure] in *. reflect_bools.
  all: rename select (_ = true) into Hpos; split; [cbn in *; lia|].
  all: destruct (asGraphError e) as [g|] eqn:Eg, (asTokenError e) as [k|] eqn:Ek;
    try (by destruct (graphError_or_tokenError e g k)); try done.
  all: first [left; exists g; split_and!; [done..|lia]|right; exists k; split_and!; [done..|lia]].
Qed.

Lemma retryResult_other interval reason err delay :
  reason ≠ "GraphError" → atInterval interval (retryResult interval reason err delay).
Proof.
  intros Hr. unfold retryResult, atInterval. cbv zeta. destruct (contains _ reason); [by left|].
  rewrite bool_decide_eq_false_2 by done. right. by eexists.
Qed.

(** What the schedule of a live resource is, from the errors that the directory
    answered during the run: a throttling answer decides it, whenever the
    status of the resource could be read and written. *)
Definition scheduled (resource : ZitiEntraRoleSync) (t : trace) (o : outcome) : Prop :=
  (∃ e delay, e ∈ refusals t ∧ throttled e delay ∧
     (o = ({| Requeue := false; RequeueAfter := delay |}, None) ∨
      ∃ err, o = (noResult, Some err) ∧ persistFailure resource t err)) ∨
  (∀ e delay, e ∈ refusals t → ¬ throttled e delay) ∧
  (o = ({| Requeue := false; RequeueAfter := fst (validateRoleSyncSpec resource) |}, None) ∨
   ∃ err, o = (noResult, Some err)).

Lemma retryResult_scheduled resource resource' result refused :
  directoryOutcome resource resource' result refused →
  (∃ e delay, e ∈ refused ∧ throttled e delay ∧ resource' = resource ∧
     retryResult (fst (validateRoleSyncSpec resource)) (RunReason result) (RunErr result)
       (RunRetryAfter result) = ({| Requeue := false; RequeueAfter := delay |}, None)) ∨
  (∀ e delay, e ∈ refused → ¬ throttled e delay) ∧
  atInterval (fst (validateRoleSyncSpec resource))
    (retryResult (fst (validateRoleSyncSpec resource)) (RunReason result) (RunErr result)
       (RunRetryAfter result)).
Proof.
  intros [(e & -> & -> & ->)|[-> Hu]].
  - destruct (throttled_dec e) as [[delay Hd]|Hn].
    + left. exists e, delay. split_and!; [by left|done..|]. by apply retryResult_throttled.
    + right. split; [intros e' delay ->%list_elem_of_singleton; apply Hn|].
      by apply retryResult_unthrottled.
  - right. split; [intros e delay []%not_elem_of_nil|].
    destruct (decide (RunReason result = "GraphError")) as [Hg|Hg]; [|by apply retryResult_other].
    destruct (Hu Hg) as (e & -> & He). apply retryResult_unthrottled. intros delay.
    by apply unsent_throttled.
Qed.

(** C18. A live role sync never stops being reconciled, and never spins: every
    complete reconciliation of a resource that is not being deleted either
    returns an error, which the work queue retries with a growing delay, or
    schedules the next one.  The delay is the one that Microsoft asked for when
    a call of this run was answered with a throttling error (429 or 503 with a
    positive Retry-After), and such an answer is always honoured, unless the
    status could not be read or written, when that error is returned.  In a run
    without such an answer the delay is the interval of the spec, which is at
    least a minute.  A missing or deleting resource ends the schedule without
    any other call. *)
Theorem reconcile_schedule (req : NamespacedName) (t : trace) (res : Result) (err : option error) :
  runs (Reconcile recorder req) t (res, err) →
  ∃ answer t', t = ev (Get Cached KRoleSync req) answer :: t' ∧ Requeue res = false ∧
  match answer with
  | inl e => t' = [] ∧ res = noResult ∧ err = IgnoreNotFound e
  | inr resource =>
      if bool_decide (DeletionTimestamp (SyncMeta resource) = None)
      then (Minute <= fst (validateRoleSyncSpec resource))%Z ∧ scheduled resource t' (res, err)
      else t' = [] ∧ res = noResult ∧ err = None
  end.
Proof.
  unfold Reconcile. cbn [bind do call runs]. intros (answer & t' & -> & Hr). exists answer, t'.
  split; [done|]. destruct answer as [e|resource].
  { by destruct Hr as [-> [= <- <-]]. }
  destruct (bool_decide (DeletionTimestamp _ = None)); cbn [negb] in Hr; cycle 1.
  { by destruct Hr as [-> [= <- <-]]. }
  apply runs_bind in Hr as (t1 & t2 & [resource' result] & -> & Hsync & Hr).
  apply runSync_outcome, retryResult_scheduled in Hsync.
  apply runs_bind in Hr as (t3 & t4 & perr & -> & Hp & Hr).
  pose proof (notDir_refusals _ _ _ (persistSyncResult_notDir _ _) Hp) as Hnone.
  assert (t4 = []) as -> by (by destruct perr; destruct Hr).
  unfold scheduled. rewrite app_nil_r, refusals_split, Hnone, app_nil_r.
  assert (∀ P Q R : Prop, Q → P ∧ R → P ∧ Q ∧ R) as Hswap by tauto.
  apply Hswap; [apply validateRoleSyncSpec_interval|]. clear Hswap.
  destruct perr as [e|], Hr as [_ Hres].
  - injection Hres as <- <-. split; [done|]. apply persistSyncResult_error in Hp.
    destruct Hsync as [(e' & delay & ? & ? & -> & _)|[Hn _]]; [left|right; eauto].
    exists e', delay. split_and!; [done..|]. right. exists e. split; [done|]. by apply persistFailure_app.
  - destruct Hsync as [(e' & delay & ? & ? & -> & Heq)|[Hn Hat]].
    + rewrite Heq in Hres. injection Hres as <- <-. split; [done|]. left. exists e', delay. auto.
    + rewrite Hres in Hat. destruct Hat as [[= -> ->]|[? [= -> ->]]]; (split; [done|right; eauto]).
Qed.

(** ** No panics *)

Lemma readOwnership_no_panic resource : no_panic (readOwnership resource).
Proof. unfold readOwnership, readRoleSync. no_panic_calls. Qed.

Lemma writePatches_no_panic resource plan patches os :
  no_panic (writePatches recorder resource plan patches os).
Proof.
  revert os. induction patches as [|patch patches IH]; intros os; cbn [writePatches];
    [no_panic_calls|]. cbn [bind do call no_panic]. intros [e|]; [done|].
  apply no_panic_bind; [|intros; case_test; [done|apply IH]].
  unfold applyRolePatch. cbn [bind ziti call no_panic]. intros [e|fresh]; [done|].
  apply no_panic_bind; [apply readOwnership_no_panic|]. intros ? [e|[[self others] owners]] _; [done|].
  unfold EmitEvent. no_panic_calls.
Qed.

(** C19. The role sync never dereferences a nil pointer: whatever the
    Kubernetes API, the directory and the OpenZiti client answer, nil pointers
    without an error included, a reconciliation ends with a result. *)
Theorem reconcile_no_panic (req : NamespacedName) : no_panic (Reconcile recorder req).
Proof.
  unfold Reconcile. cbn [bind do call no_panic]. intros [e|resource]; [done|]. case_test; [done|].
  apply no_panic_bind.
  - unfold runSync. destruct (snd _); [done|]. apply no_panic_bind; [unfold readDirectory; no_panic_calls|].
    intros ? [e|d] _; [done|]. apply no_panic_bind.
    { unfold readGraph. cbn [bind do call no_panic]. intros [e|[p|]]; [done| |done].
      cbn [bind do call no_panic]. intros [e|as_]; [done|]. destruct (ResolveRoleScope _ _) as [e|scope]; [done|].
      apply no_panic_bind; [|by intros ? [] _]. generalize (∅ : gmap string (list User)).
      induction (GroupIDs scope) as [|g gs IH]; intros ms; cbn [readGroups]; no_panic_calls. }
    intros ? [e|input] _; [done|]. cbn [bind ziti call no_panic]. intros [e|ids]; [done|].
    apply no_panic_bind; [apply readOwnership_no_panic|]. intros ? [e|[[self others] owners]] _; [done|].
    destruct (BuildPlan _) as [e|plan]; [done|]. unfold executePlan. case_test; [done|].
    apply no_panic_bind; [unfold recordRoleClaims, readRoleSync; no_panic_calls|].
    intros ? [r [e|]] _; [done|]. apply no_panic_bind; [apply writePatches_no_panic|done].
  - intros ? [resource' result] _. apply no_panic_bind; [|by intros ? [] _].
    unfold persistSyncResult, readRoleSync, applyCompletion, setRoleSyncConditions, setSyncCondition,
      EmitEvent. no_panic_calls.
Qed.

End Safety.

(** ** Evaluation on the concrete environment *)

Lemma patches_justified_witness :
  exTrace !! 17 = Some exPatched ∧
  @patchJustified asciiTables exRequest (exBefore 17) (ev_op exPatched).
Proof.
  split; [exact exTrace_patch|].
  apply (@patches_justified asciiTables upsertConditions true exRequest (exBefore 17) exPatched).
  exact (exReaches 17 exPatched exTrace_patch).
Defined.

Lemma writeRolePlan_correct_witness :
  patchesDone exWritesTrace = 1 ∧
  ∃ attempted rest, exOutcomes = attempted ++ rest ∧
    patchesDone exWritesTrace = length (filter (λ o, Kind o = Patched) attempted).
Proof.
  split; [by vm_compute|].
  destruct (@writeRolePlan_correct asciiTables true exSync exPlan exWritesTrace exOutcomes
    exWrites_runs) as (attempted & rest & H1 & _ & _ & H2 & _).
  exists attempted, rest. split; [exact H1|exact H2].
Defined.

(** Every claim read in this environment is the one of [exSync]. *)
Lemma exAlwaysClaimed : alwaysClaimed (exBefore 25) "gamma".
Proof.
  intros key current Hin.
  assert (Forall (λ e, match e with
    | Ev (Get APIReader KRoleSync _) (inr c) => contains (StatusManagedAttributes (SyncStatus c)) "gamma" = true
    | _ => True end) (exBefore 25)) as Hall by (vm_compute; repeat constructor).
  rewrite Forall_forall in Hall. specialize (Hall _ Hin). by apply contains_true in Hall.
Qed.

Lemma claims_not_forgotten_witness :
  "gamma" ∉ StatusManagedAttributes (SyncStatus exRecorded) ∧
  @retiredEverywhere asciiTables (exBefore 25) "gamma".
Proof.
  assert ("gamma" ∉ StatusManagedAttributes (SyncStatus exRecorded)) as Hdrop.
  { rewrite (proj2 exTrace_record). apply contains_false. reflexivity. }
  split; [exact Hdrop|].
  apply (@claims_not_forgotten asciiTables upsertConditions true exRequest (exBefore 25) "gamma"
    exRecorded (inr exRecorded)); [|exact exAlwaysClaimed|exact Hdrop].
  exact (exReaches 25 _ (proj1 exTrace_record)).
Defined.

Lemma reconcile_schedule_witness :
  exOutcome.2 = None ∧ RequeueAfter exOutcome.1 = Hour ∧ ∃ answer t',
    exTrace = ev (Get Cached KRoleSync exRequest) answer :: t'.
Proof.
  destruct (@reconcile_schedule asciiTables upsertConditions true exRequest exTrace
    exOutcome.1 exOutcome.2 exReconcile_runs) as (answer & t' & H & _).
  split_and!; [reflexivity|reflexivity|exists answer, t'; exact H].
Defined.
