(* ===== verification/Policy.v ===== *)
(** * Access policies of the backend

    [internal/openziti/policy/selectors.go] and [service.go]: the role
    expressions of a selector and the policy that a resource asks for. *)

From S2P Require Import Prelude GoSlices GoStrings Errors ZitiTypes ApiTypes World.

(** ** Role expressions *)

(** The body of the loops over names, IDs and attributes: [seen] is the set of
    the expressions that were appended. *)
Definition appendExpression (mark : string) (st : strs * gmap string unit) (value : string)
    : strs * gmap string unit :=
  let '(compiled, seen) := st in
  let expression := mark +:+ TrimSpace value in
  if bool_decide (expression = mark) then st
  else if bool_decide (is_Some (seen !! expression)) then st
  else (compiled ++ [expression], <[expression := tt]> seen).

(** [CompileSelector] *)
Definition CompileSelector (selector : SelectorSpec) : strs :=
  fst (foldl (appendExpression "#")
         (foldl (appendExpression "@") ([], ∅) (MatchNames selector))
         (MatchRoleAttributes selector)).

(** [ResolvedSelector] *)
Record ResolvedSelector := { ResolvedIDs : strs; ResolvedRoleAttributes : strs }.
#[export] Instance ResolvedSelector_eq_dec : EqDecision ResolvedSelector.
Proof. solve_decision. Defined.

(** [selectorRoles] *)
Definition selectorRoles (selector : ResolvedSelector) : strs :=
  fst (foldl (appendExpression "#")
         (foldl (appendExpression "@") ([], ∅) (ResolvedIDs selector))
         (ResolvedRoleAttributes selector)).

(** ** Desired policies *)

Definition semanticAnyOf : string := "AnyOf".

(** [DesiredPolicy] *)
Record DesiredPolicy := {
  DesiredPolicyName : string;
  DesiredPolicyType : string;
  DesiredIdentityRoles : strs;
  DesiredServiceRoles : strs;
  DesiredIdentityRolesRaw : strs;
  DesiredServiceRolesRaw : strs;
  DesiredSemantic : string;
}.

(** [FromResource] *)
Definition FromResource (resource : ZitiAccessPolicy) (identitySelector serviceSelector : ResolvedSelector)
    : DesiredPolicy :=
  {| DesiredPolicyName := MetaName (PolicyMeta resource);
     DesiredPolicyType := PolicySpecType (PolicySpec resource);
     DesiredIdentityRoles := selectorRoles identitySelector;
     DesiredServiceRoles := selectorRoles serviceSelector;
     DesiredIdentityRolesRaw := selectorRoles identitySelector;
     DesiredServiceRolesRaw := selectorRoles serviceSelector;
     DesiredSemantic := semanticAnyOf |}.

(** The policy that [Create] and [Update] send. *)
Definition clientPolicy (id : string) (desired : DesiredPolicy) : AccessPolicy :=
  {| PolicyID := id; PolicyName := DesiredPolicyName desired;
     PolicyType := DesiredPolicyType desired;
     PolicyIdentityRoles := DesiredIdentityRoles desired;
     PolicyServiceRoles := DesiredServiceRoles desired;
     PolicyIdentityRolesRaw := DesiredIdentityRolesRaw desired;
     PolicyServiceRolesRaw := DesiredServiceRolesRaw desired;
     PolicySemantic := DesiredSemantic desired |}.

(** [(s *Service) Get], [FindByName], [Create], [Update] and [Delete] *)
Definition policyGet (id : string) := ziti (OpGetAccessPolicy id).
Definition policyFindByName (name : string) := ziti (OpFindAccessPolicyByName name).
Definition policyCreate (desired : DesiredPolicy) := ziti (OpCreateAccessPolicy (clientPolicy "" desired)).
Definition policyUpdate (id : string) (desired : DesiredPolicy) :=
  ziti (OpUpdateAccessPolicy (clientPolicy id desired)).
Definition policyDelete (id : string) := ziti (OpDeleteAccessPolicy id).

(** ** Lemmas *)

(** The first occurrences in a list, without those in [seen]. *)
Fixpoint firstOccurrences (seen l : strs) : strs :=
  match l with
  | [] => []
  | x :: l => if contains seen x then firstOccurrences seen l
              else x :: firstOccurrences (x :: seen) l
  end.

Lemma firstOccurrences_seen seen seen' l :
  (∀ x, x ∈ seen ↔ x ∈ seen') → firstOccurrences seen l = firstOccurrences seen' l.
Proof.
  revert seen seen'. induction l as [|x l IH]; intros seen seen' Hs; cbn; [done|].
  destruct (contains seen x) eqn:E, (contains seen' x) eqn:E'.
  - by apply IH.
  - apply contains_true in E. apply contains_false in E'. by apply Hs in E.
  - apply contains_false in E. apply contains_true in E'. by apply Hs in E'.
  - f_equal. apply IH. set_solver.
Qed.

Lemma elem_of_firstOccurrences seen l x :
  x ∈ firstOccurrences seen l ↔ x ∈ l ∧ x ∉ seen.
Proof.
  revert seen. induction l as [|y l IH]; intros seen; cbn; [set_solver|].
  destruct (contains seen y) eqn:E.
  - apply contains_true in E. rewrite IH. set_solver.
  - apply contains_false in E. rewrite elem_of_cons, IH. destruct (decide (x = y)); set_solver.
Qed.

Lemma firstOccurrences_nodup seen l : NoDup (firstOccurrences seen l).
Proof.
  revert seen. induction l as [|x l IH]; intros seen; cbn; [constructor|].
  case_test; [done|]. constructor; [|done]. rewrite elem_of_firstOccurrences. set_solver.
Qed.

(** The expressions of the values that are not blank. *)
Definition expressions (mark : string) (values : strs) : strs :=
  (λ value, mark +:+ TrimSpace value) <$> filter (λ value, TrimSpace value ≠ "") values.

Lemma append_nonempty (a b : string) : a +:+ b = a ↔ b = "".
Proof.
  split; [|intros ->; apply string_app_nil_r]. intros E.
  assert (String.length (a +:+ b) = String.length a) as El by (by rewrite E).
  rewrite string_length_app in El. destruct b; [done|]. cbn in El. lia.
Qed.

(** The state of the loops: the map holds the expressions of the list. *)
Lemma appendExpression_fold mark values compiled seen :
  (∀ e, is_Some (seen !! e) ↔ e ∈ compiled) →
  ∃ seen', foldl (appendExpression mark) (compiled, seen) values =
    (compiled ++ firstOccurrences compiled (expressions mark values), seen') ∧
  ∀ e, is_Some (seen' !! e) ↔ e ∈ compiled ++ firstOccurrences compiled (expressions mark values).
Proof.
  revert compiled seen. induction values as [|v values IH]; intros compiled seen Hseen.
  - exists seen. cbn. rewrite app_nil_r. done.
  - cbn [foldl]. unfold appendExpression at 2. unfold expressions. rewrite filter_cons.
    case_bool_decide as Hblank; rewrite append_nonempty in Hblank.
    { rewrite decide_False by tauto. by apply IH. }
    rewrite decide_True by done. cbn [fmap list_fmap firstOccurrences].
    case_bool_decide as Hin; rewrite Hseen in Hin.
    + rewrite (proj2 (contains_true _ _)) by done. by apply IH.
    + rewrite (proj2 (contains_false _ _)) by done.
      destruct (IH (compiled ++ [mark +:+ TrimSpace v]) (<[mark +:+ TrimSpace v := tt]> seen))
        as (seen' & E & Hs).
      { intros e. rewrite lookup_insert_is_Some, elem_of_app, list_elem_of_singleton, <-Hseen.
        destruct (decide (mark +:+ TrimSpace v = e)); naive_solver. }
      exists seen'. fold (expressions mark values).
      assert (firstOccurrences (compiled ++ [mark +:+ TrimSpace v]) (expressions mark values) =
        firstOccurrences ((mark +:+ TrimSpace v) :: compiled) (expressions mark values)) as Hf
        by (apply firstOccurrences_seen; set_solver).
      rewrite Hf, <-app_assoc in E. rewrite Hf, <-app_assoc in Hs. done.
Qed.

(** The expressions of IDs start with another character than those of
    attributes. *)
Lemma expressions_disjoint a b x : x ∈ expressions "@" a → x ∉ expressions "#" b.
Proof.
  intros (v & -> & _)%list_elem_of_fmap (w & [=] & _)%list_elem_of_fmap.
Qed.

(** Both loops together. *)
Lemma compile_eq names attributes :
  fst (foldl (appendExpression "#") (foldl (appendExpression "@") ([], ∅) names) attributes) =
  firstOccurrences [] (expressions "@" names) ++ firstOccurrences [] (expressions "#" attributes).
Proof.
  destruct (appendExpression_fold "@" names [] ∅) as (seen & -> & Hseen).
  { intros e. rewrite lookup_empty, is_Some_alt. set_solver. }
  destruct (appendExpression_fold "#" attributes _ _ Hseen) as (seen' & -> & _).
  cbn. f_equal. generalize (expressions_disjoint names attributes).
  generalize (expressions "#" attributes). intros l Hd.
  assert (∀ x, x ∈ l → x ∉ firstOccurrences [] (expressions "@" names)) as Hn.
  { intros x Hx. rewrite elem_of_firstOccurrences. intros [? _]. by eapply Hd. }
  revert Hn. generalize (firstOccurrences [] (expressions "@" names)). clear. intros seen Hn.
  assert (∀ acc : strs, firstOccurrences (acc ++ seen) l = firstOccurrences acc l) as H; [|apply (H [])].
  induction l as [|x l IH]; intros acc; cbn; [done|].
  assert (contains (acc ++ seen) x = contains acc x) as ->.
  { apply Bool.eq_iff_eq_true. rewrite !contains_true. specialize (Hn x). set_solver. }
  case_test; [apply IH; set_solver|]. f_equal. apply (IH ltac:(set_solver) (x :: acc)).
Qed.

(** ** Properties *)

(** C20. The role expressions of a selector.  They are, in this order, the
    trimmed IDs marked with an at sign and the trimmed attributes marked with a
    number sign, blank ones left out and each expression kept at its first
    occurrence; so no expression is repeated, and every expression comes from
    the selector.  [CompileSelector] does the same with names. *)
Theorem selectorRoles_correct (selector : ResolvedSelector) (spec : SelectorSpec) :
  selectorRoles selector =
    firstOccurrences [] (expressions "@" (ResolvedIDs selector)) ++
    firstOccurrences [] (expressions "#" (ResolvedRoleAttributes selector)) ∧
  NoDup (selectorRoles selector) ∧
  (∀ e, e ∈ selectorRoles selector ↔
     (∃ id, id ∈ ResolvedIDs selector ∧ TrimSpace id ≠ "" ∧ e = "@" +:+ TrimSpace id) ∨
     (∃ a, a ∈ ResolvedRoleAttributes selector ∧ TrimSpace a ≠ "" ∧ e = "#" +:+ TrimSpace a)) ∧
  CompileSelector spec =
    selectorRoles {| ResolvedIDs := MatchNames spec;
                     ResolvedRoleAttributes := MatchRoleAttributes spec |}.
Proof.
  assert (∀ mark l e, e ∈ firstOccurrences [] (expressions mark l) ↔
    ∃ v, v ∈ l ∧ TrimSpace v ≠ "" ∧ e = mark +:+ TrimSpace v) as Hin.
  { intros mark l e. rewrite elem_of_firstOccurrences. unfold expressions.
    rewrite list_elem_of_fmap. setoid_rewrite list_elem_of_filter. set_solver. }
  split; [apply compile_eq|]. split; [|split; [|done]].
  - unfold selectorRoles. rewrite compile_eq. apply NoDup_app.
    split_and!; [apply firstOccurrences_nodup| |apply firstOccurrences_nodup].
    intros e He Hf. rewrite elem_of_firstOccurrences in He. rewrite elem_of_firstOccurrences in Hf.
    destruct He as [He _], Hf as [Hf _]. by apply (expressions_disjoint _ (ResolvedRoleAttributes selector) _ He).
  - intros e. unfold selectorRoles. by rewrite compile_eq, elem_of_app, !Hin.
Qed.
