(* ===== verification/AccessPolicy.v ===== *)
(** * The access policy reconciler

    [internal/controller/zitiaccesspolicy_controller.go]: the resolution of the
    two selectors of a resource and its reconciliation with one service policy
    of the OpenZiti controller. *)

From S2P Require Import Prelude GoSlices GoStrings Errors ZitiTypes ApiTypes World.
From S2P Require Import ReconcileHelpers Policy.

#[local] Open Scope mz_scope.

Definition zitiAccessPolicyFinalizer : string := "ziti.sixfeetup.com/access-policy-finalizer".

(** ** Selectors *)

Definition selectorDefined (selector : SelectorSpec) : bool :=
  bool_decide (0 < length (MatchNames selector)) ||
  bool_decide (0 < length (MatchRoleAttributes selector)).

(** [validateAccessPolicySpec] *)
Definition validateAccessPolicySpec (policy : ZitiAccessPolicy) : option error :=
  let spec := PolicySpec policy in
  if negb (bool_decide (PolicySpecType spec = AccessPolicyTypeDial)) &&
     negb (bool_decide (PolicySpecType spec = AccessPolicyTypeBind))
  then Some (ErrorString "spec.type must be Dial or Bind")
  else if negb (selectorDefined (IdentitySelector spec))
  then Some (ErrorString "spec.identitySelector must define at least one match field")
  else if negb (selectorDefined (ServiceSelector spec))
  then Some (ErrorString "spec.serviceSelector must define at least one match field")
  else None.

(** [appendUnique] *)
Definition appendUnique (values : strs) (value : string) : strs :=
  if bool_decide (value = "") || contains values value then values else values ++ [value].

(** [matchesNames] *)
Definition matchesNames (matchNames : strs) (name : string) : bool :=
  existsb (λ candidate, bool_decide (candidate = name)) matchNames.

(** [matchesSelector] *)
Definition matchesSelector (selector : SelectorSpec) (name : string) (roleAttributes : strs) : bool :=
  if matchesNames (MatchNames selector) name then true
  else existsb (λ candidate, contains roleAttributes candidate) (MatchRoleAttributes selector).

(** ** Resolution *)

(** One half of [selectorResolution], for the identities or for the services. *)
Record resolution := {
  resolved : ResolvedSelector;
  resolvedCount : Z;
  resolvedPending : Z;
}.

Definition emptyResolution (selector : SelectorSpec) : resolution :=
  {| resolved := {| ResolvedIDs := []; ResolvedRoleAttributes := MatchRoleAttributes selector |};
     resolvedCount := 0; resolvedPending := 0 |}.

Definition addResolvedID (id : string) (r : ResolvedSelector) : ResolvedSelector :=
  {| ResolvedIDs := appendUnique (ResolvedIDs r) id;
     ResolvedRoleAttributes := ResolvedRoleAttributes r |}.

(** The body of the loops over the items of a list, of which it uses the name,
    the role attributes and the status ID. *)
Definition resolveItem (selector : SelectorSpec) (st : resolution) (item : string * strs * string)
    : resolution :=
  let '(name, attributes, id) := item in
  if negb (matchesSelector selector name attributes) then st
  else if matchesNames (MatchNames selector) name then
    if bool_decide (id = "") then
      {| resolved := resolved st; resolvedCount := resolvedCount st;
         resolvedPending := resolvedPending st + 1 |}
    else {| resolved := addResolvedID id (resolved st); resolvedCount := resolvedCount st + 1;
            resolvedPending := resolvedPending st |}
  else {| resolved := resolved st; resolvedCount := resolvedCount st + 1;
          resolvedPending := resolvedPending st |}.

Definition identityItem (i : ZitiIdentity) : string * strs * string :=
  (IdentitySpecName (IdentitySpec i), IdentitySpecRoleAttributes (IdentitySpec i),
   StatusID (IdentityCommon (IdentityStatus i))).

Definition serviceItem (s : ZitiService) : string * strs * string :=
  (ServiceSpecName (ServiceSpec s), ServiceSpecRoleAttributes (ServiceSpec s),
   StatusID (ServiceCommon (ServiceStatus s))).

(** The body of the loop of [resolveBackendIdentitySelector]. *)
Definition resolveBackendItem (selector : SelectorSpec) (st : ResolvedSelector * Z)
    (identity : Identity) : ResolvedSelector * Z :=
  let '(resolved, count) := st in
  if negb (matchesSelector selector (IdentName identity) (IdentRoleAttributes identity)) then st
  else
    (if matchesNames (MatchNames selector) (IdentName identity) &&
        negb (bool_decide (IdentID identity = ""))
     then addResolvedID (IdentID identity) resolved else resolved, (count + 1)%Z).

(** The conversion [int32(x)] of an [int]. *)
Definition int32 (x : Z) : Z := (x + 2 ^ 31) mod 2 ^ 32 - 2 ^ 31.

Definition setResolvedCounts (identities services : Z) (policy : ZitiAccessPolicy) : ZitiAccessPolicy :=
  {| PolicyMeta := PolicyMeta policy; PolicySpec := PolicySpec policy;
     PolicyStatus := {| PolicyCommon := PolicyCommon (PolicyStatus policy);
                        ResolvedIdentityCount := identities; ResolvedServiceCount := services |} |}.

Section Controller.
Context `{MetaConditions}.

(** The fields of the reconciler that may be nil: the recorder and the identity
    service. *)
Context (recorder identityService : bool).

(** The methods [markReady] and [markFailed] of this reconciler. *)
Definition markPolicyReady (policy : obj KAccessPolicy) : action (option error) :=
  markReady policy "ZitiAccessPolicy reconciled successfully".
Definition markPolicyFailed (policy : obj KAccessPolicy) (reconcileErr : error) (reason : string)
    (retryable : bool) : action outcome :=
  markFailed recorder policy reconcileErr reason retryable.

(** [resolveBackendIdentitySelector]: the selector it fills in and the count. *)
Definition resolveBackendIdentitySelector (selector : SelectorSpec) (resolved : ResolvedSelector)
    : action (result (ResolvedSelector * Z)) :=
  if negb identityService then Ret (inl (ErrorString "identity backend service is not configured"))
  else
    let! r := ziti OpListIdentities in
    match r with
    | inl err => Ret (inl err)
    | inr identities => Ret (inr (foldl (resolveBackendItem selector) (resolved, 0%Z) identities))
    end.

(** [resolveSelectors]: the halves for identities and services. *)
Definition resolveSelectors (policy : ZitiAccessPolicy) : action (result (resolution * resolution)) :=
  let namespace := Some (MetaNamespace (PolicyMeta policy)) in
  let identitySelector := IdentitySelector (PolicySpec policy) in
  let serviceSelector := ServiceSelector (PolicySpec policy) in
  let! r := do (List Cached KIdentity namespace) in
  match r with
  | inl err => Ret (inl err)
  | inr identities =>
      let! r := do (List Cached KService namespace) in
      match r with
      | inl err => Ret (inl err)
      | inr services =>
          let identity := foldl (resolveItem identitySelector) (emptyResolution identitySelector)
                            (identityItem <$> identities) in
          let service := foldl (resolveItem serviceSelector) (emptyResolution serviceSelector)
                            (serviceItem <$> services) in
          if (resolvedCount identity =? 0)%Z && (resolvedPending identity =? 0)%Z then
            let! r := resolveBackendIdentitySelector identitySelector (resolved identity) in
            match r with
            | inl err => Ret (inl err)
            | inr (selector, backendCount) =>
                Ret (inr ({| resolved := selector; resolvedCount := backendCount;
                             resolvedPending := resolvedPending identity |}, service))
            end
          else Ret (inr (identity, service))
      end
  end.

(** [reconcilePolicy] *)
Definition reconcilePolicy (resource : ZitiAccessPolicy) (desired : DesiredPolicy)
    : action (result (option AccessPolicy)) :=
  let id := StatusID (PolicyCommon (PolicyStatus resource)) in
  if negb (bool_decide (id = "")) then policyUpdate id desired
  else
    let! r := policyFindByName (DesiredPolicyName desired) in
    match r with
    | inl err => Ret (inl err)
    | inr (Some existing) => policyUpdate (PolicyID existing) desired
    | inr None => policyCreate desired
    end.

(** [reconcileDelete] *)
Definition reconcileDelete (policy : obj KAccessPolicy) : action outcome :=
  if negb (contains (Finalizers (meta policy)) zitiAccessPolicyFinalizer) then Ret (noResult, None)
  else
    let id := StatusID (common policy) in
    let! r := if negb (bool_decide (id = "")) then policyDelete id else Ret (inr tt) in
    match r with
    | inl err => Ret (noResult, Some err)
    | inr tt =>
        let policy := snd (RemoveFinalizer policy zitiAccessPolicyFinalizer) in
        let! r := do (Update KAccessPolicy policy) in
        match r with
        | inl err => Ret (noResult, Some err)
        | inr policy =>
            let! _ := EmitEvent recorder (meta policy) EventTypeNormal "PolicyDeleted"
                        "ZitiAccessPolicy backend state removed" in
            Ret (noResult, None)
        end
    end.

(** The end of [Reconcile], after the answer of the OpenZiti controller. *)
Definition finishPolicy (policy : obj KAccessPolicy) (r : result (option AccessPolicy))
    : action outcome :=
  match r with
  | inl err => markPolicyFailed policy err "PolicySyncFailed" true
  | inr backendPolicy =>
      deref backendPolicy (λ backendPolicy,
        let policy := withCommon (setStatusID (PolicyID backendPolicy) (common policy)) policy in
        let! err := markPolicyReady policy in
        match err with
        | Some err => Ret (noResult, Some err)
        | None =>
            let! _ := EmitEvent recorder (meta policy) EventTypeNormal "PolicyReconciled"
                        "ZitiAccessPolicy reconciled successfully" in
            Ret (noResult, None)
        end)
  end.

(** What follows the resolution in [Reconcile]. *)
Definition reconcileResolved (policy : obj KAccessPolicy) (identity service : resolution)
    : action outcome :=
  let policy : obj KAccessPolicy :=
    setResolvedCounts (int32 (resolvedCount identity)) (int32 (resolvedCount service)) policy in
  if (0 <? resolvedPending identity)%Z || (0 <? resolvedPending service)%Z then
    markPolicyFailed policy (ErrorString
      ("selector matches are waiting for backend IDs (identities pending: " +:+
       pretty (resolvedPending identity) +:+ ", services pending: " +:+
       pretty (resolvedPending service) +:+ ")")) "SelectorResolutionPending" true
  else if (resolvedCount identity =? 0)%Z then
    markPolicyFailed policy (ErrorString "identity selector matched zero identities")
      "SelectorResolutionFailed" false
  else if (resolvedCount service =? 0)%Z then
    markPolicyFailed policy (ErrorString "service selector matched zero services")
      "SelectorResolutionFailed" false
  else
    let desired := FromResource policy (resolved identity) (resolved service) in
    let! r := reconcilePolicy policy desired in
    finishPolicy policy r.

(** [Reconcile] *)
Definition reconcileAccessPolicy (req : NamespacedName) : action outcome :=
  let! r := do (Get Cached KAccessPolicy req) in
  match r with
  | inl err => Ret (noResult, IgnoreNotFound err)
  | inr policy =>
      if negb (bool_decide (DeletionTimestamp (meta (policy : obj KAccessPolicy)) = None))
      then reconcileDelete policy
      else
        match EnsureFinalizer (policy : obj KAccessPolicy) zitiAccessPolicyFinalizer with
        | (true, policy) =>
            let! r := do (Update KAccessPolicy policy) in
            match r with
            | inl err => Ret (noResult, Some err)
            | inr _ => Ret ({| Requeue := true; RequeueAfter := 0 |}, None)
            end
        | (false, policy) =>
            match validateAccessPolicySpec policy with
            | Some err => markPolicyFailed policy err "SelectorValidationFailed" false
            | None =>
                let! r := resolveSelectors policy in
                match r with
                | inl err => markPolicyFailed policy err "SelectorResolutionFailed" true
                | inr (identityHalf, serviceHalf) => reconcileResolved policy identityHalf serviceHalf
                end
            end
        end
  end.

End Controller.
