(* ===== verification/AccessPolicySafety.v ===== *)
(** * The access policy reconciler: properties

    What the resolution of selectors computes, when the OpenZiti controller is
    written to, and in which order backend state and finalizers go. *)

From S2P Require Import Prelude GoSlices GoStrings Errors ZitiTypes ApiTypes World.
From S2P Require Import ReconcileHelpers Lifecycle Policy AccessPolicy.

(** ** Resolution *)

(** The items a selector matches, those it matches by name, and the status IDs
    of the latter. *)
Abbreviation item := (string * strs * string)%type.

Definition isMatching (selector : SelectorSpec) (i : item) : bool :=
  matchesSelector selector i.1.1 i.1.2.

Definition isNamed (selector : SelectorSpec) (i : item) : bool :=
  matchesNames (MatchNames selector) i.1.1.

Definition isPending (selector : SelectorSpec) (i : item) : bool :=
  isNamed selector i && bool_decide (i.2 = "").

Definition namedIDs (selector : SelectorSpec) (items : list item) : strs :=
  snd <$> filter (λ i, isNamed selector i = true ∧ i.2 ≠ "") items.

(** What the loops of [resolveSelectors] compute. *)
Definition specResolution (selector : SelectorSpec) (items : list item) : resolution :=
  {| resolved := {| ResolvedIDs := firstOccurrences [] (namedIDs selector items);
                    ResolvedRoleAttributes := MatchRoleAttributes selector |};
     resolvedCount := Z.of_nat (length (filter (λ i, isMatching selector i = true ∧
                                                     isPending selector i = false) items));
     resolvedPending := Z.of_nat (length (filter (λ i, isPending selector i = true) items)) |}.

Lemma isNamed_isMatching selector i : isNamed selector i = true → isMatching selector i = true.
Proof. unfold isNamed, isMatching, matchesSelector. by intros ->. Qed.

Lemma firstOccurrences_snoc seen l x :
  firstOccurrences seen (l ++ [x]) =
  firstOccurrences seen l ++ (if contains (seen ++ l) x then [] else [x]).
Proof.
  revert seen. induction l as [|y l IH]; intros seen; cbn.
  - rewrite app_nil_r. by destruct (contains seen x).
  - assert (∀ a b : strs, (∀ z, z ∈ a ↔ z ∈ b) → contains a x = contains b x) as Hc.
    { intros a b Hab. apply Bool.eq_iff_eq_true. by rewrite !contains_true. }
    case_test; rewrite IH; cbn.
    + apply contains_true in Heqb. by rewrite (Hc (seen ++ l) (seen ++ y :: l)) by set_solver.
    + by rewrite (Hc (y :: seen ++ l) (seen ++ y :: l)) by set_solver.
Qed.

Lemma appendUnique_firstOccurrences l id :
  id ≠ "" → appendUnique (firstOccurrences [] l) id = firstOccurrences [] (l ++ [id]).
Proof.
  intros Hid. unfold appendUnique. rewrite bool_decide_false by done. cbn [orb].
  rewrite firstOccurrences_snoc. cbn [app].
  assert (contains (firstOccurrences [] l) id = contains l id) as ->.
  { apply Bool.eq_iff_eq_true. rewrite !contains_true, elem_of_firstOccurrences. set_solver. }
  case_test; by rewrite ?app_nil_r.
Qed.

Lemma resolveItem_fold selector items :
  foldl (resolveItem selector) (emptyResolution selector) items = specResolution selector items.
Proof.
  induction items as [|[[name attributes] id] items IH] using rev_ind; [done|].
  rewrite foldl_app, IH. unfold specResolution, namedIDs. rewrite !filter_app, !filter_cons, !filter_nil.
  cbn [foldl resolveItem].
  assert (isMatching selector (name, attributes, id) = matchesSelector selector name attributes) as -> by done.
  assert (isPending selector (name, attributes, id) =
    matchesNames (MatchNames selector) name && bool_decide (id = "")) as -> by done.
  assert (isNamed selector (name, attributes, id) = matchesNames (MatchNames selector) name) as Hn by done.
  rewrite Hn. cbn [snd].
  destruct (matchesSelector selector name attributes) eqn:Hm; cbn [negb].
  - destruct (matchesNames (MatchNames selector) name) eqn:Hname; cbn [andb].
    + case_bool_decide as Hid; repeat case_decide; try (exfalso; intuition congruence); unfold addResolvedID;
        cbn [resolved ResolvedIDs ResolvedRoleAttributes resolvedCount resolvedPending];
        rewrite ?app_nil_r, ?fmap_app, ?length_app; cbn [length].
      * rewrite ?Nat2Z.inj_add; done.
      * rewrite appendUnique_firstOccurrences by done. by rewrite ?Nat2Z.inj_add.
    + repeat case_decide; try (exfalso; intuition congruence). rewrite ?app_nil_r, ?length_app. cbn [length].
      by rewrite ?Nat2Z.inj_add.
  - assert (matchesNames (MatchNames selector) name = false) as Hname.
    { destruct (matchesNames _ name) eqn:E; [|done].
      unfold matchesSelector in Hm. by rewrite E in Hm. }
    rewrite Hname. cbn [andb]. repeat case_decide; try (exfalso; intuition congruence). by rewrite !app_nil_r.
Qed.

(** The identities of the backend, as items. *)
Definition backendItem (i : Identity) : item := (IdentName i, IdentRoleAttributes i, IdentID i).

Lemma resolveBackend_fold selector identities :
  foldl (resolveBackendItem selector)
    ({| ResolvedIDs := []; ResolvedRoleAttributes := MatchRoleAttributes selector |}, 0%Z) identities =
  ({| ResolvedIDs := firstOccurrences [] (namedIDs selector (backendItem <$> identities));
      ResolvedRoleAttributes := MatchRoleAttributes selector |},
   Z.of_nat (length (filter (λ i, isMatching selector i = true) (backendItem <$> identities)))).
Proof.
  induction identities as [|i identities IH] using rev_ind; [done|].
  rewrite foldl_app, IH, fmap_app. unfold namedIDs. rewrite !filter_app. cbn [fmap list_fmap].
  rewrite !filter_cons, !filter_nil. cbn [foldl resolveBackendItem].
  assert (isMatching selector (backendItem i) =
    matchesSelector selector (IdentName i) (IdentRoleAttributes i)) as -> by done.
  assert (isNamed selector (backendItem i) = matchesNames (MatchNames selector) (IdentName i)) as -> by done.
  cbn [snd backendItem].
  destruct (matchesSelector selector _ _) eqn:Hm; cbn [negb].
  - destruct (matchesNames _ (IdentName i)) eqn:Hname; cbn [andb].
    + case_bool_decide as Hid; cbn [negb]; repeat case_decide; try (exfalso; intuition congruence); unfold addResolvedID;
        cbn [ResolvedIDs ResolvedRoleAttributes];
        rewrite ?app_nil_r, ?fmap_app, ?length_app; cbn [length].
      * rewrite ?Nat2Z.inj_add; done.
      * rewrite appendUnique_firstOccurrences by done. by rewrite ?Nat2Z.inj_add.
    + repeat case_decide; try (exfalso; intuition congruence). rewrite ?app_nil_r, ?length_app. cbn [length].
      by rewrite ?Nat2Z.inj_add.
  - assert (matchesNames (MatchNames selector) (IdentName i) = false) as Hname.
    { destruct (matchesNames _ (IdentName i)) eqn:E; [|done].
      unfold matchesSelector in Hm. by rewrite E in Hm. }
    rewrite Hname. repeat case_decide; try (exfalso; intuition congruence). by rewrite !app_nil_r.
Qed.

(** What the loop over the backend's identities computes. *)
Definition specBackend (selector : SelectorSpec) (identities : list Identity) : resolution :=
  {| resolved := {| ResolvedIDs := firstOccurrences [] (namedIDs selector (backendItem <$> identities));
                    ResolvedRoleAttributes := MatchRoleAttributes selector |};
     resolvedCount := Z.of_nat (length (filter (λ i, isMatching selector i = true)
                                               (backendItem <$> identities)));
     resolvedPending := 0 |}.

(** Without a match nothing is resolved. *)
Lemma specResolution_empty selector items :
  resolvedCount (specResolution selector items) = 0%Z →
  resolvedPending (specResolution selector items) = 0%Z →
  resolved (specResolution selector items) =
    {| ResolvedIDs := []; ResolvedRoleAttributes := MatchRoleAttributes selector |}.
Proof.
  cbn. intros Hc Hp. assert (namedIDs selector items = []) as ->; [|done].
  unfold namedIDs.
  destruct (filter (λ i, isNamed selector i = true ∧ i.2 ≠ "") items) as [|i l] eqn:E; [done|].
  assert (i ∈ filter (λ i, isNamed selector i = true ∧ i.2 ≠ "") items) as Hi
    by (rewrite E; by left).
  apply list_elem_of_filter in Hi as [[Hn Hid] Hi]. exfalso.
  apply (Nat2Z.inj _ 0), length_zero_iff_nil in Hc.
  apply (filter_nil_not_elem_of _ _ i Hc); [|done].
  split; [by apply isNamed_isMatching|]. unfold isPending. by rewrite Hn, bool_decide_false.
Qed.

(** The resolution of both selectors and the reads it comes from: the resources
    of the namespace, and the identities of the backend only when no identity
    resource matches, be it without a status ID. *)
Definition resolutionOf (policy : ZitiAccessPolicy) (t : trace) (identity service : resolution) : Prop :=
  let namespace := Some (MetaNamespace (PolicyMeta policy)) in
  let selector := IdentitySelector (PolicySpec policy) in
  ∃ identities services rest,
    t = [ev (List Cached KIdentity namespace) (inr identities);
         ev (List Cached KService namespace) (inr services)] ++ rest ∧
    service = specResolution (ServiceSelector (PolicySpec policy)) (serviceItem <$> services) ∧
    let own := specResolution selector (identityItem <$> identities) in
    (rest = [] ∧ identity = own ∧ (resolvedCount own ≠ 0 ∨ resolvedPending own ≠ 0)%Z ∨
     resolvedCount own = 0%Z ∧ resolvedPending own = 0%Z ∧
     ∃ backend, rest = [ev (Ziti OpListIdentities) (inr backend)] ∧
                identity = specBackend selector backend).

(** The IDs of a resolution are the distinct, non-empty status IDs. *)
Lemma namedIDs_fresh selector items :
  NoDup (firstOccurrences [] (namedIDs selector items)) ∧
  "" ∉ firstOccurrences [] (namedIDs selector items).
Proof.
  split; [apply firstOccurrences_nodup|]. rewrite elem_of_firstOccurrences. unfold namedIDs.
  intros [([[? ?] ?] & E & [[_ Hid] _]%list_elem_of_filter)%list_elem_of_fmap _]. by cbn in *.
Qed.

Lemma resolveSelectors_runs identityService policy t identity service :
  runs (resolveSelectors identityService policy) t (inr (identity, service)) →
  resolutionOf policy t identity service.
Proof.
  unfold resolveSelectors. cbv zeta. cbn [bind do call runs].
  intros (identities & ? & -> & Hr). destruct identities as [e|identities]; [by destruct Hr|].
  cbn [bind do call runs] in Hr. destruct Hr as (services & ? & -> & Hr).
  destruct services as [e|services]; [by destruct Hr|]. rewrite !resolveItem_fold in Hr.
  set (own := specResolution _ (identityItem <$> identities)) in *.
  revert Hr. case_test; reflect_bools; rewrite ?Z.eqb_eq, ?Z.eqb_neq in *.
  - assert (resolved own = {| ResolvedIDs := [];
      ResolvedRoleAttributes := MatchRoleAttributes (IdentitySelector (PolicySpec policy)) |}) as ->
      by (by apply specResolution_empty).
    intros (t1 & t2 & r & -> & Hb & Hr)%runs_bind. unfold resolveBackendIdentitySelector in Hb.
    revert Hb. destruct identityService; cbn [negb]; [|by intros [_ <-]; destruct Hr].
    cbn [bind ziti call runs]. intros (backend & ? & -> & Hb).
    destruct backend as [e|backend]; destruct Hb as [-> <-]; [by destruct Hr|].
    rewrite resolveBackend_fold in Hr. destruct Hr as [-> [= <- <-]].
    exists identities, services, [ev (Ziti OpListIdentities) (inr backend)]. split_and!; [done..|].
    right. split_and!; [done..|]. exists backend. split; [done|]. unfold specBackend. f_equal; done.
  - intros [-> [= <- <-]]. exists identities, services, []. split_and!; [done..|]. left.
    split_and!; [done..|]. by left.
  - intros [-> [= <- <-]]. exists identities, services, []. split_and!; [done..|]. left.
    split_and!; [done..|]. by right.
Qed.

Lemma resolutionOf_pending policy t identity service :
  resolutionOf policy t identity service →
  (0 <= resolvedPending identity ∧ 0 <= resolvedPending service)%Z.
Proof.
  intros (ids & svcs & rest & _ & -> & [(_ & -> & _)|(_ & _ & backend & _ & ->)]); cbn; lia.
Qed.

(** ** When the OpenZiti controller is written to *)

(** The policy that is sent was computed from the selectors as they were
    resolved in [h], with every named match known and both sides non-empty. *)
Definition computedPolicy (h : trace) (policy : obj KAccessPolicy) (sent : AccessPolicy) : Prop :=
  ∃ t identity service,
    (∀ e, e ∈ t → e ∈ h) ∧ resolutionOf policy t identity service ∧
    resolvedPending identity = 0%Z ∧ resolvedPending service = 0%Z ∧
    resolvedCount identity ≠ 0%Z ∧ resolvedCount service ≠ 0%Z ∧
    sent = clientPolicy (PolicyID sent) (FromResource policy (resolved identity) (resolved service)).

(** The policy that is overwritten is the one of the status, or else the one
    that has its name. *)
Definition targets (h : trace) (policy : obj KAccessPolicy) (id : string) : Prop :=
  StatusID (common policy) ≠ "" ∧ id = StatusID (common policy) ∨
  StatusID (common policy) = "" ∧ ∃ existing,
    ev (Ziti (OpFindAccessPolicyByName (MetaName (PolicyMeta policy)))) (inr (Some existing)) ∈ h ∧
    id = PolicyID existing.

(** The guard of every call of a run for the request [req]. *)
Definition policyCall (req : NamespacedName) (h : trace) (o : op) : Prop :=
  let about (P : obj KAccessPolicy → Prop) :=
    ∃ policy, head h = Some (ev (Get Cached KAccessPolicy req) (inr policy)) ∧ P policy in
  match o with
  | Ziti (OpCreateAccessPolicy sent) =>
      about (λ policy, guarded zitiAccessPolicyFinalizer policy ∧
        validateAccessPolicySpec policy = None ∧ computedPolicy h policy sent ∧ PolicyID sent = "" ∧
        StatusID (common policy) = "" ∧
        ev (Ziti (OpFindAccessPolicyByName (MetaName (PolicyMeta policy)))) (inr None) ∈ h)
  | Ziti (OpUpdateAccessPolicy sent) =>
      about (λ policy, guarded zitiAccessPolicyFinalizer policy ∧
        validateAccessPolicySpec policy = None ∧ computedPolicy h policy sent ∧
        targets h policy (PolicyID sent))
  | Ziti (OpDeleteAccessPolicy id) =>
      about (λ policy, dying zitiAccessPolicyFinalizer policy ∧ id = StatusID (common policy) ∧ id ≠ "")
  | Update KAccessPolicy o =>
      about (λ policy, finalizerUpdate zitiAccessPolicyFinalizer policy o
        (StatusID (common policy) = "" ∨
         ev (Ziti (OpDeleteAccessPolicy (StatusID (common policy)))) (inr tt) ∈ h))
  | StatusUpdate k _ => k = KAccessPolicy
  | _ => isRead o
  end.

Lemma policyCall_read req h o : isRead o → policyCall req h o.
Proof.
  destruct o as [| |[]| | | |z| | | |]; try done; try (by intros [? ?]). by destruct z; intros [? ?].
Qed.

Lemma policyCall_status req h o : isStatusWrite KAccessPolicy o → policyCall req h o.
Proof. intros [?|[s ->]]; [by apply policyCall_read|done]. Qed.

Section Safety.
Context `{MetaConditions} (recorder identityService : bool).

Lemma reconcileDelete_wp req policy :
  DeletionTimestamp (meta policy) ≠ None →
  wp (policyCall req) (reconcileDelete recorder policy) (λ _ _, True)
    [ev (Get Cached KAccessPolicy req) (inr policy)].
Proof.
  intros Hdel. unfold reconcileDelete. destruct (contains _ zitiAccessPolicyFinalizer) eqn:Hf; [|done].
  apply contains_true in Hf. cbn [negb]. apply wp_bind.
  assert (∀ h' gone, (gone → StatusID (common policy) = "" ∨
      ev (Ziti (OpDeleteAccessPolicy (StatusID (common policy)))) (inr tt) ∈ h') → gone →
    wp (policyCall req) (let! r := do (Update KAccessPolicy
        (snd (RemoveFinalizer policy zitiAccessPolicyFinalizer))) in
      match r with
      | inl err => Ret (noResult, Some err)
      | inr policy => let! _ := EmitEvent recorder (meta policy) EventTypeNormal "PolicyDeleted"
                        "ZitiAccessPolicy backend state removed" in Ret (noResult, None)
      end)%mz (λ _ _, True) (ev (Get Cached KAccessPolicy req) (inr policy) :: h')) as Hrest.
  { intros h' gone Hgone Hg. cbn [bind do call wp]. split.
    - exists policy. split; [done|]. right. split; [done|]. split; [done|].
      destruct (Hgone Hg) as [?|?]; [by left|right; by right].
    - intros [e|o]; [done|]. apply wp_bind. apply (wp_status_writes KAccessPolicy); [apply policyCall_status| |done].
      apply only_reads, EmitEvent_only. }
  case_bool_decide as Hid; cbn [negb policyDelete ziti call wp].
  - apply (Hrest [] True); auto.
  - split; [exists policy; by split_and!|]. intros [e|[]]; [done|].
    apply (Hrest _ True); [|done]. intros _. right. by left.
Qed.

Lemma markPolicyFailed_wp req policy err reason retryable h :
  wp (policyCall req) (markPolicyFailed recorder policy err reason retryable) (λ _ _, True) h.
Proof.
  apply (wp_status_writes KAccessPolicy); [apply policyCall_status|apply (markFailed_only (k:=KAccessPolicy))|done].
Qed.

(** Setting the counts changes neither the metadata, the spec nor the ID. *)
Lemma finishPolicy_wp req policy r h :
  wp (policyCall req) (finishPolicy recorder policy r) (λ _ _, True) h.
Proof.
  destruct r as [e|[p|]]; [apply markPolicyFailed_wp| |done]. cbn [finishPolicy deref].
  apply wp_bind. apply (wp_status_writes KAccessPolicy); [apply policyCall_status|apply (markReady_only (k:=KAccessPolicy))|].
  intros h' [e|]; [done|]. apply wp_bind. apply (wp_status_writes KAccessPolicy); [apply policyCall_status| |done].
  apply only_reads, EmitEvent_only.
Qed.

Lemma reconcileResolved_wp req policy t identity service :
  guarded zitiAccessPolicyFinalizer policy → validateAccessPolicySpec policy = None →
  resolutionOf policy t identity service →
  wp (policyCall req) (reconcileResolved recorder policy identity service) (λ _ _, True)
    (ev (Get Cached KAccessPolicy req) (inr policy) :: t).
Proof.
  intros Hg Hv Ht. unfold reconcileResolved. cbv zeta.
  case_test; [apply markPolicyFailed_wp|]. case_test; [apply markPolicyFailed_wp|].
  case_test; [apply markPolicyFailed_wp|]. reflect_bools.
  assert (∀ h' id, computedPolicy (ev (Get Cached KAccessPolicy req) (inr policy) :: t ++ h') policy
    (clientPolicy id (FromResource policy (resolved identity) (resolved service)))) as Hsent.
  { intros h' id. pose proof (resolutionOf_pending _ _ _ _ Ht). exists t, identity, service.
    split_and!; try done; try lia. intros e He. right. apply elem_of_app. by left. }
  apply wp_bind. unfold reconcilePolicy. case_bool_decide as Hid; cbn [negb].
  - cbn [policyFindByName ziti bind call wp]. split; [done|].
    set (found := Ziti (OpFindAccessPolicyByName _)). intros [e|[existing|]].
    + apply finishPolicy_wp.
    + cbn [policyUpdate ziti call wp]. split; [|intros; apply finishPolicy_wp].
      exists policy. split_and!; [done..|apply Hsent|]. right. split; [done|]. exists existing.
      split; [right; apply elem_of_app; right; by left|done].
    + cbn [policyCreate ziti call wp]. split; [|intros; apply finishPolicy_wp].
      exists policy. split_and!; [done..|apply Hsent|done|done|].
      right. apply elem_of_app. right. by left.
  - cbn [policyUpdate ziti call wp]. split; [|intros; apply finishPolicy_wp].
    exists policy. split_and!; [done..| |by left].
    specialize (Hsent [] (StatusID (PolicyCommon (PolicyStatus policy)))).
    by rewrite app_nil_r in Hsent.
Qed.

(** [Reconcile] is an instance of [lifecycle]. *)
Definition policyBody (policy : obj KAccessPolicy) : action outcome :=
  match validateAccessPolicySpec policy with
  | Some err => markPolicyFailed recorder policy err "SelectorValidationFailed" false
  | None =>
      bind (resolveSelectors identityService policy) (λ r,
        match r with
        | inl err => markPolicyFailed recorder policy err "SelectorResolutionFailed" true
        | inr (identityHalf, serviceHalf) => reconcileResolved recorder policy identityHalf serviceHalf
        end)
  end.

Lemma reconcile_lifecycle req :
  reconcileAccessPolicy recorder identityService req =
  lifecycle zitiAccessPolicyFinalizer (reconcileDelete recorder) policyBody req.
Proof. reflexivity. Qed.

Lemma resolveSelectors_only policy : only isRead (resolveSelectors identityService policy).
Proof. unfold resolveSelectors, resolveBackendIdentitySelector. cbv zeta. only_calls. Qed.

Lemma policyBody_wp req policy :
  guarded zitiAccessPolicyFinalizer policy →
  wp (policyCall req) (policyBody policy) (λ _ _, True)
    [ev (Get Cached KAccessPolicy req) (inr policy)].
Proof.
  intros Hg. unfold policyBody. destruct (validateAccessPolicySpec policy) eqn:Hv;
    [apply markPolicyFailed_wp|].
  apply wp_bind. eapply wp_only; [apply resolveSelectors_only|intros; by apply policyCall_read|].
  intros t [e|[identity service]] Ht; [apply markPolicyFailed_wp|].
  apply resolveSelectors_runs in Ht. by apply reconcileResolved_wp.
Qed.

(** C21. The resolution of the selectors, on every outcome.  A successful one
    comes from the resources of the policy's own namespace; the identities of
    the OpenZiti controller are consulted exactly when no identity resource
    matches, not even one that still waits for its ID.  The resolved IDs are the
    distinct, non-empty status IDs of the items that are matched by name, in
    their order; an item matched by name without an ID is pending, any other
    match is counted.  A failure is the error of the last call, or the missing
    identity service. *)
Theorem resolveSelectors_correct (policy : ZitiAccessPolicy) (t : trace)
    (r : result (resolution * resolution)) :
  runs (resolveSelectors identityService policy) t r →
  match r with
  | inr (identity, service) =>
      resolutionOf policy t identity service ∧
      NoDup (ResolvedIDs (resolved identity)) ∧ "" ∉ ResolvedIDs (resolved identity) ∧
      NoDup (ResolvedIDs (resolved service)) ∧ "" ∉ ResolvedIDs (resolved service)
  | inl err =>
      (∃ ns, last t = Some (ev (List Cached KIdentity ns) (inl err))) ∨
      (∃ ns, last t = Some (ev (List Cached KService ns) (inl err))) ∨
      last t = Some (ev (Ziti OpListIdentities) (inl err)) ∨
      (identityService = false ∧ err = ErrorString "identity backend service is not configured")
  end.
Proof.
  intros Hr. destruct r as [err|[identity service]].
  - revert Hr. unfold resolveSelectors. cbv zeta. cbn [bind do call runs].
    intros ([e|identities] & ? & -> & Hr); [destruct Hr as [-> [= ->]]; left; by eexists|].
    cbn [bind do call runs] in Hr. destruct Hr as ([e|services] & ? & -> & Hr).
    { destruct Hr as [-> [= ->]]. right; left. by eexists. }
    revert Hr. case_test; [|by intros [_ ?]].
    intros (t1 & t2 & [e|[? ?]] & -> & Hb & Hr)%runs_bind; [|by destruct Hr].
    destruct Hr as [-> [= ->]]. revert Hb. unfold resolveBackendIdentitySelector.
    destruct identityService; cbn [negb]; [|intros [-> [= ->]]; auto].
    cbn [bind ziti call runs]. intros ([e|?] & ? & -> & [-> Hb]); [|done].
    injection Hb as ->. right; right; by left.
  - pose proof (resolveSelectors_runs _ _ _ _ _ Hr) as Hres. split; [done|].
    destruct Hres as (ids & svcs & rest & _ & -> & [(_ & -> & _)|(_ & _ & backend & _ & ->)]);
      split_and!; apply namedIDs_fresh.
Qed.

(** C22. Every call of the access policy reconciler, wherever a run is cut off.
    The OpenZiti controller is written to only for the resource of the request,
    which carries the finalizer.  While it is alive, the only write is one
    policy, for a valid spec whose selectors were resolved in this run with no
    match pending and none empty; it has the name, type and roles of the
    resource, and replaces the policy recorded in the status, or else the one
    found by name, or is created when there is neither.  Once it is being
    deleted, the only write is the deletion of the policy of the status.  The
    resource itself is updated only to add the finalizer while alive, before
    any backend write, and to remove it after the deletion succeeded. *)
Theorem policy_calls (req : NamespacedName) (t : trace) (e : event op resp) :
  reaches (reconcileAccessPolicy recorder identityService req) (t ++ [e]) →
  policyCall req t (ev_op e).
Proof.
  apply (wp_reaches _ _ (λ _ _, True) []). rewrite reconcile_lifecycle. apply lifecycle_wp.
  - intros. by apply policyCall_read.
  - intros policy o [(? & ? & ?)|(? & ? & [])]. exists policy. split; [done|]. by left.
  - apply reconcileDelete_wp.
  - apply policyBody_wp.
Qed.

End Safety.

(** ** A concrete environment

    A live policy with the finalizer, one identity that it matches by name and
    one service that it matches by attribute; the OpenZiti controller knows no
    policy of the name and creates one. *)
Definition exPolicy : obj KAccessPolicy :=
  {| PolicyMeta := SetFinalizers [zitiAccessPolicyFinalizer] (exMeta "allow");
     PolicySpec := {| PolicySpecType := AccessPolicyTypeDial;
       IdentitySelector := {| MatchNames := ["ann"]; MatchRoleAttributes := ["ops"] |};
       ServiceSelector := {| MatchNames := []; MatchRoleAttributes := ["web"] |} |};
     PolicyStatus := {| PolicyCommon := setStatusID "" exCommon;
                        ResolvedIdentityCount := 0; ResolvedServiceCount := 0 |} |}.

Definition exZitiService : obj KService :=
  {| ServiceMeta := exMeta "shop";
     ServiceSpec := {| ServiceSpecName := "shop"; ServiceSpecRoleAttributes := ["web"]; Router := None;
       Intercept := {| Protocols := ["tcp"]; Addresses := ["shop.ziti"];
                       PortRanges := [{| Low := 80; High := 80 |}] |};
       Host := {| Protocol := "tcp"; Address := "localhost"; Port := 8080 |} |};
     ServiceStatus := {| ServiceCommon := setStatusID "svc-1" exCommon; InterceptConfigID := "";
       HostConfigID := ""; BindPolicyID := ""; ServiceEdgeRouterPolicyID := "" |} |}.

Definition exPolicySent : AccessPolicy :=
  {| PolicyID := ""; PolicyName := "allow"; PolicyType := "Dial";
     PolicyIdentityRoles := ["@id-1"; "#ops"]; PolicyServiceRoles := ["#web"];
     PolicyIdentityRolesRaw := ["@id-1"; "#ops"]; PolicyServiceRolesRaw := ["#web"];
     PolicySemantic := "AnyOf" |}.

Definition exPolicyWorld (o : op) : resp o :=
  match o with
  | Get _ KAccessPolicy _ => inr exPolicy
  | List _ KIdentity _ => inr [exZitiIdentity]
  | List _ KService _ => inr [exZitiService]
  | Ziti (OpCreateAccessPolicy sent) => inr (Some (clientPolicy "pol-1" (FromResource exPolicy
      {| ResolvedIDs := []; ResolvedRoleAttributes := [] |}
      {| ResolvedIDs := []; ResolvedRoleAttributes := [] |})))
  | o => quiet o
  end.

Definition exPolicyReq : NamespacedName := {| KeyNamespace := "ziti"; KeyName := "allow" |}.
Definition exPolicyRun : action outcome :=
  @reconcileAccessPolicy upsertConditions true true exPolicyReq.

(** The fifth call creates the policy. *)
Lemma policy_calls_witness :
  ∃ r, traceIn exPolicyWorld exPolicyRun !! 4 = Some (ev (Ziti (OpCreateAccessPolicy exPolicySent)) r) ∧
  policyCall exPolicyReq (take 4 (traceIn exPolicyWorld exPolicyRun))
    (Ziti (OpCreateAccessPolicy exPolicySent)).
Proof.
  exists (exPolicyWorld (Ziti (OpCreateAccessPolicy exPolicySent))).
  assert (traceIn exPolicyWorld exPolicyRun !! 4 = Some (ev (Ziti (OpCreateAccessPolicy exPolicySent))
    (exPolicyWorld (Ziti (OpCreateAccessPolicy exPolicySent))))) as He by (vm_compute; reflexivity).
  split; [exact He|].
  assert (snd (execWith exPolicyWorld exPolicyRun) = Some (noResult, None)) as Hend
    by (vm_compute; reflexivity).
  exact (@policy_calls upsertConditions true true exPolicyReq _ _
    (traceIn_reaches exPolicyWorld exPolicyRun _ 4 _ Hend He)).
Defined.

Lemma resolveSelectors_correct_witness :
  ∃ identity service,
    runs (resolveSelectors true exPolicy) (traceIn exPolicyWorld (resolveSelectors true exPolicy))
      (inr (identity, service)) ∧
    ResolvedIDs (resolved identity) = ["id-1"] ∧
    resolutionOf exPolicy (traceIn exPolicyWorld (resolveSelectors true exPolicy)) identity service.
Proof.
  pose (identity := {| resolved := {| ResolvedIDs := ["id-1"]; ResolvedRoleAttributes := ["ops"] |};
                       resolvedCount := 1; resolvedPending := 0 |}).
  pose (service := {| resolved := {| ResolvedIDs := []; ResolvedRoleAttributes := ["web"] |};
                      resolvedCount := 1; resolvedPending := 0 |}).
  assert (runs (resolveSelectors true exPolicy) (traceIn exPolicyWorld (resolveSelectors true exPolicy))
    (inr (identity, service))) as Hr by (apply traceIn_runs; vm_compute; reflexivity).
  exists identity, service. split_and!; [exact Hr|reflexivity|].
  exact (proj1 (resolveSelectors_correct true exPolicy _ (inr (identity, service)) Hr)).
Defined.
