(* ===== verification/ServiceBackend.v ===== *)
(** * Services of the backend

    [internal/openziti/service]: [configs.go], the service and the two config
    documents that a resource asks for; [router_policies.go], the policies of a
    hosted service; [service.go], the calls. *)

From S2P Require Import Prelude GoSlices GoStrings Errors ZitiTypes ApiTypes World Policy.

(** ** Desired state *)

(** [DesiredService] *)
Record DesiredService := {
  DesiredServiceName : string;
  DesiredServiceRoleAttributes : strs;
  DesiredConfigIDs : strs;
  DesiredIntercept : ServiceConfig;
  DesiredHost : ServiceConfig;
}.
#[export] Instance DesiredService_eq_dec : EqDecision DesiredService.
Proof. solve_decision. Defined.

(** [toPortRanges] *)
Definition toPortRanges (ranges : list PortRange) : list (gmap string Z) :=
  (λ portRange, {[ "low" := Low portRange; "high" := High portRange ]}) <$> ranges.

(** [FromResource] *)
Definition serviceFromResource (resource : ZitiService) : DesiredService :=
  let spec := ServiceSpec resource in
  {| DesiredServiceName := ServiceSpecName spec;
     DesiredServiceRoleAttributes := ServiceSpecRoleAttributes spec;
     DesiredConfigIDs := [];
     DesiredIntercept :=
       {| ConfigID := ""; ConfigName := ServiceSpecName spec +:+ "-intercept";
          ConfigType := "intercept.v1";
          ConfigPayload := {[ "protocols" := PStrings (Protocols (Intercept spec));
                              "addresses" := PStrings (Addresses (Intercept spec));
                              "portRanges" := PPortRanges (toPortRanges (PortRanges (Intercept spec))) ]} |};
     DesiredHost :=
       {| ConfigID := ""; ConfigName := ServiceSpecName spec +:+ "-host";
          ConfigType := "host.v1";
          ConfigPayload := {[ "protocol" := PString (Protocol (Host spec));
                              "address" := PString (Address (Host spec));
                              "port" := PInt (Port (Host spec)) ]} |} |}.

(** The assignment [desired.ConfigIDs = ids]. *)
Definition withConfigIDs (ids : strs) (d : DesiredService) : DesiredService :=
  {| DesiredServiceName := DesiredServiceName d;
     DesiredServiceRoleAttributes := DesiredServiceRoleAttributes d; DesiredConfigIDs := ids;
     DesiredIntercept := DesiredIntercept d; DesiredHost := DesiredHost d |}.

(** [RouterPolicySet] *)
Record RouterPolicySet := {
  BindPolicy : AccessPolicy;
  RouterServicePolicy : ServiceEdgeRouterPolicy;
}.

(** A role that names one object. *)
Definition idRole (id : string) : string := "@" +:+ TrimSpace id.

(** [RouterPolicies]; [None] is the result with [false]. *)
Definition RouterPolicies (resource : ZitiService)
    (serviceID routerIdentityID routerEdgeRouterID : string)
    (additionalAllowedEdgeRouterIDs : strs) : option RouterPolicySet :=
  match Router (ServiceSpec resource) with
  | None => None
  | Some router =>
      if bool_decide (TrimSpace (RouterName router) = "") then None
      else
        let serviceRole := idRole serviceID in
        let routerIdentityRole := idRole routerIdentityID in
        let routerRoles := foldl (λ roles id, roles ++ [idRole id]) [idRole routerEdgeRouterID]
                             additionalAllowedEdgeRouterIDs in
        let routerRoles := slices_compact (slices_sort routerRoles) in
        let name := ServiceSpecName (ServiceSpec resource) in
        Some
          {| BindPolicy :=
               {| PolicyID := ""; PolicyName := name +:+ "-bind-policy";
                  PolicyType := AccessPolicyTypeBind;
                  PolicyIdentityRoles := [routerIdentityRole];
                  PolicyServiceRoles := [serviceRole];
                  PolicyIdentityRolesRaw := [routerIdentityRole];
                  PolicyServiceRolesRaw := [serviceRole];
                  PolicySemantic := semanticAnyOf |};
             RouterServicePolicy :=
               {| SerpID := ""; SerpName := name +:+ "-only";
                  SerpEdgeRouterRoles := routerRoles;
                  SerpServiceRoles := [serviceRole];
                  SerpSemantic := semanticAnyOf |} |}
  end.

(** ** Calls *)

(** The service that [Create] and [Update] send. *)
Definition clientService (id : string) (desired : DesiredService) : Service :=
  {| ServiceID := id; ServiceName := DesiredServiceName desired;
     ServiceRoleAttributes := DesiredServiceRoleAttributes desired;
     ServiceConfigIDs := DesiredConfigIDs desired |}.

(** The methods of [(s *Service)]. *)
Definition serviceFindByName (name : string) := ziti (OpFindServiceByName name).
Definition serviceGet (id : string) := ziti (OpGetService id).
Definition serviceCreate (desired : DesiredService) := ziti (OpCreateService (clientService "" desired)).
Definition serviceUpdate (id : string) (desired : DesiredService) :=
  ziti (OpUpdateService (clientService id desired)).
Definition serviceDelete (id : string) := ziti (OpDeleteService id).
Definition CreateConfig (cfg : ServiceConfig) := ziti (OpCreateConfig cfg).
Definition UpdateConfig (cfg : ServiceConfig) := ziti (OpUpdateConfig cfg).
Definition DeleteConfig (id : string) := ziti (OpDeleteConfig id).
Definition FindIdentityByName (name : string) := ziti (OpFindIdentityByName name).
Definition FindEdgeRouterByName (name : string) := ziti (OpFindEdgeRouterByName name).
Definition FindAccessPolicyByName (name : string) := ziti (OpFindAccessPolicyByName name).
Definition CreateAccessPolicy (policy : AccessPolicy) := ziti (OpCreateAccessPolicy policy).
Definition UpdateAccessPolicy (policy : AccessPolicy) := ziti (OpUpdateAccessPolicy policy).
Definition DeleteAccessPolicy (id : string) := ziti (OpDeleteAccessPolicy id).
Definition FindServiceEdgeRouterPolicyByName (name : string) :=
  ziti (OpFindServiceEdgeRouterPolicyByName name).
Definition CreateServiceEdgeRouterPolicy (policy : ServiceEdgeRouterPolicy) :=
  ziti (OpCreateServiceEdgeRouterPolicy policy).
Definition UpdateServiceEdgeRouterPolicy (policy : ServiceEdgeRouterPolicy) :=
  ziti (OpUpdateServiceEdgeRouterPolicy policy).
Definition DeleteServiceEdgeRouterPolicy (id : string) := ziti (OpDeleteServiceEdgeRouterPolicy id).

(** ** Properties *)

(** The router roles before they are sorted. *)
Lemma routerRoles_eq host ids :
  foldl (λ roles id, roles ++ [idRole id]) [host] ids = host :: (idRole <$> ids).
Proof.
  change (host :: (idRole <$> ids)) with ([host] ++ (idRole <$> ids)). generalize [host].
  induction ids as [|id ids IH]; intros l; cbn; [by rewrite app_nil_r|]. by rewrite IH, <-app_assoc.
Qed.

Lemma RouterPolicies_inv resource s i e ids p :
  RouterPolicies resource s i e ids = Some p →
  (∃ router, Router (ServiceSpec resource) = Some router ∧ TrimSpace (RouterName router) ≠ "") ∧
  SerpEdgeRouterRoles (RouterServicePolicy p) = sort_compact (idRole <$> e :: ids) ∧
  PolicyIdentityRolesRaw (BindPolicy p) = [idRole i] ∧ PolicyType (BindPolicy p) = AccessPolicyTypeBind ∧
  PolicyServiceRolesRaw (BindPolicy p) = [idRole s] ∧
  SerpServiceRoles (RouterServicePolicy p) = [idRole s].
Proof.
  unfold RouterPolicies. destruct (Router _) as [router|]; [|done]. case_bool_decide; [done|].
  cbv zeta. rewrite routerRoles_eq. intros [= <-]. cbn. split_and!; try done. by exists router.
Qed.

(** C23. The policies of a hosted service.  They exist exactly when the spec
    names a router that is not blank.  The bind policy grants the permission to
    host to the router's identity alone and for the service alone; the edge
    router policy is limited to the service, and its routers are the hosting
    one and the additional ones, each once and sorted, so that only the set of
    additional routers matters, not their order nor repetitions. *)
Theorem RouterPolicies_correct (resource : ZitiService) (serviceID identityID hostID : string)
    (ids ids' : strs) :
  (is_Some (RouterPolicies resource serviceID identityID hostID ids) ↔
   ∃ router, Router (ServiceSpec resource) = Some router ∧ TrimSpace (RouterName router) ≠ "") ∧
  (∀ p, RouterPolicies resource serviceID identityID hostID ids = Some p →
     PolicyType (BindPolicy p) = AccessPolicyTypeBind ∧
     PolicyIdentityRolesRaw (BindPolicy p) = [idRole identityID] ∧
     PolicyServiceRolesRaw (BindPolicy p) = [idRole serviceID] ∧
     SerpServiceRoles (RouterServicePolicy p) = [idRole serviceID] ∧
     (∀ role, role ∈ SerpEdgeRouterRoles (RouterServicePolicy p) ↔
        ∃ id, (id = hostID ∨ id ∈ ids) ∧ role = idRole id) ∧
     NoDup (SerpEdgeRouterRoles (RouterServicePolicy p)) ∧
     StronglySorted String.le (SerpEdgeRouterRoles (RouterServicePolicy p))) ∧
  ((∀ id, id ∈ hostID :: ids ↔ id ∈ hostID :: ids') →
     RouterPolicies resource serviceID identityID hostID ids =
     RouterPolicies resource serviceID identityID hostID ids').
Proof.
  split_and!.
  - split; [intros [p (Hr & _)%RouterPolicies_inv]; done|]. intros (router & Hr & Hn).
    unfold RouterPolicies. rewrite Hr, bool_decide_false by done. done.
  - intros p (_ & Hroles & ? & ? & ? & ?)%RouterPolicies_inv. rewrite Hroles.
    split_and!; [done..| |apply sort_compact_nodup|apply sort_compact_sorted].
    intros role. rewrite elem_of_sort_compact, list_elem_of_fmap. setoid_rewrite elem_of_cons. naive_solver.
  - intros Hids. unfold RouterPolicies. destruct (Router _); [|done]. cbv zeta.
    rewrite !routerRoles_eq. fold (sort_compact (idRole hostID :: (idRole <$> ids))).
    fold (sort_compact (idRole hostID :: (idRole <$> ids'))).
    assert (sort_compact (idRole <$> hostID :: ids) = sort_compact (idRole <$> hostID :: ids')) as E.
    { apply sort_compact_eq. intros role. rewrite !list_elem_of_fmap. by setoid_rewrite Hids. }
    cbn [fmap list_fmap] in E. by rewrite E.
Qed.

Definition exHosted : ZitiService :=
  {| ServiceMeta :=
       {| MetaNamespace := "ziti"; MetaName := "shop"; UID := "u"; ResourceVersion := "1";
          Generation := 1; MetaCreationTimestamp := 0; DeletionTimestamp := None; Finalizers := [];
          OwnerReferences := [] |};
     ServiceSpec := {| ServiceSpecName := "shop"; ServiceSpecRoleAttributes := ["web"];
       Router := Some {| RouterName := " edge "; AdditionalAllowedEdgeRouterNames := ["two"] |};
       Intercept := {| Protocols := ["tcp"]; Addresses := ["shop.ziti"];
                       PortRanges := [{| Low := 80; High := 80 |}] |};
       Host := {| Protocol := "tcp"; Address := "localhost"; Port := 8080 |} |};
     ServiceStatus := {| ServiceCommon := {| StatusID := ""; Conditions := []; ObservedGeneration := 0;
                                             LastError := "" |};
       InterceptConfigID := ""; HostConfigID := ""; BindPolicyID := ""; ServiceEdgeRouterPolicyID := "" |} |}.

Lemma RouterPolicies_correct_witness :
  RouterPolicies exHosted "s" "i" "r1" ["r2"; " r1"; "r2"] =
  RouterPolicies exHosted "s" "i" "r1" [" r1"; "r2"] ∧
  (SerpEdgeRouterRoles ∘ RouterServicePolicy) <$>
    RouterPolicies exHosted "s" "i" "r1" ["r2"; " r1"; "r2"] = Some ["@r1"; "@r2"].
Proof.
  split; [|vm_compute; reflexivity].
  destruct (RouterPolicies_correct exHosted "s" "i" "r1" ["r2"; " r1"; "r2"] [" r1"; "r2"]) as (_ & _ & H).
  apply H. intros id. rewrite !elem_of_cons, !elem_of_nil. tauto.
Defined.
