(* ===== verification/ServiceController.v ===== *)
(** * The service reconciler

    [internal/controller/zitiservice_controller.go] and
    [zitiservice_router_policies.go]: a service with its two configs, and the
    two policies of a service that a router hosts. *)

From S2P Require Import Prelude GoSlices GoStrings Errors ZitiTypes ApiTypes World.
From S2P Require Import ReconcileHelpers Policy ServiceBackend.

#[local] Open Scope mz_scope.

Definition zitiServiceFinalizer : string := "ziti.sixfeetup.com/service-finalizer".

(** [validateServiceSpec] *)
Definition validateServiceSpec (service : ZitiService) : option error :=
  let spec := ServiceSpec service in
  if bool_decide (ServiceSpecName spec = "") then Some (ErrorString "spec.name must not be empty")
  else if match Router spec with
          | Some router => bool_decide (TrimSpace (RouterName router) = "")
          | None => false
          end
  then Some (ErrorString "spec.router.name must not be empty")
  else if existsb (λ portRange, (High portRange <? Low portRange)%Z) (PortRanges (Intercept spec))
  then Some (ErrorString "spec.configs.intercept.portRanges low must be <= high")
  else None.

(** The assignments to fields of the status. *)
Definition setServiceStatus (id intercept host : string) (s : ZitiService) : ZitiService :=
  {| ServiceMeta := ServiceMeta s; ServiceSpec := ServiceSpec s;
     ServiceStatus := {| ServiceCommon := setStatusID id (ServiceCommon (ServiceStatus s));
       InterceptConfigID := intercept; HostConfigID := host;
       BindPolicyID := BindPolicyID (ServiceStatus s);
       ServiceEdgeRouterPolicyID := ServiceEdgeRouterPolicyID (ServiceStatus s) |} |}.

Definition setRouterPolicyIDs (bind serp : string) (s : ZitiService) : ZitiService :=
  {| ServiceMeta := ServiceMeta s; ServiceSpec := ServiceSpec s;
     ServiceStatus := {| ServiceCommon := ServiceCommon (ServiceStatus s);
       InterceptConfigID := InterceptConfigID (ServiceStatus s);
       HostConfigID := HostConfigID (ServiceStatus s);
       BindPolicyID := bind; ServiceEdgeRouterPolicyID := serp |} |}.

(** The assignments [desired.ID = id]. *)
Definition setConfigID (id : string) (c : ServiceConfig) : ServiceConfig :=
  {| ConfigID := id; ConfigName := ConfigName c; ConfigType := ConfigType c;
     ConfigPayload := ConfigPayload c |}.
Definition setPolicyID (id : string) (p : AccessPolicy) : AccessPolicy :=
  {| PolicyID := id; PolicyName := PolicyName p; PolicyType := PolicyType p;
     PolicyIdentityRoles := PolicyIdentityRoles p; PolicyServiceRoles := PolicyServiceRoles p;
     PolicyIdentityRolesRaw := PolicyIdentityRolesRaw p;
     PolicyServiceRolesRaw := PolicyServiceRolesRaw p; PolicySemantic := PolicySemantic p |}.
Definition setSerpID (id : string) (p : ServiceEdgeRouterPolicy) : ServiceEdgeRouterPolicy :=
  {| SerpID := id; SerpName := SerpName p; SerpEdgeRouterRoles := SerpEdgeRouterRoles p;
     SerpServiceRoles := SerpServiceRoles p; SerpSemantic := SerpSemantic p |}.

(** ** Routers *)

Section Routers.
Context `{UnicodeTables}.

Definition quoted (before name after : string) : string := before +:+ Quote name +:+ after.

(** [resolveEdgeRouterID] *)
Definition resolveEdgeRouterID (name : string) : action (result string) :=
  let! r := FindEdgeRouterByName name in
  match r with
  | inl err => Ret (inl (WrapError (quoted "resolve edge router " name "") err))
  | inr edgeRouter =>
      match edgeRouter with
      | Some edgeRouter =>
          if bool_decide (TrimSpace (EdgeRouterID edgeRouter) = "")
          then Ret (inl (ErrorString (quoted "edge router " name " not found or has an empty ID")))
          else Ret (inr (TrimSpace (EdgeRouterID edgeRouter)))
      | None => Ret (inl (ErrorString (quoted "edge router " name " not found or has an empty ID")))
      end
  end.

(** The loop over the additional names; [seen] has the names that were met. *)
Fixpoint resolveAdditional (names : strs) (seen : gmap string bool) (additionalIDs : strs)
    : action (result strs) :=
  match names with
  | [] => Ret (inr additionalIDs)
  | rawName :: names =>
      let name := TrimSpace rawName in
      if bool_decide (name = "") then
        Ret (inl (ErrorString "spec.router.additionalAllowedEdgeRouterNames must not contain blank names"))
      else if default false (seen !! name) then resolveAdditional names seen additionalIDs
      else
        let! r := resolveEdgeRouterID name in
        match r with
        | inl err => Ret (inl err)
        | inr id => resolveAdditional names (<[name := true]> seen) (additionalIDs ++ [id])
        end
  end.

(** [desiredRouterPolicies] *)
Definition desiredRouterPolicies (resource : ZitiService) (serviceID : string)
    : action (result RouterPolicySet) :=
  match Router (ServiceSpec resource) with
  | None => Ret (inl (ErrorString "spec.router.name must not be empty"))
  | Some router =>
      if bool_decide (TrimSpace (RouterName router) = "")
      then Ret (inl (ErrorString "spec.router.name must not be empty"))
      else
        let routerName := TrimSpace (RouterName router) in
        let! r := FindIdentityByName routerName in
        match r with
        | inl err => Ret (inl (WrapError (quoted "resolve router identity " routerName "") err))
        | inr None => Ret (inl (ErrorString (quoted "router identity " routerName " not found")))
        | inr (Some routerIdentity) =>
            if bool_decide (TrimSpace (IdentID routerIdentity) = "")
            then Ret (inl (ErrorString (quoted "router identity " routerName " not found")))
            else if negb (EqualFold (TrimSpace (IdentType routerIdentity)) "Router")
            then Ret (inl (ErrorString (quoted "identity " routerName " is not a Router identity")))
            else
              let! r := resolveEdgeRouterID routerName in
              match r with
              | inl err => Ret (inl err)
              | inr hostingRouterID =>
                  let! r := resolveAdditional (AdditionalAllowedEdgeRouterNames router)
                              {[ routerName := true ]} [] in
                  match r with
                  | inl err => Ret (inl err)
                  | inr additionalIDs =>
                      match RouterPolicies resource serviceID (IdentID routerIdentity)
                              hostingRouterID additionalIDs with
                      | None => Ret (inl (ErrorString "spec.router.name must not be empty"))
                      | Some policies => Ret (inr policies)
                      end
                  end
              end
        end
  end.

End Routers.

(** ** Backend objects *)

(** [reconcileService] *)
Definition reconcileService (resource : ZitiService) (desired : DesiredService)
    : action (result (option Service)) :=
  let id := StatusID (ServiceCommon (ServiceStatus resource)) in
  if negb (bool_decide (id = "")) then serviceUpdate id desired
  else
    let! r := serviceFindByName (DesiredServiceName desired) in
    match r with
    | inl err => Ret (inl err)
    | inr (Some existing) => serviceUpdate (ServiceID existing) desired
    | inr None => serviceCreate desired
    end.

(** [reconcileConfig] *)
Definition reconcileConfig (existingID : string) (desired : ServiceConfig)
    : action (result (option ServiceConfig)) :=
  if negb (bool_decide (existingID = "")) then UpdateConfig (setConfigID existingID desired)
  else CreateConfig desired.

(** What [reconcileAccessPolicy] does without a usable status ID. *)
Definition adoptAccessPolicy (desired : AccessPolicy) : action (result (option AccessPolicy)) :=
  let! r := FindAccessPolicyByName (PolicyName desired) in
  match r with
  | inl err => Ret (inl err)
  | inr (Some existing) => UpdateAccessPolicy (setPolicyID (PolicyID existing) desired)
  | inr None => CreateAccessPolicy desired
  end.

(** [reconcileAccessPolicy]: when the update finds nothing, [desired] keeps the
    stale ID. *)
Definition reconcileBindPolicy (existingID : string) (desired : AccessPolicy)
    : action (result (option AccessPolicy)) :=
  if negb (bool_decide (existingID = "")) then
    let desired := setPolicyID existingID desired in
    let! r := UpdateAccessPolicy desired in
    match r with
    | inl err => Ret (inl err)
    | inr (Some updated) => Ret (inr (Some updated))
    | inr None => adoptAccessPolicy desired
    end
  else adoptAccessPolicy desired.

(** What [reconcileServiceEdgeRouterPolicy] does without a usable status ID. *)
Definition adoptServiceEdgeRouterPolicy (desired : ServiceEdgeRouterPolicy)
    : action (result (option ServiceEdgeRouterPolicy)) :=
  let! r := FindServiceEdgeRouterPolicyByName (SerpName desired) in
  match r with
  | inl err => Ret (inl err)
  | inr (Some existing) => UpdateServiceEdgeRouterPolicy (setSerpID (SerpID existing) desired)
  | inr None => CreateServiceEdgeRouterPolicy desired
  end.

(** [reconcileServiceEdgeRouterPolicy] *)
Definition reconcileServiceEdgeRouterPolicy (existingID : string) (desired : ServiceEdgeRouterPolicy)
    : action (result (option ServiceEdgeRouterPolicy)) :=
  if negb (bool_decide (existingID = "")) then
    let desired := setSerpID existingID desired in
    let! r := UpdateServiceEdgeRouterPolicy desired in
    match r with
    | inl err => Ret (inl err)
    | inr (Some updated) => Ret (inr (Some updated))
    | inr None => adoptServiceEdgeRouterPolicy desired
    end
  else adoptServiceEdgeRouterPolicy desired.

(** A deletion that is skipped for an empty ID. *)
Definition deleteUnlessEmpty (id : string) (delete : string → action (result unit))
    : action (result unit) :=
  if negb (bool_decide (id = "")) then delete id else Ret (inr tt).

(** [deleteRouterPolicies]: the service, whose IDs it clears, and the error. *)
Definition deleteRouterPolicies (service : ZitiService) : action (ZitiService * option error) :=
  let! r := deleteUnlessEmpty (ServiceEdgeRouterPolicyID (ServiceStatus service))
              DeleteServiceEdgeRouterPolicy in
  match r with
  | inl err => Ret (service, Some err)
  | inr tt =>
      let service := setRouterPolicyIDs (BindPolicyID (ServiceStatus service)) "" service in
      let! r := deleteUnlessEmpty (BindPolicyID (ServiceStatus service)) DeleteAccessPolicy in
      match r with
      | inl err => Ret (service, Some err)
      | inr tt => Ret (setRouterPolicyIDs "" "" service, None)
      end
  end.

(** ** Reconciliation *)

Section Controller.
Context `{UnicodeTables} `{MetaConditions} (recorder : bool).

(** The methods [markReady] and [markFailed] of this reconciler. *)
Definition markServiceReady (service : obj KService) : action (option error) :=
  markReady service "ZitiService reconciled successfully".
Definition markServiceFailed (service : obj KService) (reconcileErr : error) (reason : string)
    (retryable : bool) : action outcome :=
  markFailed recorder service reconcileErr reason retryable.

(** [reconcileDelete] *)
Definition serviceReconcileDelete (service : obj KService) : action outcome :=
  if negb (contains (Finalizers (meta service)) zitiServiceFinalizer) then Ret (noResult, None)
  else
    let! (service, err) := deleteRouterPolicies service in
    match err with
    | Some err => Ret (noResult, Some err)
    | None =>
        let! r := deleteUnlessEmpty (InterceptConfigID (ServiceStatus service)) DeleteConfig in
        match r with
        | inl err => Ret (noResult, Some err)
        | inr tt =>
            let! r := deleteUnlessEmpty (HostConfigID (ServiceStatus service)) DeleteConfig in
            match r with
            | inl err => Ret (noResult, Some err)
            | inr tt =>
                let! r := deleteUnlessEmpty (StatusID (ServiceCommon (ServiceStatus service)))
                            serviceDelete in
                match r with
                | inl err => Ret (noResult, Some err)
                | inr tt =>
                    let service := snd (RemoveFinalizer (service : obj KService) zitiServiceFinalizer) in
                    let! r := do (Update KService service) in
                    match r with
                    | inl err => Ret (noResult, Some err)
                    | inr service =>
                        let! _ := EmitEvent recorder (meta (service : obj KService)) EventTypeNormal
                                    "ServiceDeleted" "ZitiService backend state removed" in
                        Ret (noResult, None)
                    end
                end
            end
        end
    end.

(** The end of [Reconcile]. *)
Definition finishService (service : obj KService) : action outcome :=
  let! err := markServiceReady service in
  match err with
  | Some err => Ret (noResult, Some err)
  | None =>
      let! _ := EmitEvent recorder (meta service) EventTypeNormal "ServiceReconciled"
                  "ZitiService reconciled successfully" in
      Ret (noResult, None)
  end.

(** The router policies in [Reconcile]; the status has the IDs of the service
    and of the configs. *)
Definition reconcileRouter (service : ZitiService) : action outcome :=
  match Router (ServiceSpec service) with
  | Some _ =>
      let! r := desiredRouterPolicies service (StatusID (ServiceCommon (ServiceStatus service))) in
      match r with
      | inl err => markServiceFailed service err "RouterResolutionFailed" true
      | inr routerPolicies =>
          let! r := reconcileBindPolicy (BindPolicyID (ServiceStatus service))
                      (BindPolicy routerPolicies) in
          match r with
          | inl err => markServiceFailed service err "BindPolicyFailed" true
          | inr bindPolicy =>
              let! r := reconcileServiceEdgeRouterPolicy
                          (ServiceEdgeRouterPolicyID (ServiceStatus service))
                          (RouterServicePolicy routerPolicies) in
              match r with
              | inl err => markServiceFailed service err "ServiceEdgeRouterPolicyFailed" true
              | inr serviceEdgeRouterPolicy =>
                  deref bindPolicy (λ bindPolicy,
                    deref serviceEdgeRouterPolicy (λ serviceEdgeRouterPolicy,
                      finishService (setRouterPolicyIDs (PolicyID bindPolicy)
                        (SerpID serviceEdgeRouterPolicy) service)))
              end
          end
      end
  | None =>
      let! (service, err) := deleteRouterPolicies service in
      match err with
      | Some err => markServiceFailed service err "RouterPolicyCleanupFailed" true
      | None => finishService service
      end
  end.

(** The two configs and their link to the service in [Reconcile]. *)
Definition reconcileConfigs (service : ZitiService) (desired : DesiredService)
    (backendService : option Service) : action outcome :=
  let! r := reconcileConfig (InterceptConfigID (ServiceStatus service)) (DesiredIntercept desired) in
  match r with
  | inl err => markServiceFailed service err "InterceptConfigFailed" true
  | inr interceptConfig =>
      let! r := reconcileConfig (HostConfigID (ServiceStatus service)) (DesiredHost desired) in
      match r with
      | inl err => markServiceFailed service err "HostConfigFailed" true
      | inr hostConfig =>
          deref interceptConfig (λ interceptConfig, deref hostConfig (λ hostConfig,
            let desired := withConfigIDs [ConfigID interceptConfig; ConfigID hostConfig] desired in
            deref backendService (λ backendService,
              let! r := if negb (slices_equal (ServiceConfigIDs backendService) (DesiredConfigIDs desired))
                        then serviceUpdate (ServiceID backendService) desired
                        else Ret (inr (Some backendService)) in
              match r with
              | inl err => markServiceFailed service err "ServiceSyncFailed" true
              | inr backendService =>
                  deref backendService (λ backendService,
                    reconcileRouter (setServiceStatus (ServiceID backendService)
                      (ConfigID interceptConfig) (ConfigID hostConfig) service))
              end)))
      end
  end.

(** [Reconcile] *)
Definition reconcileZitiService (req : NamespacedName) : action outcome :=
  let! r := do (Get Cached KService req) in
  match r with
  | inl err => Ret (noResult, IgnoreNotFound err)
  | inr service =>
      if negb (bool_decide (DeletionTimestamp (meta (service : obj KService)) = None))
      then serviceReconcileDelete service
      else
        match EnsureFinalizer (service : obj KService) zitiServiceFinalizer with
        | (true, service) =>
            let! r := do (Update KService service) in
            match r with
            | inl err => Ret (noResult, Some err)
            | inr _ => Ret ({| Requeue := true; RequeueAfter := 0 |}, None)
            end
        | (false, service) =>
            match validateServiceSpec service with
            | Some err => markServiceFailed service err "SpecValidationFailed" false
            | None =>
                let desired := serviceFromResource service in
                let! r := reconcileService service desired in
                match r with
                | inl err => markServiceFailed service err "ServiceSyncFailed" true
                | inr backendService => reconcileConfigs service desired backendService
                end
            end
        end
  end.

End Controller.
