(* ===== verification/ServiceSafety.v ===== *)
(** * The service reconciler: properties

    The resolution of routers, and the guard of every call of a run. *)

From S2P Require Import Prelude GoSlices GoStrings Errors ZitiTypes ApiTypes World.
From S2P Require Import ReconcileHelpers Lifecycle Policy ServiceBackend ServiceController.

(** ** Routers *)

Section Routers.
Context `{UnicodeTables}.

(** The answer that resolves the edge router [name] to [id]. *)
Definition resolvesRouter (t : trace) (name id : string) : Prop :=
  ∃ er, ev (Ziti (OpFindEdgeRouterByName name)) (inr (Some er)) ∈ t ∧
    TrimSpace (EdgeRouterID er) = id ∧ id ≠ "".

Lemma resolvesRouter_app t1 t2 name id :
  resolvesRouter t1 name id ∨ resolvesRouter t2 name id → resolvesRouter (t1 ++ t2) name id.
Proof. intros [(er & ? & ?)|(er & ? & ?)]; exists er; (split; [apply elem_of_app; auto|done]). Qed.

Lemma resolveEdgeRouterID_runs name t id :
  runs (resolveEdgeRouterID name) t (inr id) → resolvesRouter t name id.
Proof.
  unfold resolveEdgeRouterID, FindEdgeRouterByName. cbn [bind ziti call runs].
  intros (r & t' & -> & Hr). destruct r as [e|[er|]]; [by destruct Hr| |by destruct Hr].
  revert Hr. case_test; intros [-> Hr]; [done|]. injection Hr as <-. reflect_bools.
  exists er. split_and!; [by left|done..].
Qed.

(** The additional routers: every name is resolved, or was met before, and
    every ID is the resolution of one of the names. *)
Lemma resolveAdditional_runs names seen acc t ids :
  runs (resolveAdditional names seen acc) t (inr ids) →
  (∀ n, seen !! n ≠ Some false) →
  ∃ new, ids = acc ++ new ∧
    (∀ raw, raw ∈ names → TrimSpace raw ≠ "" ∧
       (is_Some (seen !! TrimSpace raw) ∨ ∃ id, id ∈ new ∧ resolvesRouter t (TrimSpace raw) id)) ∧
    (∀ id, id ∈ new → ∃ raw, raw ∈ names ∧ resolvesRouter t (TrimSpace raw) id).
Proof.
  revert seen acc t. induction names as [|raw names IH]; intros seen acc t; cbn [resolveAdditional].
  - intros [-> Hr] _. injection Hr as ->. exists []. rewrite app_nil_r. split_and!; [done|set_solver..].
  - intros Hr Hseen. destruct (bool_decide (TrimSpace raw = "")) eqn:Hb; [by destruct Hr|]. reflect_bools.
    destruct (default false (seen !! TrimSpace raw)) eqn:Hs.
    + destruct (seen !! TrimSpace raw) as [b|] eqn:Hl; [|done].
      destruct (IH _ _ _ Hr Hseen) as (new & -> & Hall & Hsound). exists new. split; [done|]. split.
      * intros r' [->|Hin]%elem_of_cons; [|by apply Hall]. split; [done|]. left. by rewrite Hl.
      * intros id Hid. destruct (Hsound id Hid) as (r' & ? & ?). exists r'. split; [by right|done].
    + apply runs_bind in Hr as (t1 & t2 & r & -> & H1 & Hr).
      destruct r as [e|id]; [by destruct Hr|]. apply resolveEdgeRouterID_runs in H1.
      destruct (IH _ _ _ Hr) as (new & -> & Hall & Hsound).
      { intros n. rewrite lookup_insert_Some. intros [[? ?]|[? ?]]; [done|by apply (Hseen n)]. }
      exists (id :: new). rewrite <-app_assoc. split; [done|]. split.
      * intros r' Hin. destruct (decide (TrimSpace r' = TrimSpace raw)) as [E|E].
        { rewrite E. split; [done|]. right. exists id. split; [by left|]. apply resolvesRouter_app. by left. }
        apply elem_of_cons in Hin as [->|Hin]; [done|]. destruct (Hall r' Hin) as [? Hcase]. split; [done|].
        destruct Hcase as [Hseen'|(id' & ? & ?)].
        -- left. rewrite lookup_insert_ne in Hseen' by done. done.
        -- right. exists id'. split; [by right|]. apply resolvesRouter_app. by right.
      * intros id' [->|Hin]%elem_of_cons.
        { exists raw. split; [by left|]. apply resolvesRouter_app. by left. }
        destruct (Hsound id' Hin) as (r' & ? & ?). exists r'. split; [by right|].
        apply resolvesRouter_app. by right.
Qed.

(** The complete desired set: the identity of the router is a router, and the
    hosting and all additional names were resolved, none of them to an ID that
    stands for no declared name. *)
Definition resolvedPolicies (t : trace) (resource : ZitiService) (serviceID : string)
    (policies : RouterPolicySet) : Prop :=
  ∃ router i host ids,
    Router (ServiceSpec resource) = Some router ∧
    let name := TrimSpace (RouterName router) in
    ev (Ziti (OpFindIdentityByName name)) (inr (Some i)) ∈ t ∧
    EqualFold (TrimSpace (IdentType i)) "Router" = true ∧ TrimSpace (IdentID i) ≠ "" ∧
    resolvesRouter t name host ∧
    (∀ raw, raw ∈ AdditionalAllowedEdgeRouterNames router → TrimSpace raw ≠ "" ∧
       (TrimSpace raw = name ∨ ∃ id, id ∈ ids ∧ resolvesRouter t (TrimSpace raw) id)) ∧
    (∀ id, id ∈ ids → ∃ raw, raw ∈ AdditionalAllowedEdgeRouterNames router ∧
       resolvesRouter t (TrimSpace raw) id) ∧
    RouterPolicies resource serviceID (IdentID i) host ids = Some policies.

Lemma resolvesRouter_mono t t' name id :
  (∀ e, e ∈ t → e ∈ t') → resolvesRouter t name id → resolvesRouter t' name id.
Proof. intros Ht (er & ? & ?). exists er. split; [by apply Ht|done]. Qed.

Lemma desiredRouterPolicies_runs resource serviceID t policies :
  runs (desiredRouterPolicies resource serviceID) t (inr policies) →
  resolvedPolicies t resource serviceID policies.
Proof.
  unfold desiredRouterPolicies, FindIdentityByName. destruct (Router (ServiceSpec resource)) as [router|] eqn:Hrouter; [|by intros [_ ?]].
  case_test; [by intros [_ ?]|]. cbn [bind ziti call runs]. intros (r & t' & -> & Hr).
  destruct r as [e|[i|]]; [by destruct Hr| |by destruct Hr].
  destruct (bool_decide (TrimSpace (IdentID i) = "")) eqn:Hid; [by destruct Hr|].
  destruct (EqualFold _ _) eqn:Htype; cbn [negb] in Hr; [|by destruct Hr].
  apply runs_bind in Hr as (t1 & t2 & r & -> & Hhost & Hr). destruct r as [e|host]; [by destruct Hr|].
  apply runs_bind in Hr as (t3 & t4 & r & -> & Hadd & Hr). destruct r as [e|ids]; [by destruct Hr|].
  destruct (RouterPolicies _ _ _ _ _) as [p|] eqn:Hp; [|by destruct Hr].
  destruct Hr as [-> Hr]. injection Hr as <-.
  apply resolveEdgeRouterID_runs in Hhost.
  destruct (resolveAdditional_runs _ _ _ _ _ Hadd) as (new & -> & Hall & Hsound).
  { intros n. rewrite lookup_singleton_Some. by intros []. }
  reflect_bools.
  set (t := _ :: _).
  assert (∀ e, e ∈ t1 → e ∈ t) as H1 by (intros; right; apply elem_of_app; by left).
  assert (∀ e, e ∈ t3 → e ∈ t) as H3.
  { intros. right. apply elem_of_app. right. apply elem_of_app. by left. }
  exists router, i, host, new. cbv zeta. split_and!; try done; [by left|by apply (resolvesRouter_mono t1)| |].
  - intros raw Hin. destruct (Hall raw Hin) as [? [[b Hb]|(id & ? & ?)]]; (split; [done|]).
    + apply lookup_singleton_Some in Hb as [? _]. by left.
    + right. exists id. split; [done|]. by apply (resolvesRouter_mono t3).
  - intros id Hin. destruct (Hsound id Hin) as (raw & ? & ?). exists raw. split; [done|].
    by apply (resolvesRouter_mono t3).
Qed.

Lemma resolvedPolicies_mono t t' resource serviceID policies :
  (∀ e, e ∈ t → e ∈ t') →
  resolvedPolicies t resource serviceID policies → resolvedPolicies t' resource serviceID policies.
Proof.
  intros Ht (router & i & host & ids & H1 & H2 & H3 & H4 & H5 & H6 & H7 & H8).
  exists router, i, host, ids. cbv zeta. split_and!; try done; [by apply Ht|by apply (resolvesRouter_mono t)| |].
  - intros raw Hin. destruct (H6 raw Hin) as [? [?|(id & ? & ?)]]; (split; [done|]); [by left|].
    right. exists id. split; [done|]. by apply (resolvesRouter_mono t).
  - intros id Hin. destruct (H7 id Hin) as (raw & ? & ?). exists raw. split; [done|].
    by apply (resolvesRouter_mono t).
Qed.

(** Only the spec of the resource matters. *)
Lemma resolvedPolicies_spec o t resource serviceID policies :
  ServiceSpec o = ServiceSpec resource →
  resolvedPolicies t o serviceID policies → resolvedPolicies t resource serviceID policies.
Proof. unfold resolvedPolicies, RouterPolicies. by intros ->. Qed.

Lemma resolveAdditional_only names seen acc : only isRead (resolveAdditional names seen acc).
Proof.
  revert seen acc. induction names as [|raw names IH]; intros seen acc; cbn [resolveAdditional]; [done|].
  case_test; [done|]. case_test; [apply IH|]. apply only_bind; [|intros [e|id]; [done|apply IH]].
  unfold resolveEdgeRouterID, FindEdgeRouterByName. only_calls.
Qed.

Lemma desiredRouterPolicies_only resource serviceID : only isRead (desiredRouterPolicies resource serviceID).
Proof.
  unfold desiredRouterPolicies, FindIdentityByName, resolveEdgeRouterID, FindEdgeRouterByName.
  only_calls; apply resolveAdditional_only.
Qed.

End Routers.

(** ** The guard of the calls *)

(** What is gone of the backend objects of a service. *)
Definition serpGone (h : trace) (s : ZitiService) : Prop :=
  let id := ServiceEdgeRouterPolicyID (ServiceStatus s) in
  gone h id (ev (Ziti (OpDeleteServiceEdgeRouterPolicy id)) (inr tt)).
Definition bindGone (h : trace) (s : ZitiService) : Prop :=
  let id := BindPolicyID (ServiceStatus s) in
  gone h id (ev (Ziti (OpDeleteAccessPolicy id)) (inr tt)).
Definition configGone (h : trace) (id : string) : Prop :=
  gone h id (ev (Ziti (OpDeleteConfig id)) (inr tt)).
Definition serviceGone (h : trace) (s : ZitiService) : Prop :=
  let id := StatusID (ServiceCommon (ServiceStatus s)) in
  gone h id (ev (Ziti (OpDeleteService id)) (inr tt)).

(** Both configs are gone. *)
Definition configsGone (h : trace) (s : ZitiService) : Prop :=
  configGone h (InterceptConfigID (ServiceStatus s)) ∧ configGone h (HostConfigID (ServiceStatus s)).

(** The OpenZiti controller answered a write of the service with [bs]. *)
Definition serviceAnswer (h : trace) (bs : Service) : Prop :=
  ∃ sent, ev (Ziti (OpCreateService sent)) (inr (Some bs)) ∈ h ∨
          ev (Ziti (OpUpdateService sent)) (inr (Some bs)) ∈ h.

(** It answered the write of the config [desired] with [c]. *)
Definition configAnswer (h : trace) (existingID : string) (desired c : ServiceConfig) : Prop :=
  existingID ≠ "" ∧ ev (Ziti (OpUpdateConfig (setConfigID existingID desired))) (inr (Some c)) ∈ h ∨
  existingID = "" ∧ ev (Ziti (OpCreateConfig desired)) (inr (Some c)) ∈ h.

(** The service is linked to its two configs. *)
Definition linked (h : trace) (s : ZitiService) (sent : Service) : Prop :=
  let desired := serviceFromResource s in
  ∃ bs intercept host, serviceAnswer h bs ∧
    configAnswer h (InterceptConfigID (ServiceStatus s)) (DesiredIntercept desired) intercept ∧
    configAnswer h (HostConfigID (ServiceStatus s)) (DesiredHost desired) host ∧
    ServiceConfigIDs bs ≠ [ConfigID intercept; ConfigID host] ∧
    sent = clientService (ServiceID bs) (withConfigIDs [ConfigID intercept; ConfigID host] desired).

(** The object [o] that is written to the status: the metadata and the spec
    are those of [s], and each ID of the service and of the configs is the
    recorded one or one that was answered in this run for that very object. *)
Definition recordsIDs (h : trace) (s o : ZitiService) : Prop :=
  let desired := serviceFromResource s in
  ServiceMeta o = ServiceMeta s ∧ ServiceSpec o = ServiceSpec s ∧
  (StatusID (ServiceCommon (ServiceStatus o)) = StatusID (ServiceCommon (ServiceStatus s)) ∨
   ∃ bs, serviceAnswer h bs ∧ StatusID (ServiceCommon (ServiceStatus o)) = ServiceID bs) ∧
  (InterceptConfigID (ServiceStatus o) = InterceptConfigID (ServiceStatus s) ∨
   ∃ c, configAnswer h (InterceptConfigID (ServiceStatus s)) (DesiredIntercept desired) c ∧
        InterceptConfigID (ServiceStatus o) = ConfigID c) ∧
  (HostConfigID (ServiceStatus o) = HostConfigID (ServiceStatus s) ∨
   ∃ c, configAnswer h (HostConfigID (ServiceStatus s)) (DesiredHost desired) c ∧
        HostConfigID (ServiceStatus o) = ConfigID c).

(** The three IDs are answered ones. *)
Definition recordsAll (h : trace) (s o : ZitiService) : Prop :=
  let desired := serviceFromResource s in
  ∃ bs intercept host, serviceAnswer h bs ∧
    configAnswer h (InterceptConfigID (ServiceStatus s)) (DesiredIntercept desired) intercept ∧
    configAnswer h (HostConfigID (ServiceStatus s)) (DesiredHost desired) host ∧
    StatusID (ServiceCommon (ServiceStatus o)) = ServiceID bs ∧
    InterceptConfigID (ServiceStatus o) = ConfigID intercept ∧
    HostConfigID (ServiceStatus o) = ConfigID host.

Section Guard.
Context `{UnicodeTables}.

(** The policies of the service as the complete resolution asks for them. *)
Definition routerPoliciesOf (h : trace) (s : ZitiService) (policies : RouterPolicySet) : Prop :=
  ∃ bs, serviceAnswer h bs ∧ resolvedPolicies h s (ServiceID bs) policies.

Definition serviceCall `{MetaConditions} (req : NamespacedName) (h : trace) (o : op) : Prop :=
  let about (P : obj KService → Prop) :=
    ∃ s, head h = Some (ev (Get Cached KService req) (inr s)) ∧ P s in
  let live (P : obj KService → Prop) :=
    about (λ s, guarded zitiServiceFinalizer s ∧ validateServiceSpec s = None ∧ P s) in
  let dead (P : obj KService → Prop) := about (λ s, dying zitiServiceFinalizer s ∧ P s) in
  let unhosted (s : obj KService) :=
    dying zitiServiceFinalizer s ∨
    guarded zitiServiceFinalizer s ∧ validateServiceSpec s = None ∧ Router (ServiceSpec s) = None in
  match o with
  | Ziti (OpCreateService sent) => live (λ s,
      sent = clientService "" (serviceFromResource s) ∧ StatusID (common s) = "" ∧
      ev (Ziti (OpFindServiceByName (ServiceName sent))) (inr None) ∈ h)
  | Ziti (OpUpdateService sent) => live (λ s,
      linked h s sent ∨
      sent = clientService (ServiceID sent) (serviceFromResource s) ∧
      (StatusID (common s) ≠ "" ∧ ServiceID sent = StatusID (common s) ∨
       StatusID (common s) = "" ∧ ∃ existing,
         ev (Ziti (OpFindServiceByName (ServiceName sent))) (inr (Some existing)) ∈ h ∧
         ServiceID sent = ServiceID existing))
  | Ziti (OpCreateConfig c) => live (λ s,
      InterceptConfigID (ServiceStatus s) = "" ∧ c = DesiredIntercept (serviceFromResource s) ∨
      HostConfigID (ServiceStatus s) = "" ∧ c = DesiredHost (serviceFromResource s))
  | Ziti (OpUpdateConfig c) => live (λ s, ConfigID c ≠ "" ∧
      (c = setConfigID (InterceptConfigID (ServiceStatus s)) (DesiredIntercept (serviceFromResource s)) ∨
       c = setConfigID (HostConfigID (ServiceStatus s)) (DesiredHost (serviceFromResource s))))
  | Ziti (OpCreateAccessPolicy p) => live (λ s, ∃ policies, routerPoliciesOf h s policies ∧
      p = setPolicyID (BindPolicyID (ServiceStatus s)) (BindPolicy policies) ∧
      ev (Ziti (OpFindAccessPolicyByName (PolicyName p))) (inr None) ∈ h)
  | Ziti (OpUpdateAccessPolicy p) => live (λ s, ∃ policies, routerPoliciesOf h s policies ∧
      p = setPolicyID (PolicyID p) (BindPolicy policies) ∧
      (PolicyID p = BindPolicyID (ServiceStatus s) ∧ PolicyID p ≠ "" ∨
       ∃ existing, ev (Ziti (OpFindAccessPolicyByName (PolicyName p))) (inr (Some existing)) ∈ h ∧
         PolicyID p = PolicyID existing))
  | Ziti (OpCreateServiceEdgeRouterPolicy p) => live (λ s, ∃ policies, routerPoliciesOf h s policies ∧
      p = setSerpID (ServiceEdgeRouterPolicyID (ServiceStatus s)) (RouterServicePolicy policies) ∧
      ev (Ziti (OpFindServiceEdgeRouterPolicyByName (SerpName p))) (inr None) ∈ h)
  | Ziti (OpUpdateServiceEdgeRouterPolicy p) => live (λ s, ∃ policies, routerPoliciesOf h s policies ∧
      p = setSerpID (SerpID p) (RouterServicePolicy policies) ∧
      (SerpID p = ServiceEdgeRouterPolicyID (ServiceStatus s) ∧ SerpID p ≠ "" ∨
       ∃ existing, ev (Ziti (OpFindServiceEdgeRouterPolicyByName (SerpName p))) (inr (Some existing)) ∈ h ∧
         SerpID p = SerpID existing))
  | Ziti (OpDeleteServiceEdgeRouterPolicy id) => about (λ s, unhosted s ∧
      id = ServiceEdgeRouterPolicyID (ServiceStatus s) ∧ id ≠ "")
  | Ziti (OpDeleteAccessPolicy id) => about (λ s, unhosted s ∧ serpGone h s ∧
      id = BindPolicyID (ServiceStatus s) ∧ id ≠ "")
  | Ziti (OpDeleteConfig id) => dead (λ s, serpGone h s ∧ bindGone h s ∧ id ≠ "" ∧
      (id = InterceptConfigID (ServiceStatus s) ∨ id = HostConfigID (ServiceStatus s)))
  | Ziti (OpDeleteService id) => dead (λ s, serpGone h s ∧ bindGone h s ∧ configsGone h s ∧
      id = StatusID (common s) ∧ id ≠ "")
  | Update KService o => about (λ s,
      finalizerUpdate zitiServiceFinalizer s o False ∨
      dying zitiServiceFinalizer s ∧ serpGone h s ∧ bindGone h s ∧ configsGone h s ∧ serviceGone h s ∧
      meta o = meta (snd (RemoveFinalizer s zitiServiceFinalizer)) ∧ ServiceSpec o = ServiceSpec s)
  | StatusUpdate KService o => about (λ s,
      recordsIDs h s o ∧ (reportsFailure (o : obj KService) ∨ recordsAll h s o))
  | _ => isRead o
  end.

Lemma serviceCall_read `{MetaConditions} req h o : isRead o → serviceCall req h o.
Proof.
  destruct o as [| |[]|[]| | |z| | | |]; try done; try (by intros [? ?]). by destruct z; intros [? ?].
Qed.

End Guard.

Lemma serpGone_app h t s : serpGone h s → serpGone (h ++ t) s.
Proof. apply gone_app. Qed.
Lemma bindGone_app h t s : bindGone h s → bindGone (h ++ t) s.
Proof. apply gone_app. Qed.
Lemma configGone_app h t id : configGone h id → configGone (h ++ t) id.
Proof. apply gone_app. Qed.
#[export] Hint Resolve serpGone_app bindGone_app configGone_app : mz.

Lemma configAnswer_app h t existingID desired c :
  configAnswer h existingID desired c → configAnswer (h ++ t) existingID desired c.
Proof. intros [[? ?]|[? ?]]; [left|right]; (split; [done|apply elem_of_app; by left]). Qed.

Lemma serviceAnswer_app h t bs : serviceAnswer h bs → serviceAnswer (h ++ t) bs.
Proof. intros (sent & [?|?]); exists sent; [left|right]; apply elem_of_app; by left. Qed.

Lemma recordsIDs_app h t s o : recordsIDs h s o → recordsIDs (h ++ t) s o.
Proof.
  intros (Hm & Hs & H1 & H2 & H3). split_and!; [done..| | |].
  - destruct H1 as [?|(bs & ? & ?)]; [by left|right]. exists bs. split; [by apply serviceAnswer_app|done].
  - destruct H2 as [?|(c & ? & ?)]; [by left|right]. exists c. split; [by apply configAnswer_app|done].
  - destruct H3 as [?|(c & ? & ?)]; [by left|right]. exists c. split; [by apply configAnswer_app|done].
Qed.

Lemma recordsAll_app h t s o : recordsAll h s o → recordsAll (h ++ t) s o.
Proof.
  intros (bs & ic & hc & H1 & H2 & H3 & ?). exists bs, ic, hc.
  split_and!; try tauto; [by apply serviceAnswer_app|by apply configAnswer_app..].
Qed.

Lemma recordsAll_IDs h s o :
  ServiceMeta o = ServiceMeta s → ServiceSpec o = ServiceSpec s → recordsAll h s o → recordsIDs h s o.
Proof.
  intros Hm Hs (bs & ic & hc & H1 & H2 & H3 & ? & ? & ?). split_and!; [done..| | |]; right; eauto.
Qed.

Lemma recordsIDs_refl h s : recordsIDs h s s.
Proof. split_and!; [done..|by left|by left|by left]. Qed.

(** ** The guard holds *)

Section Safety.
Context `{UnicodeTables} `{MetaConditions} `{!MetaConditionsLaws} (recorder : bool).
Context (req : NamespacedName) (s : obj KService).

#[local] Abbreviation starts := (started req s).
#[local] Abbreviation starts_app := (started_app req s).

Lemma recordsIDs_marks h o common' :
  StatusID common' = StatusID (common (o : obj KService)) →
  recordsIDs h s o → recordsIDs h s (withCommon common' (o : obj KService)).
Proof. intros Hid (Hm & Hspec & Hids). split_and!; [done..| | |]; cbn in *; rewrite ?Hid; tauto. Qed.

Lemma recordsAll_marks h o common' :
  StatusID common' = StatusID (common (o : obj KService)) →
  recordsAll h s o → recordsAll h s (withCommon common' (o : obj KService)).
Proof. intros Hid (bs & ic & hc & Hall). exists bs, ic, hc. cbn in *. by rewrite Hid. Qed.

Lemma markServiceFailed_wp (o : obj KService) err reason retryable h :
  starts h → recordsIDs h s o →
  wp (serviceCall req) (markServiceFailed recorder o err reason retryable) (λ _ _, True) h.
Proof.
  intros Hs Ho. eapply wp_only; [apply (markFailed_reports (k:=KService))| |done].
  intros t c [Hc|(common' & -> & Hid & Hf)]; [by apply serviceCall_read|].
  exists s. split; [by apply starts_app|]. split; [by apply recordsIDs_marks, recordsIDs_app|by left].
Qed.

Lemma finishService_wp (o : obj KService) h :
  starts h → recordsIDs h s o → recordsAll h s o →
  wp (serviceCall req) (finishService recorder o) (λ _ _, True) h.
Proof.
  intros Hs Ho Hall. unfold finishService. apply wp_bind.
  eapply wp_only; [apply (markReady_marks (k:=KService))| |].
  - intros t c [Hc|(common' & Hid & ->)]; [by apply serviceCall_read|].
    exists s. split; [by apply starts_app|].
    split; [by apply recordsIDs_marks, recordsIDs_app|right; by apply recordsAll_marks, recordsAll_app].
  - intros t [e|] _; [done|]. apply event_wp, serviceCall_read.
Qed.

Lemma recordsIDs_policies h o bind serp :
  recordsIDs h s o → recordsIDs h s (setRouterPolicyIDs bind serp o).
Proof. done. Qed.

Lemma recordsAll_policies h o bind serp :
  recordsAll h s o → recordsAll h s (setRouterPolicyIDs bind serp o).
Proof. done. Qed.

(** What a run of [deleteRouterPolicies] for [o] leaves. *)
Definition policiesDeleted (h : trace) (o : ZitiService) (r : ZitiService * option error) (h' : trace) : Prop :=
  starts h' ∧ recordsIDs h' s r.1 ∧ (recordsAll h s o → recordsAll h' s r.1) ∧
  (r.2 = None → r.1 = setRouterPolicyIDs "" "" o ∧ serpGone h' s ∧ bindGone h' s).

Lemma deleteRouterPolicies_wp (o : ZitiService) h :
  starts h → recordsIDs h s o →
  dying zitiServiceFinalizer s ∨
    guarded zitiServiceFinalizer s ∧ validateServiceSpec s = None ∧ Router (ServiceSpec s) = None →
  ServiceEdgeRouterPolicyID (ServiceStatus o) = ServiceEdgeRouterPolicyID (ServiceStatus s) →
  BindPolicyID (ServiceStatus o) = BindPolicyID (ServiceStatus s) →
  wp (serviceCall req) (deleteRouterPolicies o) (policiesDeleted h o) h.
Proof.
  intros Hs Ho Hun Eserp Ebind. unfold deleteRouterPolicies, deleteUnlessEmpty. rewrite Eserp.
  assert (∀ h', starts h' → recordsIDs h' s o → (recordsAll h s o → recordsAll h' s o) → serpGone h' s →
    wp (serviceCall req) (let! r := if negb (bool_decide (BindPolicyID (ServiceStatus s) = ""))
        then DeleteAccessPolicy (BindPolicyID (ServiceStatus s)) else Ret (inr tt) in
      match r with
      | inl err => Ret (setRouterPolicyIDs (BindPolicyID (ServiceStatus s)) "" o, Some err)
      | inr tt => Ret (setRouterPolicyIDs "" "" o, None)
      end)%mz (policiesDeleted h o) h') as Hbind.
  { intros h' Hs' Ho' Hall Hserp. case_bool_decide as Hb; cbn [negb bind DeleteAccessPolicy ziti call wp].
    - split_and!; [done|by apply recordsIDs_policies|done|]. intros _. split_and!; [done..|by left].
    - split; [exists s; split_and!; done|].
      intros [e|[]]; cbn [wp]; (split_and!; [by apply starts_app|by apply recordsIDs_policies, recordsIDs_app|
          intros; by apply recordsAll_policies, recordsAll_app, Hall|]);
        [done|]. intros _. split_and!; auto with mz. apply gone_last. }
  destruct (bool_decide (ServiceEdgeRouterPolicyID (ServiceStatus s) = "")) eqn:Hid; reflect_bools;
    cbn [negb bind DeleteServiceEdgeRouterPolicy ziti call wp].
  - cbn [setRouterPolicyIDs ServiceStatus BindPolicyID]. rewrite Ebind. apply Hbind; [done..|by left].
  - split; [exists s; split_and!; done|].
    intros [e|[]]; cbn [wp]; [split_and!; [by apply starts_app|by apply recordsIDs_app|by apply recordsAll_app|done]|].
    cbn [setRouterPolicyIDs ServiceStatus BindPolicyID]. rewrite Ebind.
    apply Hbind; [by apply starts_app|by apply recordsIDs_app|by apply recordsAll_app|apply gone_last].
Qed.

(** The deletion of one of the configs. *)
Lemma deleteConfig_wp (K : trace → Prop) id h :
  (∀ h t, K h → K (h ++ t)) → starts h → dying zitiServiceFinalizer s → serpGone h s → bindGone h s →
  id = InterceptConfigID (ServiceStatus s) ∨ id = HostConfigID (ServiceStatus s) → K h →
  wp (serviceCall req) (deleteUnlessEmpty id DeleteConfig) (λ r h', starts h' ∧ serpGone h' s ∧
    bindGone h' s ∧ K h' ∧ (r = inr tt → configGone h' id)) h.
Proof.
  intros HK Hs Hd Hserp Hbind Hid Hk. unfold deleteUnlessEmpty. case_bool_decide as He; cbn [negb wp].
  - split_and!; try done. by left.
  - cbn [DeleteConfig ziti call wp]. split; [exists s; by split_and!|]. intros r.
    split_and!; auto with mz. intros ->. apply gone_last.
Qed.

Lemma serviceReconcileDelete_wp h :
  starts h → DeletionTimestamp (meta s) ≠ None →
  wp (serviceCall req) (serviceReconcileDelete recorder s) (λ _ _, True) h.
Proof.
  intros Hs Hdel. unfold serviceReconcileDelete.
  destruct (contains _ zitiServiceFinalizer) eqn:Hf; [|done]. apply contains_true in Hf. cbn [negb].
  assert (dying zitiServiceFinalizer s) as Hdying by done.
  apply wp_bind. eapply wp_mono; [done| |apply deleteRouterPolicies_wp;
    auto using recordsIDs_refl].
  intros [o [e|]] h' (Hs' & _ & _ & Hgone); [done|]. clear h Hs. rename h' into h, Hs' into Hs. cbn [fst snd] in Hgone. destruct (Hgone eq_refl) as (-> & Hserp & Hbind).
  cbn [setRouterPolicyIDs ServiceStatus InterceptConfigID HostConfigID ServiceCommon].
  apply wp_bind. eapply wp_mono; [done| |by apply (deleteConfig_wp (λ _, True)); auto].
  clear h Hs Hgone Hserp Hbind. intros [e|[]] h (Hs & Hserp & Hbind & _ & Hint); [done|].
  specialize (Hint eq_refl).
  apply wp_bind. eapply wp_mono; [done| |apply (deleteConfig_wp (λ h, configGone h (InterceptConfigID (ServiceStatus s)))); by auto with mz].
  clear h Hs Hserp Hbind Hint. intros [e|[]] h (Hs & Hserp & Hbind & Hint & Hhost); [done|].
  specialize (Hhost eq_refl). assert (configsGone h s) as Hconfigs by done.
  assert (∀ h', starts h' → serpGone h' s → bindGone h' s → configsGone h' s → serviceGone h' s →
    wp (serviceCall req) (let! r := do (Update KService
        (snd (RemoveFinalizer (setRouterPolicyIDs "" "" s : obj KService) zitiServiceFinalizer))) in
      match r with
      | inl err => Ret (noResult, Some err)
      | inr service => let! _ := EmitEvent recorder (meta (service : obj KService)) EventTypeNormal
          "ServiceDeleted" "ZitiService backend state removed" in Ret (noResult, None)
      end)%mz (λ _ _, True) h') as Hend.
  { intros h' ? ? ? ? ?. cbn [bind do call wp]. split; [|intros [e|o]; [done|apply event_wp, serviceCall_read]].
    exists s. split; [done|]. right. split_and!; try done;
      unfold RemoveFinalizer; by destruct (contains _ _). }
  unfold deleteUnlessEmpty. case_bool_decide as He; cbn [negb bind serviceDelete ziti call wp].
  - apply Hend; try done. by left.
  - split; [exists s; by split_and!|]. intros [e|[]]; [done|].
    apply Hend; auto with mz; [|apply gone_last].
    split; apply configGone_app; by apply Hconfigs.
Qed.

(** ** The router policies *)

(** The plan of the policies stays valid while the run goes on. *)
Lemma routerPoliciesOf_app h t policies :
  routerPoliciesOf h s policies → routerPoliciesOf (h ++ t) s policies.
Proof.
  assert (∀ e, e ∈ h → e ∈ h ++ t) as Happ by (intros; apply elem_of_app; by left).
  intros (bs & (sent & Hsent) & Hp). exists bs. split; [|by apply (resolvedPolicies_mono h)].
  exists sent. destruct Hsent; [left|right]; by apply Happ.
Qed.

Lemma routerPoliciesOf_ids h policies :
  routerPoliciesOf h s policies →
  BindPolicy policies = setPolicyID "" (BindPolicy policies) ∧
  RouterServicePolicy policies = setSerpID "" (RouterServicePolicy policies).
Proof.
  intros (bs & _ & (router & i & host & ids & _ & _ & _ & _ & _ & _ & _ & Hp)).
  unfold RouterPolicies in Hp. destruct (Router _); [|done]. revert Hp. case_test; [done|].
  cbv zeta. by intros [= <-].
Qed.

Context (Hlive : guarded zitiServiceFinalizer s) (Hvalid : validateServiceSpec s = None).

Lemma adoptAccessPolicy_wp policies h (Φ : _ → trace → Prop) :
  starts h → routerPoliciesOf h s policies →
  (∀ r t, Φ r (h ++ t)) →
  wp (serviceCall req) (adoptAccessPolicy
    (setPolicyID (BindPolicyID (ServiceStatus s)) (BindPolicy policies))) Φ h.
Proof.
  intros Hs Hp HΦ. unfold adoptAccessPolicy, FindAccessPolicyByName. cbn [bind ziti call wp].
  split; [done|]. intros [e|[existing|]]; cbn [wp UpdateAccessPolicy CreateAccessPolicy ziti call]; [done| |];
    (split; [|intros; rewrite <-?app_assoc; apply HΦ]); exists s.
  - split_and!; [by apply starts_app|done..|]. exists policies.
    split_and!; [by apply routerPoliciesOf_app|done|]. right. exists existing.
    split; [apply elem_of_app; right; by left|done].
  - split_and!; [by apply starts_app|done..|]. exists policies.
    split_and!; [by apply routerPoliciesOf_app|done|]. apply elem_of_app. right. by left.
Qed.

Lemma reconcileBindPolicy_wp policies h (Φ : _ → trace → Prop) :
  starts h → routerPoliciesOf h s policies → (∀ r t, Φ r (h ++ t)) →
  wp (serviceCall req) (reconcileBindPolicy (BindPolicyID (ServiceStatus s)) (BindPolicy policies)) Φ h.
Proof.
  intros Hs Hp HΦ. unfold reconcileBindPolicy. case_bool_decide as Hid; cbn [negb].
  - rewrite (proj1 (routerPoliciesOf_ids _ _ Hp)). rewrite <-Hid. by apply adoptAccessPolicy_wp.
  - cbn [UpdateAccessPolicy bind ziti call wp]. split.
    + exists s. split_and!; [done..|]. exists policies. split_and!; [done..|]. by left.
    + intros [e|[updated|]]; cbn [wp]; [apply HΦ..|].
      apply adoptAccessPolicy_wp; [by apply starts_app|by apply routerPoliciesOf_app|].
      intros. rewrite <-app_assoc. apply HΦ.
Qed.

Lemma adoptServiceEdgeRouterPolicy_wp policies h (Φ : _ → trace → Prop) :
  starts h → routerPoliciesOf h s policies → (∀ r t, Φ r (h ++ t)) →
  wp (serviceCall req) (adoptServiceEdgeRouterPolicy
    (setSerpID (ServiceEdgeRouterPolicyID (ServiceStatus s)) (RouterServicePolicy policies))) Φ h.
Proof.
  intros Hs Hp HΦ. unfold adoptServiceEdgeRouterPolicy, FindServiceEdgeRouterPolicyByName.
  cbn [bind ziti call wp]. split; [done|].
  intros [e|[existing|]];
    cbn [wp UpdateServiceEdgeRouterPolicy CreateServiceEdgeRouterPolicy ziti call]; [done| |];
    (split; [|intros; rewrite <-?app_assoc; apply HΦ]); exists s.
  - split_and!; [by apply starts_app|done..|]. exists policies.
    split_and!; [by apply routerPoliciesOf_app|done|]. right. exists existing.
    split; [apply elem_of_app; right; by left|done].
  - split_and!; [by apply starts_app|done..|]. exists policies.
    split_and!; [by apply routerPoliciesOf_app|done|]. apply elem_of_app. right. by left.
Qed.

Lemma reconcileServiceEdgeRouterPolicy_wp policies h (Φ : _ → trace → Prop) :
  starts h → routerPoliciesOf h s policies → (∀ r t, Φ r (h ++ t)) →
  wp (serviceCall req) (reconcileServiceEdgeRouterPolicy (ServiceEdgeRouterPolicyID (ServiceStatus s))
    (RouterServicePolicy policies)) Φ h.
Proof.
  intros Hs Hp HΦ. unfold reconcileServiceEdgeRouterPolicy. case_bool_decide as Hid; cbn [negb].
  - rewrite (proj2 (routerPoliciesOf_ids _ _ Hp)). rewrite <-Hid. by apply adoptServiceEdgeRouterPolicy_wp.
  - cbn [UpdateServiceEdgeRouterPolicy bind ziti call wp]. split.
    + exists s. split_and!; [done..|]. exists policies. split_and!; [done..|]. by left.
    + intros [e|[updated|]]; cbn [wp]; [apply HΦ..|].
      apply adoptServiceEdgeRouterPolicy_wp; [by apply starts_app|by apply routerPoliciesOf_app|].
      intros. rewrite <-app_assoc. apply HΦ.
Qed.

(** The status that is updated with the answers changes no other field. *)
Lemma reconcileRouter_wp o bs h :
  starts h → serviceAnswer h bs → recordsIDs h s o → recordsAll h s o →
  StatusID (common (o : obj KService)) = ServiceID bs →
  BindPolicyID (ServiceStatus o) = BindPolicyID (ServiceStatus s) →
  ServiceEdgeRouterPolicyID (ServiceStatus o) = ServiceEdgeRouterPolicyID (ServiceStatus s) →
  wp (serviceCall req) (reconcileRouter recorder o) (λ _ _, True) h.
Proof.
  intros Hs Hbs Ho Hall Hid Ebind Eserp. unfold reconcileRouter. cbn in Hid. rewrite Hid, Ebind, Eserp.
  pose proof Ho as (_ & Hspec & _). rewrite Hspec. destruct (Router (ServiceSpec s)) eqn:Hrouter.
  - apply wp_bind. eapply wp_only; [apply desiredRouterPolicies_only|intros; by apply serviceCall_read|].
    intros t r Hp. apply (starts_app _ t) in Hs. apply (recordsIDs_app _ t) in Ho.
    apply (recordsAll_app _ t) in Hall.
    destruct r as [e|policies]; [by apply markServiceFailed_wp|]. apply desiredRouterPolicies_runs in Hp.
    assert (routerPoliciesOf (h ++ t) s policies) as Hpol.
    { exists bs. split; [by apply serviceAnswer_app|]. apply (resolvedPolicies_spec o); [done|].
      eapply resolvedPolicies_mono; [|exact Hp]. intros. apply elem_of_app. by right. }
    revert Hs Hpol Ho Hall. generalize (h ++ t). clear h Hbs Hp. intros h Hs Hpol Ho Hall.
    apply wp_bind, reconcileBindPolicy_wp; [done..|].
    intros r t1. apply (starts_app _ t1) in Hs. apply (recordsIDs_app _ t1) in Ho.
    destruct r as [e|bind]; [by apply markServiceFailed_wp|].
    apply wp_bind, reconcileServiceEdgeRouterPolicy_wp; [done|by apply routerPoliciesOf_app|].
    intros r t2. apply (starts_app _ t2) in Hs. apply (recordsIDs_app _ t2) in Ho.
    destruct r as [e|serp]; [by apply markServiceFailed_wp|].
    destruct bind; [|done]. destruct serp; [|done].
    apply finishService_wp; [done..|by apply recordsAll_policies, (recordsAll_app _ t2), recordsAll_app].
  - apply wp_bind. eapply wp_mono; [done| |apply deleteRouterPolicies_wp; by auto].
    intros [o' [e|]] h' (Hs' & Ho' & Ha' & _); [by apply markServiceFailed_wp|].
    by apply finishService_wp; [..|apply Ha'].
Qed.

(** ** The service and its configs *)

Lemma reconcileConfig_wp existingID desired h (Φ : _ → trace → Prop) :
  starts h → ConfigID desired = "" →
  (existingID = InterceptConfigID (ServiceStatus s) ∧ desired = DesiredIntercept (serviceFromResource s) ∨
   existingID = HostConfigID (ServiceStatus s) ∧ desired = DesiredHost (serviceFromResource s)) →
  (∀ e t, Φ (inl e) (h ++ t)) → (∀ t, Φ (inr None) (h ++ t)) →
  (∀ c t, configAnswer (h ++ t) existingID desired c → Φ (inr (Some c)) (h ++ t)) →
  wp (serviceCall req) (reconcileConfig existingID desired) Φ h.
Proof.
  intros Hs Hd Hwhich He Hn Hc. unfold reconcileConfig.
  case_bool_decide as Hid; cbn [negb CreateConfig UpdateConfig ziti call wp]; split.
  - exists s. split_and!; [done..|]. destruct Hwhich as [[-> ->]|[-> ->]]; auto.
  - intros [e|[c|]]; [apply He|apply Hc|apply Hn]. right. split; [done|]. apply elem_of_app. right. by left.
  - exists s. split_and!; [done..|]. destruct Hwhich as [[-> ->]|[-> ->]]; auto.
  - intros [e|[c|]]; [apply He|apply Hc|apply Hn]. left. split; [done|]. apply elem_of_app. right. by left.
Qed.

Lemma reconcileConfigs_wp bs h :
  starts h → (∀ b, bs = Some b → serviceAnswer h b) →
  wp (serviceCall req) (reconcileConfigs recorder s (serviceFromResource s) bs) (λ _ _, True) h.
Proof.
  intros Hs Hbs. pose proof (λ h, recordsIDs_refl h s) as Hrefl. unfold reconcileConfigs.
  apply wp_bind, reconcileConfig_wp; [done|done|by left|..].
  { intros. apply markServiceFailed_wp; [by apply starts_app|done]. }
  { intros t. apply wp_bind, reconcileConfig_wp; [by apply starts_app|done|by right| |done|done].
    intros. apply markServiceFailed_wp; [by do 2 apply starts_app|done]. }
  intros intercept t Hint. apply wp_bind, reconcileConfig_wp; [by apply starts_app|done|by right| |done|].
  { intros. apply markServiceFailed_wp; [by do 2 apply starts_app|done]. }
  intros host t' Hhost. apply (configAnswer_app _ t') in Hint. apply (starts_app _ t) in Hs.
  apply (starts_app _ t') in Hs.
  assert (∀ b, bs = Some b → serviceAnswer ((h ++ t) ++ t') b) as Hbs'
    by (intros; do 2 apply serviceAnswer_app; by apply Hbs).
  revert Hs Hint Hhost Hbs'. generalize ((h ++ t) ++ t'). clear h t t' Hbs. intros h Hs Hint Hhost Hbs.
  cbn [deref]. destruct bs as [b|]; [|done]. cbn [deref]. specialize (Hbs b eq_refl).
  apply wp_bind. destruct (slices_equal _ _) eqn:Heq; cbn [negb wp].
  - pose (o := setServiceStatus (ServiceID b) (ConfigID intercept) (ConfigID host) s). assert (recordsAll h s o) as Hall by (by exists b, intercept, host).
    apply (reconcileRouter_wp o b); try done. by apply recordsAll_IDs.
  - cbn [serviceUpdate ziti call wp]. split.
    + exists s. split_and!; [done..|]. left. exists b, intercept, host. split_and!; try done.
      by apply bool_decide_eq_false in Heq.
    + set (sent := clientService _ _). intros [e|[b'|]];
        [apply markServiceFailed_wp; [by apply starts_app|done]| |done]. cbn [deref].
      assert (serviceAnswer (h ++ [ev (Ziti (OpUpdateService sent)) (inr (Some b'))]) b') as Hb'.
      { exists sent. right. apply elem_of_app. right. by left. }
      pose (o := setServiceStatus (ServiceID b') (ConfigID intercept) (ConfigID host) s).
      assert (recordsAll (h ++ [ev (Ziti (OpUpdateService sent)) (inr (Some b'))]) s o) as Hall.
      { exists b', intercept, host. split_and!; try done; by apply configAnswer_app. }
      apply (reconcileRouter_wp o b'); [by apply starts_app|done| |done..].
      by apply recordsAll_IDs.
Qed.

Lemma reconcileService_wp h :
  starts h →
  wp (serviceCall req) (bind (reconcileService s (serviceFromResource s)) (λ r,
    match r with
    | inl err => markServiceFailed recorder s err "ServiceSyncFailed" true
    | inr backendService => reconcileConfigs recorder s (serviceFromResource s) backendService
    end)) (λ _ _, True) h.
Proof.
  intros Hs. pose proof (λ h, recordsIDs_refl h s) as Hrefl. apply wp_bind. unfold reconcileService.
  case_bool_decide as Hid; cbn [negb].
  - cbn [serviceFindByName bind ziti call wp]. split; [done|].
    intros r. apply (starts_app _ [ev (Ziti (OpFindServiceByName (ServiceSpecName (ServiceSpec s)))) r]) in Hs.
    destruct r as [e|[existing|]].
    + by apply markServiceFailed_wp.
    + cbn [serviceUpdate ziti call wp]. split.
      * exists s. split_and!; [done..|]. right. split; [done|]. right.
        split; [done|]. exists existing. split; [apply elem_of_app; right; by left|done].
      * intros [e|b]; [apply markServiceFailed_wp; [by apply starts_app|done]|]. apply reconcileConfigs_wp.
        -- by apply starts_app.
        -- intros b' ->. eexists. right. apply elem_of_app. right. by left.
    + cbn [serviceCreate ziti call wp]. split.
      * exists s. split_and!; [done..|]. apply elem_of_app. right. by left.
      * intros [e|b]; [apply markServiceFailed_wp; [by apply starts_app|done]|]. apply reconcileConfigs_wp.
        -- by apply starts_app.
        -- intros b' ->. eexists. left. apply elem_of_app. right. by left.
  - cbn [serviceUpdate ziti call wp]. split.
    + exists s. split_and!; [done..|]. right. split; [done|]. by left.
    + intros [e|b]; [apply markServiceFailed_wp; [by apply starts_app|done]|]. apply reconcileConfigs_wp.
      * by apply starts_app.
      * intros b' ->. eexists. right. apply elem_of_app. right. by left.
Qed.

End Safety.

(** ** Properties *)

(** What [Reconcile] does with a live, guarded service. *)
Definition serviceBody `{UnicodeTables} `{MetaConditions} (recorder : bool) (service : obj KService)
    : action outcome :=
  match validateServiceSpec service with
  | Some err => markServiceFailed recorder service err "SpecValidationFailed" false
  | None =>
      bind (reconcileService service (serviceFromResource service)) (λ r,
        match r with
        | inl err => markServiceFailed recorder service err "ServiceSyncFailed" true
        | inr backendService =>
            reconcileConfigs recorder service (serviceFromResource service) backendService
        end)
  end.

Section Properties.
Context `{UnicodeTables} `{MetaConditions} (recorder : bool).

(** [Reconcile] is an instance of [lifecycle]. *)
Lemma service_lifecycle req :
  reconcileZitiService recorder req =
  lifecycle zitiServiceFinalizer (serviceReconcileDelete recorder) (serviceBody recorder) req.
Proof. reflexivity. Qed.

(** C24. Every call of the service reconciler, wherever a run is cut off.  All
    writes are about the resource of the request, which carries the finalizer.
    While it is alive and valid: the service has the name and attributes of the
    spec and is the one of the status, or else the one found by name, or new;
    the configs are the documents of the spec; the service is linked to exactly
    the two configs that were answered; and a policy is written only after the
    router identity, the hosting router and every additional router had been
    resolved in this run, so that no partial set of routers ever replaces a
    good one.  The router policies are deleted only when the spec has no router
    or the resource is being deleted.  Only then are, in this order, both
    policies, both configs and the service deleted, and the finalizer is removed
    when all of them are gone.  In a status that is written, each ID of the
    service and of the two configs is the recorded one or one that was answered
    in this run for this very object, so that no ID is ever lost or mixed up;
    and a status that does not report a failure has the answered IDs of all
    three. *)
Theorem service_calls `{!MetaConditionsLaws} (req : NamespacedName) (t : trace) (e : event op resp) :
  reaches (reconcileZitiService recorder req) (t ++ [e]) → serviceCall req t (ev_op e).
Proof.
  apply (wp_reaches _ _ (λ _ _, True) []). rewrite service_lifecycle. apply lifecycle_wp.
  - intros. by apply serviceCall_read.
  - intros s o Hu. exists s. split; [done|]. by left.
  - intros s Hs. by apply (serviceReconcileDelete_wp recorder req s).
  - intros s Hs. unfold serviceBody. destruct (validateServiceSpec s) eqn:Hv.
    + apply (markServiceFailed_wp recorder req s); [done|apply recordsIDs_refl].
    + by apply (reconcileService_wp recorder req s).
Qed.

(** C25. The policies that a run computes for a hosted service.  When the
    resolution succeeds, the host of the spec is an identity of type Router,
    none of the declared names is blank, every declared router contributes the
    role of the ID it was resolved to, and every router of the policy is the
    resolution of a declared name; the permission to bind goes to that identity
    alone. *)
Theorem desiredRouterPolicies_correct (resource : ZitiService) (serviceID : string) (t : trace)
    (policies : RouterPolicySet) :
  runs (desiredRouterPolicies resource serviceID) t (inr policies) →
  ∃ router identity,
    Router (ServiceSpec resource) = Some router ∧
    let names := TrimSpace <$> RouterName router :: AdditionalAllowedEdgeRouterNames router in
    "" ∉ names ∧
    ev (Ziti (OpFindIdentityByName (TrimSpace (RouterName router)))) (inr (Some identity)) ∈ t ∧
    EqualFold (TrimSpace (IdentType identity)) "Router" = true ∧
    PolicyIdentityRolesRaw (BindPolicy policies) = [idRole (IdentID identity)] ∧
    PolicyServiceRolesRaw (BindPolicy policies) = [idRole serviceID] ∧
    SerpServiceRoles (RouterServicePolicy policies) = [idRole serviceID] ∧
    (∀ name, name ∈ names → ∃ id, resolvesRouter t name id ∧
       idRole id ∈ SerpEdgeRouterRoles (RouterServicePolicy policies)) ∧
    (∀ role, role ∈ SerpEdgeRouterRoles (RouterServicePolicy policies) →
       ∃ name id, name ∈ names ∧ resolvesRouter t name id ∧ role = idRole id).
Proof.
  intros (router & i & host & ids & Hr & Hi & Htype & _ & Hhost & Hall & Hsound & Hp)%desiredRouterPolicies_runs.
  apply RouterPolicies_inv in Hp as ((router' & Hr' & Hblank) & Hroles & Hir & _ & Hsr & Hss).
  assert (router' = router) as -> by congruence. exists router, i. cbv zeta. rewrite Hroles.
  assert (∀ id, id = host ∨ id ∈ ids → idRole id ∈ sort_compact (idRole <$> host :: ids)) as Hin.
  { intros id Hid. rewrite elem_of_sort_compact. apply list_elem_of_fmap_2. set_solver. }
  split_and!; try done.
  - intros (raw & E & [->|Hraw]%elem_of_cons)%list_elem_of_fmap; [done|].
    destruct (Hall raw Hraw) as [? _]. congruence.
  - intros name (raw & -> & [->|Hraw]%elem_of_cons)%list_elem_of_fmap.
    { exists host. split; [done|]. apply Hin. by left. }
    destruct (Hall raw Hraw) as [_ [->|(id & Hid & ?)]].
    + exists host. split; [done|]. apply Hin. by left.
    + exists id. split; [done|]. apply Hin. by right.
  - intros role. rewrite elem_of_sort_compact. intros (id & -> & [->|Hid]%elem_of_cons)%list_elem_of_fmap.
    + exists (TrimSpace (RouterName router)), host. split_and!; [by left|done..].
    + destruct (Hsound id Hid) as (raw & Hraw & ?). exists (TrimSpace raw), id.
      split_and!; [|done..]. apply list_elem_of_fmap_2. by right.
Qed.

End Properties.

(** ** A concrete environment

    A hosted service that is created with both configs; the router identity and
    two edge routers are known. *)
Definition exShop : obj KService :=
  withMeta (k:=KService) (SetFinalizers [zitiServiceFinalizer] (ServiceMeta exHosted)) exHosted.

Definition exServiceWorld (o : op) : resp o :=
  match o with
  | Get _ KService _ => inr exShop
  | Ziti (OpCreateService sent) => inr (Some (clientService "svc-1" (serviceFromResource exShop)))
  | Ziti (OpUpdateService sent) =>
      inr (Some (clientService "svc-1" (withConfigIDs ["c1"; "c2"] (serviceFromResource exShop))))
  | Ziti (OpCreateConfig c) =>
      inr (Some (setConfigID (if bool_decide (ConfigType c = "host.v1") then "c2" else "c1") c))
  | Ziti (OpFindIdentityByName n) => inr (Some
      {| IdentID := "i9"; IdentName := n; IdentType := "Router"; IdentRoleAttributes := [];
         IdentCreateOTT := false; IdentExternalID := "" |})
  | Ziti (OpFindEdgeRouterByName n) => inr (Some {| EdgeRouterID := "r-" +:+ n; EdgeRouterName := n |})
  | Ziti (OpCreateAccessPolicy p) => inr (Some (setPolicyID "p1" p))
  | Ziti (OpCreateServiceEdgeRouterPolicy p) => inr (Some (setSerpID "p2" p))
  | o => quiet o
  end.

Definition exShopReq : NamespacedName := {| KeyNamespace := "ziti"; KeyName := "shop" |}.
Definition exShopRun : action outcome :=
  @reconcileZitiService asciiTables upsertConditions true exShopReq.

(** The policy for the routers, sent after everything was resolved. *)
Definition exSerp : ServiceEdgeRouterPolicy :=
  {| SerpID := ""; SerpName := "shop-only"; SerpEdgeRouterRoles := ["@r-edge"; "@r-two"];
     SerpServiceRoles := ["@svc-1"]; SerpSemantic := "AnyOf" |}.

Lemma service_calls_witness :
  traceIn exServiceWorld exShopRun !! 12 =
    Some (ev (Ziti (OpCreateServiceEdgeRouterPolicy exSerp)) (inr (Some (setSerpID "p2" exSerp)))) ∧
  @serviceCall asciiTables upsertConditions exShopReq (take 12 (traceIn exServiceWorld exShopRun))
    (Ziti (OpCreateServiceEdgeRouterPolicy exSerp)).
Proof.
  assert (traceIn exServiceWorld exShopRun !! 12 =
    Some (ev (Ziti (OpCreateServiceEdgeRouterPolicy exSerp)) (inr (Some (setSerpID "p2" exSerp))))) as He
    by (vm_compute; reflexivity).
  split; [exact He|].
  assert (snd (execWith exServiceWorld exShopRun) = Some (noResult, None)) as Hend
    by (vm_compute; reflexivity).
  exact (@service_calls asciiTables upsertConditions true upsertConditions_laws exShopReq _ _
    (traceIn_reaches exServiceWorld exShopRun _ 12 _ Hend He)).
Defined.

Definition exPolicies : action (result RouterPolicySet) :=
  @desiredRouterPolicies asciiTables exShop "svc-1".

Lemma desiredRouterPolicies_correct_witness :
  ∃ policies, runs exPolicies (traceIn exServiceWorld exPolicies) (inr policies) ∧
    SerpEdgeRouterRoles (RouterServicePolicy policies) = ["@r-edge"; "@r-two"] ∧
    ∃ router identity, Router (ServiceSpec exShop) = Some router ∧
      PolicyIdentityRolesRaw (BindPolicy policies) = [idRole (IdentID identity)].
Proof.
  destruct (snd (execWith exServiceWorld exPolicies)) as [[e|policies]|] eqn:E;
    [exfalso; vm_compute in E; discriminate E| |exfalso; vm_compute in E; discriminate E].
  exists policies. pose proof (traceIn_runs exServiceWorld exPolicies _ E) as Hruns.
  split; [exact Hruns|]. split; [vm_compute in E; injection E as <-; reflexivity|].
  destruct (@desiredRouterPolicies_correct asciiTables exShop "svc-1" _ policies Hruns)
    as (router & i & H1 & _ & _ & _ & H2 & _). exists router, i. split; [exact H1|exact H2].
Defined.

(** The host config is refused. *)
Definition exRefused (s : obj KService) (o : op) : resp o :=
  match o with
  | Get _ KService _ => inr s
  | Ziti (OpFindServiceByName _) => inr (Some (clientService "svc-1" (serviceFromResource exShop)))
  | Ziti (OpCreateConfig c) =>
      if bool_decide (ConfigType c = "host.v1") then inl (CodedError 400 "invalid host config")
      else inr (Some (setConfigID "c1" c))
  | o => exServiceWorld o
  end.

(** The last status that is written in a trace. *)
Definition lastStatus (t : trace) : option (obj KService) :=
  foldl (λ last e, match e with Ev (StatusUpdate KService o) _ => Some o | _ => last end) None t.

(** The number of intercept configs that were created. *)
Definition interceptsCreated (t : trace) : nat :=
  length (List.filter (λ e : event op resp, match e with
    | Ev (Ziti (OpCreateConfig c)) (inr (Some _)) => bool_decide (ConfigType c = "intercept.v1")
    | _ => false end) t).

(** A config that was created before the other one failed is not recorded: the
    status has no ID of it, the next run creates another one, and neither can
    be deleted with the resource. *)
Example intercept_config_forgotten :
  let t := traceIn (exRefused exShop) exShopRun in
  interceptsCreated t = 1 ∧
  ∃ s, lastStatus t = Some s ∧ InterceptConfigID (ServiceStatus s) = "" ∧
       StatusID (ServiceCommon (ServiceStatus s)) = "" ∧
       interceptsCreated (traceIn (exRefused s) exShopRun) = 1.
Proof.
  cbv zeta. split; [vm_compute; reflexivity|].
  destruct (lastStatus (traceIn (exRefused exShop) exShopRun)) as [s|] eqn:E;
    [|exfalso; vm_compute in E; discriminate E].
  exists s. vm_compute in E. injection E as <-. split_and!; vm_compute; reflexivity.
Qed.
