(* ===== verification/IdentityController.v ===== *)
(** * The identity reconciler

    [internal/openziti/identity], [internal/credentials/enrollment_secret.go]
    and [internal/controller/zitiidentity_controller.go]: an identity of the
    OpenZiti controller and the Secret with its enrollment token. *)

From S2P Require Import Prelude GoSlices GoStrings Errors ZitiTypes ApiTypes World.
From S2P Require Import ReconcileHelpers.

#[local] Open Scope mz_scope.

Definition zitiIdentityFinalizer : string := "ziti.sixfeetup.com/finalizer".

(** ** Identities of the backend *)

(** [DesiredIdentity] *)
Record DesiredIdentity := {
  DesiredIdentityName : string;
  DesiredIdentityType : string;
  DesiredIdentityRoleAttributes : strs;
  DesiredCreateJWTSecret : bool;
  DesiredJWTSecretName : string;
}.

(** [FromResource] *)
Definition identityFromResource (resource : ZitiIdentity) : DesiredIdentity :=
  let spec := IdentitySpec resource in
  {| DesiredIdentityName := IdentitySpecName spec; DesiredIdentityType := IdentitySpecType spec;
     DesiredIdentityRoleAttributes := IdentitySpecRoleAttributes spec;
     DesiredCreateJWTSecret := CreateJWTSecret (Enrollment spec);
     DesiredJWTSecretName := SpecJWTSecretName (Enrollment spec) |}.

(** [toClientIdentity], with the ID that [Update] sets. *)
Definition toClientIdentity (id : string) (desired : DesiredIdentity) : Identity :=
  {| IdentID := id; IdentName := DesiredIdentityName desired;
     IdentType := DesiredIdentityType desired;
     IdentRoleAttributes := DesiredIdentityRoleAttributes desired;
     IdentCreateOTT := DesiredCreateJWTSecret desired; IdentExternalID := "" |}.

(** The methods of [(s *Service)]. *)
Definition identityGet (id : string) := ziti (OpGetIdentity id).
Definition identityList := ziti OpListIdentities.
Definition identityFindByName (name : string) := ziti (OpFindIdentityByName name).
Definition identityCreate (desired : DesiredIdentity) :=
  ziti (OpCreateIdentity (toClientIdentity "" desired)).
Definition identityUpdate (id : string) (desired : DesiredIdentity) :=
  ziti (OpUpdateIdentity (toClientIdentity id desired)).
Definition identityDelete (id : string) := ziti (OpDeleteIdentity id).
Definition EnrollmentJWT (id : string) := ziti (OpGetEnrollmentJWT id).

(** ** Owner references

    [metav1.IsControlledBy] and [ctrl.SetControllerReference] are library
    functions on the metadata of the object and of its owner. *)
Class OwnerRefs := {
  IsControlledBy : ObjectMeta → ObjectMeta → bool;
  SetControllerReference : ObjectMeta → ObjectMeta → result ObjectMeta;
}.

(** ** The enrollment Secret *)

Definition EnrollmentJWTKey : string := "jwt".
Definition SecretTypeOpaque : string := "Opaque".

(** [types.NamespacedName.String] *)
Definition keyString (key : NamespacedName) : string := KeyNamespace key +:+ "/" +:+ KeyName key.

(** The literal of the Secret that is created. *)
Definition newMeta (namespace name : string) : ObjectMeta :=
  {| MetaNamespace := namespace; MetaName := name; UID := ""; ResourceVersion := "";
     Generation := 0; MetaCreationTimestamp := 0; DeletionTimestamp := None; Finalizers := [];
     OwnerReferences := [] |}.

Definition enrollmentSecret (m : ObjectMeta) (jwt : string) : obj KSecret :=
  {| SecretMeta := m; SecretType := SecretTypeOpaque; Data := ∅;
     StringData := {[ EnrollmentJWTKey := jwt ]} |}.

Section Secrets.
Context `{OwnerRefs}.

(** [ReconcileEnrollmentSecret] *)
Definition ReconcileEnrollmentSecret (identity : ZitiIdentity) (jwt : string) : action (result string) :=
  let name := SpecJWTSecretName (Enrollment (IdentitySpec identity)) in
  if bool_decide (name = "") then
    Ret (inl (ErrorString "jwt secret name is required when enrollment secret output is enabled"))
  else
    let namespace := MetaNamespace (IdentityMeta identity) in
    let key := {| KeyNamespace := namespace; KeyName := name |} in
    let! r := do (Get Cached KSecret key) in
    match r with
    | inr secret =>
        if negb (IsControlledBy (SecretMeta secret) (IdentityMeta identity)) then
          Ret (inl (ErrorString ("enrollment secret " +:+ keyString key +:+ " is not owned by " +:+
                                 MetaName (IdentityMeta identity))))
        else Ret (inr (MetaName (SecretMeta secret)))
    | inl err =>
        if negb (IsNotFound err) then Ret (inl err)
        else
          match SetControllerReference (IdentityMeta identity) (newMeta namespace name) with
          | inl err => Ret (inl err)
          | inr m =>
              let! r := do (Create KSecret (enrollmentSecret m jwt)) in
              match r with
              | inl err => Ret (inl err)
              | inr secret => Ret (inr (MetaName (SecretMeta secret)))
              end
          end
    end.

(** [DeleteEnrollmentSecret] *)
Definition DeleteEnrollmentSecret (identity : ZitiIdentity) (secretName : string) : action (option error) :=
  if bool_decide (secretName = "") then Ret None
  else
    let! r := do (Get Cached KSecret
                {| KeyNamespace := MetaNamespace (IdentityMeta identity); KeyName := secretName |}) in
    match r with
    | inl err => Ret (IgnoreNotFound err)
    | inr secret =>
        if negb (IsControlledBy (SecretMeta secret) (IdentityMeta identity)) then Ret None
        else
          let! r := do (Delete KSecret secret) in
          match r with
          | inl err => Ret (IgnoreNotFound err)
          | inr tt => Ret None
          end
    end.

End Secrets.

(** ** The reconciler *)

(** Whether the loop of [validateIdentitySpec] meets an attribute twice. *)
Fixpoint repeats (attrs : strs) (seen : gmap string unit) : bool :=
  match attrs with
  | [] => false
  | attr :: attrs =>
      if bool_decide (is_Some (seen !! attr)) then true else repeats attrs (<[attr := tt]> seen)
  end.

(** [validateIdentitySpec] *)
Definition validateIdentitySpec (identity : ZitiIdentity) : option error :=
  let spec := IdentitySpec identity in
  if bool_decide (IdentitySpecName spec = "") then Some (ErrorString "spec.name must not be empty")
  else if repeats (IdentitySpecRoleAttributes spec) ∅
  then Some (ErrorString "spec.roleAttributes must not contain duplicates")
  else if CreateJWTSecret (Enrollment spec) && bool_decide (SpecJWTSecretName (Enrollment spec) = "")
  then Some (ErrorString "spec.enrollment.jwtSecretName is required when createJwtSecret is true")
  else None.

(** The assignments to the status. *)
Definition setIdentityStatus (id secretName : string) (identity : ZitiIdentity) : ZitiIdentity :=
  {| IdentityMeta := IdentityMeta identity; IdentitySpec := IdentitySpec identity;
     IdentityStatus := {| IdentityCommon := setStatusID id (IdentityCommon (IdentityStatus identity));
                          StatusJWTSecretName := secretName |} |}.

Section Controller.
Context `{OwnerRefs} `{MetaConditions} (recorder : bool).

(** The methods [markReady] and [markFailed] of this reconciler. *)
Definition markIdentityReady (identity : obj KIdentity) : action (option error) :=
  markReady identity "ZitiIdentity reconciled successfully".
Definition markIdentityFailed (identity : obj KIdentity) (reconcileErr : error) (reason : string)
    (retryable : bool) : action outcome :=
  markFailed recorder identity reconcileErr reason retryable.

(** [reconcileIdentity] *)
Definition reconcileIdentity (identity : ZitiIdentity) (desired : DesiredIdentity)
    : action (result (option Identity)) :=
  let id := StatusID (IdentityCommon (IdentityStatus identity)) in
  if negb (bool_decide (id = "")) then identityUpdate id desired
  else
    let! r := identityFindByName (DesiredIdentityName desired) in
    match r with
    | inl err => Ret (inl err)
    | inr (Some existing) => identityUpdate (IdentID existing) desired
    | inr None => identityCreate desired
    end.

(** [reconcileDelete] *)
Definition identityReconcileDelete (identity : obj KIdentity) : action outcome :=
  if negb (contains (Finalizers (meta identity)) zitiIdentityFinalizer) then Ret (noResult, None)
  else
    let! err := DeleteEnrollmentSecret identity (StatusJWTSecretName (IdentityStatus identity)) in
    match err with
    | Some err => Ret (noResult, Some err)
    | None =>
        let id := StatusID (common identity) in
        let! r := if negb (bool_decide (id = "")) then identityDelete id else Ret (inr tt) in
        match r with
        | inl err => Ret (noResult, Some err)
        | inr tt =>
            let identity := snd (RemoveFinalizer identity zitiIdentityFinalizer) in
            let! r := do (Update KIdentity identity) in
            match r with
            | inl err => Ret (noResult, Some err)
            | inr updated =>
                let! _ := EmitEvent recorder (meta (updated : obj KIdentity)) EventTypeNormal
                            "IdentityDeleted"
                            "ZitiIdentity backend state removed" in
                Ret (noResult, None)
            end
        end
    end.

(** The end of [Reconcile]. *)
Definition finishIdentity (identity : obj KIdentity) : action outcome :=
  let! err := markIdentityReady identity in
  match err with
  | Some err => Ret (noResult, Some err)
  | None =>
      let! _ := EmitEvent recorder (meta identity) EventTypeNormal "IdentityReconciled"
                  "ZitiIdentity reconciled successfully" in
      Ret (noResult, None)
  end.

(** The enrollment in [Reconcile]. *)
Definition reconcileEnrollment (identity : ZitiIdentity) (desired : DesiredIdentity)
    (backendIdentity : Identity) : action outcome :=
  let identity := setIdentityStatus (IdentID backendIdentity) "" identity in
  if DesiredCreateJWTSecret desired then
    let! r := EnrollmentJWT (IdentID backendIdentity) in
    match r with
    | inl err => markIdentityFailed identity err "EnrollmentJWTFailed" true
    | inr jwt =>
        let! r := ReconcileEnrollmentSecret identity jwt in
        match r with
        | inl err => markIdentityFailed identity err "EnrollmentSecretFailed" false
        | inr secretName =>
            finishIdentity (setIdentityStatus (IdentID backendIdentity) secretName identity)
        end
    end
  else finishIdentity identity.

(** [Reconcile] *)
Definition reconcileZitiIdentity (req : NamespacedName) : action outcome :=
  let! r := do (Get Cached KIdentity req) in
  match r with
  | inl err => Ret (noResult, IgnoreNotFound err)
  | inr resource =>
      if negb (bool_decide (DeletionTimestamp (meta (resource : obj KIdentity)) = None))
      then identityReconcileDelete resource
      else
        match EnsureFinalizer (resource : obj KIdentity) zitiIdentityFinalizer with
        | (true, resource) =>
            let! r := do (Update KIdentity resource) in
            match r with
            | inl err => Ret (noResult, Some err)
            | inr _ => Ret ({| Requeue := true; RequeueAfter := 0 |}, None)
            end
        | (false, resource) =>
            match validateIdentitySpec resource with
            | Some err => markIdentityFailed resource err "SpecValidationFailed" false
            | None =>
                let desired := identityFromResource resource in
                let! r := reconcileIdentity resource desired in
                match r with
                | inl err => markIdentityFailed resource err "IdentitySyncFailed" true
                | inr backendIdentity =>
                    deref backendIdentity (λ backendIdentity,
                      reconcileEnrollment resource desired backendIdentity)
                end
            end
        end
  end.

End Controller.
