(* ===== verification/IdentitySafety.v ===== *)
(** * The identity reconciler: properties

    The guard of every call of a run: who may write which identity, and what
    happens to the Secret with the enrollment token. *)

From S2P Require Import Prelude GoSlices GoStrings Errors ZitiTypes ApiTypes World.
From S2P Require Import ReconcileHelpers Lifecycle IdentityController.

(** [validateIdentitySpec] rejects repeated attributes. *)
Lemma repeats_spec attrs seen :
  repeats attrs seen = false ↔ NoDup attrs ∧ ∀ a, a ∈ attrs → seen !! a = None.
Proof.
  revert seen. induction attrs as [|a attrs IH]; intros seen; cbn [repeats].
  { split; [intros _; split; [constructor|set_solver]|done]. }
  case_bool_decide as Ha.
  - split; [done|]. intros [_ Hall]. specialize (Hall a ltac:(by left)). rewrite Hall in Ha. by destruct Ha.
  - apply eq_None_not_Some in Ha. rewrite IH, NoDup_cons. split.
    + intros [Hnd Hall]. split; [split; [|done]|].
      * intros Hin. specialize (Hall a Hin). by rewrite lookup_insert_eq in Hall.
      * intros b [->|Hb]%elem_of_cons; [done|]. specialize (Hall b Hb).
        by apply lookup_insert_None in Hall as [? _].
    + intros [[Hnin Hnd] Hall]. split; [done|]. intros b Hb. apply lookup_insert_None.
      split; [apply Hall; by right|]. by intros ->.
Qed.

Section Guard.
Context `{OwnerRefs}.

(** The key of a Secret of the resource. *)
Definition secretKey (i : ZitiIdentity) (name : string) : NamespacedName :=
  {| KeyNamespace := MetaNamespace (IdentityMeta i); KeyName := name |}.

(** The OpenZiti controller answered a write of the identity of [i] with [bi]. *)
Definition identityAnswer (h : trace) (i : ZitiIdentity) (bi : Identity) : Prop :=
  ∃ id, ev (Ziti (OpCreateIdentity (toClientIdentity id (identityFromResource i)))) (inr (Some bi)) ∈ h ∨
        ev (Ziti (OpUpdateIdentity (toClientIdentity id (identityFromResource i)))) (inr (Some bi)) ∈ h.

(** The Secret that the status records needs no deletion any more: none is
    recorded, it was not found, it belongs to another owner, or its deletion
    succeeded or found nothing. *)
Definition secretGone (h : trace) (i : ZitiIdentity) : Prop :=
  let name := StatusJWTSecretName (IdentityStatus i) in
  let read r := ev (Get Cached KSecret (secretKey i name)) r ∈ h in
  name = "" ∨ (∃ err, read (inl err) ∧ IsNotFound err = true) ∨
  (∃ secret, read (inr secret) ∧
     (IsControlledBy (SecretMeta secret) (IdentityMeta i) = false ∨
      ev (Delete KSecret secret) (inr tt) ∈ h ∨
      ∃ err, ev (Delete KSecret secret) (inl err) ∈ h ∧ IsNotFound err = true)).

Definition identityGone (h : trace) (i : ZitiIdentity) : Prop :=
  let id := StatusID (IdentityCommon (IdentityStatus i)) in
  gone h id (ev (Ziti (OpDeleteIdentity id)) (inr tt)).

(** The Secret that is created: named by the spec and not found before, with
    the token of the identity that was just written, and controlled by [i]. *)
Definition freshSecret (h : trace) (i : ZitiIdentity) (secret : Secret) : Prop :=
  let name := SpecJWTSecretName (Enrollment (IdentitySpec i)) in
  name ≠ "" ∧ ∃ bi jwt err m, identityAnswer h i bi ∧
    ev (Ziti (OpGetEnrollmentJWT (IdentID bi))) (inr jwt) ∈ h ∧
    ev (Get Cached KSecret (secretKey i name)) (inl err) ∈ h ∧ IsNotFound err = true ∧
    SetControllerReference (IdentityMeta i) (newMeta (MetaNamespace (IdentityMeta i)) name) = inr m ∧
    secret = enrollmentSecret m jwt.

(** The object [o] written to the status: only IDs, a Secret's name and
    conditions change, and an ID that changes is the answered one. *)
Definition recordsIdentity (h : trace) (i o : ZitiIdentity) : Prop :=
  IdentityMeta o = IdentityMeta i ∧ IdentitySpec o = IdentitySpec i ∧
  (StatusID (IdentityCommon (IdentityStatus o)) = StatusID (IdentityCommon (IdentityStatus i)) ∧
   StatusJWTSecretName (IdentityStatus o) = StatusJWTSecretName (IdentityStatus i) ∨
   ∃ bi, identityAnswer h i bi ∧ StatusID (IdentityCommon (IdentityStatus o)) = IdentID bi ∧
     (StatusJWTSecretName (IdentityStatus o) = "" ∨ CreateJWTSecret (Enrollment (IdentitySpec i)) = true)).

Definition identityCall (req : NamespacedName) (h : trace) (o : op) : Prop :=
  let about (P : obj KIdentity → Prop) := ∃ i, started req i h ∧ P i in
  let live (P : obj KIdentity → Prop) :=
    about (λ i, guarded zitiIdentityFinalizer i ∧ validateIdentitySpec i = None ∧ P i) in
  let dead (P : obj KIdentity → Prop) := about (λ i, dying zitiIdentityFinalizer i ∧ P i) in
  match o with
  | Ziti (OpCreateIdentity sent) => live (λ i,
      sent = toClientIdentity "" (identityFromResource i) ∧ StatusID (common i) = "" ∧
      ev (Ziti (OpFindIdentityByName (IdentName sent))) (inr None) ∈ h)
  | Ziti (OpUpdateIdentity sent) => live (λ i,
      sent = toClientIdentity (IdentID sent) (identityFromResource i) ∧
      (StatusID (common i) ≠ "" ∧ IdentID sent = StatusID (common i) ∨
       StatusID (common i) = "" ∧ ∃ existing,
         ev (Ziti (OpFindIdentityByName (IdentName sent))) (inr (Some existing)) ∈ h ∧
         IdentID sent = IdentID existing))
  | Ziti (OpDeleteIdentity id) => dead (λ i, secretGone h i ∧ id = StatusID (common i) ∧ id ≠ "")
  | Ziti (OpGetEnrollmentJWT id) => live (λ i, CreateJWTSecret (Enrollment (IdentitySpec i)) = true ∧
      ∃ bi, identityAnswer h i bi ∧ id = IdentID bi)
  | Create KSecret secret => live (λ i, CreateJWTSecret (Enrollment (IdentitySpec i)) = true ∧
      freshSecret h i secret)
  | Delete KSecret secret => dead (λ i, let name := StatusJWTSecretName (IdentityStatus i) in
      name ≠ "" ∧ ev (Get Cached KSecret (secretKey i name)) (inr secret) ∈ h ∧
      IsControlledBy (SecretMeta secret) (IdentityMeta i) = true)
  | Update KIdentity o => about (λ i,
      finalizerUpdate zitiIdentityFinalizer i o (secretGone h i ∧ identityGone h i))
  | StatusUpdate KIdentity o => about (λ i, recordsIdentity h i o)
  | _ => isRead o
  end.

Lemma identityCall_read req h o : isRead o → identityCall req h o.
Proof.
  destruct o as [| |[]|[]|[]|[]|z| | | |]; try done; try (by intros [? ?]). by destruct z; intros [? ?].
Qed.

End Guard.

Lemma identityAnswer_app h t i bi : identityAnswer h i bi → identityAnswer (h ++ t) i bi.
Proof. intros (id & [?|?]); exists id; [left|right]; apply elem_of_app; by left. Qed.

Lemma secretGone_app `{OwnerRefs} h t i : secretGone h i → secretGone (h ++ t) i.
Proof.
  assert (∀ e, e ∈ h → e ∈ h ++ t) as Happ by (intros; apply elem_of_app; by left).
  intros [?|[(err & ? & ?)|(secret & ? & Hs)]]; [by left|right; left; exists err; auto|].
  right; right. exists secret. split; [auto|]. destruct Hs as [?|[?|(err & ? & ?)]]; [by left|..].
  - right; left. auto.
  - right; right. exists err. auto.
Qed.

Lemma recordsIdentity_app h t i o : recordsIdentity h i o → recordsIdentity (h ++ t) i o.
Proof.
  intros (? & ? & Hids). split_and!; [done..|]. destruct Hids as [?|(bi & ? & ?)]; [by left|].
  right. exists bi. split; [by apply identityAnswer_app|done].
Qed.

Lemma recordsIdentity_refl h i : recordsIdentity h i i.
Proof. split_and!; [done..|by left]. Qed.

#[export] Hint Resolve identityAnswer_app secretGone_app recordsIdentity_app recordsIdentity_refl : mz.

(** ** The guard holds *)

Section Safety.
Context `{OwnerRefs} `{MetaConditions} (recorder : bool).
Context (req : NamespacedName) (i : obj KIdentity).

Lemma marks_identity_wp {A} (o : obj KIdentity) (p : action A) Φ h :
  started req i h → recordsIdentity h i o → only (marks o) p → (∀ a t, Φ a (h ++ t)) →
  wp (identityCall req) p Φ h.
Proof.
  intros Hs Ho Hp HΦ. apply (wp_only (marks o)); [done| |by intros].
  intros t c [Hc|(common' & Hid & ->)]; [by apply identityCall_read|].
  exists i. split; [by apply started_app|]. apply (recordsIdentity_app _ t) in Ho.
  destruct Ho as (Hm & Hspec & Hids). split_and!; [done..|]. cbn in *. by rewrite Hid.
Qed.

Lemma markIdentityFailed_wp (o : obj KIdentity) err reason retryable h :
  started req i h → recordsIdentity h i o →
  wp (identityCall req) (markIdentityFailed recorder o err reason retryable) (λ _ _, True) h.
Proof. intros. apply (marks_identity_wp o); [done..| |done]. apply (markFailed_marks (k:=KIdentity)). Qed.

Lemma finishIdentity_wp (o : obj KIdentity) h :
  started req i h → recordsIdentity h i o →
  wp (identityCall req) (finishIdentity recorder o) (λ _ _, True) h.
Proof.
  intros Hs Ho. unfold finishIdentity. apply wp_bind. apply (marks_identity_wp o); [done..| |].
  - apply (markReady_marks (k:=KIdentity)).
  - intros [e|] t; [done|]. apply event_wp, identityCall_read.
Qed.

Lemma DeleteEnrollmentSecret_wp h :
  started req i h → dying zitiIdentityFinalizer i →
  wp (identityCall req) (DeleteEnrollmentSecret i (StatusJWTSecretName (IdentityStatus i)))
    (λ r h', started req i h' ∧ (r = None → secretGone h' i)) h.
Proof.
  intros Hs Hd. unfold DeleteEnrollmentSecret. case_bool_decide as Hname; [split; [done|by left]|].
  fold (secretKey i (StatusJWTSecretName (IdentityStatus i))).
  set (read := Get Cached KSecret _). cbn [bind do call wp]. split; [by apply identityCall_read|].
  intros [e|secret]; cbn [wp].
  - split; [auto with mz|]. unfold IgnoreNotFound. case_test; [|done]. intros _. right; left.
    exists e. split; [apply elem_of_app; right; by left|done].
  - assert (∀ t, ev read (inr secret) ∈ (h ++ [ev read (inr secret)]) ++ t) as Hread.
    { intros t. apply elem_of_app. left. apply elem_of_app. right. by left. }
    destruct (IsControlledBy _ _) eqn:Hc; cbn [negb bind do call wp].
    + split.
      { exists i. split; [by apply started_app|]. split; [done|]. cbv zeta. split_and!; [done| |done].
        specialize (Hread []). by rewrite app_nil_r in Hread. }
      intros [e|[]]; cbn [wp]; (split; [auto with mz|]).
      * unfold IgnoreNotFound. case_test; [|done]. intros _. right; right. exists secret.
        split; [apply Hread|]. right; right. exists e. split; [apply elem_of_app; right; by left|done].
      * intros _. right; right. exists secret. split; [apply Hread|]. right; left.
        apply elem_of_app; right; by left.
    + split; [auto with mz|]. intros _. right; right. exists secret. specialize (Hread []).
      rewrite app_nil_r in Hread. split; [done|by left].
Qed.

Lemma identityReconcileDelete_wp h :
  started req i h → DeletionTimestamp (meta i) ≠ None →
  wp (identityCall req) (identityReconcileDelete recorder i) (λ _ _, True) h.
Proof.
  intros Hs Hdel. unfold identityReconcileDelete.
  destruct (contains _ zitiIdentityFinalizer) eqn:Hf; [|done]. apply contains_true in Hf. cbn [negb].
  assert (dying zitiIdentityFinalizer i) as Hd by done.
  apply wp_bind. eapply wp_mono; [done| |by apply DeleteEnrollmentSecret_wp].
  clear h Hs. intros [e|] h [Hs Hsecret]; [done|]. specialize (Hsecret eq_refl). cbv zeta.
  assert (∀ h', started req i h' → secretGone h' i → identityGone h' i →
    wp (identityCall req) (let! r := do (Update KIdentity (snd (RemoveFinalizer i zitiIdentityFinalizer))) in
      match r with
      | inl err => Ret (noResult, Some err)
      | inr updated => let! _ := EmitEvent recorder (meta (updated : obj KIdentity)) EventTypeNormal
          "IdentityDeleted" "ZitiIdentity backend state removed" in Ret (noResult, None)
      end)%mz (λ _ _, True) h') as Hend.
  { intros h' ? ? ?. cbn [bind do call wp].
    split; [|intros [e|o]; [done|apply event_wp, identityCall_read]].
    exists i. split; [done|]. right. by split_and!. }
  apply wp_bind. case_bool_decide as He; cbn [negb identityDelete ziti call wp].
  - apply Hend; try done. by left.
  - split; [exists i; by split_and!|]. intros [e|[]]; [done|].
    apply Hend; [auto with mz..|apply gone_last].
Qed.

Context (Hlive : guarded zitiIdentityFinalizer i) (Hvalid : validateIdentitySpec i = None).

(** [o] is [i] with the answered ID. *)
Lemma ReconcileEnrollmentSecret_wp bi jwt h (Φ : _ → trace → Prop) :
  started req i h → CreateJWTSecret (Enrollment (IdentitySpec i)) = true → identityAnswer h i bi →
  ev (Ziti (OpGetEnrollmentJWT (IdentID bi))) (inr jwt) ∈ h → (∀ r t, Φ r (h ++ t)) →
  wp (identityCall req)
    (ReconcileEnrollmentSecret (setIdentityStatus (IdentID bi) "" i) jwt) Φ h.
Proof.
  intros Hs Hjwt Hbi Htoken HΦ. unfold ReconcileEnrollmentSecret.
  cbn [setIdentityStatus IdentitySpec IdentityMeta]. case_bool_decide as Hname.
  { cbn [wp]. specialize (HΦ (inl (ErrorString
      "jwt secret name is required when enrollment secret output is enabled")) []).
    by rewrite app_nil_r in HΦ. }
  cbv zeta. cbn [bind do call wp]. split; [by apply identityCall_read|]. intros [e|secret].
  - destruct (IsNotFound e) eqn:Hnf; cbn [negb]; [|apply HΦ].
    destruct (SetControllerReference _ _) as [e'|m] eqn:Hm; [apply HΦ|]. cbn [bind do call wp]. split.
    + exists i. do 4 (split; [solve [auto with mz]|]). split; [done|]. exists bi, jwt, e, m.
      split_and!; [auto with mz|apply elem_of_app; by left|apply elem_of_app; right; by left|done..].
    + intros [?|?]; cbn [wp]; rewrite <-app_assoc; apply HΦ.
  - case_test; apply HΦ.
Qed.

Lemma reconcileEnrollment_wp bi h :
  started req i h → identityAnswer h i bi →
  wp (identityCall req) (reconcileEnrollment recorder i (identityFromResource i) bi) (λ _ _, True) h.
Proof.
  intros Hs Hbi. unfold reconcileEnrollment. cbv zeta.
  assert (∀ h' name, identityAnswer h' i bi →
    (name = "" ∨ CreateJWTSecret (Enrollment (IdentitySpec i)) = true) →
    recordsIdentity h' i (setIdentityStatus (IdentID bi) name i)) as Hrec.
  { intros h' name ? ?. split_and!; [done..|]. right. by exists bi. }
  cbn [identityFromResource DesiredCreateJWTSecret].
  destruct (CreateJWTSecret (Enrollment (IdentitySpec i))) eqn:Hjwt.
  - cbn [EnrollmentJWT bind ziti call wp]. split; [exists i; split_and!; try done; by exists bi|].
    intros [e|jwt]; [apply markIdentityFailed_wp; auto with mz|].
    apply wp_bind, ReconcileEnrollmentSecret_wp; [auto with mz..|apply elem_of_app; right; by left|].
    intros [e|name] t; [apply markIdentityFailed_wp|apply finishIdentity_wp]; auto with mz.
    apply (Hrec _ name); auto with mz.
  - apply finishIdentity_wp; auto.
Qed.

Lemma reconcileIdentity_wp h :
  started req i h →
  wp (identityCall req) (bind (reconcileIdentity i (identityFromResource i)) (λ r,
    match r with
    | inl err => markIdentityFailed recorder i err "IdentitySyncFailed" true
    | inr backendIdentity => deref backendIdentity (λ backendIdentity,
        reconcileEnrollment recorder i (identityFromResource i) backendIdentity)
    end)) (λ _ _, True) h.
Proof.
  intros Hs. apply wp_bind. unfold reconcileIdentity. case_bool_decide as Hid; cbn [negb].
  - cbn [identityFindByName bind ziti call wp]. split; [done|].
    set (found := Ziti (OpFindIdentityByName _)). intros [e|[existing|]].
    + apply markIdentityFailed_wp; auto with mz.
    + cbn [identityUpdate ziti call wp]. split.
      * exists i. split_and!; [auto with mz|done..|]. right. split; [done|]. exists existing.
        split; [apply elem_of_app; right; by left|done].
      * intros [e|[bi|]]; [apply markIdentityFailed_wp; auto with mz| |done].
        apply reconcileEnrollment_wp; [auto with mz|]. exists (IdentID existing). right.
        apply elem_of_app. right. by left.
    + cbn [identityCreate ziti call wp]. split.
      * exists i. split_and!; [auto with mz|done..|]. apply elem_of_app. right. by left.
      * intros [e|[bi|]]; [apply markIdentityFailed_wp; auto with mz| |done].
        apply reconcileEnrollment_wp; [auto with mz|]. exists "". left. apply elem_of_app. right. by left.
  - cbn [identityUpdate ziti call wp]. split.
    + exists i. split_and!; [done..|]. by left.
    + intros [e|[bi|]]; [apply markIdentityFailed_wp; auto with mz| |done].
      apply reconcileEnrollment_wp; [auto with mz|]. eexists. right. apply elem_of_app. right. by left.
Qed.

End Safety.

(** ** Properties *)

Section Properties.
Context `{OwnerRefs} `{MetaConditions} (recorder : bool).

(** What [Reconcile] does with a live, guarded identity. *)
Definition identityBody (i : obj KIdentity) : action outcome :=
  match validateIdentitySpec i with
  | Some err => markIdentityFailed recorder i err "SpecValidationFailed" false
  | None =>
      bind (reconcileIdentity i (identityFromResource i)) (λ r,
        match r with
        | inl err => markIdentityFailed recorder i err "IdentitySyncFailed" true
        | inr backendIdentity => deref backendIdentity (λ backendIdentity,
            reconcileEnrollment recorder i (identityFromResource i) backendIdentity)
        end)
  end.

(** [Reconcile] is an instance of [lifecycle]. *)
Lemma identity_lifecycle req :
  reconcileZitiIdentity recorder req =
  lifecycle zitiIdentityFinalizer (identityReconcileDelete recorder) identityBody req.
Proof. reflexivity. Qed.

(** C26. Every call of the identity reconciler, wherever a run is cut off.  All
    writes are about the resource of the request, which carries the finalizer.
    While it is alive and valid, the identity that is written has the name,
    type and attributes of the spec and is the one of the status, or else the
    one found by name, or new.  An enrollment is asked for only when the spec
    wants it and for the identity that was just written; its token goes into a
    Secret that did not exist, has the name of the spec and is controlled by
    the resource: a Secret that exists is never overwritten.  Once the resource
    is being deleted, a Secret is deleted only when the status records its name
    and the resource controls it, then the identity of the status is deleted,
    and the finalizer is removed when both are gone.  An ID written to the
    status is the recorded or the answered one. *)
Theorem identity_calls (req : NamespacedName) (t : trace) (e : event op resp) :
  reaches (reconcileZitiIdentity recorder req) (t ++ [e]) → identityCall req t (ev_op e).
Proof.
  apply (wp_reaches _ _ (λ _ _, True) []). rewrite identity_lifecycle. apply lifecycle_wp.
  - intros. by apply identityCall_read.
  - intros i o [Hadd|(? & ? & [])]. exists i. split; [done|]. by left.
  - intros i Hi. by apply (identityReconcileDelete_wp recorder req i).
  - intros i Hi. unfold identityBody. destruct (validateIdentitySpec i) eqn:Hv.
    + apply (markIdentityFailed_wp recorder req i); [done|apply recordsIdentity_refl].
    + by apply (reconcileIdentity_wp recorder req i).
Qed.

(** C27. [validateIdentitySpec] accepts exactly the specs with a name, without
    repeated role attributes, and with a Secret name when a token is wanted; the
    loop over the set of attributes met so far decides the second. *)
Theorem validateIdentitySpec_correct (i : ZitiIdentity) :
  validateIdentitySpec i = None ↔
  IdentitySpecName (IdentitySpec i) ≠ "" ∧ NoDup (IdentitySpecRoleAttributes (IdentitySpec i)) ∧
  (CreateJWTSecret (Enrollment (IdentitySpec i)) = true →
   SpecJWTSecretName (Enrollment (IdentitySpec i)) ≠ "").
Proof.
  unfold validateIdentitySpec. case_bool_decide as Hname; [naive_solver|].
  destruct (repeats _ _) eqn:Hr.
  - split; [done|]. intros (_ & Hnd & _).
    assert (repeats (IdentitySpecRoleAttributes (IdentitySpec i)) ∅ = false)
      by (apply repeats_spec; split; [done|intros; apply lookup_empty]). congruence.
  - apply repeats_spec in Hr as [Hnd _]. case_test; reflect_bools; intuition congruence.
Qed.

End Properties.

(** ** A concrete environment

    A new identity with an enrollment; control is decided by the UID. *)
Definition exOwnerRefs : OwnerRefs :=
  {| IsControlledBy o owner :=
       existsb (λ ref, OwnerIsController ref && bool_decide (OwnerUID ref = UID owner)) (OwnerReferences o);
     SetControllerReference owner m := inr
       {| MetaNamespace := MetaNamespace m; MetaName := MetaName m; UID := UID m;
          ResourceVersion := ResourceVersion m; Generation := Generation m;
          MetaCreationTimestamp := MetaCreationTimestamp m; DeletionTimestamp := DeletionTimestamp m;
          Finalizers := Finalizers m;
          OwnerReferences := [{| OwnerUID := UID owner; OwnerIsController := true |}] |} |}.

Definition exEnrolled : obj KIdentity :=
  {| IdentityMeta := SetFinalizers [zitiIdentityFinalizer] (exMeta "ann");
     IdentitySpec := {| IdentitySpecName := "ann"; IdentitySpecType := "User";
       IdentitySpecRoleAttributes := ["ops"];
       Enrollment := {| CreateJWTSecret := true; SpecJWTSecretName := "ann-jwt" |} |};
     IdentityStatus := {| IdentityCommon := setStatusID "" exCommon; StatusJWTSecretName := "" |} |}.

Definition exIdentityWorld (o : op) : resp o :=
  match o with
  | Get _ KIdentity _ => inr exEnrolled
  | Ziti (OpCreateIdentity sent) =>
      inr (Some (toClientIdentity "id-7" (identityFromResource exEnrolled)))
  | Ziti (OpGetEnrollmentJWT _) => inr "token"
  | o => quiet o
  end.

Definition exIdentityReq : NamespacedName := {| KeyNamespace := "ziti"; KeyName := "ann" |}.
Definition exIdentityRun : action outcome :=
  @reconcileZitiIdentity exOwnerRefs upsertConditions true exIdentityReq.

Definition exTokenSecret : obj KSecret :=
  enrollmentSecret
    {| MetaNamespace := "ziti"; MetaName := "ann-jwt"; UID := ""; ResourceVersion := ""; Generation := 0;
       MetaCreationTimestamp := 0; DeletionTimestamp := None; Finalizers := [];
       OwnerReferences := [{| OwnerUID := "uid-ann"; OwnerIsController := true |}] |} "token".

(** The sixth call creates the Secret. *)
Lemma identity_calls_witness :
  traceIn exIdentityWorld exIdentityRun !! 5 =
    Some (ev (Create KSecret exTokenSecret) (inr exTokenSecret)) ∧
  @identityCall exOwnerRefs exIdentityReq (take 5 (traceIn exIdentityWorld exIdentityRun))
    (Create KSecret exTokenSecret).
Proof.
  assert (traceIn exIdentityWorld exIdentityRun !! 5 =
    Some (ev (Create KSecret exTokenSecret) (inr exTokenSecret))) as He by (vm_compute; reflexivity).
  split; [exact He|].
  assert (snd (execWith exIdentityWorld exIdentityRun) = Some (noResult, None)) as Hend
    by (vm_compute; reflexivity).
  exact (@identity_calls exOwnerRefs upsertConditions true exIdentityReq _ _
    (traceIn_reaches exIdentityWorld exIdentityRun _ 5 _ Hend He)).
Defined.

(** A run that cannot get the token drops the name of the Secret that an earlier
    run recorded, so the deletion of the resource does not delete it. *)
Definition exRecorded : obj KIdentity :=
  {| IdentityMeta := IdentityMeta exEnrolled; IdentitySpec := IdentitySpec exEnrolled;
     IdentityStatus := {| IdentityCommon := setStatusID "id-7" exCommon; StatusJWTSecretName := "ann-jwt" |} |}.

Definition exNoToken (o : op) : resp o :=
  match o with
  | Get _ KIdentity _ => inr exRecorded
  | Ziti (OpUpdateIdentity sent) => inr (Some sent)
  | Ziti (OpGetEnrollmentJWT _) => inl (CodedError 500 "internal")
  | o => quiet o
  end.

Example secret_name_forgotten :
  foldl (λ last e, match e with Ev (StatusUpdate KIdentity o) _ => Some o | _ => last end) None
    (traceIn exNoToken exIdentityRun) ≫= (λ o, Some (StatusJWTSecretName (IdentityStatus o))) = Some "".
Proof. vm_compute. reflexivity. Qed.
