(* ===== verification/Credentials.v ===== *)
(** * The management credentials

    [internal/credentials/config.go] and [runtime.go]: the Secret with the
    credentials of the OpenZiti controller. *)

From S2P Require Import Prelude GoSlices GoStrings Errors ApiTypes World.

#[local] Open Scope mz_scope.

Definition ControllerURLKey : string := "controllerUrl".
Definition UsernameKey : string := "username".
Definition PasswordKey : string := "password".
Definition CABundleKey : string := "caBundle".

Definition ManagementSecretNameEnv : string := "MINIZITI_MANAGEMENT_SECRET_NAME".
Definition ManagementSecretNamespaceEnv : string := "MINIZITI_MANAGEMENT_SECRET_NAMESPACE".

(** [SecretRef] *)
Record SecretRef := { RefNamespace : string; RefName : string }.

(** [(r SecretRef) NamespacedName] *)
Definition refNamespacedName (r : SecretRef) : NamespacedName :=
  {| KeyNamespace := RefNamespace r; KeyName := RefName r |}.

(** [ManagementConfig]; the bundle is a byte string. *)
Record ManagementConfig := {
  ControllerURL : string;
  Username : string;
  Password : string;
  CABundlePEM : string;
}.
#[export] Instance ManagementConfig_eq_dec : EqDecision ManagementConfig.
Proof. solve_decision. Defined.

(** The parsers of the standard library: the scheme and the host that
    [url.Parse] finds, and whether [AppendCertsFromPEM] finds a certificate. *)
Class CredentialParsers := {
  urlParse : string → result (string * string);
  appendCertsFromPEM : string → bool;
}.

Section Config.
Context `{UnicodeTables} `{CredentialParsers}.

(** [(c ManagementConfig) Validate] *)
Definition Validate (c : ManagementConfig) : option error :=
  if bool_decide (ControllerURL c = "") then Some (ErrorString ("missing " +:+ Quote ControllerURLKey))
  else
    match urlParse (ControllerURL c) with
    | inl err => Some (WrapError ("parse " +:+ Quote ControllerURLKey) err)
    | inr (scheme, host) =>
        if bool_decide (scheme = "") || bool_decide (host = "")
        then Some (ErrorString (Quote ControllerURLKey +:+ " must be an absolute URL"))
        else if bool_decide (Username c = "") then Some (ErrorString ("missing " +:+ Quote UsernameKey))
        else if bool_decide (Password c = "") then Some (ErrorString ("missing " +:+ Quote PasswordKey))
        else if negb (bool_decide (CABundlePEM c = "")) && negb (appendCertsFromPEM (CABundlePEM c))
        then Some (ErrorString (Quote CABundleKey +:+ " must contain valid PEM certificates"))
        else None
    end.

(** A missing key of [secret.Data] reads as the empty value. *)
Definition dataOf (secret : Secret) (key : string) : string := default "" (Data secret !! key).

(** [LoadManagementConfig] *)
Definition LoadManagementConfig (secret : option Secret) : result ManagementConfig :=
  match secret with
  | None => inl (ErrorString "management secret is required")
  | Some secret =>
      let cfg := {| ControllerURL := TrimSpace (dataOf secret ControllerURLKey);
                    Username := TrimSpace (dataOf secret UsernameKey);
                    Password := TrimSpace (dataOf secret PasswordKey);
                    CABundlePEM := dataOf secret CABundleKey |} in
      match Validate cfg with
      | Some err => inl (WrapError ("invalid management secret " +:+
          MetaNamespace (SecretMeta secret) +:+ "/" +:+ MetaName (SecretMeta secret)) err)
      | None => inr cfg
      end
  end.

(** [(l *SecretConfigLoader) Load] for the loader with [reader] and [ref]. *)
Definition Load (r : reader) (ref : SecretRef) : action (result ManagementConfig) :=
  let! answer := do (Get r KSecret (refNamespacedName ref)) in
  match answer with
  | inl err => Ret (inl (WrapError ("load management secret " +:+ RefNamespace ref +:+ "/" +:+
                                    RefName ref) err))
  | inr secret => Ret (LoadManagementConfig (Some secret))
  end.

(** ** Properties *)

(** C28. The credentials that are used.  [Load] succeeds exactly when the Secret
    was read and its trimmed URL is absolute, its trimmed user name and password
    are not empty and its bundle, unless empty, holds certificates; the
    configuration is exactly these values, so surrounding blanks of a mounted
    Secret never reach the controller. *)
Theorem Load_correct (r : reader) (ref : SecretRef) (t : trace) (answer : result ManagementConfig) :
  runs (Load r ref) t answer →
  ∃ read, t = [ev (Get r KSecret (refNamespacedName ref)) read] ∧
  ∀ cfg, answer = inr cfg ↔ ∃ secret scheme host, read = inr secret ∧
    cfg = {| ControllerURL := TrimSpace (dataOf secret ControllerURLKey);
             Username := TrimSpace (dataOf secret UsernameKey);
             Password := TrimSpace (dataOf secret PasswordKey);
             CABundlePEM := dataOf secret CABundleKey |} ∧
    urlParse (ControllerURL cfg) = inr (scheme, host) ∧ scheme ≠ "" ∧ host ≠ "" ∧
    ControllerURL cfg ≠ "" ∧ Username cfg ≠ "" ∧ Password cfg ≠ "" ∧
    (CABundlePEM cfg = "" ∨ appendCertsFromPEM (CABundlePEM cfg) = true).
Proof.
  unfold Load. cbn [bind do call runs]. intros (read & t' & -> & Hr). exists read.
  destruct read as [e|secret]; destruct Hr as [-> <-]; (split; [done|]); intros cfg; [naive_solver|].
  unfold LoadManagementConfig. set (c := {| ControllerURL := _ |}).
  assert (Validate c = None ↔ ∃ scheme host, urlParse (ControllerURL c) = inr (scheme, host) ∧
    scheme ≠ "" ∧ host ≠ "" ∧ ControllerURL c ≠ "" ∧ Username c ≠ "" ∧ Password c ≠ "" ∧
    (CABundlePEM c = "" ∨ appendCertsFromPEM (CABundlePEM c) = true)) as Hvalid.
  { unfold Validate. clearbody c. case_bool_decide; [naive_solver|].
    destruct (urlParse (ControllerURL c)) as [e|[scheme host]]; [naive_solver|].
    destruct (appendCertsFromPEM (CABundlePEM c)); repeat case_bool_decide; cbn;
      (split; [intros Hn; try discriminate Hn; exists scheme, host|intros (? & ? & [= <- <-] & ?)]);
      intuition congruence. }
  destruct (Validate c) as [e|] eqn:E.
  - split; [done|]. intros (s' & scheme & host & [= <-] & -> & Hrest). fold c in Hrest.
    exfalso. assert (Some e = None) by (apply Hvalid; exists scheme, host; exact Hrest). done.
  - destruct (proj1 Hvalid eq_refl) as (scheme & host & Hrest). split.
    + intros [= <-]. by exists secret, scheme, host.
    + by intros (s' & ? & ? & [= <-] & -> & _).
Qed.

End Config.

(** [SecretRefFromEnv]; [getenv] is [os.Getenv]. *)
Definition SecretRefFromEnv (getenv : string → string) : result SecretRef :=
  let name := TrimSpace (getenv ManagementSecretNameEnv) in
  if bool_decide (name = "") then inl (ErrorString (ManagementSecretNameEnv +:+ " must not be empty"))
  else
    let namespace := TrimSpace (getenv ManagementSecretNamespaceEnv) in
    if bool_decide (namespace = "")
    then inl (ErrorString (ManagementSecretNamespaceEnv +:+ " must not be empty"))
    else inr {| RefNamespace := namespace; RefName := name |}.

(** The parsers on the concrete inputs: a URL with a scheme and a host. *)
Definition exParsers : CredentialParsers :=
  {| urlParse s := inr (if bool_decide (s = "https://ziti:1280") then ("https", "ziti:1280") else ("", ""));
     appendCertsFromPEM s := bool_decide (s = "PEM") |}.

Definition exManagement : obj KSecret :=
  {| SecretMeta :=
       {| MetaNamespace := "ziti"; MetaName := "admin"; UID := ""; ResourceVersion := ""; Generation := 0;
          MetaCreationTimestamp := 0; DeletionTimestamp := None; Finalizers := []; OwnerReferences := [] |};
     SecretType := "Opaque";
     Data := {[ ControllerURLKey := " https://ziti:1280"; UsernameKey := "admin "; PasswordKey := "pw" ]};
     StringData := ∅ |}.

Definition exManagementConfig : ManagementConfig :=
  {| ControllerURL := "https://ziti:1280"; Username := "admin"; Password := "pw"; CABundlePEM := "" |}.

Definition exManagementRead : event op resp :=
  ev (Get Cached KSecret {| KeyNamespace := "ziti"; KeyName := "admin" |}) (inr exManagement).

Lemma Load_correct_witness :
  let load := @Load asciiTables exParsers Cached {| RefNamespace := "ziti"; RefName := "admin" |} in
  runs load [exManagementRead] (inr exManagementConfig) ∧
  ∃ read, [exManagementRead] = [ev (Get Cached KSecret {| KeyNamespace := "ziti"; KeyName := "admin" |}) read].
Proof.
  intros load. assert (runs load [exManagementRead] (inr exManagementConfig)) as Hruns.
  { exists (inr exManagement), []. split; [reflexivity|]. split; [reflexivity|vm_compute; reflexivity]. }
  split; [exact Hruns|].
  destruct (@Load_correct asciiTables exParsers Cached {| RefNamespace := "ziti"; RefName := "admin" |}
    [exManagementRead] (inr exManagementConfig) Hruns) as (read & E & _).
  exists read. exact E.
Defined.
