(* ===== verification/RestModel.v ===== *)
(** * The REST model of the management API

    The structs of the generated package [rest_model] that the client reads and
    writes, with the fields it uses ([option] where the field is a pointer), and
    the conversions of [internal/openziti/client]: [*FromEnvelope], [to*Create],
    [to*Update]. *)

From S2P Require Import Prelude GoSlices GoStrings Errors ZitiTypes.

(** ** Details, as the API answers them *)

Record IdentityDetail := {
  RestIdentID : option string;
  RestIdentName : option string;
  RestIdentType : option string;
  RestIdentRoleAttributes : option strs;
  RestIdentExternalID : option string;
}.

Record ServiceDetail := {
  RestServiceID : option string;
  RestServiceName : option string;
  RestServiceRoleAttributes : option strs;
  RestServiceConfigs : strs;
}.

(** [Data] is [None] unless it is an object. *)
Record ConfigDetail := {
  RestConfigID : option string;
  RestConfigName : option string;
  RestConfigTypeName : option string;
  RestConfigData : option (gmap string payloadValue);
}.

Record ServicePolicyDetail := {
  RestPolicyID : option string;
  RestPolicyName : option string;
  RestPolicyType : option string;
  RestPolicySemantic : option string;
  RestPolicyIdentityRoles : strs;
  RestPolicyServiceRoles : strs;
}.

Record ServiceEdgeRouterPolicyDetail := {
  RestSerpID : option string;
  RestSerpName : option string;
  RestSerpSemantic : option string;
  RestSerpEdgeRouterRoles : strs;
  RestSerpServiceRoles : strs;
}.

Record EdgeRouterDetail := { RestRouterID : option string; RestRouterName : option string }.
Record ConfigTypeDetail := { RestConfigTypeID : option string; RestConfigTypeDetailName : option string }.
Record EnrollmentDetail := { RestEnrollmentMethod : option string; RestEnrollmentJWT : string }.

(** An envelope around one detail: a pointer to a struct with a pointer. *)
Abbreviation envelope A := (option (option A)).

(** A list envelope: [Data] may be nil, and so may its items. *)
Abbreviation listing A := (option (option (list (option A)))).

(** The ID of a created object. *)
Abbreviation CreateEnvelope := (envelope string).

(** ** Bodies, as the client sends them *)

Record IdentityCreate := {
  NewIdentityName : string;
  NewIdentityType : string;
  NewIdentityIsAdmin : bool;
  NewIdentityRoleAttributes : strs;
  NewIdentityOtt : bool;
}.

Record IdentityUpdate := {
  UpdIdentityName : string;
  UpdIdentityType : string;
  UpdIdentityIsAdmin : bool;
  UpdIdentityRoleAttributes : strs;
}.

Record ServiceCreate := {
  NewServiceName : string;
  NewServiceEncryptionRequired : bool;
  NewServiceRoleAttributes : strs;
  NewServiceConfigs : strs;
}.

Record ServiceUpdate := {
  UpdServiceName : string;
  UpdServiceRoleAttributes : strs;
  UpdServiceConfigs : strs;
}.

Record ConfigCreate := {
  NewConfigName : string;
  NewConfigTypeID : string;
  NewConfigData : gmap string payloadValue;
}.

Record ConfigUpdate := { UpdConfigName : string; UpdConfigData : gmap string payloadValue }.

(** [ServicePolicyCreate] and [ServicePolicyUpdate] have the same fields, and so
    have the two bodies of a service edge router policy. *)
Record ServicePolicyBody := {
  BodyPolicyName : string;
  BodyPolicyType : string;
  BodyPolicySemantic : string;
  BodyPolicyIdentityRoles : strs;
  BodyPolicyServiceRoles : strs;
  BodyPolicyPostureCheckRoles : strs;
}.

Record SerpBody := {
  BodySerpName : string;
  BodySerpSemantic : string;
  BodySerpEdgeRouterRoles : strs;
  BodySerpServiceRoles : strs;
}.

Record EnrollmentCreate := {
  NewEnrollmentIdentityID : string;
  NewEnrollmentMethod : string;
  NewEnrollmentExpiresAt : Z;
}.

(** ** From the API *)

(** [identityFromEnvelope] *)
Definition identityFromEnvelope (e : envelope IdentityDetail) : result Identity :=
  match e with
  | Some (Some detail) =>
      match RestIdentID detail, RestIdentName detail, RestIdentType detail with
      | Some id, Some name, Some type =>
          if bool_decide (TrimSpace id = "") || bool_decide (TrimSpace name = "") ||
             bool_decide (TrimSpace type = "")
          then inl (ErrorString "identity detail response has missing required fields")
          else inr {| IdentID := id; IdentName := name; IdentType := type;
                      IdentRoleAttributes := default [] (RestIdentRoleAttributes detail);
                      IdentCreateOTT := false;
                      IdentExternalID := default "" (RestIdentExternalID detail) |}
      | _, _, _ => inl (ErrorString "identity detail response has missing required fields")
      end
  | _ => inl (ErrorString "identity detail response has no data")
  end.

(** [serviceFromEnvelope] *)
Definition serviceFromEnvelope (e : envelope ServiceDetail) : option Service :=
  match e with
  | Some (Some detail) =>
      match RestServiceID detail, RestServiceName detail with
      | Some id, Some name =>
          Some {| ServiceID := id; ServiceName := name;
                  ServiceRoleAttributes := default [] (RestServiceRoleAttributes detail);
                  ServiceConfigIDs := RestServiceConfigs detail |}
      | _, _ => None
      end
  | _ => None
  end.

(** [configFromEnvelope] *)
Definition configFromEnvelope (e : envelope ConfigDetail) : option ServiceConfig :=
  match e with
  | Some (Some detail) =>
      match RestConfigID detail, RestConfigName detail, RestConfigTypeName detail with
      | Some id, Some name, Some type =>
          if bool_decide (TrimSpace type = "") then None
          else Some {| ConfigID := id; ConfigName := name; ConfigType := type;
                       ConfigPayload := default ∅ (RestConfigData detail) |}
      | _, _, _ => None
      end
  | _ => None
  end.

(** [accessPolicyFromEnvelope] *)
Definition accessPolicyFromEnvelope (e : envelope ServicePolicyDetail) : option AccessPolicy :=
  match e with
  | Some (Some detail) =>
      match RestPolicyID detail, RestPolicyName detail, RestPolicyType detail,
            RestPolicySemantic detail with
      | Some id, Some name, Some type, Some semantic =>
          Some {| PolicyID := id; PolicyName := name; PolicyType := type;
                  PolicyIdentityRoles := RestPolicyIdentityRoles detail;
                  PolicyServiceRoles := RestPolicyServiceRoles detail;
                  PolicyIdentityRolesRaw := RestPolicyIdentityRoles detail;
                  PolicyServiceRolesRaw := RestPolicyServiceRoles detail;
                  PolicySemantic := semantic |}
      | _, _, _, _ => None
      end
  | _ => None
  end.

(** [serviceEdgeRouterPolicyFromDetail] *)
Definition serviceEdgeRouterPolicyFromDetail (d : option ServiceEdgeRouterPolicyDetail)
    : option ServiceEdgeRouterPolicy :=
  match d with
  | Some detail =>
      match RestSerpID detail, RestSerpName detail, RestSerpSemantic detail with
      | Some id, Some name, Some semantic =>
          Some {| SerpID := TrimSpace id; SerpName := TrimSpace name;
                  SerpEdgeRouterRoles := RestSerpEdgeRouterRoles detail;
                  SerpServiceRoles := RestSerpServiceRoles detail; SerpSemantic := semantic |}
      | _, _, _ => None
      end
  | None => None
  end.

(** [serviceEdgeRouterPolicyFromEnvelope] *)
Definition serviceEdgeRouterPolicyFromEnvelope (e : envelope ServiceEdgeRouterPolicyDetail)
    : option ServiceEdgeRouterPolicy :=
  match e with Some data => serviceEdgeRouterPolicyFromDetail data | None => None end.

(** [edgeRouterFromDetail] *)
Definition edgeRouterFromDetail (d : option EdgeRouterDetail) : option EdgeRouter :=
  match d with
  | Some detail =>
      match RestRouterID detail, RestRouterName detail with
      | Some id, Some name =>
          if bool_decide (TrimSpace name = "") then None
          else Some {| EdgeRouterID := TrimSpace id; EdgeRouterName := TrimSpace name |}
      | _, _ => None
      end
  | None => None
  end.

(** [extractCreatedID] *)
Definition extractCreatedID (e : CreateEnvelope) : result string :=
  match e with
  | Some (Some id) =>
      if bool_decide (TrimSpace id = "")
      then inl (ErrorString "create response did not include an object id")
      else inr (TrimSpace id)
  | _ => inl (ErrorString "create response did not include an object id")
  end.

Definition EnrollmentCreateMethodOtt : string := "ott".

(** [enrollmentJWTFromList] *)
Definition enrollmentJWTFromList `{UnicodeTables} (e : option (list (option EnrollmentDetail))) : string :=
  match e with
  | None => ""
  | Some items =>
      default "" (head (omap (λ item,
        match item with
        | Some {| RestEnrollmentMethod := Some method; RestEnrollmentJWT := jwt |} =>
            if EqualFold (TrimSpace method) EnrollmentCreateMethodOtt &&
               negb (bool_decide (TrimSpace jwt = ""))
            then Some (TrimSpace jwt) else None
        | _ => None
        end) items))
  end.

(** ** To the API *)

(** [toIdentityCreate] and [toIdentityUpdate] *)
Definition toIdentityCreate (i : Identity) : IdentityCreate :=
  {| NewIdentityName := IdentName i; NewIdentityType := IdentType i; NewIdentityIsAdmin := false;
     NewIdentityRoleAttributes := IdentRoleAttributes i; NewIdentityOtt := IdentCreateOTT i |}.
Definition toIdentityUpdate (i : Identity) : IdentityUpdate :=
  {| UpdIdentityName := IdentName i; UpdIdentityType := IdentType i; UpdIdentityIsAdmin := false;
     UpdIdentityRoleAttributes := IdentRoleAttributes i |}.

(** [toServiceCreate] and [toServiceUpdate] *)
Definition toServiceCreate (s : Service) : ServiceCreate :=
  {| NewServiceName := ServiceName s; NewServiceEncryptionRequired := true;
     NewServiceRoleAttributes := ServiceRoleAttributes s; NewServiceConfigs := ServiceConfigIDs s |}.
Definition toServiceUpdate (s : Service) : ServiceUpdate :=
  {| UpdServiceName := ServiceName s; UpdServiceRoleAttributes := ServiceRoleAttributes s;
     UpdServiceConfigs := ServiceConfigIDs s |}.

(** [clonePayload]: the copy of each value by its type. *)
Definition clonePayload (payload : gmap string payloadValue) : gmap string payloadValue :=
  (λ value, match value with
            | PStrings l => PStrings ([] ++ l)
            | PPortRanges items => PPortRanges (foldl (λ acc item, acc ++ [item]) [] items)
            | v => v
            end) <$> payload.

(** [toConfigCreate] and [toConfigUpdate] *)
Definition toConfigCreate (c : ServiceConfig) (configTypeID : string) : ConfigCreate :=
  {| NewConfigName := ConfigName c; NewConfigTypeID := configTypeID;
     NewConfigData := clonePayload (ConfigPayload c) |}.
Definition toConfigUpdate (c : ServiceConfig) : ConfigUpdate :=
  {| UpdConfigName := ConfigName c; UpdConfigData := clonePayload (ConfigPayload c) |}.

(** [toAccessPolicyCreate] and [toAccessPolicyUpdate]: the raw roles are sent. *)
Definition toAccessPolicyCreate (p : AccessPolicy) : ServicePolicyBody :=
  {| BodyPolicyName := PolicyName p; BodyPolicyType := PolicyType p;
     BodyPolicySemantic := PolicySemantic p; BodyPolicyIdentityRoles := PolicyIdentityRolesRaw p;
     BodyPolicyServiceRoles := PolicyServiceRolesRaw p; BodyPolicyPostureCheckRoles := [] |}.
Definition toAccessPolicyUpdate (p : AccessPolicy) : ServicePolicyBody :=
  {| BodyPolicyName := PolicyName p; BodyPolicyType := PolicyType p;
     BodyPolicySemantic := PolicySemantic p; BodyPolicyIdentityRoles := PolicyIdentityRolesRaw p;
     BodyPolicyServiceRoles := PolicyServiceRolesRaw p; BodyPolicyPostureCheckRoles := [] |}.

(** [toServiceEdgeRouterPolicyCreate] and [toServiceEdgeRouterPolicyUpdate] *)
Definition toServiceEdgeRouterPolicyCreate (p : ServiceEdgeRouterPolicy) : SerpBody :=
  {| BodySerpName := SerpName p; BodySerpSemantic := SerpSemantic p;
     BodySerpEdgeRouterRoles := SerpEdgeRouterRoles p; BodySerpServiceRoles := SerpServiceRoles p |}.
Definition toServiceEdgeRouterPolicyUpdate (p : ServiceEdgeRouterPolicy) : SerpBody :=
  {| BodySerpName := SerpName p; BodySerpSemantic := SerpSemantic p;
     BodySerpEdgeRouterRoles := SerpEdgeRouterRoles p; BodySerpServiceRoles := SerpServiceRoles p |}.

(** ** Lemmas *)

(** The copy of a payload has the same values. *)
Lemma clonePayload_id payload : clonePayload payload = payload.
Proof.
  unfold clonePayload. apply map_eq. intros key. rewrite lookup_fmap.
  destruct (payload !! key) as [[l|items|s|n|j]|]; cbn; try done. do 2 f_equal.
  assert (∀ l, foldl (λ acc item, acc ++ [item]) l items = l ++ items) as H; [|apply H].
  induction items as [|item items IH]; intros l; cbn; [by rewrite app_nil_r|].
  by rewrite IH, <-app_assoc.
Qed.
