(* ===== verification/ZitiClient.v ===== *)
(** * The management client

    [internal/openziti/client]: [ManagementClient], which keeps one session per
    set of credentials, authenticates again when the controller refuses it, and
    implements the [Client] interface over the REST calls of the generated
    client.  The fields of the client are shared by all reconcilers and
    accessed in critical sections; each section is one call here, so the answer
    of a section is whatever the other goroutines left. *)

From S2P Require Import Prelude GoSlices GoStrings Errors ZitiTypes Credentials RestModel.
From S2P Require Import Effects.

#[local] Open Scope mz_scope.

(** A pointer to a generated client: a session of the controller. *)
Abbreviation session := nat.

(** ** The calls *)

(** The REST calls. *)
Inductive restOp :=
  | RDetailIdentity (id : string)
  | RListIdentities (limit offset : Z)
  | RCreateIdentity (body : IdentityCreate)
  | RUpdateIdentity (id : string) (body : IdentityUpdate)
  | RPatchIdentity (id : string) (roleAttributes : strs)
  | RDeleteIdentity (id : string)
  | RGetIdentityEnrollments (id : string)
  | RCreateEnrollment (body : EnrollmentCreate)
  | RDetailEnrollment (id : string)
  | RDetailService (id : string)
  | RListServices
  | RCreateService (body : ServiceCreate)
  | RUpdateService (id : string) (body : ServiceUpdate)
  | RDeleteService (id : string)
  | RDetailConfig (id : string)
  | RCreateConfig (body : ConfigCreate)
  | RUpdateConfig (id : string) (body : ConfigUpdate)
  | RDeleteConfig (id : string)
  | RListConfigTypes (limit offset : Z)
  | RListEdgeRouters (limit offset : Z)
  | RDetailServicePolicy (id : string)
  | RListServicePolicies (limit offset : Z)
  | RCreateServicePolicy (body : ServicePolicyBody)
  | RUpdateServicePolicy (id : string) (body : ServicePolicyBody)
  | RDeleteServicePolicy (id : string)
  | RDetailSerp (id : string)
  | RListSerps (limit offset : Z)
  | RCreateSerp (body : SerpBody)
  | RUpdateSerp (id : string) (body : SerpBody)
  | RDeleteSerp (id : string).

Definition restResp (o : restOp) : Type :=
  match o with
  | RDetailIdentity _ => result (envelope IdentityDetail)
  | RListIdentities _ _ => result (listing IdentityDetail)
  | RGetIdentityEnrollments _ => result (option (list (option EnrollmentDetail)))
  | RDetailEnrollment _ => result (envelope EnrollmentDetail)
  | RDetailService _ => result (envelope ServiceDetail)
  | RListServices => result (listing ServiceDetail)
  | RDetailConfig _ => result (envelope ConfigDetail)
  | RListConfigTypes _ _ => result (listing ConfigTypeDetail)
  | RListEdgeRouters _ _ => result (listing EdgeRouterDetail)
  | RDetailServicePolicy _ => result (envelope ServicePolicyDetail)
  | RListServicePolicies _ _ => result (listing ServicePolicyDetail)
  | RDetailSerp _ => result (envelope ServiceEdgeRouterPolicyDetail)
  | RListSerps _ _ => result (listing ServiceEdgeRouterPolicyDetail)
  | RCreateIdentity _ | RCreateEnrollment _ | RCreateService _ | RCreateConfig _
  | RCreateServicePolicy _ | RCreateSerp _ => result CreateEnvelope
  | RUpdateIdentity _ _ | RPatchIdentity _ _ | RDeleteIdentity _ | RUpdateService _ _
  | RDeleteService _ | RUpdateConfig _ _ | RDeleteConfig _ | RUpdateServicePolicy _ _
  | RDeleteServicePolicy _ | RUpdateSerp _ _ | RDeleteSerp _ => result unit
  end.

(** The calls of the client: the loader of the credentials, the three critical
    sections, the login, a REST call in a session, and the clock. *)
Inductive clientOp :=
  | LoadConfig
  | LockedRead
  | LockedStore (api : session) (cfg : ManagementConfig)
  | LockedInvalidate
  | Login (cfg : ManagementConfig)
  | Rest (api : session) (o : restOp)
  | Clock.

Definition clientResp (o : clientOp) : Type :=
  match o with
  | LoadConfig => result ManagementConfig
  | LockedRead => option session * ManagementConfig
  | LockedStore _ _ | LockedInvalidate => unit
  | Login _ => result session
  | Rest _ o => restResp o
  | Clock => Z
  end.

Abbreviation client A := (prog clientOp clientResp A).
Abbreviation ctrace := (list (event clientOp clientResp)).
Abbreviation cev o r := (@Ev clientOp clientResp o r).

Definition perform (o : clientOp) : client (clientResp o) := call o.
Definition rest (api : session) (o : restOp) : client (restResp o) := call (Rest api o : clientOp).

(** [wrapAPICallError] *)
Definition wrapAPICallError (action : string) (err : error) : error := WrapError action err.

(** [shouldReauthenticate] *)
Definition shouldReauthenticate (err : error) : bool := isStatusCode err 401 || isStatusCode err 403.

(** [sameManagementConfig] *)
Definition sameManagementConfig (left right : ManagementConfig) : bool :=
  bool_decide (ControllerURL left = ControllerURL right) &&
  bool_decide (Username left = Username right) &&
  bool_decide (Password left = Password right) &&
  bool_decide (CABundlePEM left = CABundlePEM right).

(** ** Sessions *)

Section Client.
Context `{UnicodeTables} `{CredentialParsers}.

(** [rootCAsFromConfig]: the error, if any; the pool is part of [Login]. *)
Definition rootCAsFromConfig (cfg : ManagementConfig) : option error :=
  if bool_decide (CABundlePEM cfg = "") then None
  else if negb (appendCertsFromPEM (CABundlePEM cfg))
  then Some (ErrorString ("invalid " +:+ Quote CABundleKey +:+ " in management credentials"))
  else None.

(** [authenticateWithUPDB] *)
Definition authenticateWithUPDB (cfg : ManagementConfig) : client (result session) :=
  match rootCAsFromConfig cfg with
  | Some err => Ret (inl err)
  | None =>
      let! r := perform (Login cfg) in
      match r with
      | inl err => Ret (inl (WrapError ("authenticate to " +:+ ControllerURL cfg) err))
      | inr api => Ret (inr api)
      end
  end.

(** [loadConfig] of the client may be nil. *)
Context (loadConfig : bool).

(** [loadCurrentConfig] *)
Definition loadCurrentConfig : client (result ManagementConfig) :=
  if negb loadConfig then
    let! (_, cachedConfig) := perform LockedRead in
    if bool_decide (ControllerURL cachedConfig = "")
    then Ret (inl (ErrorString "openziti credentials loader is not configured"))
    else Ret (inr cachedConfig)
  else perform LoadConfig.

(** [getOrAuthenticate] *)
Definition getOrAuthenticate (load : client (result ManagementConfig)) (force : bool)
    : client (result session) :=
  let! r := load in
  match r with
  | inl err => Ret (inl err)
  | inr cfg =>
      let! (cachedClient, cachedConfig) := perform LockedRead in
      match (if negb force && sameManagementConfig cachedConfig cfg then cachedClient else None) with
      | Some api => Ret (inr api)
      | None =>
          let! r := authenticateWithUPDB cfg in
          match r with
          | inl err => Ret (inl err)
          | inr api =>
              let! _ := perform (LockedStore api cfg) in
              Ret (inr api)
          end
      end
  end.

(** [useAuthenticatedClient] *)
Definition useAuthenticatedClient {A} (load : client (result ManagementConfig))
    (fn : session → client (result A)) : client (result A) :=
  let! r := getOrAuthenticate load false in
  match r with
  | inl err => Ret (inl err)
  | inr api =>
      let! result := fn api in
      match result with
      | inr a => Ret (inr a)
      | inl err =>
          if negb (shouldReauthenticate err) then Ret (inl err)
          else
            let! _ := perform LockedInvalidate in
            let! r := getOrAuthenticate load true in
            match r with
            | inl authErr => Ret (inl authErr)
            | inr api => fn api
            end
      end
  end.

(** [(c *ManagementClient) Authenticate] *)
Definition Authenticate (cfg : ManagementConfig) : client (result unit) :=
  useAuthenticatedClient (Ret (inr cfg)) (λ _, Ret (inr tt)).

(** ** What the methods share *)

(** The function of a [Get*] method: a missing object is nil. *)
Definition getOrNil {D A} (action : string) (detail : session → client (result D))
    (from : D → result (option A)) (api : session) : client (result (option A)) :=
  let! r := detail api in
  match r with
  | inl err => if isStatusCode err 404 then Ret (inr None) else Ret (inl (wrapAPICallError action err))
  | inr payload => Ret (from payload)
  end.

(** The functions [get*ByIDWithAPI]. *)
Definition readBack {D A} (action : string) (detail : session → string → client (result D))
    (from : D → result (option A)) (api : session) (created : CreateEnvelope)
    : client (result (option A)) :=
  match extractCreatedID created with
  | inl err => Ret (inl err)
  | inr id =>
      let! r := detail api id in
      match r with
      | inl err => Ret (inl (wrapAPICallError action err))
      | inr payload => Ret (from payload)
      end
  end.

(** A creation that reads the object back. *)
Definition createAndRead {A} (action : string) (create : session → client (result CreateEnvelope))
    (back : session → CreateEnvelope → client (result A)) (api : session) : client (result A) :=
  let! r := create api in
  match r with
  | inl err => Ret (inl (wrapAPICallError action err))
  | inr payload => back api payload
  end.

(** An update that reads the object with the ID back; the error of a missing
    object is not wrapped. *)
Definition updateAndRead {A} (action id : string) (update : session → client (result unit))
    (back : session → CreateEnvelope → client (result A)) (api : session) : client (result A) :=
  let! r := update api in
  match r with
  | inl err => if isStatusCode err 404 then Ret (inl err) else Ret (inl (wrapAPICallError action err))
  | inr _ => back api (Some (Some id))
  end.

(** What the [Update*] methods do with their result. *)
Definition createIfMissing {A} (updated : client (result A)) (create : client (result A))
    : client (result A) :=
  let! r := updated in
  match r with
  | inl err => if isStatusCode err 404 then create else Ret (inl err)
  | inr a => Ret (inr a)
  end.

(** The function of a [Delete*] method: a missing object is deleted. *)
Definition deleteOrMissing (action : string) (delete : session → client (result unit)) (api : session)
    : client (result unit) :=
  let! r := delete api in
  match r with
  | inl err => if isStatusCode err 404 then Ret (inr tt) else Ret (inl (wrapAPICallError action err))
  | inr _ => Ret (inr tt)
  end.

(** The limit of the pages. *)
Definition pageLimit : Z := 100.

(** The loop of the [Find*ByName] methods that read pages.  It runs while the
    pages are full: [fuel] bounds their number. *)
Fixpoint findPaged {D A} (action : string) (list : Z → Z → client (result (listing D)))
    (from : option D → option A) (hit : A → bool) (fuel : nat) (offset : Z)
    : client (result (option A)) :=
  match fuel with
  | O => Fault OutOfFuel
  | S fuel =>
      let! r := list pageLimit offset in
      match r with
      | inl err => Ret (inl (wrapAPICallError action err))
      | inr None => Ret (inr None)
      | inr (Some data) =>
          let items := default [] data in
          match head (List.filter hit (omap from items)) with
          | Some a => Ret (inr (Some a))
          | None =>
              let count := Z.of_nat (length items) in
              if (count =? 0)%Z || (count <? pageLimit)%Z then Ret (inr None)
              else findPaged action list from hit fuel (offset + count)
          end
      end
  end.

(** [use] with the credentials of the client. *)
Definition use {A} (fn : session → client (result A)) : client (result A) :=
  useAuthenticatedClient loadCurrentConfig fn.

(** An object that is never nil. *)
Definition present {A} (r : result A) : result (option A) :=
  match r with inl err => inl err | inr a => inr (Some a) end.

(** The number of pages that are read at most. *)
Context (pages : nat).

(** ** Identities *)

Definition identityDetail (e : envelope IdentityDetail) : result (option Identity) :=
  present (identityFromEnvelope e).

(** [GetIdentity] *)
Definition GetIdentity (id : string) : client (result (option Identity)) :=
  use (getOrNil "get identity" (λ api, rest api (RDetailIdentity id)) identityDetail).

(** The items of a page of [ListIdentities], or the first error. *)
Fixpoint pageIdentities (items : list (option IdentityDetail)) : result (list Identity) :=
  match items with
  | [] => inr []
  | item :: items =>
      match identityFromEnvelope (Some item) with
      | inl err => inl (WrapError "list identities" err)
      | inr i =>
          match pageIdentities items with
          | inl err => inl err
          | inr l => inr (i :: l)
          end
      end
  end.

(** The loop of [ListIdentities]. *)
Fixpoint listIdentities (api : session) (fuel : nat) (offset : Z) (identities : list Identity)
    : client (result (list Identity)) :=
  match fuel with
  | O => Fault OutOfFuel
  | S fuel =>
      let! r := rest api (RListIdentities pageLimit offset) in
      match r with
      | inl err => Ret (inl (wrapAPICallError "list identities" err))
      | inr (Some (Some data)) =>
          match pageIdentities data with
          | inl err => Ret (inl err)
          | inr page =>
              let identities := identities ++ page in
              let count := Z.of_nat (length data) in
              if (count =? 0)%Z || (count <? pageLimit)%Z then Ret (inr identities)
              else listIdentities api fuel (offset + count) identities
          end
      | inr _ => Ret (inl (ErrorString "identity list response has no data"))
      end
  end.

(** [ListIdentities] *)
Definition ListIdentities : client (result (list Identity)) :=
  use (λ api, listIdentities api pages 0 []).

(** [FindIdentityByName] *)
Definition FindIdentityByName (name : string) : client (result (option Identity)) :=
  let! r := ListIdentities in
  match r with
  | inl err => Ret (inl err)
  | inr identities =>
      Ret (inr (head (List.filter (λ i, bool_decide (IdentName i = name)) identities)))
  end.

(** [getIdentityByIDWithAPI] *)
Definition getIdentityByID : session → CreateEnvelope → client (result (option Identity)) :=
  readBack "get identity" (λ api id, rest api (RDetailIdentity id)) identityDetail.

(** [CreateIdentity] *)
Definition CreateIdentity (i : Identity) : client (result (option Identity)) :=
  use (createAndRead "create identity" (λ api, rest api (RCreateIdentity (toIdentityCreate i)))
         getIdentityByID).

(** The assignment [identity.ID = id]. *)
Definition setIdentID (id : string) (i : Identity) : Identity :=
  {| IdentID := id; IdentName := IdentName i; IdentType := IdentType i;
     IdentRoleAttributes := IdentRoleAttributes i; IdentCreateOTT := IdentCreateOTT i;
     IdentExternalID := IdentExternalID i |}.

(** [UpdateIdentity] *)
Definition UpdateIdentity (i : Identity) : client (result (option Identity)) :=
  createIfMissing
    (use (updateAndRead "update identity" (IdentID i)
            (λ api, rest api (RUpdateIdentity (IdentID i) (toIdentityUpdate i))) getIdentityByID))
    (CreateIdentity (setIdentID "" i)).

(** [PatchIdentityRoleAttributes] *)
Definition PatchIdentityRoleAttributes (id : string) (attrs : strs) : client (result unit) :=
  use (λ api,
    let! r := rest api (RPatchIdentity id attrs) in
    match r with
    | inl err => Ret (inl (wrapAPICallError "patch identity role attributes" err))
    | inr _ => Ret (inr tt)
    end).

(** [DeleteIdentity] *)
Definition DeleteIdentity (id : string) : client (result unit) :=
  use (deleteOrMissing "delete identity" (λ api, rest api (RDeleteIdentity id))).

Definition enrollmentLifetime : Z := 30 * 60 * 1000000000.

(** [createOTTEnrollmentWithAPI] *)
Definition createOTTEnrollment (api : session) (identityID : string)
    : client (result (envelope EnrollmentDetail)) :=
  let! now := perform Clock in
  let! r := rest api (RCreateEnrollment
              {| NewEnrollmentIdentityID := identityID; NewEnrollmentMethod := EnrollmentCreateMethodOtt;
                 NewEnrollmentExpiresAt := now + enrollmentLifetime |}) in
  match r with
  | inl err => Ret (inl (wrapAPICallError "create ott enrollment" err))
  | inr payload =>
      match extractCreatedID payload with
      | inl err => Ret (inl err)
      | inr id =>
          let! r := rest api (RDetailEnrollment id) in
          match r with
          | inl err => Ret (inl (wrapAPICallError "get ott enrollment" err))
          | inr payload => Ret (inr payload)
          end
      end
  end.

(** The function of [GetEnrollmentJWT]. *)
Definition enrollmentJWT (id : string) (api : session) : client (result string) :=
  let! r := rest api (RGetIdentityEnrollments id) in
  match r with
  | inl err => Ret (inl (wrapAPICallError "list identity enrollments" err))
  | inr enrollments =>
      let jwt := enrollmentJWTFromList enrollments in
      if negb (bool_decide (TrimSpace jwt = "")) then Ret (inr jwt)
      else
        let! created := createOTTEnrollment api id in
        match created with
        | inl err =>
            if isStatusCode err 409 then
              let! r := rest api (RGetIdentityEnrollments id) in
              match r with
              | inl listErr => Ret (inl (wrapAPICallError "list identity enrollments" listErr))
              | inr enrollments =>
                  let jwt := enrollmentJWTFromList enrollments in
                  if negb (bool_decide (TrimSpace jwt = "")) then Ret (inr jwt) else Ret (inl err)
              end
            else Ret (inl err)
        | inr (Some (Some detail)) =>
            if negb (bool_decide (TrimSpace (RestEnrollmentJWT detail) = ""))
            then Ret (inr (TrimSpace (RestEnrollmentJWT detail)))
            else Ret (inl (ErrorString ("identity " +:+ id +:+ " has no enrollment jwt")))
        | inr _ => Ret (inl (ErrorString ("identity " +:+ id +:+ " has no enrollment jwt")))
        end
  end.

(** [GetEnrollmentJWT] *)
Definition GetEnrollmentJWT (id : string) : client (result string) := use (enrollmentJWT id).

(** ** Services *)

(** [GetService] *)
Definition GetService (id : string) : client (result (option Service)) :=
  use (getOrNil "get service" (λ api, rest api (RDetailService id)) (λ e, inr (serviceFromEnvelope e))).

(** [FindServiceByName]: one page, of the length that the controller chooses. *)
Definition FindServiceByName (name : string) : client (result (option Service)) :=
  use (λ api,
    let! r := rest api RListServices in
    match r with
    | inl err => Ret (inl (wrapAPICallError "list services" err))
    | inr None => Fault NilDereference
    | inr (Some data) =>
        Ret (inr (head (List.filter (λ s, bool_decide (ServiceName s = name))
                          (omap (λ item, serviceFromEnvelope (Some item)) (default [] data)))))
    end).

(** [getServiceByIDWithAPI] *)
Definition getServiceByID : session → CreateEnvelope → client (result (option Service)) :=
  readBack "get service" (λ api id, rest api (RDetailService id)) (λ e, inr (serviceFromEnvelope e)).

(** [CreateService] *)
Definition CreateService (s : Service) : client (result (option Service)) :=
  use (createAndRead "create service" (λ api, rest api (RCreateService (toServiceCreate s)))
         getServiceByID).

(** The assignment [service.ID = id]. *)
Definition setServiceID (id : string) (s : Service) : Service :=
  {| ServiceID := id; ServiceName := ServiceName s; ServiceRoleAttributes := ServiceRoleAttributes s;
     ServiceConfigIDs := ServiceConfigIDs s |}.

(** [UpdateService] *)
Definition UpdateService (s : Service) : client (result (option Service)) :=
  createIfMissing
    (use (updateAndRead "update service" (ServiceID s)
            (λ api, rest api (RUpdateService (ServiceID s) (toServiceUpdate s))) getServiceByID))
    (CreateService (setServiceID "" s)).

(** [DeleteService] *)
Definition DeleteService (id : string) : client (result unit) :=
  use (deleteOrMissing "delete service" (λ api, rest api (RDeleteService id))).

(** ** Configs *)

(** [GetConfig] *)
Definition GetConfig (id : string) : client (result (option ServiceConfig)) :=
  use (getOrNil "get config" (λ api, rest api (RDetailConfig id)) (λ e, inr (configFromEnvelope e))).

(** [getConfigByIDWithAPI] *)
Definition getConfigByID : session → CreateEnvelope → client (result (option ServiceConfig)) :=
  readBack "get config" (λ api id, rest api (RDetailConfig id)) (λ e, inr (configFromEnvelope e)).

(** The items of a page of config types that the loop counts. *)
Definition configTypeItem (item : option ConfigTypeDetail) : option (string * string) :=
  match item with
  | Some {| RestConfigTypeID := Some id; RestConfigTypeDetailName := Some name |} => Some (id, name)
  | _ => None
  end.

(** The loop of [resolveConfigTypeIDWithAPI]; incomplete items are not counted. *)
Fixpoint findConfigType (api : session) (name : string) (fuel : nat) (offset : Z)
    : client (result string) :=
  match fuel with
  | O => Fault OutOfFuel
  | S fuel =>
      let! r := rest api (RListConfigTypes pageLimit offset) in
      let missing := Ret (inl (ErrorString ("config type " +:+ Quote name +:+ " not found"))) in
      match r with
      | inl err => Ret (inl (wrapAPICallError "list config types" err))
      | inr None => missing
      | inr (Some data) =>
          let items := omap configTypeItem (default [] data) in
          match head (List.filter (λ item, bool_decide (TrimSpace item.2 = name)) items) with
          | Some (id, _) => Ret (inr (TrimSpace id))
          | None =>
              let count := Z.of_nat (length items) in
              if (count =? 0)%Z || (count <? pageLimit)%Z then missing
              else findConfigType api name fuel (offset + count)
          end
      end
  end.

(** [resolveConfigTypeIDWithAPI] *)
Definition resolveConfigTypeID (api : session) (configTypeName : string) : client (result string) :=
  let name := TrimSpace configTypeName in
  if bool_decide (name = "") then Ret (inl (ErrorString "config type name must not be empty"))
  else findConfigType api name pages 0.

(** [CreateConfig] *)
Definition CreateConfig (cfg : ServiceConfig) : client (result (option ServiceConfig)) :=
  use (λ api,
    let! r := resolveConfigTypeID api (ConfigType cfg) in
    match r with
    | inl err => Ret (inl err)
    | inr configTypeID =>
        createAndRead "create config" (λ api, rest api (RCreateConfig (toConfigCreate cfg configTypeID)))
          getConfigByID api
    end).

(** The assignment [cfg.ID = id]. *)
Definition setServiceConfigID (id : string) (c : ServiceConfig) : ServiceConfig :=
  {| ConfigID := id; ConfigName := ConfigName c; ConfigType := ConfigType c;
     ConfigPayload := ConfigPayload c |}.

(** [UpdateConfig] *)
Definition UpdateConfig (cfg : ServiceConfig) : client (result (option ServiceConfig)) :=
  createIfMissing
    (use (updateAndRead "update config" (ConfigID cfg)
            (λ api, rest api (RUpdateConfig (ConfigID cfg) (toConfigUpdate cfg))) getConfigByID))
    (CreateConfig (setServiceConfigID "" cfg)).

(** [DeleteConfig] *)
Definition DeleteConfig (id : string) : client (result unit) :=
  use (deleteOrMissing "delete config" (λ api, rest api (RDeleteConfig id))).

(** ** Edge routers *)

(** [FindEdgeRouterByName] *)
Definition FindEdgeRouterByName (name : string) : client (result (option EdgeRouter)) :=
  use (λ api, findPaged "list edge routers" (λ limit offset, rest api (RListEdgeRouters limit offset))
                edgeRouterFromDetail (λ r, bool_decide (EdgeRouterName r = name)) pages 0).

(** ** Access policies *)

(** [GetAccessPolicy] *)
Definition GetAccessPolicy (id : string) : client (result (option AccessPolicy)) :=
  use (getOrNil "get access policy" (λ api, rest api (RDetailServicePolicy id))
         (λ e, inr (accessPolicyFromEnvelope e))).

(** [FindAccessPolicyByName] *)
Definition FindAccessPolicyByName (name : string) : client (result (option AccessPolicy)) :=
  use (λ api, findPaged "list access policies"
                (λ limit offset, rest api (RListServicePolicies limit offset))
                (λ item, accessPolicyFromEnvelope (Some item))
                (λ p, bool_decide (PolicyName p = name)) pages 0).

(** [getAccessPolicyByIDWithAPI] *)
Definition getAccessPolicyByID : session → CreateEnvelope → client (result (option AccessPolicy)) :=
  readBack "get access policy" (λ api id, rest api (RDetailServicePolicy id))
    (λ e, inr (accessPolicyFromEnvelope e)).

(** [CreateAccessPolicy] *)
Definition CreateAccessPolicy (p : AccessPolicy) : client (result (option AccessPolicy)) :=
  use (createAndRead "create access policy"
         (λ api, rest api (RCreateServicePolicy (toAccessPolicyCreate p))) getAccessPolicyByID).

(** The assignment [policy.ID = id]. *)
Definition setAccessPolicyID (id : string) (p : AccessPolicy) : AccessPolicy :=
  {| PolicyID := id; PolicyName := PolicyName p; PolicyType := PolicyType p;
     PolicyIdentityRoles := PolicyIdentityRoles p; PolicyServiceRoles := PolicyServiceRoles p;
     PolicyIdentityRolesRaw := PolicyIdentityRolesRaw p;
     PolicyServiceRolesRaw := PolicyServiceRolesRaw p; PolicySemantic := PolicySemantic p |}.

(** [UpdateAccessPolicy] *)
Definition UpdateAccessPolicy (p : AccessPolicy) : client (result (option AccessPolicy)) :=
  createIfMissing
    (use (updateAndRead "update access policy" (PolicyID p)
            (λ api, rest api (RUpdateServicePolicy (PolicyID p) (toAccessPolicyUpdate p)))
            getAccessPolicyByID))
    (CreateAccessPolicy (setAccessPolicyID "" p)).

(** [DeleteAccessPolicy] *)
Definition DeleteAccessPolicy (id : string) : client (result unit) :=
  use (deleteOrMissing "delete access policy" (λ api, rest api (RDeleteServicePolicy id))).

(** ** Service edge router policies *)

(** [GetServiceEdgeRouterPolicy] *)
Definition GetServiceEdgeRouterPolicy (id : string) : client (result (option ServiceEdgeRouterPolicy)) :=
  use (getOrNil "get service edge router policy" (λ api, rest api (RDetailSerp id))
         (λ e, inr (serviceEdgeRouterPolicyFromEnvelope e))).

(** [FindServiceEdgeRouterPolicyByName] *)
Definition FindServiceEdgeRouterPolicyByName (name : string)
    : client (result (option ServiceEdgeRouterPolicy)) :=
  use (λ api, findPaged "list service edge router policies"
                (λ limit offset, rest api (RListSerps limit offset))
                serviceEdgeRouterPolicyFromDetail (λ p, bool_decide (SerpName p = name)) pages 0).

(** [getServiceEdgeRouterPolicyByIDWithAPI] *)
Definition getServiceEdgeRouterPolicyByID
    : session → CreateEnvelope → client (result (option ServiceEdgeRouterPolicy)) :=
  readBack "get service edge router policy" (λ api id, rest api (RDetailSerp id))
    (λ e, inr (serviceEdgeRouterPolicyFromEnvelope e)).

(** [CreateServiceEdgeRouterPolicy] *)
Definition CreateServiceEdgeRouterPolicy (p : ServiceEdgeRouterPolicy)
    : client (result (option ServiceEdgeRouterPolicy)) :=
  use (createAndRead "create service edge router policy"
         (λ api, rest api (RCreateSerp (toServiceEdgeRouterPolicyCreate p)))
         getServiceEdgeRouterPolicyByID).

(** The assignment [policy.ID = id]. *)
Definition setEdgeRouterPolicyID (id : string) (p : ServiceEdgeRouterPolicy) : ServiceEdgeRouterPolicy :=
  {| SerpID := id; SerpName := SerpName p; SerpEdgeRouterRoles := SerpEdgeRouterRoles p;
     SerpServiceRoles := SerpServiceRoles p; SerpSemantic := SerpSemantic p |}.

(** [UpdateServiceEdgeRouterPolicy] *)
Definition UpdateServiceEdgeRouterPolicy (p : ServiceEdgeRouterPolicy)
    : client (result (option ServiceEdgeRouterPolicy)) :=
  createIfMissing
    (use (updateAndRead "update service edge router policy" (SerpID p)
            (λ api, rest api (RUpdateSerp (SerpID p) (toServiceEdgeRouterPolicyUpdate p)))
            getServiceEdgeRouterPolicyByID))
    (CreateServiceEdgeRouterPolicy (setEdgeRouterPolicyID "" p)).

(** [DeleteServiceEdgeRouterPolicy] *)
Definition DeleteServiceEdgeRouterPolicy (id : string) : client (result unit) :=
  use (deleteOrMissing "delete service edge router policy" (λ api, rest api (RDeleteSerp id))).

End Client.
