(* ===== verification/ClientSessions.v ===== *)
(** * Sessions under concurrency

    [implement] is the management client as the implementation of the calls
    that the reconcilers make ([World.zitiOp]).  The reconcilers call it from
    several goroutines: a [system] is the shared fields of the client and any
    number of goroutines, each of which performs one call after the other, and
    a [step] is one call of one of them, in any interleaving. *)

From S2P Require Import Prelude GoSlices GoStrings Errors ZitiTypes Credentials RestModel.
From S2P Require Import World ZitiClient.

#[local] Open Scope mz_scope.

Section Sessions.
Context `{UnicodeTables} `{CredentialParsers} (pages : nat).

(** The methods of [Client] on a client with a loader. *)
Definition implement (o : zitiOp) : client (zitiResp o) :=
  match o with
  | OpGetIdentity id => GetIdentity true id
  | OpFindIdentityByName name => FindIdentityByName true pages name
  | OpListIdentities => ListIdentities true pages
  | OpCreateIdentity i => CreateIdentity true i
  | OpUpdateIdentity i => UpdateIdentity true i
  | OpPatchIdentityRoleAttributes id attrs => PatchIdentityRoleAttributes true id attrs
  | OpDeleteIdentity id => DeleteIdentity true id
  | OpGetEnrollmentJWT id => GetEnrollmentJWT true id
  | OpGetService id => GetService true id
  | OpFindServiceByName name => FindServiceByName true name
  | OpCreateService s => CreateService true s
  | OpUpdateService s => UpdateService true s
  | OpDeleteService id => DeleteService true id
  | OpGetConfig id => GetConfig true id
  | OpCreateConfig cfg => CreateConfig true pages cfg
  | OpUpdateConfig cfg => UpdateConfig true pages cfg
  | OpDeleteConfig id => DeleteConfig true id
  | OpFindEdgeRouterByName name => FindEdgeRouterByName true pages name
  | OpGetAccessPolicy id => GetAccessPolicy true id
  | OpFindAccessPolicyByName name => FindAccessPolicyByName true pages name
  | OpCreateAccessPolicy p => CreateAccessPolicy true p
  | OpUpdateAccessPolicy p => UpdateAccessPolicy true p
  | OpDeleteAccessPolicy id => DeleteAccessPolicy true id
  | OpGetServiceEdgeRouterPolicy id => GetServiceEdgeRouterPolicy true id
  | OpFindServiceEdgeRouterPolicyByName name => FindServiceEdgeRouterPolicyByName true pages name
  | OpCreateServiceEdgeRouterPolicy p => CreateServiceEdgeRouterPolicy true p
  | OpUpdateServiceEdgeRouterPolicy p => UpdateServiceEdgeRouterPolicy true p
  | OpDeleteServiceEdgeRouterPolicy id => DeleteServiceEdgeRouterPolicy true id
  end.

(** A goroutine that performs calls one after the other. *)
Fixpoint goroutine (os : list zitiOp) : client unit :=
  match os with
  | [] => Ret tt
  | o :: os => let! _ := implement o in goroutine os
  end.

(** ** What one goroutine guarantees *)

(** The credentials that were loaded last. *)
Definition lastLoaded (h : ctrace) : option ManagementConfig :=
  foldl (λ last e, match e with Ev LoadConfig (inr cfg) => Some cfg | _ => last end) None h.

(** The session [api] was opened by this goroutine with [cfg], or it was found
    in the client together with [cfg]. *)
Definition obtained (h : ctrace) (cfg : ManagementConfig) (api : session) : Prop :=
  cev (Login cfg) (inr api) ∈ h ∨ cev LockedRead (Some api, cfg) ∈ h.

(** A session is stored with the credentials that opened it, and used only
    for the credentials that were loaded last. *)
Definition disciplined (h : ctrace) (o : clientOp) : Prop :=
  match o with
  | LockedStore api cfg => cev (Login cfg) (inr api) ∈ h
  | Rest api _ => ∃ cfg, lastLoaded h = Some cfg ∧ obtained h cfg api
  | _ => True
  end.

Lemma sameManagementConfig_eq a b : sameManagementConfig a b = true ↔ a = b.
Proof.
  unfold sameManagementConfig. split; [|intros ->; by rewrite !bool_decide_true].
  intros Hs. destruct a, b. reflect_bools. cbn in *. by subst.
Qed.

Lemma obtained_app h t cfg api : obtained h cfg api → obtained (h ++ t) cfg api.
Proof. intros [?|?]; [left|right]; apply elem_of_app; by left. Qed.

Lemma lastLoaded_snoc h e :
  lastLoaded (h ++ [e]) = match e with Ev LoadConfig (inr cfg) => Some cfg | _ => lastLoaded h end.
Proof. unfold lastLoaded. rewrite foldl_app. done. Qed.

Lemma lastLoaded_rest h api o r : lastLoaded (h ++ [cev (Rest api o) r]) = lastLoaded h.
Proof. apply lastLoaded_snoc. Qed.

(** What holds while a method works in the session [api]. *)
Definition inSession (api : session) (h : ctrace) : Prop :=
  ∃ cfg, lastLoaded h = Some cfg ∧ obtained h cfg api.

(** The calls of a function that is passed to [useAuthenticatedClient]. *)
Definition inside (api : session) (o : clientOp) : Prop :=
  match o with Rest a _ => a = api | Clock => True | _ => False end.

Lemma inside_wp {A} api (p : client A) (Φ : A → ctrace → Prop) h :
  only (inside api) p → inSession api h → (∀ a h', inSession api h' → Φ a h') →
  wp disciplined p Φ h.
Proof.
  revert h. induction p as [a|f|o k IH]; intros h Hp Hs HΦ; cbn [wp only] in *; [by apply HΦ|done|].
  destruct Hp as [Ho Hk]. destruct o; try done.
  - cbn in Ho. subst. split; [done|]. intros r. apply IH; [done| |done].
    destruct Hs as (cfg & Hl & Hob). exists cfg. rewrite lastLoaded_snoc. split; [done|by apply obtained_app].
  - split; [done|]. intros r. apply IH; [done| |done].
    destruct Hs as (cfg & Hl & Hob). exists cfg. rewrite lastLoaded_snoc. split; [done|by apply obtained_app].
Qed.

Lemma getOrAuthenticate_wp force (Φ : _ → ctrace → Prop) h :
  (∀ err h', Φ (inl err) h') → (∀ api h', inSession api h' → Φ (inr api) h') →
  wp disciplined (getOrAuthenticate (loadCurrentConfig true) force) Φ h.
Proof.
  intros Herr Hok. unfold getOrAuthenticate, loadCurrentConfig. cbn [negb bind perform call wp].
  split; [done|]. intros [e|cfg]; [apply Herr|]. cbn [bind call wp]. split; [done|]. intros [cached old].
  set (h1 := (h ++ _) ++ _).
  assert (lastLoaded h1 = Some cfg) as Hl by (unfold h1; by rewrite !lastLoaded_snoc).
  destruct (if negb force && sameManagementConfig old cfg then cached else None) as [api|] eqn:Hc; cbn [wp].
  - apply Hok. exists cfg. split; [done|]. right. revert Hc. case_test; [|done]. intros ->. reflect_bools.
    rewrite sameManagementConfig_eq in *. subst. apply elem_of_app. right. by left.
  - unfold authenticateWithUPDB. destruct (rootCAsFromConfig cfg); [apply Herr|].
    cbn [bind perform call wp]. split; [done|]. intros [e|api]; [apply Herr|]. cbn [bind call wp]. split.
    + cbn. apply elem_of_app. right. by left.
    + intros []. apply Hok. exists cfg. rewrite !lastLoaded_snoc. split; [done|]. left.
      apply elem_of_app. left. apply elem_of_app. right. by left.
Qed.

Lemma use_wp {A} (fn : session → client (result A)) h :
  (∀ api, only (inside api) (fn api)) → wp disciplined (use true fn) (λ _ _, True) h.
Proof.
  intros Hfn. unfold use, useAuthenticatedClient. apply wp_bind, getOrAuthenticate_wp; [done|].
  intros api h1 Hs. apply wp_bind. apply (inside_wp api); [done..|].
  intros [err|a] h2 _; [|done]. case_test; [done|]. cbn [bind perform call wp]. split; [done|]. intros [].
  apply wp_bind, getOrAuthenticate_wp; [done|]. intros api' h3 Hs'. by apply (inside_wp api').
Qed.

Lemma createIfMissing_wp {A} (updated create : client (result A)) h :
  (∀ h, wp disciplined updated (λ _ _, True) h) → (∀ h, wp disciplined create (λ _ _, True) h) →
  wp disciplined (createIfMissing updated create) (λ _ _, True) h.
Proof.
  intros Hu Hc. unfold createIfMissing. apply wp_bind. eapply wp_mono; [done| |apply Hu].
  intros [err|a] h' _; [|done]. case_test; [apply Hc|done].
Qed.

(** ** The methods work inside their session *)

Ltac inside_calls :=
  repeat first
    [ done
    | progress intros
    | progress cbn [only bind perform rest call inside]
    | split
    | match goal with
      | |- only _ (match ?x with _ => _ end) => destruct x
      | |- only _ (if ?b then _ else _) => destruct b
      | |- only _ (bind _ _) => apply only_bind
      end ].

Section Loops.
Context (P : clientOp → Prop).

Lemma findPaged_only {D A} action (l : Z → Z → client (result (listing D))) (from : option D → option A)
    hit fuel offset :
  (∀ limit offset, only P (l limit offset)) → only P (findPaged action l from hit fuel offset).
Proof.
  intros Hl. revert offset. induction fuel as [|fuel IH]; intros offset; cbn [findPaged]; [done|].
  apply only_bind; [apply Hl|]. intros [err|[data|]]; [done| |done].
  destruct (head _); [done|]. cbv zeta. case_test; [done|apply IH].
Qed.

Lemma listIdentities_only api fuel offset acc :
  (∀ limit offset, P (Rest api (RListIdentities limit offset))) → only P (listIdentities api fuel offset acc).
Proof.
  intros Hl. revert offset acc. induction fuel as [|fuel IH]; intros offset acc; cbn [listIdentities]; [done|].
  cbn [bind rest call only]. split; [done|]. intros [err|[[data|]|]]; [done| |done|done].
  destruct (pageIdentities data); [done|]. cbv zeta. case_test; [done|apply IH].
Qed.

Lemma findConfigType_only api name fuel offset :
  (∀ limit offset, P (Rest api (RListConfigTypes limit offset))) → only P (findConfigType api name fuel offset).
Proof.
  intros Hl. revert offset. induction fuel as [|fuel IH]; intros offset; cbn [findConfigType]; [done|].
  cbn [bind rest call only]. split; [done|]. intros [err|[data|]]; [done| |done].
  cbv zeta. destruct (head _) as [[]|]; [done|]. case_test; [done|apply IH].
Qed.

End Loops.

Lemma implement_wp o h : wp disciplined (implement o) (λ _ _, True) h.
Proof.
  destruct o; cbn [implement].
  all: try (apply createIfMissing_wp; intros; apply use_wp; intros).
  all: try (apply use_wp; intros).
  all: try apply findPaged_only; try (apply listIdentities_only; done).
  all: unfold getOrNil, createAndRead, updateAndRead, deleteOrMissing, getIdentityByID, getServiceByID,
    getConfigByID, getAccessPolicyByID, getServiceEdgeRouterPolicyByID, readBack, enrollmentJWT,
    createOTTEnrollment, resolveConfigTypeID.
  all: try solve [inside_calls; by apply findConfigType_only].
  unfold FindIdentityByName. apply wp_bind. eapply wp_mono; [done| |apply use_wp; intros; by apply listIdentities_only].
  by intros [] ? _.
Qed.

Lemma goroutine_wp os h : wp disciplined (goroutine os) (λ _ _, True) h.
Proof.
  revert h. induction os as [|o os IH]; intros h; cbn [goroutine]; [done|].
  apply wp_bind. eapply wp_mono; [done| |apply implement_wp]. intros. apply IH.
Qed.

(** ** The interleaved system *)

(** The fields of the client, and all sessions that were opened so far, each
    with its credentials. *)
Record fields := {
  cachedClient : option session;
  cachedConfig : ManagementConfig;
  opened : list (ManagementConfig * session);
}.

(** The effect of a call on the fields; [None] when they do not allow the
    answer. *)
Definition react (f : fields) (o : clientOp) : clientResp o → option fields :=
  match o with
  | LockedRead => λ r, if bool_decide (r = (cachedClient f, cachedConfig f)) then Some f else None
  | LockedStore api cfg => λ _, Some
      {| cachedClient := Some api; cachedConfig := cfg; opened := opened f |}
  | LockedInvalidate => λ _, Some
      {| cachedClient := None; cachedConfig := cachedConfig f; opened := opened f |}
  | Login cfg => λ r, Some
      match r with
      | inl _ => f
      | inr api => {| cachedClient := cachedClient f; cachedConfig := cachedConfig f;
                      opened := (cfg, api) :: opened f |}
      end
  | _ => λ _, Some f
  end.

(** A goroutine: what it observed and what it does next. *)
Record thread := { past : ctrace; next : client unit }.

Record system := { shared : fields; threads : list thread }.

(** The client after [New], and goroutines that start their calls. *)
Definition initial (cfg : ManagementConfig) (calls : list (list zitiOp)) : system :=
  {| shared := {| cachedClient := None; cachedConfig := cfg; opened := [] |};
     threads := (λ os, {| past := []; next := goroutine os |}) <$> calls |}.

Inductive step : system → system → Prop :=
  | step_call s i h o k (r : clientResp o) f :
      threads s !! i = Some {| past := h; next := Vis o k |} →
      react (shared s) o r = Some f →
      step s {| shared := f;
                threads := <[i := {| past := h ++ [cev o r]; next := k r |}]> (threads s) |}.

Inductive reachable (s0 : system) : system → Prop :=
  | reachable_start : reachable s0 s0
  | reachable_step s s' : reachable s0 s → step s s' → reachable s0 s'.

(** What a goroutine saw is in agreement with the sessions that were opened. *)
Definition agrees (f : fields) (h : ctrace) : Prop :=
  ∀ cfg api, obtained h cfg api → (cfg, api) ∈ opened f.

(** The invariant of the system. *)
Definition wellFormed (s : system) : Prop :=
  (∀ api, cachedClient (shared s) = Some api → (cachedConfig (shared s), api) ∈ opened (shared s)) ∧
  ∀ i th, threads s !! i = Some th →
    wp disciplined (next th) (λ _ _, True) (past th) ∧ agrees (shared s) (past th).

Lemma react_opened f o r f' : react f o r = Some f' → ∀ x, x ∈ opened f → x ∈ opened f'.
Proof.
  destruct o; cbn; try (by intros [= <-]).
  - case_test; [by intros [= <-]|done].
  - intros [= <-] x Hx. destruct r; [done|]. by right.
Qed.

Lemma wellFormed_initial cfg calls : wellFormed (initial cfg calls).
Proof.
  split; [done|]. intros i th. cbn. rewrite list_lookup_fmap, fmap_Some. intros (os & _ & ->).
  split; [apply goroutine_wp|]. intros c a [Hin|Hin]; by apply not_elem_of_nil in Hin.
Qed.

(** The login or the read of an event. *)
Definition loginOf (e : event clientOp clientResp) : option (ManagementConfig * session) :=
  match e with Ev (Login cfg) (inr api) => Some (cfg, api) | _ => None end.
Definition readOf (e : event clientOp clientResp) : option (option session * ManagementConfig) :=
  match e with Ev LockedRead r => Some r | _ => None end.

(** A new event of a goroutine agrees with the fields after it. *)
Lemma agrees_snoc f h o (r : clientResp o) f' :
  (∀ api, cachedClient f = Some api → (cachedConfig f, api) ∈ opened f) →
  agrees f h → react f o r = Some f' → agrees f' (h ++ [cev o r]).
Proof.
  intros Hc Ha Hr cfg api Hob. pose proof (react_opened _ _ _ _ Hr) as Hmono.
  destruct Hob as [Hin|Hin]; apply elem_of_app in Hin as [Hin|Hin];
    [by apply Hmono, Ha; left| |by apply Hmono, Ha; right|]; apply list_elem_of_singleton in Hin.
  - apply (f_equal loginOf) in Hin. cbn in Hin. destruct o; try done. destruct r as [|a]; [done|].
    injection Hin as -> ->. cbn in Hr. injection Hr as <-. by left.
  - apply (f_equal readOf) in Hin. cbn in Hin. destruct o; try done. injection Hin as <-. cbn in Hr.
    revert Hr. case_test; [|done]. reflect_bools. intros [= <-]. injection Heqb as E ->. by apply Hc.
Qed.

Lemma wellFormed_step s s' : wellFormed s → step s s' → wellFormed s'.
Proof.
  intros [Hcached Hthreads] Hstep. destruct Hstep as [s i h o k r f Hi Hr].
  destruct (Hthreads i _ Hi) as [[Hdisc Hnext] Hagree]. cbn [past next] in *.
  split; cbn [shared threads].
  - intros api Hapi. pose proof (react_opened _ _ _ _ Hr) as Hmono. destruct o; cbn in Hr.
    all: try (injection Hr as <-; by apply Hcached).
    + revert Hr. case_test; [|done]. intros [= <-]. by apply Hcached.
    + injection Hr as <-. cbn in *. injection Hapi as <-. apply Hagree. by left.
    + injection Hr as <-. destruct r as [e|a]; [by apply Hcached|]. cbn in *. right. by apply Hcached.
  - intros j th. rewrite list_lookup_insert_Some. intros [(<- & <- & _)|[_ Hj]]; cbn [past next].
    + split; [apply Hnext|by apply (agrees_snoc (shared s))].
    + destruct (Hthreads j th Hj) as [? Hj']. split; [done|]. intros cfg api Hob.
      apply (react_opened _ _ _ _ Hr). by apply Hj'.
Qed.

Lemma wellFormed_reachable cfg calls s : reachable (initial cfg calls) s → wellFormed s.
Proof. induction 1; [apply wellFormed_initial|by eapply wellFormed_step]. Qed.

(** C29. Sessions are never mixed up.  However any number of goroutines call the
    client, in every reachable state: the cached session was opened with the
    cached credentials; and whatever goroutine is about to make a REST call
    makes it in a session that was opened with exactly the credentials this
    goroutine loaded last.  So after the credentials are rotated, a call that
    has loaded the new ones never runs in a session of the old ones, although
    the cache is shared and other goroutines may store and invalidate sessions
    between any two calls. *)
Theorem sessions_match_credentials (cfg : ManagementConfig) (calls : list (list zitiOp)) (s : system) :
  reachable (initial cfg calls) s →
  (∀ api, cachedClient (shared s) = Some api → (cachedConfig (shared s), api) ∈ opened (shared s)) ∧
  ∀ i h api o k, threads s !! i = Some {| past := h; next := Vis (Rest api o) k |} →
    ∃ loaded, lastLoaded h = Some loaded ∧ (loaded, api) ∈ opened (shared s).
Proof.
  intros [Hcached Hthreads]%wellFormed_reachable. split; [done|]. intros i h api o k Hi.
  destruct (Hthreads i _ Hi) as [[(loaded & Hl & Hob) _] Hagree]. exists loaded.
  split; [done|by apply Hagree].
Qed.

End Sessions.

(** ** A concrete interleaving

    Two goroutines: the first opens a session, and the second finds it. *)
Definition exOld : ManagementConfig :=
  {| ControllerURL := ""; Username := ""; Password := ""; CABundlePEM := "" |}.

Definition exCalls : list (list zitiOp) := [[OpGetIdentity "a"]; [OpDeleteService "b"]].

(** One call of the goroutine [i] with the answer [r]. *)
Ltac step_with i r := eapply (step_call _ i _ _ _ r); [reflexivity|vm_compute; reflexivity].

Lemma sessions_match_credentials_witness :
  ∃ s h k, @reachable (@initial asciiTables exParsers 5 exOld exCalls) s ∧
    threads s !! 1 = Some {| past := h; next := Vis (Rest 7 (RDeleteService "b")) k |} ∧
    ∃ loaded, lastLoaded h = Some loaded ∧ (loaded, 7) ∈ opened (shared s).
Proof.
  assert (∃ s h k, @reachable (@initial asciiTables exParsers 5 exOld exCalls) s ∧
    threads s !! 1 = Some {| past := h; next := Vis (Rest 7 (RDeleteService "b")) k |}) as (s & h & k & Hs & Hi).
  { eexists _, _, _. split.
    - eapply reachable_step; [eapply reachable_step; [eapply reachable_step; [eapply reachable_step;
        [eapply reachable_step; [eapply reachable_step; [apply reachable_start|]|]|]|]|]|].
      + step_with 0 (inr exManagementConfig : clientResp LoadConfig).
      + step_with 0 ((None, exOld) : clientResp LockedRead).
      + step_with 0 (inr 7 : clientResp (Login exManagementConfig)).
      + step_with 0 (tt : clientResp (LockedStore 7 exManagementConfig)).
      + step_with 1 (inr exManagementConfig : clientResp LoadConfig).
      + step_with 1 ((Some 7, exManagementConfig) : clientResp LockedRead).
    - reflexivity. }
  exists s, h, k. split; [exact Hs|]. split; [exact Hi|].
  exact (proj2 (@sessions_match_credentials asciiTables exParsers 5 exOld exCalls s Hs) 1 h 7 _ k Hi).
Defined.
