(* ===== verification/ClientProps.v ===== *)
(** * The management client: properties

    Complete lists, updates that fall back to a creation, and the retry after
    the controller refused a session. *)

From S2P Require Import Prelude GoSlices GoStrings Errors ZitiTypes Credentials RestModel.
From S2P Require Import World ZitiClient.

#[local] Open Scope mz_scope.

(** ** Pages *)

(** The page of a controller that holds the list [l]. *)
Definition page {D} (l : list (option D)) (limit offset : Z) : result (listing D) :=
  inr (Some (Some (take (Z.to_nat limit) (drop (Z.to_nat offset) l)))).

Lemma head_app {A} (l k : list A) : head (l ++ k) = match head l with Some a => Some a | None => head k end.
Proof. by destruct l. Qed.

(** The number of requests for a list of that length: the full pages and the
    one that is not full. *)
Definition requests (n : nat) : nat := S (n / 100).

Lemma requests_step n fuel : 100 ≤ n → requests n ≤ S fuel → requests (n - 100) ≤ fuel.
Proof.
  unfold requests. intros Hn Hf. assert (n / 100 = S ((n - 100) / 100)) as E; [|lia].
  replace n with (1 * 100 + (n - 100)) at 1 by lia. by rewrite Nat.div_add_l.
Qed.

(** A page that is full, of a list that is longer. *)
Lemma page_count {D} (l : list D) offset :
  let items := take (Z.to_nat pageLimit) (drop (Z.to_nat (Z.of_nat offset)) l) in
  let count := Z.of_nat (length items) in
  if (count =? 0)%Z || (count <? pageLimit)%Z then drop offset l = items
  else count = 100%Z ∧ 100 ≤ length (drop offset l) ∧ drop offset l = items ++ drop (offset + 100) l.
Proof.
  cbv zeta. unfold pageLimit. rewrite Nat2Z.id. change (Z.to_nat 100) with 100.
  rewrite length_take. case_test.
  - symmetry. apply take_ge. apply orb_true_iff in Heqb as [?%Z.eqb_eq|?%Z.ltb_lt]; lia.
  - apply orb_false_iff in Heqb as [?%Z.eqb_neq ?%Z.ltb_ge].
    rewrite <-drop_drop, take_drop. split_and!; [lia..|done].
Qed.

Section Pages.
Context (env : ∀ o, clientResp o).

Lemma findPaged_answer {D A} action (fetch : Z → Z → client (result (listing D)))
    (from : option D → option A) hit (l : list (option D)) fuel offset :
  (∀ offset, (0 <= offset)%Z → answer env (fetch pageLimit offset) = Some (page l pageLimit offset)) →
  requests (length (drop offset l)) ≤ fuel →
  answer env (findPaged action fetch from hit fuel (Z.of_nat offset)) =
    Some (inr (head (List.filter hit (omap from (drop offset l))))).
Proof.
  intros Hfetch. revert offset. induction fuel as [|fuel IH]; intros offset Hfuel; [unfold requests in Hfuel; lia|].
  cbn [findPaged]. rewrite answer_bind, Hfetch by lia. unfold page at 1. cbn [default from_option id].
  pose proof (page_count l offset) as Hcount. cbv zeta in *.
  set (items := take (Z.to_nat pageLimit) (drop (Z.to_nat (Z.of_nat offset)) l)) in *.
  destruct (_ || _) eqn:Hlast.
  - rewrite Hcount. by destruct (head _).
  - destruct Hcount as (Hn & Hlen & E).
    rewrite E, omap_app, List.filter_app, head_app. destruct (head (List.filter hit (omap from items))); [done|].
    rewrite Hn. replace (Z.of_nat offset + 100)%Z with (Z.of_nat (offset + 100)) by lia. apply IH.
    rewrite <-drop_drop, length_drop. by apply requests_step.
Qed.

Lemma pageIdentities_app a b :
  pageIdentities (a ++ b) =
  match pageIdentities a with
  | inl err => inl err
  | inr l => match pageIdentities b with inl err => inl err | inr k => inr (l ++ k) end
  end.
Proof.
  induction a as [|x a IH]; cbn [app pageIdentities]; [by destruct (pageIdentities b)|].
  destruct (identityFromEnvelope (Some x)); [reflexivity|]. rewrite IH.
  destruct (pageIdentities a); [reflexivity|]. by destruct (pageIdentities b).
Qed.

Lemma listIdentities_answer api (l : list (option IdentityDetail)) fuel offset acc ids :
  (∀ offset, (0 <= offset)%Z → env (Rest api (RListIdentities pageLimit offset)) = page l pageLimit offset) →
  requests (length (drop offset l)) ≤ fuel → pageIdentities (drop offset l) = inr ids →
  answer env (listIdentities api fuel (Z.of_nat offset) acc) = Some (inr (acc ++ ids)).
Proof.
  intros Hfetch. revert offset acc ids.
  induction fuel as [|fuel IH]; intros offset acc ids Hfuel Hids; [unfold requests in Hfuel; lia|].
  cbn [listIdentities bind rest call answer]. rewrite Hfetch by lia. unfold page at 1.
  pose proof (page_count l offset) as Hcount. cbv zeta in *.
  set (items := take (Z.to_nat pageLimit) (drop (Z.to_nat (Z.of_nat offset)) l)) in *.
  destruct (_ || _) eqn:Hlast.
  - rewrite Hcount in Hids. by rewrite Hids.
  - destruct Hcount as (Hn & Hlen & E). rewrite E, pageIdentities_app in Hids.
    destruct (pageIdentities items) as [e|k]; [done|].
    destruct (pageIdentities (drop (offset + 100) l)) as [e|k'] eqn:Hk'; [done|]. injection Hids as <-.
    rewrite Hn, app_assoc. replace (Z.of_nat offset + 100)%Z with (Z.of_nat (offset + 100)) by lia.
    apply IH; [|done]. rewrite <-drop_drop, length_drop. by apply requests_step.
Qed.

End Pages.

(** ** Sessions *)

Section Client.
Context `{UnicodeTables} `{CredentialParsers}.

(** The client holds a session for the current credentials. *)
Definition loggedIn (env : ∀ o, clientResp o) (cfg : ManagementConfig) (api : session) : Prop :=
  env LoadConfig = inr cfg ∧ env LockedRead = (Some api, cfg).

Lemma use_answer {A} env cfg api (fn : session → client (result A)) a :
  loggedIn env cfg api → answer env (fn api) = Some (inr a) →
  answer env (use true fn) = Some (inr a).
Proof.
  intros [Hl Hr] Ha. unfold use, useAuthenticatedClient, getOrAuthenticate, loadCurrentConfig.
  cbn [negb bind perform call answer]. rewrite Hl. cbn [bind call answer]. rewrite Hr. cbn [andb].
  assert (sameManagementConfig cfg cfg = true) as ->
    by (unfold sameManagementConfig; by rewrite !bool_decide_true).
  cbn [bind answer]. by rewrite answer_bind, Ha.
Qed.

(** C30. Lists are read completely, and the loops end.  Against a controller
    that answers the pages of its lists, with a session at hand and at least one
    request more than there are full pages, [ListIdentities] returns every
    identity, in order, and each paged [Find*ByName] returns the first object
    of the name in the whole list, or nil when there is none: no object is
    missed at a page boundary, and a list whose length is a multiple of the
    page size ends with an empty page. *)
Theorem lists_complete (env : ∀ o, clientResp o) (cfg : ManagementConfig) (api : session) (pages : nat)
    (identities : list (option IdentityDetail)) (ids : list Identity)
    (policies : list (option ServicePolicyDetail)) (serps : list (option ServiceEdgeRouterPolicyDetail))
    (routers : list (option EdgeRouterDetail)) :
  loggedIn env cfg api →
  (∀ offset, (0 <= offset)%Z →
     env (Rest api (RListIdentities pageLimit offset)) = page identities pageLimit offset ∧
     env (Rest api (RListServicePolicies pageLimit offset)) = page policies pageLimit offset ∧
     env (Rest api (RListSerps pageLimit offset)) = page serps pageLimit offset ∧
     env (Rest api (RListEdgeRouters pageLimit offset)) = page routers pageLimit offset) →
  pageIdentities identities = inr ids →
  requests (length identities) ≤ pages → requests (length policies) ≤ pages →
  requests (length serps) ≤ pages → requests (length routers) ≤ pages →
  answer env (ListIdentities true pages) = Some (inr ids) ∧
  ∀ name,
    answer env (FindIdentityByName true pages name) =
      Some (inr (head (List.filter (λ i, bool_decide (IdentName i = name)) ids))) ∧
    answer env (FindAccessPolicyByName true pages name) =
      Some (inr (head (List.filter (λ p, bool_decide (PolicyName p = name))
                         (omap (λ d, accessPolicyFromEnvelope (Some d)) policies)))) ∧
    answer env (FindServiceEdgeRouterPolicyByName true pages name) =
      Some (inr (head (List.filter (λ p, bool_decide (SerpName p = name))
                         (omap serviceEdgeRouterPolicyFromDetail serps)))) ∧
    answer env (FindEdgeRouterByName true pages name) =
      Some (inr (head (List.filter (λ r, bool_decide (EdgeRouterName r = name))
                         (omap edgeRouterFromDetail routers)))).
Proof.
  intros Hin Henv Hids Hi Hp Hs Hr.
  assert (answer env (ListIdentities true pages) = Some (inr ids)) as Hlist.
  { apply (use_answer _ cfg api); [done|]. rewrite <-(app_nil_l ids).
    apply (listIdentities_answer env api identities pages 0 [] ids); [|done..]. intros. by apply Henv. }
  split; [done|]. intros name. split_and!.
  - unfold FindIdentityByName. rewrite answer_bind, Hlist. done.
  - apply (use_answer _ cfg api); [done|]. apply (findPaged_answer env _ _ _ _ policies _ 0); [|done].
    intros. cbn. f_equal. by apply Henv.
  - apply (use_answer _ cfg api); [done|]. apply (findPaged_answer env _ _ _ _ serps _ 0); [|done].
    intros. cbn. f_equal. by apply Henv.
  - apply (use_answer _ cfg api); [done|]. apply (findPaged_answer env _ _ _ _ routers _ 0); [|done].
    intros. cbn. f_equal. by apply Henv.
Qed.

End Client.

(** ** A concrete controller

    101 identities: the one that is looked for is on the second page. *)
Definition exIdentityDetail (name : string) : option IdentityDetail :=
  Some {| RestIdentID := Some ("id-" +:+ name); RestIdentName := Some name; RestIdentType := Some "User";
          RestIdentRoleAttributes := Some ["#a"]; RestIdentExternalID := None |}.

Definition exIdentityDetails : list (option IdentityDetail) :=
  replicate 100 (exIdentityDetail "alice") ++ [exIdentityDetail "bob"].

Definition exRouterDetails : list (option EdgeRouterDetail) :=
  [None; Some {| RestRouterID := Some " r1"; RestRouterName := Some "edge " |}].

Definition exRest (o : restOp) : restResp o :=
  match o return restResp o with
  | RListIdentities limit offset => page exIdentityDetails limit offset
  | RListServicePolicies limit offset => page [] limit offset
  | RListSerps limit offset => page [] limit offset
  | RListEdgeRouters limit offset => page exRouterDetails limit offset
  | _ => inl (CodedError 500 "unavailable")
  end.

Definition exController (o : clientOp) : clientResp o :=
  match o return clientResp o with
  | LoadConfig => inr exManagementConfig
  | LockedRead => (Some 7, exManagementConfig)
  | LockedStore _ _ => tt
  | LockedInvalidate => tt
  | Login _ => inl (CodedError 401 "unauthorized")
  | Rest _ o => exRest o
  | Clock => 0%Z
  end.

Definition exIdent (name : string) : Identity :=
  {| IdentID := "id-" +:+ name; IdentName := name; IdentType := "User"; IdentRoleAttributes := ["#a"];
     IdentCreateOTT := false; IdentExternalID := "" |}.

Lemma lists_complete_witness :
  let _ := asciiTables in let _ := exParsers in
  answer exController (FindIdentityByName true 2 "bob") = Some (inr (Some (exIdent "bob"))) ∧
  answer exController (FindEdgeRouterByName true 2 "edge") =
    Some (inr (Some {| EdgeRouterID := "r1"; EdgeRouterName := "edge" |})).
Proof.
  intros tables parsers.
  destruct (@lists_complete tables parsers exController exManagementConfig 7 2 exIdentityDetails
    (replicate 100 (exIdent "alice") ++ [exIdent "bob"]) [] [] exRouterDetails) as [_ H].
  - by split.
  - intros offset _. split_and!; reflexivity.
  - vm_compute. reflexivity.
  - vm_compute. lia.
  - vm_compute. lia.
  - vm_compute. lia.
  - vm_compute. lia.
  - split; [destruct (H "bob") as [Hb _]; rewrite Hb; vm_compute; reflexivity|].
    destruct (H "edge") as (_ & _ & _ & Hr). rewrite Hr. vm_compute. reflexivity.
Defined.

(** [FindServiceByName] reads one page, whose length the controller chooses: with
    a page of ten, a service further down is not found although it exists. *)
Definition exServiceDetail (name : string) : option ServiceDetail :=
  Some {| RestServiceID := Some ("id-" +:+ name); RestServiceName := Some name;
          RestServiceRoleAttributes := None; RestServiceConfigs := [] |}.

Definition exServices : list (option ServiceDetail) :=
  replicate 10 (exServiceDetail "other") ++ [exServiceDetail "shop"].

Definition exDefaultPage (o : clientOp) : clientResp o :=
  match o return clientResp o with
  | Rest _ RListServices => inr (Some (Some (take 10 exServices)))
  | o => exController o
  end.

Example service_beyond_first_page :
  exServiceDetail "shop" ∈ exServices ∧
  answer exDefaultPage (@FindServiceByName asciiTables exParsers true "shop") = Some (inr None).
Proof.
  split; [unfold exServices; apply elem_of_app; right; left|vm_compute; reflexivity].
Qed.
