(* ===== verification/ClientErrors.v ===== *)
(** * The management client: errors

    The errors that the calls of the client are answered with, and that the
    error of a program is one of them or one that the client makes up. *)

From S2P Require Import Prelude GoSlices GoStrings Errors ZitiTypes Credentials RestModel.
From S2P Require Import World ZitiClient ClientSessions.

#[local] Open Scope mz_scope.

(** ** The errors of a trace *)

Definition errorOf {A} (r : result A) : option error := match r with inl err => Some err | inr _ => None end.

Definition failedRest (o : restOp) : restResp o → option error :=
  match o return restResp o → option error with
  | RDetailIdentity _ | RListIdentities _ _ | RGetIdentityEnrollments _ | RDetailEnrollment _
  | RDetailService _ | RListServices | RDetailConfig _ | RListConfigTypes _ _ | RListEdgeRouters _ _
  | RDetailServicePolicy _ | RListServicePolicies _ _ | RDetailSerp _ | RListSerps _ _
  | RCreateIdentity _ | RCreateEnrollment _ | RCreateService _ | RCreateConfig _
  | RCreateServicePolicy _ | RCreateSerp _
  | RUpdateIdentity _ _ | RPatchIdentity _ _ | RDeleteIdentity _ | RUpdateService _ _
  | RDeleteService _ | RUpdateConfig _ _ | RDeleteConfig _ | RUpdateServicePolicy _ _
  | RDeleteServicePolicy _ | RUpdateSerp _ _ | RDeleteSerp _ => λ r, errorOf r
  end.

(** The error that a call was answered with. *)
Definition failure (e : event clientOp clientResp) : option error :=
  match e with
  | Ev LoadConfig r => errorOf r
  | Ev (Login _) r => errorOf r
  | Ev (Rest _ o) r => failedRest o r
  | _ => None
  end.

Definition failures (h : ctrace) : list error := omap failure h.

(** The error of a method. *)
Definition failedZiti (o : zitiOp) : zitiResp o → option error :=
  match o return zitiResp o → option error with
  | OpGetIdentity _ | OpFindIdentityByName _ | OpCreateIdentity _ | OpUpdateIdentity _
  | OpListIdentities | OpGetEnrollmentJWT _ | OpGetService _ | OpFindServiceByName _
  | OpCreateService _ | OpUpdateService _ | OpGetConfig _ | OpCreateConfig _ | OpUpdateConfig _
  | OpFindEdgeRouterByName _ | OpGetAccessPolicy _ | OpFindAccessPolicyByName _
  | OpCreateAccessPolicy _ | OpUpdateAccessPolicy _ | OpGetServiceEdgeRouterPolicy _
  | OpFindServiceEdgeRouterPolicyByName _ | OpCreateServiceEdgeRouterPolicy _
  | OpUpdateServiceEdgeRouterPolicy _ | OpPatchIdentityRoleAttributes _ _ | OpDeleteIdentity _
  | OpDeleteService _ | OpDeleteConfig _ | OpDeleteAccessPolicy _
  | OpDeleteServiceEdgeRouterPolicy _ => λ r, errorOf r
  end.

(** The errors that the client may handle: by logging in again, by taking the
    object as missing, by looking for the enrollment of another creator. *)
Definition tolerated (err : error) : Prop :=
  isStatusCode err 401 = true ∨ isStatusCode err 403 = true ∨
  isStatusCode err 404 = true ∨ isStatusCode err 409 = true.

(** The errors that the client makes up. *)
Definition ownError (err : error) : Prop := ∃ message, rootCause err = ErrorString message.

(** All errors [E] of a run are accounted for by its outcome. *)
Definition verdict (E : list error) (answer : option error) : Prop :=
  (∀ er, er ∈ E → tolerated er ∨ ∃ err, answer = Some err ∧ rootCause err = rootCause er) ∧
  (∀ err, answer = Some err → ownError err ∨ ∃ er, er ∈ E ∧ rootCause err = rootCause er).

Definition clean (h : ctrace) : Prop := Forall tolerated (failures h).

Lemma tolerated_root a b : rootCause a = rootCause b → tolerated a → tolerated b.
Proof. unfold tolerated, isStatusCode. by intros ->. Qed.

Lemma failures_snoc h e :
  failures (h ++ [e]) = failures h ++ match failure e with Some er => [er] | None => [] end.
Proof. unfold failures. rewrite omap_app. cbn. by destruct (failure e). Qed.

Lemma clean_snoc h e : clean h → (∀ er, failure e = Some er → tolerated er) → clean (h ++ [e]).
Proof.
  unfold clean. rewrite failures_snoc. intros Hh He. apply Forall_app. split; [done|].
  destruct (failure e); [|done]. constructor; [by apply He|done].
Qed.

Lemma verdict_clean_ok h : clean h → verdict (failures h) None.
Proof. unfold clean. rewrite Forall_forall. intros Hh. split; [|done]. intros. left. by apply Hh. Qed.

Lemma verdict_own h err : clean h → ownError err → verdict (failures h) (Some err).
Proof.
  unfold clean. rewrite Forall_forall. intros Hh Ho. split; [intros; left; by apply Hh|].
  intros ? [= <-]. by left.
Qed.

Lemma verdict_last h e er err :
  clean h → failure e = Some er → rootCause err = rootCause er → verdict (failures (h ++ [e])) (Some err).
Proof.
  unfold clean. rewrite Forall_forall, failures_snoc. intros Hh -> Hr. split.
  - intros x [Hx| ->%list_elem_of_singleton]%elem_of_app; [left; by apply Hh|]. right. by exists err.
  - intros ? [= <-]. right. exists er. split; [|done]. apply elem_of_app. right. by left.
Qed.

(** What is left when the error of a step is handled, or passed on. *)
Lemma verdict_handled h : verdict (failures h) None → clean h.
Proof.
  intros [Hv _]. apply Forall_forall. intros er [?|(? & ? & _)]%Hv; done.
Qed.

Lemma verdict_tolerated h err : verdict (failures h) (Some err) → tolerated err → clean h.
Proof.
  intros [Hv _] Ht. apply Forall_forall. intros er [?|(? & [= <-] & Hr)]%Hv; [done|].
  by eapply tolerated_root.
Qed.

Lemma verdict_root E a b : rootCause a = rootCause b → verdict E (Some a) → verdict E (Some b).
Proof.
  intros Hr [Hv Ho]. split.
  - intros er [?|(? & [= <-] & Hx)]%Hv; [by left|]. right. exists b. split; [done|]. congruence.
  - intros ? [= <-]. destruct (Ho a eq_refl) as [[m Hm]|(er & Her & Hx)].
    + left. exists m. congruence.
    + right. exists er. split; [done|congruence].
Qed.

(** ** Programs that account for their errors *)

Section Honest.
Context `{UnicodeTables} `{CredentialParsers}.

Definition anyCall (h : ctrace) (o : clientOp) : Prop := True.

Definition honest {A} (p : client (result A)) : Prop :=
  ∀ h, clean h → wp anyCall p (λ r h', verdict (failures h') (errorOf r)) h.

Lemma honest_ok {A} (a : A) : honest (Ret (inr a)).
Proof. intros h Hh. by apply verdict_clean_ok. Qed.

Lemma honest_own {A} err : ownError err → honest (Ret (inl err) : client (result A)).
Proof. intros Ho h Hh. by apply verdict_own. Qed.

(** A fallible step whose error is handled, or passed on with more context. *)
Lemma honest_handle {A B} (p : client (result A)) (handle : error → client (result B))
    (next : A → client (result B)) :
  honest p → (∀ a, honest (next a)) →
  (∀ err, (tolerated err ∧ honest (handle err)) ∨
     ∃ err', handle err = Ret (inl err') ∧ rootCause err' = rootCause err) →
  honest (bind p (λ r, match r with inl err => handle err | inr a => next a end)).
Proof.
  intros Hp Hnext Hhandle h Hh. apply wp_bind. eapply wp_mono; [done| |by apply Hp].
  intros [err|a] h' Hv; cbn in Hv.
  - destruct (Hhandle err) as [[Ht Ho]|(err' & -> & Hr)].
    { apply Ho. by eapply verdict_tolerated. }
    cbn. by eapply verdict_root.
  - by apply Hnext, verdict_handled.
Qed.

Lemma honest_then {A B} (p : client (result A)) (wrap : error → error) (next : A → client (result B)) :
  (∀ err, rootCause (wrap err) = rootCause err) → honest p → (∀ a, honest (next a)) →
  honest (bind p (λ r, match r with inl err => Ret (inl (wrap err)) | inr a => next a end)).
Proof. intros Hw Hp Hn. apply honest_handle; [done..|]. intros err. right. by exists (wrap err). Qed.

(** An error with the given status is handled, every other one is wrapped. *)
Lemma honest_unless {A B} (p : client (result A)) code (wrap : error → error)
    (handle : error → client (result B)) (next : A → client (result B)) :
  (∀ err, isStatusCode err code = true → tolerated err) →
  (∀ err, rootCause (wrap err) = rootCause err) →
  honest p → (∀ a, honest (next a)) → (∀ err, honest (handle err)) →
  honest (bind p (λ r, match r with
    | inl err => if isStatusCode err code then handle err else Ret (inl (wrap err))
    | inr a => next a
    end)).
Proof.
  intros Ht Hw Hp Hn Hh. apply honest_handle; [done..|]. intros err.
  destruct (isStatusCode err code) eqn:E; [left; auto|]. right. by exists (wrap err).
Qed.

Lemma tolerated_404 err : isStatusCode err 404 = true → tolerated err.
Proof. unfold tolerated. auto. Qed.

(** A single fallible call. *)
Lemma honest_vis {A} (o : clientOp) (k : clientResp o → client (result A)) :
  (∀ r h, clean h → failure (cev o r) = None → clean (h ++ [cev o r]) → 
     wp anyCall (k r) (λ r h', verdict (failures h') (errorOf r)) (h ++ [cev o r])) →
  (∀ r h er, clean h → failure (cev o r) = Some er →
     wp anyCall (k r) (λ r h', verdict (failures h') (errorOf r)) (h ++ [cev o r])) →
  honest (Vis o k).
Proof.
  intros Hok Herr h Hh. split; [done|]. intros r. destruct (failure (cev o r)) eqn:E; [by eapply Herr|].
  apply Hok; [done..|]. apply clean_snoc; [done|]. by rewrite E.
Qed.

End Honest.

(** Proves that one fallible call is honest. *)
Ltac honest_call :=
  let r := fresh "r" in let Hf := fresh "Hf" in
  apply honest_vis; intros r ?; [intros ? Hf ?|intros ? ? Hf];
  destruct r; try discriminate Hf; cbn [wp errorOf]; first [by eapply verdict_last; [|reflexivity|reflexivity] | by apply verdict_clean_ok].

Section Methods.
Context `{UnicodeTables} `{CredentialParsers}.

Lemma honest_load : honest (loadCurrentConfig true).
Proof. honest_call. Qed.

Lemma honest_login cfg : honest (perform (Login cfg)).
Proof. honest_call. Qed.

(** A call that cannot fail. *)
Lemma honest_quiet {A} (o : clientOp) (k : clientResp o → client (result A)) :
  (∀ r, failure (cev o r) = None) → (∀ r, honest (k r)) → honest (bind (perform o) k).
Proof.
  intros Ho Hk. apply honest_vis; intros r h; [|intros er]; intros Hh Hf; [|by rewrite Ho in Hf].
  intros Hc. by apply Hk.
Qed.

(** ** Sessions *)

Lemma honest_getOrAuthenticate force : honest (getOrAuthenticate (loadCurrentConfig true) force).
Proof.
  unfold getOrAuthenticate. apply (honest_then _ id); [done|apply honest_load|]. intros cfg.
  apply honest_quiet; [done|]. intros [cached old]. destruct (if negb force && sameManagementConfig old cfg then cached else None); [apply honest_ok|].
  unfold authenticateWithUPDB. destruct (rootCAsFromConfig cfg) as [err|] eqn:Hca.
  - apply honest_own. revert Hca. unfold rootCAsFromConfig. repeat case_test; intros [= <-]. by eexists.
  - apply (honest_then (bind _ _) id); [done| |].
    + apply honest_then; [done|apply honest_login|]. intros. apply honest_ok.
    + intros api. apply honest_quiet; [done|]. intros []. apply honest_ok.
Qed.

Lemma honest_use {A} (fn : session → client (result A)) : (∀ api, honest (fn api)) → honest (use true fn).
Proof.
  intros Hfn. unfold use, useAuthenticatedClient.
  apply (honest_then _ id); [done|apply honest_getOrAuthenticate|]. intros api.
  apply honest_handle; [done|intros; apply honest_ok|]. intros err.
  destruct (shouldReauthenticate err) eqn:E; cbn [negb]; [|right; by exists err]. left. split.
  - unfold tolerated. apply orb_true_iff in E as [?|?]; auto.
  - apply honest_quiet; [done|]. intros [].
    apply (honest_then _ id); [done|apply honest_getOrAuthenticate|done].
Qed.

Lemma honest_createIfMissing {A} (updated create : client (result A)) :
  honest updated → honest create → honest (createIfMissing updated create).
Proof.
  intros Hu Hc. apply (honest_unless _ 404 id); [apply tolerated_404|done..|intros; apply honest_ok|done].
Qed.

(** ** The methods *)

Lemma honest_getOrNil {D A} action (detail : session → client (result D)) (from : D → result (option A)) api :
  honest (detail api) → (∀ d, honest (Ret (from d))) → honest (getOrNil action detail from api).
Proof.
  intros Hd Hf. apply (honest_unless _ 404); [apply tolerated_404|done..|intros; apply honest_ok].
Qed.

Lemma honest_extract {A} created (next : string → client (result A)) :
  (∀ id, honest (next id)) →
  honest (match extractCreatedID created with inl err => Ret (inl err) | inr id => next id end).
Proof.
  intros Hn. destruct (extractCreatedID created) as [err|id] eqn:E; [|done]. apply honest_own.
  revert E. unfold extractCreatedID. destruct created as [[id|]|]; [case_test| |]; intros [= <-]; by eexists.
Qed.

Lemma honest_readBack {D A} action (detail : session → string → client (result D))
    (from : D → result (option A)) api created :
  (∀ id, honest (detail api id)) → (∀ d, honest (Ret (from d))) →
  honest (readBack action detail from api created).
Proof. intros Hd Hf. apply honest_extract. intros id. by apply honest_then. Qed.

Lemma honest_createAndRead {A} action (create : session → client (result CreateEnvelope))
    (back : session → CreateEnvelope → client (result A)) api :
  honest (create api) → (∀ created, honest (back api created)) →
  honest (createAndRead action create back api).
Proof. intros. by apply honest_then. Qed.

Lemma honest_updateAndRead {A} action id (update : session → client (result unit))
    (back : session → CreateEnvelope → client (result A)) api :
  honest (update api) → (∀ created, honest (back api created)) →
  honest (updateAndRead action id update back api).
Proof.
  intros. apply honest_handle; [done|intros; done|]. intros err. right.
  case_test; [by exists err|by eexists].
Qed.

Lemma honest_deleteOrMissing action (delete : session → client (result unit)) api :
  honest (delete api) → honest (deleteOrMissing action delete api).
Proof.
  intros. apply (honest_unless _ 404); [apply tolerated_404|done..|intros; apply honest_ok
    |intros; apply honest_ok].
Qed.

Lemma honest_findPaged {D A} action (fetch : Z → Z → client (result (listing D)))
    (from : option D → option A) hit fuel offset :
  (∀ limit offset, honest (fetch limit offset)) → honest (findPaged action fetch from hit fuel offset).
Proof.
  intros Hf. revert offset. induction fuel as [|fuel IH]; intros offset; cbn [findPaged]; [done|].
  apply honest_then; [done..|]. intros [data|]; [|apply honest_ok]. destruct (head _); [apply honest_ok|].
  cbv zeta. case_test; [apply honest_ok|apply IH].
Qed.

Lemma identityFromEnvelope_own e err : identityFromEnvelope e = inl err → ownError err.
Proof.
  unfold identityFromEnvelope. destruct e as [[detail|]|]; [|by intros [= <-]; eexists..].
  destruct (RestIdentID detail), (RestIdentName detail), (RestIdentType detail);
    try (by intros [= <-]; eexists). case_test; [by intros [= <-]; eexists|done].
Qed.

Lemma pageIdentities_own items err : pageIdentities items = inl err → ownError err.
Proof.
  induction items as [|item items IH]; cbn [pageIdentities]; [done|].
  destruct (identityFromEnvelope (Some item)) as [e|] eqn:E.
  - intros [= <-]. by apply identityFromEnvelope_own in E.
  - destruct (pageIdentities items); [|done]. intros [= <-]. by apply IH.
Qed.

Lemma honest_listIdentities api fuel offset acc : honest (listIdentities api fuel offset acc).
Proof.
  revert offset acc. induction fuel as [|fuel IH]; intros offset acc; cbn [listIdentities]; [done|].
  apply honest_then; [done|honest_call|]. intros [[data|]|]; [|apply honest_own; by eexists..].
  destruct (pageIdentities data) as [err|page] eqn:E; [apply honest_own; by eapply pageIdentities_own|].
  cbv zeta. case_test; [apply honest_ok|apply IH].
Qed.

Lemma honest_findConfigType api name fuel offset : honest (findConfigType api name fuel offset).
Proof.
  revert offset. induction fuel as [|fuel IH]; intros offset; cbn [findConfigType]; [done|].
  apply honest_then; [done|honest_call|]. intros [data|]; [|apply honest_own; by eexists].
  cbv zeta. destruct (head _) as [[]|]; [apply honest_ok|].
  case_test; [apply honest_own; by eexists|apply IH].
Qed.

Lemma honest_createOTT api id : honest (createOTTEnrollment api id).
Proof.
  unfold createOTTEnrollment. apply honest_quiet; [done|]. intros now.
  apply honest_then; [done|honest_call|]. intros created. apply honest_extract. intros eid.
  apply honest_then; [done|honest_call|]. intros. apply honest_ok.
Qed.

Lemma honest_enrollmentJWT id api : honest (enrollmentJWT id api).
Proof.
  unfold enrollmentJWT. apply honest_then; [done|honest_call|]. intros enrollments. cbv zeta.
  case_test; [apply honest_ok|]. intros h Hh. apply wp_bind.
  eapply wp_mono; [done| |by apply honest_createOTT]. intros [err|e] h' Hv; cbn [errorOf] in Hv.
  - destruct (isStatusCode err 409) eqn:E; [|done]. cbn [bind rest call wp]. split; [done|].
    assert (tolerated err) as Ht by (unfold tolerated; auto).
    pose proof (verdict_tolerated _ _ Hv Ht) as Hc. intros [listErr|e]; cbn [wp errorOf].
    + by eapply verdict_last; [|reflexivity|].
    + case_test; cbn [wp errorOf]; rewrite failures_snoc; cbn [failure failedRest errorOf];
        rewrite app_nil_r; [by apply verdict_clean_ok|done].
  - pose proof (verdict_handled _ Hv).
    destruct e as [[detail|]|]; [case_test|..]; [by apply verdict_clean_ok| ..];
      apply verdict_own; try done; by eexists.
Qed.

Lemma honest_ret_present {A} (r : result A) :
  (∀ err, r = inl err → ownError err) → honest (Ret (present r)).
Proof.
  intros Hr. destruct r as [err|a]; [|apply honest_ok]. by apply honest_own, Hr.
Qed.

Lemma honest_identityDetail e : honest (Ret (identityDetail e)).
Proof. apply honest_ret_present. apply identityFromEnvelope_own. Qed.

End Methods.

(** Proves that a method is honest from the lemmas on what methods share. *)
Ltac honest_method :=
  repeat first
    [ progress intros
    | apply honest_createIfMissing | apply honest_use | apply honest_getOrNil
    | apply honest_createAndRead | apply honest_updateAndRead | apply honest_deleteOrMissing
    | apply honest_readBack | apply honest_findPaged | apply honest_identityDetail
    | apply honest_listIdentities | apply honest_enrollmentJWT | apply honest_ok
    | honest_call ].

Section Client.
Context `{UnicodeTables} `{CredentialParsers} (pages : nat).

Lemma honest_configCreation cfg api :
  honest
    (let! r := resolveConfigTypeID pages api (ConfigType cfg) in
     match r with
     | inl err => Ret (inl err)
     | inr configTypeID =>
         createAndRead "create config" (λ api, rest api (RCreateConfig (toConfigCreate cfg configTypeID)))
           getConfigByID api
     end).
Proof.
  apply (honest_then _ id); [done| |].
  - unfold resolveConfigTypeID. cbv zeta. case_test; [apply honest_own; by eexists|apply honest_findConfigType].
  - intros. honest_method.
Qed.

Lemma honest_CreateConfig cfg : honest (CreateConfig true pages cfg).
Proof. apply honest_use, honest_configCreation. Qed.

Lemma honest_serviceLookup name api :
  honest
    (let! r := rest api RListServices in
     match r with
     | inl err => Ret (inl (wrapAPICallError "list services" err))
     | inr None => Fault NilDereference
     | inr (Some data) =>
         Ret (inr (head (List.filter (λ s, bool_decide (ServiceName s = name))
                           (omap (λ item, serviceFromEnvelope (Some item)) (default [] data)))))
     end).
Proof. apply honest_then; [done|honest_call|]. intros [data|]; [apply honest_ok|done]. Qed.

End Client.
