(* ===== verification/ClientBlame.v ===== *)
(** * The management client: trouble

    What becomes of the answers of the calls of the client that say that
    something is wrong: how each one is handled, and that every other one ends
    the method and is the cause of its error. *)

From S2P Require Import Prelude GoSlices GoStrings Errors ZitiTypes Credentials RestModel.
From S2P Require Import World ZitiClient ClientSessions ClientErrors.

#[local] Open Scope mz_scope.

(** ** The trouble of a call *)

(** The configuration document of a method. *)
Definition methodConfig (m : zitiOp) : option ServiceConfig :=
  match m with OpCreateConfig cfg | OpUpdateConfig cfg => Some cfg | _ => None end.

Section Trouble.
Context `{UnicodeTables} `{CredentialParsers}.

(** No config type of the last page has the name. *)
Definition typeMissing (name : string) (page : listing ConfigTypeDetail) : bool :=
  match page with
  | None => true
  | Some data =>
      let items := omap configTypeItem (default [] data) in
      negb (existsb (λ item, bool_decide (TrimSpace item.2 = name)) items) &&
      (Z.of_nat (length items) <? pageLimit)%Z
  end.

Definition hasJWT (e : envelope EnrollmentDetail) : bool :=
  match e with
  | Some (Some detail) => negb (bool_decide (TrimSpace (RestEnrollmentJWT detail) = ""))
  | _ => false
  end.

(** What the method [m] reports about an answer that is not an error: a created
    object without an ID, an identity without one of its fields, a list without
    data, a type of configs that is not there, an enrollment without a token. *)
Definition complaintRest (m : zitiOp) (o : restOp) : restResp o → option error :=
  match o return restResp o → option error with
  | RCreateIdentity _ | RCreateEnrollment _ | RCreateService _ | RCreateConfig _
  | RCreateServicePolicy _ | RCreateSerp _ => λ r,
      match r with inr created => errorOf (extractCreatedID created) | inl _ => None end
  | RUpdateIdentity id _ | RUpdateService id _ | RUpdateConfig id _ | RUpdateServicePolicy id _
  | RUpdateSerp id _ => λ r,
      match r with inr _ => errorOf (extractCreatedID (Some (Some id))) | inl _ => None end
  | RDetailIdentity _ => λ r,
      match r with inr e => errorOf (identityFromEnvelope e) | inl _ => None end
  | RListIdentities _ _ => λ r,
      match r with
      | inr (Some (Some data)) => errorOf (pageIdentities data)
      | inr _ => Some (ErrorString "identity list response has no data")
      | inl _ => None
      end
  | RListConfigTypes _ _ => λ r,
      match r, methodConfig m with
      | inr page, Some cfg =>
          let name := TrimSpace (ConfigType cfg) in
          if typeMissing name page
          then Some (ErrorString ("config type " +:+ Quote name +:+ " not found")) else None
      | _, _ => None
      end
  | RDetailEnrollment _ => λ r,
      match r, m with
      | inr e, OpGetEnrollmentJWT id =>
          if hasJWT e then None
          else Some (ErrorString ("identity " +:+ id +:+ " has no enrollment jwt"))
      | _, _ => None
      end
  | _ => λ _, None
  end.

Definition complaint (m : zitiOp) (e : event clientOp clientResp) : option error :=
  match e with Ev (Rest _ o) r => complaintRest m o r | _ => None end.

(** What is wrong with the answer of a call of the method [m]. *)
Definition trouble (m : zitiOp) (e : event clientOp clientResp) : option error :=
  match failure e with Some er => Some er | None => complaint m e end.

(** ** How trouble is handled *)

(** The object that the method reads or deletes is asked for. *)
Definition ownObject (m : zitiOp) (o : clientOp) : Prop :=
  match m, o with
  | OpGetIdentity id, Rest _ (RDetailIdentity id') | OpDeleteIdentity id, Rest _ (RDeleteIdentity id')
  | OpGetService id, Rest _ (RDetailService id') | OpDeleteService id, Rest _ (RDeleteService id')
  | OpGetConfig id, Rest _ (RDetailConfig id') | OpDeleteConfig id, Rest _ (RDeleteConfig id')
  | OpGetAccessPolicy id, Rest _ (RDetailServicePolicy id')
  | OpDeleteAccessPolicy id, Rest _ (RDeleteServicePolicy id')
  | OpGetServiceEdgeRouterPolicy id, Rest _ (RDetailSerp id')
  | OpDeleteServiceEdgeRouterPolicy id, Rest _ (RDeleteSerp id') => id' = id
  | _, _ => False
  end.

(** A call of the update of [m]: a login, the update, or reading it back. *)
Definition updateCall (m : zitiOp) (o : clientOp) : Prop :=
  match m with
  | OpUpdateIdentity _ | OpUpdateService _ | OpUpdateConfig _ | OpUpdateAccessPolicy _
  | OpUpdateServiceEdgeRouterPolicy _ =>
      match o with LoadConfig | Login _ => True | _ => False end
  | _ => False
  end ∨
  match m, o with
  | OpUpdateIdentity i, Rest _ (RUpdateIdentity id _) => id = IdentID i
  | OpUpdateService s, Rest _ (RUpdateService id _) => id = ServiceID s
  | OpUpdateConfig c, Rest _ (RUpdateConfig id _) => id = ConfigID c
  | OpUpdateAccessPolicy p, Rest _ (RUpdateServicePolicy id _) => id = PolicyID p
  | OpUpdateServiceEdgeRouterPolicy p, Rest _ (RUpdateSerp id _) => id = SerpID p
  | OpUpdateIdentity _, Rest _ (RDetailIdentity _) | OpUpdateService _, Rest _ (RDetailService _)
  | OpUpdateConfig _, Rest _ (RDetailConfig _) | OpUpdateAccessPolicy _, Rest _ (RDetailServicePolicy _)
  | OpUpdateServiceEdgeRouterPolicy _, Rest _ (RDetailSerp _) => True
  | _, _ => False
  end.

(** A call of the creation of an enrollment for [m]. *)
Definition enrollmentCall (m : zitiOp) (o : clientOp) : Prop :=
  match m, o with
  | OpGetEnrollmentJWT _, Rest _ (RCreateEnrollment _ | RDetailEnrollment _) => True
  | _, _ => False
  end.

(** The error [er] of the call [o] is handled, when [next] is the call that
    follows it, if any: a refused session by dropping it; an update of a missing
    object by starting its creation; an enrollment that exists already by
    listing the enrollments; and a missing object is the answer of a method
    that reads or deletes it. *)
Definition handled (m : zitiOp) (o : clientOp) (er : error) (next : option clientOp) : Prop :=
  match next with
  | Some LockedInvalidate => isStatusCode er 401 = true ∨ isStatusCode er 403 = true
  | Some LoadConfig => updateCall m o ∧ isStatusCode er 404 = true
  | Some (Rest _ (RGetIdentityEnrollments id)) =>
      m = OpGetEnrollmentJWT id ∧ enrollmentCall m o ∧ isStatusCode er 409 = true
  | Some _ => False
  | None => ownObject m o ∧ isStatusCode er 404 = true
  end.

Definition nextCall (t : ctrace) (next : option clientOp) : option clientOp :=
  match t with [] => next | e :: _ => Some (ev_op e) end.

(** All trouble of the trace is handled, when [next] follows it. *)
Fixpoint clean (m : zitiOp) (t : ctrace) (next : option clientOp) : Prop :=
  match t with
  | [] => True
  | e :: t =>
      (∀ er, trouble m e = Some er → handled m (ev_op e) er (nextCall t next)) ∧ clean m t next
  end.

(** The error [err] is the trouble of the last call, all other trouble was
    handled; or everything was handled, and the client reports that the CA
    bundle of the loaded credentials is invalid, that the type of the config is
    blank, or the error of the creation of an enrollment, when the list that
    was read after it has none either. *)
Definition blamed (m : zitiOp) (t : ctrace) (err : error) : Prop :=
  (∃ t0 e er, t = t0 ++ [e] ∧ clean m t0 (Some (ev_op e)) ∧ trouble m e = Some er ∧
     rootCause err = rootCause er) ∨
  (∃ t0 cfg cached, t = t0 ++ [cev LoadConfig (inr cfg); cev LockedRead cached] ∧ clean m t None ∧
     rootCAsFromConfig cfg = Some err) ∨
  (∃ cfg, methodConfig m = Some cfg ∧ TrimSpace (ConfigType cfg) = "" ∧ clean m t None ∧
     err = ErrorString "config type name must not be empty") ∨
  (∃ t0 e er api id enrollments,
     t = t0 ++ [e; cev (Rest api (RGetIdentityEnrollments id)) (inr enrollments)] ∧ clean m t None ∧
     failure e = Some er ∧ rootCause err = rootCause er ∧ isStatusCode er 409 = true ∧
     TrimSpace (enrollmentJWTFromList enrollments) = "").

End Trouble.

(** ** Programs that account for their trouble *)

Section Accounts.
Context `{UnicodeTables} `{CredentialParsers} (m : zitiOp).

Lemma clean_next t e next :
  clean m t (Some (ev_op e)) → (∀ er, trouble m e = Some er → handled m (ev_op e) er next) →
  clean m (t ++ [e]) next.
Proof.
  induction t as [|x t IH]; cbn [app clean]; [by split|]. intros [Hx Ht] He.
  split; [|by apply IH]. by destruct t.
Qed.

(** No trouble is left for the next call. *)
Definition settled (t : ctrace) : Prop := ∀ next, clean m t next.

(** The method may end here. *)
Definition finished (t : ctrace) : Prop := clean m t None.

Lemma settled_snoc t e : clean m t (Some (ev_op e)) → trouble m e = None → settled (t ++ [e]).
Proof. intros Ht He next. apply clean_next; [done|]. by rewrite He. Qed.

(** The last call, one of [G], is the cause of the error. *)
Definition lastCall (G : clientOp → Prop) (t : ctrace) (err : error) : Prop :=
  ∃ t0 e er, t = t0 ++ [e] ∧ G (ev_op e) ∧ clean m t0 (Some (ev_op e)) ∧ trouble m e = Some er ∧
    rootCause err = rootCause er.

(** A success, for which [S] holds, or an error that is blamed on the last call
    or, without a status that could be handled, on something else. *)
Definition account (G : clientOp → Prop) (S : ctrace → Prop) (t : ctrace) (answer : option error) : Prop :=
  match answer with
  | None => S t
  | Some err =>
      lastCall G t err ∨
      blamed m t err ∧ ∀ code, code ∈ [401; 403; 404]%Z → isStatusCode err code = false
  end.

Abbreviation accounts G S p t := (wp anyCall p (λ r t', account G S t' (errorOf r)) t).

(** From a history without open trouble, the program accounts for its own. *)
Definition sound (G : clientOp → Prop) (S : ctrace → Prop) {A} (p : client (result A)) : Prop :=
  ∀ t, settled t → accounts G S p t.

Definition anyOp (o : clientOp) : Prop := True.

Lemma account_blamed G t err : account G finished t (Some err) → blamed m t err.
Proof. intros [(t0 & e & er & ? & _ & ?)|[? _]]; [left; by exists t0, e, er|done]. Qed.

(** An error with a status that is handled comes from the last call. *)
Lemma account_status G S t err code :
  account G S t (Some err) → code ∈ [401; 403; 404]%Z → isStatusCode err code = true →
  ∃ t0 e er, t = t0 ++ [e] ∧ G (ev_op e) ∧ clean m t0 (Some (ev_op e)) ∧ trouble m e = Some er ∧
    isStatusCode er code = true ∧ rootCause err = rootCause er.
Proof.
  intros [(t0 & e & er & -> & Hg & Hc & Ht & Hr)|[_ Hn]] Hin Hs; [|rewrite (Hn _ Hin) in Hs; done].
  exists t0, e, er. split_and!; try done. unfold isStatusCode in *. by rewrite <-Hr.
Qed.

Lemma account_any G S S' t answer :
  (∀ t, S t → S' t) → account G S t answer → account anyOp S' t answer.
Proof.
  intros HS. destruct answer as [err|]; cbn; [|apply HS].
  intros [(t0 & e & er & ? & ? & ? & ? & ?)|?]; [left|by right]. by exists t0, e, er.
Qed.

Lemma blame_last (G : clientOp → Prop) S (o : clientOp) (r : clientResp o) t err er :
  G o → clean m t (Some o) → trouble m (cev o r) = Some er → rootCause err = rootCause er →
  account G S (t ++ [cev o r]) (Some err).
Proof. intros. left. by exists t, (cev o r), er. Qed.

Lemma sound_ok G {A} (a : A) : sound G finished (Ret (inr a)).
Proof. intros t Ht. apply Ht. Qed.

Lemma sound_settled G {A} (a : A) : sound G settled (Ret (inr a)).
Proof. by intros t Ht. Qed.

Lemma sound_finished G {A} (p : client (result A)) : sound G settled p → sound G finished p.
Proof.
  intros Hp t Ht. eapply wp_mono; [done| |by apply Hp]. intros [err|a] t'; cbn; [done|]. intros Hs. apply Hs.
Qed.

(** A call: without trouble the program goes on; trouble is returned. *)
Lemma sound_call (G : clientOp → Prop) S {A} (o : clientOp) (k : clientResp o → client (result A)) :
  (∀ r, trouble m (cev o r) = None → sound G S (k r)) →
  (∀ r er, trouble m (cev o r) = Some er → G o ∧ ∃ err, k r = Ret (inl err) ∧ rootCause err = rootCause er) →
  sound G S (Vis o k).
Proof.
  intros Hok Htr t Ht. split; [done|]. intros r. destruct (trouble m (cev o r)) as [er|] eqn:E.
  - destruct (Htr r er E) as (Hg & err & -> & Hr). cbn [wp errorOf]. by apply (blame_last _ _ _ _ _ _ er).
  - apply Hok; [done|]. by apply settled_snoc.
Qed.

(** A step whose error is returned as it is. *)
Lemma sound_then G S {A B} (p : client (result A)) (next : A → client (result B)) :
  sound G settled p → (∀ a, sound G S (next a)) →
  sound G S (bind p (λ r, match r with inl err => Ret (inl err) | inr a => next a end)).
Proof.
  intros Hp Hn t Ht. apply wp_bind. eapply wp_mono; [done| |by apply Hp].
  intros [err|a] t' Ha; cbn in Ha; [exact Ha|by apply Hn].
Qed.

(** A call without trouble. *)
Lemma sound_quiet G S {A} (o : clientOp) (k : clientResp o → client (result A)) :
  (∀ r, trouble m (cev o r) = None) → (∀ r, sound G S (k r)) → sound G S (Vis o k).
Proof. intros Ho Hk. apply sound_call; [by intros|]. intros r er. by rewrite Ho. Qed.

(** ** Sessions *)

Context (G : clientOp → Prop) (G_load : G LoadConfig) (G_login : ∀ cfg, G (Login cfg)).

Lemma rootCAs_plain cfg err code : rootCAsFromConfig cfg = Some err → isStatusCode err code = false.
Proof. unfold rootCAsFromConfig. repeat case_test; by intros [= <-]. Qed.

Lemma getOrAuthenticate_accounts force t :
  clean m t (Some LoadConfig) →
  accounts G settled (getOrAuthenticate (loadCurrentConfig true) force) t.
Proof.
  intros Ht. unfold getOrAuthenticate. cbn [loadCurrentConfig negb bind perform call wp]. split; [done|].
  intros [err|cfg].
  { cbn [wp errorOf]. by eapply blame_last. }
  assert (settled (t ++ [cev LoadConfig (inr cfg)])) as H1 by by apply settled_snoc.
  split; [done|]. intros [cached old].
  assert (settled ((t ++ [cev LoadConfig (inr cfg)]) ++ [cev LockedRead (cached, old)])) as H2
    by (apply settled_snoc; [apply H1|done]).
  destruct (if negb force && sameManagementConfig old cfg then cached else None); [exact H2|].
  unfold authenticateWithUPDB. destruct (rootCAsFromConfig cfg) as [err|] eqn:Hca.
  - right. split; [|intros; by eapply rootCAs_plain]. right. left.
    exists t, cfg, (cached, old). rewrite <-app_assoc in *. split_and!; [done|apply H2|done].
  - cbn [bind perform call wp]. split; [done|]. intros [err|api].
    + cbn [bind wp errorOf]. eapply blame_last; [done|apply H2|done|done].
    + cbn [bind perform call wp]. split; [done|]. intros []. cbn [wp errorOf].
      apply settled_snoc; [|done]. by apply settled_snoc; [apply H2|].
Qed.

Lemma use_accounts S {A} (fn : session → client (result A)) t :
  (∀ api, sound G S (fn api)) → clean m t (Some LoadConfig) → accounts G S (use true fn) t.
Proof.
  intros Hfn Ht. unfold use, useAuthenticatedClient. apply wp_bind.
  eapply wp_mono; [done| |by apply getOrAuthenticate_accounts]. intros [err|api] t1 H1; [exact H1|].
  apply wp_bind. eapply wp_mono; [done| |by apply Hfn]. intros [err|a] t2 H2; [|exact H2].
  destruct (shouldReauthenticate err) eqn:E; cbn [negb]; [|exact H2].
  cbn [bind perform call wp]. split; [done|]. intros [].
  assert (settled (t2 ++ [cev LockedInvalidate tt])) as H3.
  { assert (∃ code, code ∈ [401; 403]%Z ∧ isStatusCode err code = true) as (code & Hin & Hcode).
    { unfold shouldReauthenticate in E. apply orb_true_iff in E as [?|?]; eexists; (split; [|done]); set_solver. }
    destruct (account_status _ _ _ _ code H2) as (t0 & e & er & -> & _ & Hc & Htr & Hs & _); [set_solver|done|].
    apply settled_snoc; [|done]. apply clean_next; [done|]. intros er'. rewrite Htr. intros [= <-].
    cbn. apply list_elem_of_In in Hin as [<-|[<-|[]]]; [by left|by right]. }
  apply wp_bind. eapply wp_mono; [done| |apply getOrAuthenticate_accounts, H3].
  intros [authErr|api'] t4 H4; [exact H4|by apply Hfn].
Qed.

End Accounts.

(** ** What methods share *)

(** A call whose trouble ends the method. *)
Ltac account_call :=
  unfold rest, perform; cbn [bind call];
  apply sound_call;
  [ let r := fresh "r" in let Htr := fresh "Htr" in intros r Htr;
    first [destruct r as [?err|?x]; [try discriminate Htr|] | idtac]
  | let r := fresh "r" in let er := fresh "er" in let Htr := fresh "Htr" in
    intros r er Htr; split; [try first [exact I | right; reflexivity | right; exact I]|];
    first
      [ discriminate Htr
      | destruct r as [?err|?x];
        [ try (injection Htr as <-; repeat case_test; eexists; (split; [reflexivity|reflexivity]))
        | try discriminate Htr ] ] ].

Section Shared.
Context `{UnicodeTables} `{CredentialParsers} (m : zitiOp).

(** A call that asks for the object of the method: it may be missing. *)
Lemma sound_own (G : clientOp → Prop) {A} (o : clientOp) (k : clientResp o → client (result A)) :
  ownObject m o → G o →
  (∀ r, trouble m (cev o r) = None → sound m G (finished m) (k r)) →
  (∀ r er, trouble m (cev o r) = Some er →
     isStatusCode er 404 = true ∧ (∃ a, k r = Ret (inr a)) ∨
     ∃ err, k r = Ret (inl err) ∧ rootCause err = rootCause er) →
  sound m G (finished m) (Vis o k).
Proof.
  intros Ho Hg Hok Htr t Ht. split; [done|]. intros r. destruct (trouble m (cev o r)) as [er|] eqn:E.
  - destruct (Htr r er E) as [[Hs [a ->]]|(err & -> & Hr)]; cbn [wp errorOf].
    + apply clean_next; [apply Ht|]. rewrite E. by intros ? [= <-].
    + by apply (blame_last _ _ _ _ _ _ _ er).
  - apply Hok; [done|]. by apply settled_snoc.
Qed.

(** Reading back what was created or updated. *)
Lemma sound_readBack G S {D A} action (detail : session → string → client (result D))
    (from : D → result (option A)) api created :
  errorOf (extractCreatedID created) = None →
  (∀ id, sound m G S (bind (detail api id) (λ r,
     match r with inl err => Ret (inl (wrapAPICallError action err)) | inr payload => Ret (from payload) end))) →
  sound m G S (readBack action detail from api created).
Proof. intros Hc Hd. unfold readBack. destruct (extractCreatedID created); [done|]. apply Hd. Qed.

Lemma readBack_blamed {D A} action (detail : session → string → client (result D))
    (from : D → result (option A)) api created er :
  errorOf (extractCreatedID created) = Some er →
  readBack action detail from api created = Ret (inl er).
Proof. unfold readBack. destruct (extractCreatedID created); by intros [= <-]. Qed.

Lemma identityDetail_ok e : errorOf (identityFromEnvelope e) = None → ∃ a, identityDetail e = inr a.
Proof. unfold identityDetail. destruct (identityFromEnvelope e); [done|]. by eexists. Qed.

Lemma identityDetail_blamed e er : errorOf (identityFromEnvelope e) = Some er → identityDetail e = inl er.
Proof. unfold identityDetail. destruct (identityFromEnvelope e); [|done]. by intros [= ->]. Qed.

(** An update, or else the creation. *)
Lemma createIfMissing_accounts S {A} (updated create : client (result A)) t :
  wp anyCall updated (λ r t', account m (updateCall m) (settled m) t' (errorOf r)) t →
  (∀ t, clean m t (Some LoadConfig) → wp anyCall create (λ r t', account m anyOp S t' (errorOf r)) t) →
  (∀ t, settled m t → S t) →
  wp anyCall (createIfMissing updated create) (λ r t', account m anyOp S t' (errorOf r)) t.
Proof.
  intros Hu Hc HS. unfold createIfMissing. apply wp_bind. eapply wp_mono; [done| |exact Hu].
  intros [err|a] t' Ha; [|by apply HS]. destruct (isStatusCode err 404) eqn:E.
  - apply Hc. destruct (account_status _ _ _ _ _ 404 Ha) as (t0 & e & er & -> & Hg & Hcl & Htr & Hs & _);
      [set_solver|done|]. apply clean_next; [done|]. rewrite Htr. by intros ? [= <-].
  - by apply (account_any _ (updateCall m) (settled m)).
Qed.

(** A call that lists a page. *)
Definition listsPage {D} (fetch : Z → Z → client (result (listing D))) : Prop :=
  ∀ limit offset A S (k : result (listing D) → client (result A)),
    (∀ x, sound m anyOp S (k (inr x))) →
    (∀ err, ∃ err', k (inl err) = Ret (inl err') ∧ rootCause err' = rootCause err) →
    sound m anyOp S (bind (fetch limit offset) k).

Lemma sound_findPaged {D A} action (fetch : Z → Z → client (result (listing D)))
    (from : option D → option A) hit fuel offset :
  listsPage fetch → sound m anyOp (settled m) (findPaged action fetch from hit fuel offset).
Proof.
  intros Hf. revert offset. induction fuel as [|fuel IH]; intros offset; cbn [findPaged]; [done|].
  apply Hf; [|by intros; eexists]. intros [data|]; [|apply sound_settled].
  cbv zeta. destruct (head _); [apply sound_settled|]. case_test; [apply sound_settled|apply IH].
Qed.

Lemma sound_listIdentities api fuel offset acc :
  sound m anyOp (settled m) (listIdentities api fuel offset acc).
Proof.
  revert offset acc. induction fuel as [|fuel IH]; intros offset acc; cbn [listIdentities]; [done|].
  account_call.
  - destruct x as [[data|]|]; [|discriminate Htr..]. cbn in Htr.
    destruct (pageIdentities data); [discriminate Htr|]. cbv zeta. case_test; [apply sound_settled|apply IH].
  - destruct x as [[data|]|]; cbn in Htr; [|injection Htr as <-; by eexists..].
    destruct (pageIdentities data) as [e|]; [|discriminate Htr]. injection Htr as <-. by eexists.
Qed.

(** The search for a type of configs agrees with [typeMissing]. *)
Lemma typeMissing_spec name data :
  let items := omap configTypeItem (default [] data) in
  let found := head (List.filter (λ item, bool_decide (TrimSpace item.2 = name)) items) in
  let count := Z.of_nat (length items) in
  typeMissing name (Some data) =
    bool_decide (found = None) && ((count =? 0)%Z || (count <? pageLimit)%Z).
Proof.
  cbv zeta. unfold typeMissing. generalize (omap configTypeItem (default [] data)). intros items.
  assert (negb (existsb (λ item : string * string, bool_decide (TrimSpace item.2 = name)) items) =
    bool_decide (head (List.filter (λ item, bool_decide (TrimSpace item.2 = name)) items) = None)) as ->.
  { induction items as [|i items IH]; [done|]. cbn [existsb List.filter].
    destruct (bool_decide (TrimSpace i.2 = name)); [done|exact IH]. }
  f_equal. destruct (Z.eqb_spec (Z.of_nat (length items)) 0) as [->|]; done.
Qed.

Lemma sound_findConfigType cfg api fuel offset :
  methodConfig m = Some cfg →
  sound m anyOp (settled m) (findConfigType api (TrimSpace (ConfigType cfg)) fuel offset).
Proof.
  intros Hm. revert offset. induction fuel as [|fuel IH]; intros offset; cbn [findConfigType]; [done|].
  account_call; cbn in Htr; rewrite Hm in Htr.
  - destruct x as [data|]; [|discriminate Htr]. rewrite typeMissing_spec in Htr. cbv zeta.
    destruct (head _) as [[id type]|]; [apply sound_settled|].
    destruct (_ || _); [discriminate Htr|apply IH].
  - destruct x as [data|]; [|injection Htr as <-; by eexists]. rewrite typeMissing_spec in Htr. cbv zeta in *.
    destruct (head _) as [[id type]|]; [discriminate Htr|].
    destruct (_ || _); [|discriminate Htr]. injection Htr as <-. by eexists.
Qed.

Lemma sound_resolveConfigTypeID cfg pages api :
  methodConfig m = Some cfg → sound m anyOp (settled m) (resolveConfigTypeID pages api (ConfigType cfg)).
Proof.
  intros Hm. unfold resolveConfigTypeID. cbv zeta. case_bool_decide as Hb; [|by apply sound_findConfigType].
  intros t Ht. right. split; [|done]. right. right. left. exists cfg. split_and!; [done..|apply Ht|done].
Qed.

End Shared.

(** ** The methods *)

(** Proves the account of a function of a method, call by call. *)
Ltac account_fn :=
  unfold getOrNil, deleteOrMissing, createAndRead, updateAndRead, getIdentityByID, getServiceByID,
    getConfigByID, getAccessPolicyByID, getServiceEdgeRouterPolicyByID, rest, perform;
  cbn [bind call];
  repeat first
    [ apply sound_ok
    | apply sound_settled
    | progress cbn [bind call]
    | match goal with |- sound _ _ _ (Vis _ _) => account_call end
    | match goal with Htr : trouble _ _ = None |- sound _ _ _ (readBack _ _ _ _ _) =>
        apply sound_readBack; [exact Htr|intros ?id] end
    | match goal with Htr : trouble _ _ = None |- sound _ _ _ (Ret (identityDetail ?e)) =>
        destruct (identityDetail_ok e Htr) as [?a ->] end
    | match goal with Htr : trouble _ _ = Some ?er |- ∃ err, readBack _ _ _ _ _ = _ ∧ _ =>
        exists er; split; [apply readBack_blamed; exact Htr|reflexivity] end
    | match goal with Htr : trouble _ _ = Some ?er |- ∃ err, Ret (identityDetail ?e) = _ ∧ _ =>
        exists er; split; [by rewrite (identityDetail_blamed e er Htr)|reflexivity] end ].

(** The function of a method that reads or deletes its object. *)
Ltac account_own :=
  intros api; unfold getOrNil, deleteOrMissing, rest; cbn [bind call];
  apply sound_own; [reflexivity|exact I| |];
  [ let r := fresh "r" in let Htr := fresh "Htr" in
    intros r Htr; destruct r as [?err|?x]; [discriminate Htr|];
    first [ apply sound_ok
          | match type of Htr with trouble _ (Ev _ (inr ?e)) = None =>
              destruct (identityDetail_ok e Htr) as [?a ->]; apply sound_ok end ]
  | let r := fresh "r" in let er := fresh "er" in let Htr := fresh "Htr" in
    intros r er Htr; destruct r as [err|x];
    [ injection Htr as <-; destruct (isStatusCode err 404); [left; split; [reflexivity|by eexists]|right; by eexists]
    | first [ discriminate Htr
            | right; exists er; by rewrite (identityDetail_blamed x er Htr) ] ] ].

Section Methods.
Context `{UnicodeTables} `{CredentialParsers} (pages : nat).

Lemma lists_edgeRouters m api : listsPage m (λ limit offset, rest api (RListEdgeRouters limit offset)).
Proof. intros limit offset A S k Hok Herr. account_call; [apply Hok|]. injection Htr as <-. apply Herr. Qed.

Lemma lists_servicePolicies m api : listsPage m (λ limit offset, rest api (RListServicePolicies limit offset)).
Proof. intros limit offset A S k Hok Herr. account_call; [apply Hok|]. injection Htr as <-. apply Herr. Qed.

Lemma lists_serps m api : listsPage m (λ limit offset, rest api (RListSerps limit offset)).
Proof. intros limit offset A S k Hok Herr. account_call; [apply Hok|]. injection Htr as <-. apply Herr. Qed.

(** The enrollment could not be created; when there is one already it is looked
    for. *)
Lemma enrollment_exists id api t e er err :
  let m := OpGetEnrollmentJWT id in
  clean m t (Some (ev_op e)) → enrollmentCall m (ev_op e) → failure e = Some er →
  rootCause err = rootCause er →
  wp anyCall
    (if isStatusCode err 409 then
       let! r := rest api (RGetIdentityEnrollments id) in
       match r with
       | inl listErr => Ret (inl (wrapAPICallError "list identity enrollments" listErr))
       | inr enrollments =>
           let jwt := enrollmentJWTFromList enrollments in
           if negb (bool_decide (TrimSpace jwt = "")) then Ret (inr jwt) else Ret (inl err)
       end
     else Ret (inl err))
    (λ r t', account m anyOp (finished m) t' (errorOf r)) (t ++ [e]).
Proof.
  intros m Ht He Hf Hr. assert (trouble m e = Some er) as Htr by (unfold trouble; by rewrite Hf).
  destruct (isStatusCode err 409) eqn:E.
  - assert (isStatusCode er 409 = true) as Hs by (unfold isStatusCode in *; by rewrite <-Hr).
    assert (clean m (t ++ [e]) (Some (Rest api (RGetIdentityEnrollments id)))) as Hc.
    { apply clean_next; [done|]. rewrite Htr. by intros ? [= <-]. }
    cbn [bind rest call wp]. split; [done|]. intros [listErr|enrollments]; cbn [wp errorOf].
    + by eapply blame_last.
    + assert (settled m ((t ++ [e]) ++ [cev (Rest api (RGetIdentityEnrollments id)) (inr enrollments)])) as Hd
        by (by apply settled_snoc).
      case_bool_decide as Hj; cbn [negb wp errorOf account]; [|apply Hd]. right. split.
      * right. right. right. exists t, e, er, api, id, enrollments.
        rewrite <-app_assoc in *. split_and!; [done|apply Hd|done..].
      * intros code Hcode. unfold isStatusCode in *. destruct (rootCause err); try done.
        apply Z.eqb_eq in E as ->. by apply list_elem_of_In in Hcode as [<-|[<-|[<-|[]]]].
  - cbn [wp errorOf]. left. by exists t, e, er.
Qed.

Lemma sound_enrollmentJWT id api :
  sound (OpGetEnrollmentJWT id) anyOp (finished (OpGetEnrollmentJWT id)) (enrollmentJWT id api).
Proof.
  unfold enrollmentJWT. account_call. cbv zeta. case_test; [apply sound_ok|].
  unfold createOTTEnrollment, perform. cbn [bind call]. apply sound_quiet; [done|]. intros now.
  unfold rest. cbn [bind call]. intros t Ht. split; [done|]. intros [err|created].
  { cbn [bind]. by apply (enrollment_exists _ _ _ _ err). }
  destruct (extractCreatedID created) as [er|eid] eqn:Hc.
  { cbn [bind]. assert (isStatusCode er 409 = false) as ->.
    { revert Hc. unfold extractCreatedID. destruct created as [[c|]|]; [case_test| |]; by intros [= <-]. }
    cbn [wp errorOf]. eapply blame_last; [done|apply Ht|cbn; by rewrite Hc|done]. }
  cbn [bind call wp]. split; [done|].
  assert (settled (OpGetEnrollmentJWT id) (t ++ [cev (Rest api (RCreateEnrollment
    {| NewEnrollmentIdentityID := id; NewEnrollmentMethod := EnrollmentCreateMethodOtt;
       NewEnrollmentExpiresAt := now + enrollmentLifetime |})) (inr created)])) as H1.
  { apply settled_snoc; [apply Ht|]. cbn. by rewrite Hc. }
  intros [err|e].
  { cbn [bind]. apply (enrollment_exists _ _ _ _ err); [apply H1|done..]. }
  destruct (hasJWT e) eqn:Hj; destruct e as [[detail|]|]; cbn in Hj; try discriminate Hj;
    cbn [bind]; rewrite ?Hj; cbn [wp errorOf].
  - apply settled_snoc; [apply H1|]. cbn. by rewrite Hj.
  - eapply blame_last; [done|apply H1|cbn; by rewrite Hj|done].
  - eapply blame_last; [done|apply H1|done|done].
  - eapply blame_last; [done|apply H1|done|done].
Qed.

Lemma sound_configCreation m cfg api :
  methodConfig m = Some cfg ∨ (∃ c, methodConfig m = Some c ∧ ConfigType c = ConfigType cfg) →
  sound m anyOp (settled m)
    (let! r := resolveConfigTypeID pages api (ConfigType cfg) in
     match r with
     | inl err => Ret (inl err)
     | inr configTypeID =>
         createAndRead "create config" (λ api, rest api (RCreateConfig (toConfigCreate cfg configTypeID)))
           getConfigByID api
     end).
Proof.
  intros Hm. apply (sound_then m anyOp).
  - assert (∃ c, methodConfig m = Some c ∧ ConfigType c = ConfigType cfg) as (c & Hc & <-)
      by (destruct Hm as [?|?]; [by exists cfg|done]).
    by apply sound_resolveConfigTypeID.
  - intros configTypeID. account_fn.
Qed.

(** A method is a session around its function, and an update is two. *)
Lemma sound_use_accounts m G S {A} (fn : session → client (result A)) t :
  (∀ o, G o) → (∀ api, sound m G S (fn api)) → clean m t (Some LoadConfig) →
  wp anyCall (use true fn) (λ r t', account m G S t' (errorOf r)) t.
Proof. intros HG Hfn Ht. by apply use_accounts. Qed.

Lemma update_accounts m {A} (fn : session → client (result A)) (create : client (result A)) t :
  updateCall m LoadConfig → (∀ cfg, updateCall m (Login cfg)) →
  (∀ api, sound m (updateCall m) (settled m) (fn api)) →
  (∀ t, clean m t (Some LoadConfig) →
     wp anyCall create (λ r t', account m anyOp (finished m) t' (errorOf r)) t) →
  settled m t →
  wp anyCall (createIfMissing (use true fn) create)
    (λ r t', account m anyOp (finished m) t' (errorOf r)) t.
Proof.
  intros Hl Hlog Hfn Hc Ht. apply createIfMissing_accounts; [|done|intros ? Hs; apply Hs].
  apply use_accounts; [done..|apply Ht].
Qed.

Lemma implement_accounts o :
  wp anyCall (implement pages o) (λ r t', account o anyOp (finished o) t' (failedZiti o r)) [].
Proof.
  assert (settled o []) as H0t by done.
  destruct o; cbn [implement failedZiti].
  all: try (apply sound_use_accounts; [done| |done]).
  all: try solve [account_own | intros api; account_fn].
  all: try (apply update_accounts; [by left|by left| | |done]).
  all: try solve [intros api; account_fn | intros t Ht; apply sound_use_accounts; [done|intros api; account_fn|done]].
  - unfold FindIdentityByName. apply wp_bind.
    set (m := OpFindIdentityByName name) in *.
    eapply wp_mono; [done| |apply (sound_use_accounts m anyOp (settled m));
      [done|intros; apply sound_listIdentities|done]].
    intros [err|l] t Ha; cbn [wp errorOf]; [|apply Ha]. exact Ha.
  - intros api. apply sound_finished, sound_listIdentities.
  - intros api. apply sound_enrollmentJWT.
  - intros api. unfold rest. cbn [bind call]. account_call. destruct x; [apply sound_ok|done].
  - intros api. apply sound_finished, sound_configCreation. by left.
  - intros t Ht. apply sound_use_accounts; [done| |done]. intros api.
    apply sound_finished, sound_configCreation. right. by exists cfg.
  - intros api. apply sound_finished, sound_findPaged, lists_edgeRouters.
  - intros api. apply sound_finished, sound_findPaged, lists_servicePolicies.
  - intros api. apply sound_finished, sound_findPaged, lists_serps.
Qed.

(** C31. No error is lost, none is made up, and each is handled as it should be.
    When a method of the client succeeds, then every error that one of its
    calls was answered with, and every answer that lacks what the method needs
    of it, was handled: a refused session (401 or 403) by dropping it at once
    and starting over; the 404 of an update by starting the creation at once;
    the 409 of the creation of an enrollment by listing the enrollments at once;
    and a method that reads or deletes an object may end with the 404 of
    exactly this object.  Nothing else is handled.  When the method fails, all
    trouble but the last was handled in these ways, and the cause of the
    method's error is the trouble of the very last call, or, after calls without
    open trouble, the invalid CA bundle of the credentials just loaded, the
    blank type of the config, or the conflict of an enrollment that cannot be
    found either. *)
Theorem errors_surface (o : zitiOp) (t : ctrace) (r : zitiResp o) :
  runs (implement pages o) t r →
  match failedZiti o r with
  | None => clean o t None
  | Some err => blamed o t err
  end.
Proof.
  intros Hr. apply (wp_runs _ _ _ _ _ _ (implement_accounts o)) in Hr. cbn [app] in Hr.
  destruct (failedZiti o r); [by eapply account_blamed|exact Hr].
Qed.

End Methods.

(** ** A concrete call

    The session is refused, and the identity cannot be read in the new one. *)
Definition exRefusedCalls : ctrace :=
  [cev LoadConfig (inr exManagementConfig); cev LockedRead (Some 3, exManagementConfig);
   cev (Rest 3 (RDetailIdentity "x")) (inl (CodedError 401 "unauthorized"));
   cev LockedInvalidate tt; cev LoadConfig (inr exManagementConfig); cev LockedRead (None, exManagementConfig);
   cev (Login exManagementConfig) (inr 4); cev (LockedStore 4 exManagementConfig) tt;
   cev (Rest 4 (RDetailIdentity "x")) (inl (CodedError 500 "internal"))].

Lemma errors_surface_witness :
  let result := inl (WrapError "get identity" (CodedError 500 "internal")) in
  runs (@implement asciiTables exParsers 5 (OpGetIdentity "x")) exRefusedCalls result ∧
  @blamed asciiTables exParsers (OpGetIdentity "x") exRefusedCalls
    (WrapError "get identity" (CodedError 500 "internal")).
Proof.
  intros result.
  assert (runs (@implement asciiTables exParsers 5 (OpGetIdentity "x")) exRefusedCalls result) as Hr.
  { unfold exRefusedCalls. repeat (eexists _, _; split; [reflexivity|]). split; reflexivity. }
  split; [exact Hr|].
  exact (@errors_surface asciiTables exParsers 5 (OpGetIdentity "x") exRefusedCalls result Hr).
Defined.

(** A deletion that is answered with a conflict is not handled. *)
Example conflict_not_handled :
  ¬ @clean asciiTables (OpDeleteIdentity "x")
      [cev (Rest 3 (RDeleteIdentity "x")) (inl (CodedError 409 "in use"))] None.
Proof. intros [Hh _]. by destruct (Hh _ eq_refl) as [_ ?]. Qed.
