(* ===== verification/ClientWrites.v ===== *)
(** * The management client: writes

    Which writes a method makes on the controller, with which content, and when
    it repeats one. *)

From S2P Require Import Prelude GoSlices GoStrings Errors ZitiTypes Credentials RestModel.
From S2P Require Import World ZitiClient ClientSessions ClientErrors.

#[local] Open Scope mz_scope.

(** ** Writes *)

(** A REST call that changes nothing. *)
Definition readsRest (r : restOp) : bool :=
  match r with
  | RDetailIdentity _ | RListIdentities _ _ | RGetIdentityEnrollments _ | RDetailEnrollment _
  | RDetailService _ | RListServices | RDetailConfig _ | RListConfigTypes _ _ | RListEdgeRouters _ _
  | RDetailServicePolicy _ | RListServicePolicies _ _ | RDetailSerp _ | RListSerps _ _ => true
  | _ => false
  end.

Definition isWrite (o : clientOp) : bool := match o with Rest _ r => negb (readsRest r) | _ => false end.

(** The write [r] is the purpose of the method [o]: it concerns the object that
    was passed, with its content. *)
Definition purpose (o : zitiOp) (r : restOp) : Prop :=
  match o, r with
  | OpCreateIdentity i, RCreateIdentity body => body = toIdentityCreate i
  | OpUpdateIdentity i, RUpdateIdentity id body => id = IdentID i ∧ body = toIdentityUpdate i
  | OpPatchIdentityRoleAttributes id attrs, RPatchIdentity id' attrs' => id' = id ∧ attrs' = attrs
  | OpDeleteIdentity id, RDeleteIdentity id' => id' = id
  | OpGetEnrollmentJWT id, RCreateEnrollment body =>
      NewEnrollmentIdentityID body = id ∧ NewEnrollmentMethod body = EnrollmentCreateMethodOtt
  | OpCreateService s, RCreateService body => body = toServiceCreate s
  | OpUpdateService s, RUpdateService id body => id = ServiceID s ∧ body = toServiceUpdate s
  | OpDeleteService id, RDeleteService id' => id' = id
  | OpCreateConfig c, RCreateConfig body =>
      NewConfigName body = ConfigName c ∧ NewConfigData body = ConfigPayload c
  | OpUpdateConfig c, RUpdateConfig id body =>
      id = ConfigID c ∧ UpdConfigName body = ConfigName c ∧ UpdConfigData body = ConfigPayload c
  | OpDeleteConfig id, RDeleteConfig id' => id' = id
  | OpCreateAccessPolicy p, RCreateServicePolicy body => body = toAccessPolicyCreate p
  | OpUpdateAccessPolicy p, RUpdateServicePolicy id body => id = PolicyID p ∧ body = toAccessPolicyUpdate p
  | OpDeleteAccessPolicy id, RDeleteServicePolicy id' => id' = id
  | OpCreateServiceEdgeRouterPolicy p, RCreateSerp body => body = toServiceEdgeRouterPolicyCreate p
  | OpUpdateServiceEdgeRouterPolicy p, RUpdateSerp id body =>
      id = SerpID p ∧ body = toServiceEdgeRouterPolicyUpdate p
  | OpDeleteServiceEdgeRouterPolicy id, RDeleteSerp id' => id' = id
  | _, _ => False
  end.

(** The creation that an update falls back to. *)
Definition fallback (o : zitiOp) : option zitiOp :=
  match o with
  | OpUpdateIdentity i => Some (OpCreateIdentity i)
  | OpUpdateService s => Some (OpCreateService s)
  | OpUpdateConfig c => Some (OpCreateConfig c)
  | OpUpdateAccessPolicy p => Some (OpCreateAccessPolicy p)
  | OpUpdateServiceEdgeRouterPolicy p => Some (OpCreateServiceEdgeRouterPolicy p)
  | _ => None
  end.

(** A call was answered with the status 404. *)
Definition missing (h : ctrace) : Prop := ∃ er, er ∈ failures h ∧ isStatusCode er 404 = true.

(** The answers after which a write is repeated or replaced. *)
Definition refusal (err : error) : bool :=
  isStatusCode err 401 || isStatusCode err 403 || isStatusCode err 404.

Definition writes (h : ctrace) : nat := length (List.filter (λ e, isWrite (ev_op e)) h).
Definition refusals (h : ctrace) : nat := length (List.filter refusal (failures h)).

(** As many refusals as writes so far. *)
Definition paid (h : ctrace) : Prop := writes h ≤ refusals h.

(** What holds for every call of the method [o]. *)
Definition writesOwn (o : zitiOp) (h : ctrace) (c : clientOp) : Prop :=
  match c with
  | Rest _ r =>
      readsRest r = true ∨
      paid h ∧ (purpose o r ∨ missing h ∧ ∃ creation, fallback o = Some creation ∧ purpose creation r)
  | _ => True
  end.

Lemma writes_app h t : writes (h ++ t) = writes h + writes t.
Proof. unfold writes. by rewrite List.filter_app, length_app. Qed.

Lemma refusals_app h t : refusals (h ++ t) = refusals h + refusals t.
Proof. unfold refusals, failures. by rewrite omap_app, List.filter_app, length_app. Qed.

Lemma missing_app h t : missing h → missing (h ++ t).
Proof.
  intros (er & Her & Hs). exists er. split; [|done]. unfold failures. rewrite omap_app.
  apply elem_of_app. by left.
Qed.

Lemma refusal_root a b : rootCause a = rootCause b → refusal a = refusal b.
Proof. unfold refusal, isStatusCode. by intros ->. Qed.

Lemma refusals_in t er : er ∈ failures t → refusal er = true → 1 ≤ refusals t.
Proof.
  intros Her Hr. unfold refusals. destruct (List.filter refusal (failures t)) eqn:E; [|cbn; lia].
  assert (er ∈ List.filter refusal (failures t)) as Hin
    by (apply list_elem_of_In, List.filter_In; by rewrite <-list_elem_of_In).
  rewrite E in Hin. by apply not_elem_of_nil in Hin.
Qed.

(** Proves [only P p] for a program of the client. *)
Ltac silent_calls :=
  repeat first
    [ done
    | progress intros
    | progress cbn [only bind perform rest call negb]
    | split
    | match goal with
      | |- only _ (match ?x with _ => _ end) => destruct x
      | |- only _ (if ?b then _ else _) => destruct b
      | |- only _ (bind (match ?x with _ => _ end) _) => destruct x
      | |- only _ (bind _ _) => apply only_bind
      end ].

Section Writes.
Context `{UnicodeTables} `{CredentialParsers}.

(** An error with a status is the error of a call. *)
Lemma refusal_met {A} (p : client (result A)) t err :
  honest p → runs p t (inl err) → refusal err = true →
  ∃ er, er ∈ failures t ∧ rootCause err = rootCause er.
Proof.
  intros Hp Hr Hs. pose proof (wp_runs _ _ _ _ _ _ (Hp [] (List.Forall_nil _)) Hr) as [_ Ho].
  destruct (Ho err eq_refl) as [[m Hm]|?]; [|done].
  exfalso. revert Hs. unfold refusal, isStatusCode. by rewrite Hm.
Qed.

(** ** One write *)

Definition silent (o : clientOp) : Prop := isWrite o = false.

(** On every path at most one write is made, and all writes satisfy [P]. *)
Fixpoint once (P : restOp → Prop) {A} (p : client A) : Prop :=
  match p with
  | Vis o k =>
      (∃ api r, o = Rest api r ∧ P r ∧ ∀ x, only silent (k x)) ∨ (silent o ∧ ∀ x, once P (k x))
  | _ => True
  end.

Lemma only_once P {A} (p : client A) : only silent p → once P p.
Proof. induction p as [a|f|o k IH]; cbn; [done..|]. intros [? ?]. right. auto. Qed.

Lemma once_bind P {A B} (p : client A) (f : A → client B) :
  once P p → (∀ a, only silent (f a)) → once P (bind p f).
Proof.
  intros Hp Hf. induction p as [a|e|o k IH]; cbn in *; [by apply only_once|done|].
  destruct Hp as [(api & r & -> & Hr & Hk)|[Ho Hk]]; [left|right].
  - exists api, r. split_and!; [done..|]. intros x. by apply only_bind.
  - split; [done|]. intros x. by apply IH.
Qed.

Lemma bind_once P {A B} (p : client A) (f : A → client B) :
  only silent p → (∀ a, once P (f a)) → once P (bind p f).
Proof.
  intros Hp Hf. induction p as [a|e|o k IH]; cbn in *; [done..|]. destruct Hp as [Ho Hk]. right.
  split; [done|]. intros x. by apply IH.
Qed.

Lemma silent_writes {A} (p : client A) t a : only silent p → runs p t a → writes t = 0.
Proof.
  intros Hp Hr. pose proof (only_runs _ _ _ _ Hp Hr) as Ht. clear Hr. unfold writes, silent in *.
  induction Ht as [|e t He Ht IH]; [done|]. cbn. rewrite He. apply IH.
Qed.

Lemma once_writes P {A} (p : client A) t a : once P p → runs p t a → writes t ≤ 1.
Proof.
  revert t. induction p as [x|e|o k IH]; cbn; intros t Hp Hr; [by destruct Hr as [-> _]; cbn; lia|done|].
  destruct Hr as (r & t' & -> & Hr). change (Ev o r :: t') with ([cev o r] ++ t'). rewrite writes_app.
  destruct Hp as [(api & c & -> & _ & Hk)|[Ho Hk]].
  - rewrite (silent_writes (k r) t' a) by done. unfold writes. cbn. case_test; cbn; lia.
  - unfold writes at 1. cbn. unfold silent in Ho. rewrite Ho. cbn. by apply (IH r).
Qed.

Section Guard.
Context (P : restOp → Prop) (I : ctrace → Prop) (I_app : ∀ h t, I h → I (h ++ t)).

Definition guardWrites (h : ctrace) (c : clientOp) : Prop :=
  match c with Rest _ r => readsRest r = true ∨ paid h ∧ P r ∧ I h | _ => True end.

Lemma silent_guard h o : silent o → guardWrites h o.
Proof. destruct o; cbn; try done. unfold silent. cbn. intros ?%negb_false_iff. by left. Qed.

Lemma paid_app_silent h t : writes t = 0 → paid h → paid (h ++ t).
Proof. unfold paid. rewrite writes_app, refusals_app. lia. Qed.

Lemma silent_wp {A} (p : client A) (Φ : A → ctrace → Prop) h :
  only silent p → (∀ t a, runs p t a → Φ a (h ++ t)) → wp guardWrites p Φ h.
Proof. intros Hp. apply (wp_only silent); [done|]. intros. by apply silent_guard. Qed.

Lemma once_guard {A} (p : client A) h :
  once P p → paid h → I h → wp guardWrites p (λ _ _, True) h.
Proof.
  revert h. induction p as [a|e|o k IH]; cbn; intros h Hp Hh Hi; [done..|].
  destruct Hp as [(api & r & -> & Hr & Hk)|[Ho Hk]].
  - split; [by right|]. intros x. by apply silent_wp.
  - split; [by apply silent_guard|]. intros x. apply IH; [done| |by apply I_app].
    apply paid_app_silent; [|done]. unfold writes. cbn. unfold silent in Ho. by rewrite Ho.
Qed.

(** After a refusal the next write is paid for. *)
Definition charged {A} (p : client (result A)) : Prop :=
  ∀ h, paid h → I h →
    wp guardWrites p (λ r h', I h' ∧ ∀ err, r = inl err → refusal err = true → paid h') h.

Lemma charged_once {A} (p : client (result A)) : once P p → honest p → charged p.
Proof.
  intros Ho Hp h Hh Hi. eapply wp_mono; [done| |apply wp_runs_history, once_guard; done].
  intros r h' (_ & t & -> & Hr). split; [by apply I_app|]. intros err -> Hs.
  destruct (refusal_met _ _ _ Hp Hr Hs) as (er & Her & Hroot).
  pose proof (once_writes _ _ _ _ Ho Hr). rewrite (refusal_root _ _ Hroot) in Hs.
  pose proof (refusals_in _ _ Her Hs). unfold paid in *. rewrite writes_app, refusals_app. lia.
Qed.

Lemma getOrAuthenticate_silent force : only silent (getOrAuthenticate (loadCurrentConfig true) force).
Proof.
  unfold getOrAuthenticate, authenticateWithUPDB, loadCurrentConfig. silent_calls.
Qed.

Lemma charged_use {A} (fn : session → client (result A)) :
  (∀ api, charged (fn api)) → charged (use true fn).
Proof.
  intros Hfn h Hh Hi. unfold use, useAuthenticatedClient. apply wp_bind, silent_wp; [apply getOrAuthenticate_silent|].
  intros t [err|api] Hr; pose proof (silent_writes _ _ _ (getOrAuthenticate_silent _) Hr) as Hw.
  { split; [by apply I_app|]. intros. by apply paid_app_silent. }
  apply wp_bind. eapply wp_mono; [done| |apply Hfn; [by apply paid_app_silent|by apply I_app]].
  intros [err|a] h2 [Hi2 Hp]; [|done]. case_test; [done|]. cbn [bind perform call wp]. split; [done|]. intros [].
  assert (paid h2) as Hh2.
  { apply (Hp err); [done|]. apply negb_false_iff in Heqb. unfold shouldReauthenticate in Heqb.
    unfold refusal. by rewrite Heqb. }
  apply wp_bind, silent_wp; [apply getOrAuthenticate_silent|].
  intros t' [authErr|api'] Hr'; pose proof (silent_writes _ _ _ (getOrAuthenticate_silent _) Hr') as Hw'.
  - split; [by repeat apply I_app|]. intros. apply paid_app_silent; [done|]. by apply paid_app_silent.
  - apply Hfn; [|by repeat apply I_app]. apply paid_app_silent; [done|]. by apply paid_app_silent.
Qed.

End Guard.

(** ** The methods *)

Context (pages : nat).

(** The write of a method, and what surrounds it. *)
Ltac write_call := left; eexists _, _; split; [reflexivity|]; split; [|done].

Lemma createAndRead_once P {A} action (create : session → client (result CreateEnvelope))
    (back : session → CreateEnvelope → client (result A)) api :
  once P (create api) → (∀ created, only silent (back api created)) →
  once P (createAndRead action create back api).
Proof. intros Hc Hb. apply once_bind; [done|]. by intros []. Qed.

Lemma updateAndRead_once P {A} action id (update : session → client (result unit))
    (back : session → CreateEnvelope → client (result A)) api :
  once P (update api) → (∀ created, only silent (back api created)) →
  once P (updateAndRead action id update back api).
Proof. intros Hc Hb. apply once_bind; [done|]. intros []; [by case_test|done]. Qed.

Lemma deleteOrMissing_once P action (delete : session → client (result unit)) api :
  once P (delete api) → once P (deleteOrMissing action delete api).
Proof. intros Hc. apply once_bind; [done|]. intros []; [by case_test|done]. Qed.

Lemma readBack_silent {D A} action (detail : session → string → client (result D))
    (from : D → result (option A)) api created :
  (∀ id, only silent (detail api id)) → only silent (readBack action detail from api created).
Proof. intros Hd. unfold readBack. destruct (extractCreatedID created); [done|]. apply only_bind; [done|]. by intros []. Qed.

Lemma enrollmentJWT_once id api : once (purpose (OpGetEnrollmentJWT id)) (enrollmentJWT id api).
Proof.
  unfold enrollmentJWT. apply bind_once; [silent_calls|]. intros [err|enrollments]; [done|]. cbv zeta.
  case_test; [done|]. apply once_bind.
  - unfold createOTTEnrollment. apply bind_once; [done|]. intros now.
    apply once_bind; [by write_call|]. silent_calls.
  - silent_calls.
Qed.

Lemma createConfig_once cfg api :
  once (purpose (OpCreateConfig cfg))
    (let! r := resolveConfigTypeID pages api (ConfigType cfg) in
     match r with
     | inl err => Ret (inl err)
     | inr configTypeID =>
         createAndRead "create config" (λ api, rest api (RCreateConfig (toConfigCreate cfg configTypeID)))
           getConfigByID api
     end).
Proof.
  apply bind_once.
  - unfold resolveConfigTypeID. cbv zeta. case_test; [done|by apply findConfigType_only].
  - intros [err|id]; [done|]. apply createAndRead_once; [|intros; apply readBack_silent; silent_calls].
    write_call. split; [done|apply clonePayload_id].
Qed.

(** Proves the two conditions of [charged_once] for a function of a method. *)
Ltac once_method :=
  first
    [ apply only_once; solve [silent_calls; by first [apply findPaged_only | apply listIdentities_only]]
    | apply createAndRead_once; [by write_call|intros; apply readBack_silent; silent_calls]
    | apply updateAndRead_once; [by write_call|intros; apply readBack_silent; silent_calls]
    | apply deleteOrMissing_once; by write_call
    | apply once_bind; [by write_call|silent_calls] ].

Section Creations.
Context (I : ctrace → Prop) (I_app : ∀ h t, I h → I (h ++ t)).

Lemma CreateIdentity_charged i : charged (purpose (OpCreateIdentity i)) I (CreateIdentity true i).
Proof. apply charged_use; [done|]. intros api. apply charged_once; [done|once_method|honest_method]. Qed.

Lemma CreateService_charged s : charged (purpose (OpCreateService s)) I (CreateService true s).
Proof. apply charged_use; [done|]. intros api. apply charged_once; [done|once_method|honest_method]. Qed.

Lemma CreateAccessPolicy_charged p : charged (purpose (OpCreateAccessPolicy p)) I (CreateAccessPolicy true p).
Proof. apply charged_use; [done|]. intros api. apply charged_once; [done|once_method|honest_method]. Qed.

Lemma CreateServiceEdgeRouterPolicy_charged p :
  charged (purpose (OpCreateServiceEdgeRouterPolicy p)) I (CreateServiceEdgeRouterPolicy true p).
Proof. apply charged_use; [done|]. intros api. apply charged_once; [done|once_method|honest_method]. Qed.

Lemma CreateConfig_charged c : charged (purpose (OpCreateConfig c)) I (CreateConfig true pages c).
Proof.
  apply charged_use; [done|]. intros api.
  apply charged_once; [done|apply createConfig_once|apply honest_configCreation].
Qed.

End Creations.

Definition always (h : ctrace) : Prop := True.

Lemma charged_own o {A} (p : client (result A)) h :
  charged (purpose o) always p → paid h → wp (writesOwn o) p (λ _ _, True) h.
Proof.
  intros Hp Hh. eapply wp_mono; [|done|by apply Hp].
  intros h' c. destruct c; cbn; try done. unfold always. tauto.
Qed.

(** An update that falls back to a creation. *)
Lemma update_own o creation {A} (fn : session → client (result A)) (create : client (result A)) h :
  fallback o = Some creation →
  (∀ api, once (purpose o) (fn api)) → (∀ api, honest (fn api)) → charged (purpose creation) missing create →
  clean h → paid h → wp (writesOwn o) (createIfMissing (use true fn) create) (λ _ _, True) h.
Proof.
  intros Hf Ho Hfn Hc Hclean Hpaid. unfold createIfMissing.
  apply wp_bind.
  assert (charged (purpose o) always (use true fn)) as Hu
    by (apply charged_use; [done|]; intros; by apply charged_once).
  pose proof (wp_conj _ _ _ _ _ _ (honest_use _ Hfn h Hclean) (Hu h Hpaid Logic.I)) as Hboth.
  eapply wp_mono; [|clear Hboth|exact Hboth].
  { intros h' c [_ Hg]. destruct c; cbn in *; try done. tauto. }
  intros [err|a] h' [[_ Hv] [_ Hp]]; [|done]. destruct (isStatusCode err 404) eqn:E; [|done].
  eapply wp_mono; [|done|apply Hc].
  - intros h2 c. destruct c; cbn; try done. rewrite Hf. naive_solver.
  - apply (Hp err); [done|]. unfold refusal. by rewrite E, orb_true_r.
  - destruct (Hv err eq_refl) as [[m Hm]|(er & Her & Hroot)].
    + unfold isStatusCode in E. by rewrite Hm in E.
    + exists er. split; [done|]. unfold isStatusCode in *. by rewrite <-Hroot.
Qed.

Lemma implement_own o h : clean h → paid h → wp (writesOwn o) (implement pages o) (λ _ _, True) h.
Proof.
  intros Hclean Hpaid. destruct o; cbn [implement].
  all: try solve [apply charged_own; [|done]; apply charged_use; [done|]; intros api;
    apply charged_once; [done|once_method|honest_method]].
  - unfold FindIdentityByName. apply wp_bind. eapply wp_mono; [done|by intros [] ? _|].
    apply charged_own; [|done]. apply charged_use; [done|]. intros api.
    apply charged_once; [done|once_method|honest_method].
  - eapply update_own; [reflexivity|intros; once_method|intros; honest_method| |done..].
    exact (CreateIdentity_charged _ missing_app (setIdentID "" identity)).
  - apply charged_own; [|done]. apply charged_use; [done|]. intros api.
    apply charged_once; [done|apply enrollmentJWT_once|apply honest_enrollmentJWT].
  - apply charged_own; [|done]. apply charged_use; [done|]. intros api.
    apply charged_once; [done|once_method|apply honest_serviceLookup].
  - eapply update_own; [reflexivity|intros; once_method|intros; honest_method| |done..].
    exact (CreateService_charged _ missing_app (setServiceID "" service)).
  - apply charged_own; [|done]. by apply CreateConfig_charged.
  - eapply update_own; [reflexivity| |intros; honest_method| |done..].
    + intros api. apply updateAndRead_once; [|intros; apply readBack_silent; silent_calls].
      write_call. split_and!; [done..|apply clonePayload_id].
    + exact (CreateConfig_charged _ missing_app (setServiceConfigID "" cfg)).
  - eapply update_own; [reflexivity|intros; once_method|intros; honest_method| |done..].
    exact (CreateAccessPolicy_charged _ missing_app (setAccessPolicyID "" policy)).
  - eapply update_own; [reflexivity|intros; once_method|intros; honest_method| |done..].
    exact (CreateServiceEdgeRouterPolicy_charged _ missing_app (setEdgeRouterPolicyID "" policy)).
Qed.

(** C32. A method writes what its name says, and repeats a write only after a
    refusal.  Whatever the controller answers, and wherever the method stops:
    every REST call of a method that is not a read is the one of the method, on
    the object that was passed and with its content; only an update may create
    instead, the same content without an ID, and only after the controller
    answered 404; and when a write is made, the method has met at least as many
    refusals (401, 403 or 404) as it made writes before.  The methods that look
    things up never write. *)
Theorem methods_write_own (o : zitiOp) (t : ctrace) (e : event clientOp clientResp) :
  reaches (implement pages o) (t ++ [e]) → writesOwn o t (ev_op e).
Proof.
  intros Hr. apply (wp_reaches _ _ _ [] t e [] (implement_own o [] (List.Forall_nil _) (le_n 0)) Hr).
Qed.

End Writes.

(** ** A concrete update

    The identity is gone, so it is created again. *)
Definition exGone : ctrace :=
  [cev LoadConfig (inr exManagementConfig); cev LockedRead (Some 3, exManagementConfig);
   cev (Rest 3 (RUpdateIdentity "x" {| UpdIdentityName := "n"; UpdIdentityType := "User";
      UpdIdentityIsAdmin := false; UpdIdentityRoleAttributes := ["#a"] |})) (inl (CodedError 404 "gone"));
   cev LoadConfig (inr exManagementConfig); cev LockedRead (Some 3, exManagementConfig)].

Definition exGoneIdentity : Identity :=
  {| IdentID := "x"; IdentName := "n"; IdentType := "User"; IdentRoleAttributes := ["#a"];
     IdentCreateOTT := false; IdentExternalID := "" |}.

Definition exGoneCreation : event clientOp clientResp :=
  cev (Rest 3 (RCreateIdentity (toIdentityCreate exGoneIdentity))) (inr (Some (Some "y"))).

Lemma methods_write_own_witness :
  reaches (@implement asciiTables exParsers 5 (OpUpdateIdentity exGoneIdentity)) (exGone ++ [exGoneCreation]) ∧
  missing exGone ∧ paid exGone.
Proof.
  assert (reaches (@implement asciiTables exParsers 5 (OpUpdateIdentity exGoneIdentity))
    (exGone ++ [exGoneCreation])) as Hr.
  { unfold exGone, exGoneCreation. cbn [app]. repeat (eexists; split; [reflexivity|]). exact I. }
  split; [exact Hr|].
  destruct (@methods_write_own asciiTables exParsers 5 (OpUpdateIdentity exGoneIdentity) exGone
    exGoneCreation Hr) as [Hread|[Hpaid [Hbad|[Hmissing _]]]]; [discriminate Hread|destruct Hbad|].
  split; [exact Hmissing|exact Hpaid].
Defined.

(** A creation is repeated when only its answer was lost: the controller
    creates the object, refuses the session when it is read back, and is asked
    to create it again in the new session. *)
Definition exTwice : ctrace :=
  let body := toServiceCreate {| ServiceID := ""; ServiceName := "s"; ServiceRoleAttributes := [];
                                 ServiceConfigIDs := [] |} in
  [cev LoadConfig (inr exManagementConfig); cev LockedRead (Some 3, exManagementConfig);
   cev (Rest 3 (RCreateService body)) (inr (Some (Some "first")));
   cev (Rest 3 (RDetailService "first")) (inl (CodedError 401 "unauthorized"));
   cev LockedInvalidate tt; cev LoadConfig (inr exManagementConfig); cev LockedRead (None, exManagementConfig);
   cev (Login exManagementConfig) (inr 4); cev (LockedStore 4 exManagementConfig) tt;
   cev (Rest 4 (RCreateService body)) (inr (Some (Some "second")))].

Lemma creation_repeated :
  reaches (@implement asciiTables exParsers 5
    (OpCreateService {| ServiceID := ""; ServiceName := "s"; ServiceRoleAttributes := [];
                        ServiceConfigIDs := [] |})) exTwice.
Proof. unfold exTwice. cbv zeta. repeat (eexists; split; [reflexivity|]). exact I. Qed.
