(* ===== verification/GraphText.v ===== *)
(** * Texts of the Graph client

    What [internal/entra] uses of packages [strings], [strconv], [regexp] and
    [net/url] to build its requests and its error texts, and how substrings
    behave under it. *)

From S2P Require Import Prelude GoStrings.

(** ** Substrings *)

(** [sub] is a substring of [s]. *)
Fixpoint occurs (sub s : string) : bool :=
  String.prefix sub s || match s with "" => false | String _ s' => occurs sub s' end.

(** The byte [c] is in [s]. *)
Fixpoint hasByte (c : ascii) (s : string) : bool :=
  match s with "" => false | String d s' => bool_decide (d = c) || hasByte c s' end.

(** [strings.ReplaceAll] with a non-empty [old]: the pieces between its leftmost
    occurrences; [skip] counts the bytes of an occurrence that remain. *)
Fixpoint splitGo (old : string) (skip : nat) (s : string) : list string :=
  match s with
  | "" => [""]
  | String c s' =>
      match skip with
      | S k => splitGo old k s'
      | O =>
          if String.prefix old s then "" :: splitGo old (pred (String.length old)) s'
          else match splitGo old 0 s' with
               | p :: ps => String c p :: ps
               | [] => []
               end
      end
  end.

Definition ReplaceAll (s old new : string) : string := GoStrings.Join (splitGo old 0 s) new.

(** [strings.Fields] *)
Fixpoint fieldsGo (current : string) (l : list (rune * string)) : list string :=
  match l with
  | [] => if bool_decide (current = "") then [] else [current]
  | (r, bytes) :: l =>
      if isSpace r then
        (if bool_decide (current = "") then fieldsGo "" l else current :: fieldsGo "" l)
      else fieldsGo (current +:+ bytes) l
  end.

Definition Fields (s : string) : list string := fieldsGo "" (chars s).

(** [s[:i]] for the first occurrence [i] of [marker], and [s[:i+1]]. *)
Definition cutBefore (marker s : string) : string :=
  match String.index 0 marker s with Some i => String.substring 0 i s | None => s end.

Definition cutAfterFirstByte (marker s : string) : string :=
  match String.index 0 marker s with Some i => String.substring 0 (S i) s | None => s end.

(** ** Digits *)

Fixpoint digitRun (s : string) : string :=
  match s with String c s' => if isDigit c then String c (digitRun s') else "" | "" => "" end.

(** [regexp.MustCompile(`AADSTS[0-9]+`).FindString] *)
Fixpoint aadCode (s : string) : string :=
  match s with
  | "" => ""
  | String _ s' =>
      let digits := digitRun (String.substring 6 (String.length s) s) in
      if String.prefix "AADSTS" s && negb (bool_decide (digits = "")) then "AADSTS" +:+ digits
      else aadCode s'
  end.

(** [strconv.ParseInt(s, 10, 64)]; [None] is an error. *)
Fixpoint parseDigits (acc : Z) (s : string) : option Z :=
  match s with
  | "" => Some acc
  | String c s' => if isDigit c then parseDigits (10 * acc + (byteZ c - 48)) s' else None
  end.

Definition minInt64 : Z := -9223372036854775808.
Definition maxInt64 : Z := 9223372036854775807.

Definition ParseInt (s : string) : option Z :=
  let signed negative digits :=
    if bool_decide (digits = "") then None
    else match parseDigits 0 digits with
         | None => None
         | Some n =>
             let n := if negative : bool then (- n)%Z else n in
             if (minInt64 <=? n)%Z && (n <=? maxInt64)%Z then Some n else None
         end in
  match s with
  | String "+" digits => signed false digits
  | String "-" digits => signed true digits
  | digits => signed false digits
  end.

(** [strings.TrimRight] with a cutset of one byte. *)
Fixpoint trimRight (c : ascii) (s : string) : string :=
  match s with
  | "" => ""
  | String d s' =>
      let rest := trimRight c s' in
      if bool_decide (rest = "") && bool_decide (d = c) then "" else String d rest
  end.

(** ** [url.PathEscape] *)

Definition isAlphanumeric (c : ascii) : bool :=
  let b := byteZ c in
  ((97 <=? b) && (b <=? 122) || (65 <=? b) && (b <=? 90) || (48 <=? b) && (b <=? 57))%Z.

(** [shouldEscape] of package [net/url] for a path segment. *)
Definition shouldEscape (c : ascii) : bool :=
  negb (isAlphanumeric c ||
        bool_decide (c ∈ ["-"; "_"; "."; "~"; "$"; "&"; "+"; "="; ":"; "@"]%char)).

Definition upperHex (z : Z) : ascii := Zbyte (if (z <? 10)%Z then 48 + z else 55 + z).

Fixpoint PathEscape (s : string) : string :=
  match s with
  | "" => ""
  | String c s' =>
      if shouldEscape c
      then String "%" (String (upperHex (Z.shiftr (byteZ c) 4))
             (String (upperHex (Z.land (byteZ c) 15)) (PathEscape s')))
      else String c (PathEscape s')
  end.

(** ** Lemmas on substrings *)

#[local] Arguments String.append !_ _ : simpl nomatch.

Lemma prefix_nil s : String.prefix "" s = true.
Proof. by destruct s. Qed.

Lemma prefix_trans a b c : String.prefix a b = true → String.prefix b c = true → String.prefix a c = true.
Proof.
  revert b c. induction a as [|x a IH]; intros b c; [intros; apply prefix_nil|].
  destruct b as [|y b]; [done|]. destruct c as [|z c]; [done|]. cbn.
  destruct (ascii_dec x y) as [<-|]; [|done]. destruct (ascii_dec x z) as [<-|]; [|done]. apply IH.
Qed.

Lemma prefix_app a b : String.prefix a (a +:+ b) = true.
Proof. induction a as [|x a IH]; [by rewrite prefix_nil|]. cbn. destruct (ascii_dec x x); [exact IH|congruence]. Qed.

Lemma occurs_cons sub c s : occurs sub s = true → occurs sub (String c s) = true.
Proof. intros H. cbn [occurs]. by rewrite H, orb_true_r. Qed.

Lemma occurs_nil_inv sub : occurs sub "" = true → sub = "".
Proof. by destruct sub. Qed.

Lemma occurs_empty s : occurs "" s = true.
Proof. destruct s; reflexivity. Qed.

Lemma occurs_prefix sub p s : occurs sub p = true → String.prefix p s = true → occurs sub s = true.
Proof.
  revert s. induction p as [|c p IH]; intros s Hsub Hp.
  - apply occurs_nil_inv in Hsub as ->. apply occurs_empty.
  - destruct s as [|d s]; [done|]. cbn [occurs] in Hsub |- *. apply orb_true_iff in Hsub as [Hsub|Hsub].
    + by rewrite (prefix_trans _ _ _ Hsub Hp).
    + cbn in Hp. destruct (ascii_dec c d) as [<-|]; [|done]. rewrite (IH s) by done. apply orb_true_r.
Qed.

Lemma occurs_app_r sub a b : occurs sub b = true → occurs sub (a +:+ b) = true.
Proof. induction a as [|c a IH]; [done|]. intros H. apply occurs_cons. by apply IH. Qed.

Lemma occurs_app_l sub a b : occurs sub a = true → occurs sub (a +:+ b) = true.
Proof. intros H. eapply occurs_prefix; [exact H|apply prefix_app]. Qed.

(** A substring without the byte [c] does not cross it. *)
Lemma prefix_sep sub a c b :
  hasByte c sub = false → String.prefix sub (a +:+ String c b) = true → String.prefix sub a = true.
Proof.
  revert a. induction sub as [|x sub IH]; intros a Hc Hp; [apply prefix_nil|].
  cbn in Hc. apply orb_false_iff in Hc as [Hx%bool_decide_eq_false Hc].
  destruct a as [|y a]; cbn in *.
  - by destruct (ascii_dec x c).
  - destruct (ascii_dec x y); [|done]. by apply IH.
Qed.

Lemma occurs_sep sub a c b :
  hasByte c sub = false → occurs sub (a +:+ String c b) = true →
  occurs sub a = true ∨ occurs sub b = true.
Proof.
  intros Hc. induction a as [|d a IH]; intros H.
  - cbn [String.append occurs] in H. apply orb_true_iff in H as [H|H]; [|by right].
    left. apply (prefix_sep sub "" c b Hc) in H. cbn [occurs]. by rewrite H.
  - change (String d a +:+ String c b) with (String d (a +:+ String c b)) in H. cbn [occurs] in H.
    apply orb_true_iff in H as [H|H].
    + left. apply (prefix_sep sub (String d a) c b Hc) in H. cbn [occurs]. by rewrite H.
    + destruct (IH H) as [?|?]; [left; by apply occurs_cons|by right].
Qed.

(** ** Replacement *)

Lemma hasByte_spec c s : hasByte c s = false → ∀ a b, s ≠ a +:+ String c b.
Proof.
  induction s as [|d s IH]; intros Hs a b; [by destruct a|].
  cbn in Hs. apply orb_false_iff in Hs as [Hd%bool_decide_eq_false Hs].
  destruct a as [|x a]; cbn; [congruence|]. intros [= -> E]. by apply (IH Hs a b).
Qed.

(** The first piece is a prefix. *)
Lemma splitGo_head old s p ps : splitGo old 0 s = p :: ps → String.prefix p s = true.
Proof.
  revert p ps. induction s as [|c s IH]; cbn [splitGo]; intros p ps; [by intros [= <- _]|].
  destruct (String.prefix old (String c s)); [by intros [= <- _]|].
  destruct (splitGo old 0 s) as [|q qs] eqn:E; [done|]. intros [= <- _]. cbn.
  destruct (ascii_dec c c); [by eapply IH|congruence].
Qed.

Lemma splitGo_not_nil old skip s : splitGo old skip s ≠ [].
Proof.
  revert skip. induction s as [|c s IH]; intros skip; [done|]. cbn [splitGo]. destruct skip; [|apply IH].
  destruct (String.prefix old (String c s)); [done|]. by destruct (splitGo old 0 s) eqn:E; [apply IH in E|].
Qed.

(** The pieces are substrings, and [old] is in none of them. *)
Lemma splitGo_pieces old skip s p sub :
  p ∈ splitGo old skip s → occurs sub p = true → occurs sub s = true.
Proof.
  revert skip p. induction s as [|c s IH]; intros skip p Hp Hsub; cbn [splitGo] in Hp.
  - by apply list_elem_of_singleton in Hp as ->.
  - destruct skip as [|k]; [|by apply occurs_cons, (IH k p)].
    destruct (String.prefix old (String c s)) eqn:Hold.
    + apply elem_of_cons in Hp as [->|Hp]; [|by eapply occurs_cons, IH].
      apply occurs_nil_inv in Hsub as ->. apply occurs_empty.
    + destruct (splitGo old 0 s) as [|q qs] eqn:E; [by apply not_elem_of_nil in Hp|].
      apply elem_of_cons in Hp as [->|Hp]; [|apply occurs_cons, (IH 0 p); [rewrite E; by right|done]].
      apply (occurs_prefix sub (String c q)); [done|]. apply splitGo_head in E. cbn.
      destruct (ascii_dec c c); [done|congruence].
Qed.

Lemma splitGo_free old skip s p :
  old ≠ "" → p ∈ splitGo old skip s → occurs old p = false.
Proof.
  intros Hold. revert skip p. induction s as [|c s IH]; intros skip p Hp; cbn [splitGo] in Hp.
  - apply list_elem_of_singleton in Hp as ->. by destruct old.
  - destruct skip as [|k]; [|by eapply IH].
    destruct (String.prefix old (String c s)) eqn:Hpre.
    + apply elem_of_cons in Hp as [->|Hp]; [by destruct old|by eapply IH].
    + destruct (splitGo old 0 s) as [|q qs] eqn:E; [by apply not_elem_of_nil in Hp|].
      apply elem_of_cons in Hp as [->|Hp]; [|apply (IH 0 p); rewrite E; by right].
      cbn [occurs]. rewrite (IH 0 q) by (rewrite E; by left). rewrite orb_false_r.
      apply not_true_is_false. intros Hq. rewrite (prefix_trans _ _ (String c s) Hq) in Hpre; [done|].
      apply splitGo_head in E. cbn. destruct (ascii_dec c c); [done|congruence].
Qed.

(** A substring of joined pieces is in a piece when it cannot touch the glue,
    whose first and last byte it does not have. *)
Lemma occurs_join sub first middle last pieces :
  sub ≠ "" → hasByte first sub = false → hasByte last sub = false → occurs sub middle = false →
  occurs sub (GoStrings.Join pieces (String first (middle +:+ String last ""))) = true →
  ∃ p, p ∈ pieces ∧ occurs sub p = true.
Proof.
  intros Hne Hf Hl Hm. induction pieces as [|p pieces IH]; cbn [GoStrings.Join].
  - intros H%occurs_nil_inv. done.
  - destruct pieces as [|q pieces]; [intros H; exists p; split; [by left|done]|].
    cbn [String.append]. rewrite string_app_assoc. cbn [String.append]. intros H.
    destruct (occurs_sep _ _ _ _ Hf H) as [?|H2]; [exists p; split; [by left|done]|].
    destruct (occurs_sep _ _ _ _ Hl H2) as [?|H3]; [congruence|].
    destruct (IH H3) as (x & Hx & Hox). exists x. split; [by right|done].
Qed.

(** ** Fields *)

Lemma fieldsGo_occurs sub current l f :
  f ∈ fieldsGo current l → occurs sub f = true → occurs sub (current +:+ concat_strings l.*2) = true.
Proof.
  revert current f. induction l as [|[r bytes] l IH]; cbn [fieldsGo fmap list_fmap concat_strings foldr snd];
    intros current f.
  - rewrite string_app_nil_r. case_bool_decide; [by intros ?%not_elem_of_nil|].
    by intros ->%list_elem_of_singleton.
  - destruct (isSpace r).
    + assert (∀ f, f ∈ fieldsGo "" l → occurs sub f = true →
        occurs sub (current +:+ bytes +:+ concat_strings l.*2) = true) as Hrest.
      { intros g Hg Ho. do 2 apply occurs_app_r. by apply (IH "" g Hg). }
      case_bool_decide; [by apply Hrest|]. intros [->|Hf]%elem_of_cons Ho; [by apply occurs_app_l|by eapply Hrest].
    + intros Hf Ho. specialize (IH (current +:+ bytes) f Hf Ho). by rewrite string_app_assoc in IH.
Qed.

Lemma Fields_occurs sub s f : f ∈ Fields s → occurs sub f = true → occurs sub s = true.
Proof. intros Hf Ho. apply (fieldsGo_occurs sub "") in Hf; [|done]. by rewrite chars_concat in Hf. Qed.

(** A substring without a space that occurs in joined fields is in a field. *)
Lemma occurs_join_fields sub fields :
  sub ≠ "" → hasByte " " sub = false → occurs sub (GoStrings.Join fields " ") = true →
  ∃ f, f ∈ fields ∧ occurs sub f = true.
Proof.
  intros Hne Hc. induction fields as [|f fields IH]; cbn [GoStrings.Join]; [by intros ?%occurs_nil_inv|].
  destruct fields as [|g fields]; [intros H; exists f; split; [by left|done]|].
  intros H. cbn [String.append] in H. destruct (occurs_sep _ _ _ _ Hc H) as [?|H2].
  - exists f. split; [by left|done].
  - destruct (IH H2) as (x & Hx & Hox). exists x. split; [by right|done].
Qed.

Lemma substring_prefix n s : String.prefix (String.substring 0 n s) s = true.
Proof.
  revert n. induction s as [|c s IH]; intros [|n]; cbn; [done..|].
  destruct (ascii_dec c c); [apply IH|congruence].
Qed.

Lemma substring_length n s : String.length (String.substring 0 n s) ≤ n.
Proof. revert n. induction s as [|c s IH]; intros [|n]; cbn; [lia..|]. specialize (IH n). lia. Qed.

(** ** Escapes *)

(** *** Splitting at a substring *)

Lemma prefix_split t s : String.prefix t s = true → ∃ b, s = t +:+ b.
Proof.
  revert s. induction t as [|c t IH]; intros s Hp; [by exists s|]. destruct s as [|d s]; [done|].
  change ((if ascii_dec c d then String.prefix t s else false) = true) in Hp.
  destruct (ascii_dec c d) as [<-|]; [|done]. destruct (IH s Hp) as [b ->]. by exists b.
Qed.

(** What [strings.Index] finds, and when it finds nothing. *)
Lemma index_split t s n : String.index 0 t s = Some n → ∃ a b, s = a +:+ t +:+ b ∧ String.length a = n.
Proof.
  revert n. induction s as [|c s IH]; intros n; cbn [String.index].
  - destruct t; [|done]. intros [= <-]. by exists "", "".
  - destruct (String.prefix t (String c s)) eqn:Hp.
    + intros [= <-]. apply prefix_split in Hp as [b ->]. by exists "", b.
    + destruct (String.index 0 t s) as [m|]; [|done]. intros [= <-].
      destruct (IH m eq_refl) as (a & b & -> & <-). by exists (String c a), b.
Qed.

Lemma index_none t s : String.index 0 t s = None → occurs t s = false.
Proof.
  induction s as [|c s IH]; cbn [String.index occurs]; [by destruct t|].
  destruct (String.prefix t (String c s)); [done|]. destruct (String.index 0 t s); [done|]. intros _. by apply IH.
Qed.

Lemma substring_front a b : String.substring 0 (String.length a) (a +:+ b) = a.
Proof. induction a as [|c a IH]; [by destruct b|]. change (String c (String.substring 0 (String.length a) (a +:+ b)) = String c a). by rewrite IH. Qed.

Lemma substring_whole a : String.substring 0 (String.length a) a = a.
Proof. induction a as [|c a IH]; [done|]. cbn. by rewrite IH. Qed.

Lemma substring_back a b : String.substring (String.length a) (String.length b) (a +:+ b) = b.
Proof. induction a as [|c a IH]; [by apply substring_whole|]. exact IH. Qed.

(** The decoding that the server applies to a path segment. *)
Definition hexValue (c : ascii) : Z :=
  let b := byteZ c in if (b <=? 57)%Z then (b - 48)%Z else (b - 55)%Z.

Fixpoint PathUnescape (s : string) : string :=
  match s with
  | String "%" (String h (String l s')) => String (Zbyte (16 * hexValue h + hexValue l)) (PathUnescape s')
  | String c s' => String c (PathUnescape s')
  | "" => ""
  end.

(** The bytes that end a path segment, a quoted key, or the path. *)
Definition delimiters : list ascii := ["/"; "?"; "#"; "'"; "("; ")"; ";"; ","; " "]%char.

Lemma PathEscape_cons c s : PathEscape (String c s) = PathEscape (String c "") +:+ PathEscape s.
Proof. cbn [PathEscape]. by destruct (shouldEscape c). Qed.

Lemma hasByte_app c a b : hasByte c (a +:+ b) = hasByte c a || hasByte c b.
Proof. induction a as [|d a IH]; [done|]. cbn. by rewrite IH, orb_assoc. Qed.

(** All bytes are checked. *)
Lemma PathEscape_byte c :
  forallb (λ d, negb (hasByte d (PathEscape (String c "")))) delimiters = true ∧
  ∀ s, PathUnescape (PathEscape (String c "") +:+ s) = String c (PathUnescape s).
Proof. destruct c as [[] [] [] [] [] [] [] []]; split; reflexivity. Qed.

Lemma PathEscape_delimiters s c : c ∈ delimiters → hasByte c (PathEscape s) = false.
Proof.
  intros Hc. induction s as [|d s IH]; [done|]. rewrite PathEscape_cons, hasByte_app, IH, orb_false_r.
  destruct (PathEscape_byte d) as [Hd _]. rewrite forallb_forall in Hd.
  apply negb_true_iff, Hd. by apply list_elem_of_In.
Qed.

Lemma PathUnescape_PathEscape s : PathUnescape (PathEscape s) = s.
Proof.
  induction s as [|c s IH]; [done|]. rewrite PathEscape_cons.
  destruct (PathEscape_byte c) as [_ ->]. by rewrite IH.
Qed.
