(* ===== verification/GraphErrors.v ===== *)
(** * The errors of the Graph client

    [internal/entra/errors.go]: what a failed token request and a failed Graph
    request turn into.  The bodies are what [encoding/json] decodes from the
    answers; the names of the HTTP statuses and the parser of HTTP dates belong
    to package [net/http] and are fields of a class. *)

From S2P Require Import Prelude GoStrings GraphText Errors.

Class HttpLibrary := {
  statusText : Z → string;
  parseHTTPTime : string → option Z;
}.

(** The part of an [http.Response] that is read: the status and the header
    [Retry-After], which is empty when it is absent. *)
Record httpResponse := { StatusCode : Z; RetryAfterHeader : string }.

(** The body of a failed token request. *)
Record tokenBody := {
  BodyCode : string;
  BodyDescription : string;
  BodyAccessToken : string;
  BodyRefreshToken : string;
  BodyIDToken : string;
}.

(** [oauth2.RetrieveError] *)
Record RetrieveError := { RetrieveBody : tokenBody; RetrieveResponse : option httpResponse }.

Definition redacted : string := "[redacted]".

(** The loop of [sanitize]. *)
Definition redactSecrets (s : string) (secrets : list string) : string :=
  foldl (λ s secret, if bool_decide (secret = "") then s else ReplaceAll s secret redacted) s secrets.

(** [sanitize] *)
Definition sanitize (s : string) (secrets : list string) : string :=
  let s := GoStrings.Join (Fields (redactSecrets s secrets)) " " in
  if 512 <? String.length s then String.substring 0 512 s else s.

Definition second : Z := 1000000000.
Definition StatusTooManyRequests : Z := 429.
Definition StatusServiceUnavailable : Z := 503.

(** [time.Time.Sub] saturates. *)
Definition timeSub (a b : Z) : Z := Z.max minInt64 (Z.min maxInt64 (a - b)).

Section Errors.
Context `{HttpLibrary}.

(** [responseRetryAfter] *)
Definition responseRetryAfter (resp : httpResponse) (now : Z) : Z :=
  if negb (StatusCode resp =? StatusTooManyRequests)%Z && negb (StatusCode resp =? StatusServiceUnavailable)%Z
  then 0
  else
    let value := RetryAfterHeader resp in
    let date :=
      match parseHTTPTime value with
      | Some retry => if (now <? retry)%Z then timeSub retry now else 0
      | None => 0
      end%Z in
    match ParseInt value with
    | Some seconds =>
        if ((0 <? seconds) && (seconds <=? Z.quot maxInt64 second))%Z then (seconds * second)%Z else date
    | None => date
    end.

(** The description without diagnostics that change from answer to answer, and
    up to its first sentence. *)
Definition stableDescription (description : string) : string :=
  cutAfterFirstByte ". "
    (foldl (λ d marker, cutBefore marker d) description ["Trace ID:"; "Correlation ID:"; "Timestamp:"]).

(** [safeTokenError]; [retrieve] is the [RetrieveError] that [errors.As] finds
    in [err]. *)
Definition safeTokenError (retrieve : option RetrieveError) (err : error) (secret : string) (now : Z) : error :=
  match retrieve with
  | None =>
      if errorsIs err Canceled then Canceled
      else if errorsIs err DeadlineExceeded then DeadlineExceeded
      else ErrorString "entra token request failed"
  | Some retrieve =>
      let body := RetrieveBody retrieve in
      let code := aadCode (BodyDescription body) in
      let code := if bool_decide (code = "") then BodyCode body else code in
      let secrets := [secret; BodyAccessToken body; BodyRefreshToken body; BodyIDToken body] in
      EToken
        {| TokenStatusCode := match RetrieveResponse retrieve with Some r => StatusCode r | None => 0 end;
           TokenCode := sanitize code secrets;
           TokenMessage := sanitize (stableDescription (BodyDescription body)) secrets;
           TokenRetryAfter :=
             match RetrieveResponse retrieve with Some r => responseRetryAfter r now | None => 0 end;
           TokenTransient := bool_decide (BodyCode body = "temporarily_unavailable")
                             || bool_decide (BodyCode body = "server_error") |}
  end.

(** [responseError]: [code] and [message] are the members of the body's
    [error]. *)
Definition responseError (resp : httpResponse) (code message secret token : string) (now : Z) : error :=
  let message := sanitize message [secret; token] in
  EGraph
    {| GraphStatusCode := StatusCode resp;
       GraphCode := sanitize code [secret; token];
       GraphMessage := if bool_decide (message = "") then statusText (StatusCode resp) else message;
       GraphRetryAfter := responseRetryAfter resp now |}.

(** ** Redaction *)

(** A secret that the replacement cannot spell: it has no space and no bracket,
    and is not a part of the word that replaces it. *)
Definition unspellable (secret : string) : Prop :=
  secret ≠ "" ∧ hasByte " " secret = false ∧ hasByte "[" secret = false ∧ hasByte "]" secret = false ∧
  occurs secret "redacted" = false.

Lemma ReplaceAll_keeps x s old :
  unspellable x → occurs x s = false → occurs x (ReplaceAll s old redacted) = false.
Proof.
  intros (Hne & _ & Ho & Hc & Hr) Hs. apply not_true_is_false. intros H'.
  apply (occurs_join x "[" "redacted" "]") in H' as (p & Hp & Hx); [|done..].
  by rewrite (splitGo_pieces _ _ _ _ _ Hp Hx) in Hs.
Qed.

Lemma ReplaceAll_removes x s : unspellable x → occurs x (ReplaceAll s x redacted) = false.
Proof.
  intros (Hne & _ & Ho & Hc & Hr). apply not_true_is_false. intros H'.
  apply (occurs_join x "[" "redacted" "]") in H' as (p & Hp & Hx); [|done..].
  by rewrite (splitGo_free _ _ _ _ Hne Hp) in Hx.
Qed.

Lemma redactSecrets_free x s secrets :
  unspellable x → x ∈ secrets ∨ occurs x s = false → occurs x (redactSecrets s secrets) = false.
Proof.
  intros Hx. unfold redactSecrets. revert s. induction secrets as [|y secrets IH]; intros s Hin.
  - by destruct Hin as [?%not_elem_of_nil|].
  - cbn [foldl]. apply IH. destruct Hin as [[->|?]%elem_of_cons|Hs]; [|by left|].
    + right. rewrite bool_decide_false by apply Hx. by apply ReplaceAll_removes.
    + right. case_bool_decide; [done|]. by apply ReplaceAll_keeps.
Qed.

Lemma sanitize_free x s secrets : unspellable x → x ∈ secrets → occurs x (sanitize s secrets) = false.
Proof.
  intros Hx Hin. apply not_true_is_false. intros Hocc.
  assert (occurs x (GoStrings.Join (Fields (redactSecrets s secrets)) " ") = true) as Hj.
  { revert Hocc. unfold sanitize. cbv zeta. case_test; [|done]. intros Hocc.
    eapply occurs_prefix; [exact Hocc|apply substring_prefix]. }
  apply occurs_join_fields in Hj as (f & Hf & Ho); [|apply Hx..].
  apply (Fields_occurs x) in Hf; [|done]. by rewrite redactSecrets_free in Hf by auto.
Qed.

Lemma sanitize_length s secrets : String.length (sanitize s secrets) ≤ 512.
Proof.
  unfold sanitize. cbv zeta. case_test; [apply substring_length|].
  apply Nat.ltb_ge. done.
Qed.

(** The texts that an error carries. *)
Definition carried (err : error) : list string :=
  match err with
  | EToken e => [TokenCode e; TokenMessage e]
  | EGraph e => [GraphCode e; GraphMessage e]
  | _ => []
  end.

(** C33. No secret reaches an error.  A client secret or a token that has no
    space and that the word [[redacted]] cannot spell occurs in no text of a
    token error or of a Graph error, whatever the provider put into its answer,
    and the texts have at most 512 bytes; a failure of another kind becomes one
    of three fixed errors.  The only other text is the name of the status. *)
Theorem errors_redacted (now : Z) :
  (∀ retrieve err secret x s,
     let body := RetrieveBody retrieve in
     x ∈ [secret; BodyAccessToken body; BodyRefreshToken body; BodyIDToken body] → unspellable x →
     s ∈ carried (safeTokenError (Some retrieve) err secret now) →
     occurs x s = false ∧ String.length s ≤ 512) ∧
  (∀ err secret,
     safeTokenError None err secret now ∈
       [Canceled; DeadlineExceeded; ErrorString "entra token request failed"]) ∧
  (∀ resp code message secret token x s,
     x ∈ [secret; token] → unspellable x →
     s ∈ carried (responseError resp code message secret token now) →
     s = statusText (StatusCode resp) ∨ occurs x s = false ∧ String.length s ≤ 512).
Proof.
  split_and!.
  - intros retrieve err secret x s body Hx Hu Hs. cbn [safeTokenError carried] in Hs.
    apply elem_of_cons in Hs as [->|Hs%list_elem_of_singleton]; [|subst];
      (split; [by apply sanitize_free|apply sanitize_length]).
  - intros err secret. cbn [safeTokenError]. repeat case_test; set_solver.
  - intros resp code message secret token x s Hx Hu Hs. cbn [responseError carried] in Hs.
    apply elem_of_cons in Hs as [->|Hs%list_elem_of_singleton].
    + right. split; [by apply sanitize_free|apply sanitize_length].
    + subst. cbn. case_bool_decide; [by left|right]. split; [by apply sanitize_free|apply sanitize_length].
Qed.

(** C34. The delay of a throttled request.  It is never negative and never
    overflows the nanoseconds of a duration; only the statuses 429 and 503 have
    one; and a header with a positive number of seconds that fits is honoured
    exactly. *)
Theorem responseRetryAfter_bounds (resp : httpResponse) (now : Z) :
  (0 <= responseRetryAfter resp now <= maxInt64)%Z ∧
  (responseRetryAfter resp now ≠ 0%Z → StatusCode resp = 429%Z ∨ StatusCode resp = 503%Z) ∧
  ∀ seconds, StatusCode resp = 429%Z ∨ StatusCode resp = 503%Z →
    ParseInt (RetryAfterHeader resp) = Some seconds → (0 < seconds <= 9223372036)%Z →
    responseRetryAfter resp now = (seconds * 1000000000)%Z.
Proof.
  assert (Z.quot maxInt64 second = 9223372036)%Z as Hq by reflexivity.
  unfold responseRetryAfter, timeSub, StatusTooManyRequests, StatusServiceUnavailable. rewrite Hq.
  unfold second, minInt64, maxInt64. cbv zeta. split; [|split].
  - repeat case_match; lia.
  - repeat case_match; lia.
  - intros seconds Hs -> Hn. rewrite (if_false _) by lia. by rewrite (if_true _) by lia.
Qed.

End Errors.

(** ** Concrete errors *)

Definition exHttp : HttpLibrary :=
  {| statusText status := if (status =? 503)%Z then "Service Unavailable" else "";
     parseHTTPTime value := if bool_decide (value = "Thu, 01 Jan 1970 00:00:10 GMT")
                            then Some 10000000000%Z else None |}.

Definition exThrottled : httpResponse := {| StatusCode := 429; RetryAfterHeader := "120" |}.

Definition exRetrieve : RetrieveError :=
  {| RetrieveBody :=
       {| BodyCode := "invalid_client";
          BodyDescription := "AADSTS7000215: Invalid client secret s3cr3t-value provided. Trace ID: 42";
          BodyAccessToken := ""; BodyRefreshToken := ""; BodyIDToken := "" |};
     RetrieveResponse := Some exThrottled |}.

Example safeTokenError_example :
  @safeTokenError exHttp (Some exRetrieve) Canceled "s3cr3t-value" 0 =
  EToken {| TokenStatusCode := 429; TokenCode := "AADSTS7000215";
            TokenMessage := "AADSTS7000215: Invalid client secret [redacted] provided.";
            TokenRetryAfter := 120000000000; TokenTransient := false |}.
Proof. vm_compute. reflexivity. Qed.

Lemma errors_redacted_witness :
  let text := "AADSTS7000215: Invalid client secret [redacted] provided." in
  unspellable "s3cr3t-value" ∧ occurs "s3cr3t-value" text = false ∧ String.length text ≤ 512.
Proof.
  assert (unspellable "s3cr3t-value") as Hu by (repeat split; try reflexivity; discriminate).
  split; [exact Hu|].
  apply (proj1 (@errors_redacted exHttp 0) exRetrieve Canceled "s3cr3t-value"); [left|exact Hu|].
  vm_compute. right. left.
Defined.

Lemma responseRetryAfter_bounds_witness :
  @responseRetryAfter exHttp exThrottled 5 = 120000000000%Z.
Proof.
  destruct (@responseRetryAfter_bounds exHttp exThrottled 5) as (_ & _ & H).
  rewrite (H 120%Z); [reflexivity|left; reflexivity|vm_compute; reflexivity|lia].
Defined.

(** A date is a delay from now on. *)
Example responseRetryAfter_date :
  @responseRetryAfter exHttp
    {| StatusCode := 503; RetryAfterHeader := "Thu, 01 Jan 1970 00:00:10 GMT" |} 4000000000 = 6000000000%Z.
Proof. vm_compute. reflexivity. Qed.
