(* ===== verification/GraphClient.v ===== *)
(** * The Graph client

    [internal/entra/client.go] and [paging.go]: the implementation of the
    [Directory] interface over HTTP.  A call of the environment is a token
    request, a GET request, or a question to the clock or the context; a Graph
    answer carries what [encoding/json] decodes from its body. *)

From S2P Require Import Prelude GoStrings GraphText Errors GraphErrors Entra.
From S2P Require Import World.

#[local] Open Scope mz_scope.

(** ** Requests *)

(** What [url.Parse] finds in a URL. *)
Record URL := { URLScheme : string; URLHost : string; URLUser : option string; URLFragment : string }.
#[export] Instance URL_eq_dec : EqDecision URL.
Proof. solve_decision. Defined.

Class URLParser := { parseURL : string → option URL }.

(** A page of a list: [value] may be absent, and so may the next link. *)
Record page T := { Value : option (list T); Next : string }.
Arguments Value {T}.
Arguments Next {T}.
Arguments Build_page {T}.

(** The three kinds of bodies that are read. *)
Inductive bodyKind := KPrincipal | KAssignments | KMembers.

Definition itemType (k : bodyKind) : Type :=
  match k with KPrincipal => graphServicePrincipal | KAssignments => AppRoleAssignment | KMembers => graphMember end.

Definition bodyType (k : bodyKind) : Type :=
  match k with KPrincipal => graphServicePrincipal | _ => page (itemType k) end.

(** An answer: the [code] and [message] that [Decode] finds in the [error] of
    its body, the body decoded as a value, and whether data follows it. *)
Record graphAnswer (k : bodyKind) := {
  AnswerResponse : httpResponse;
  AnswerCode : string;
  AnswerMessage : string;
  AnswerBody : option (bodyType k);
  AnswerTrailing : bool;
}.
Arguments AnswerResponse {k}.
Arguments AnswerCode {k}.
Arguments AnswerMessage {k}.
Arguments AnswerBody {k}.
Arguments AnswerTrailing {k}.

Inductive graphOp :=
  | GraphToken
  | GraphGet (k : bodyKind) (endpoint token : string)
  | GraphNow
  | GraphCtxErr.

(** A failed token request has an error and perhaps the [RetrieveError] in it;
    a GET that got no answer is [None]. *)
Definition graphResp (o : graphOp) : Type :=
  match o with
  | GraphToken => (option RetrieveError * error) + string
  | GraphGet k _ _ => option (graphAnswer k)
  | GraphNow => Z
  | GraphCtxErr => option error
  end.

Abbreviation graph A := (prog graphOp graphResp A).
Abbreviation gtrace := (list (event graphOp graphResp)).
Abbreviation gev o r := (@Ev graphOp graphResp o r).

Definition ask (o : graphOp) : graph (graphResp o) := call o.

(** ** The configuration *)

Definition graphURL : string := "https://graph.microsoft.com/v1.0".
Definition defaultLoginURL : string := "https://login.microsoftonline.com".

(** [clientOptions], without the transport and the clock. *)
Record clientOptions := { OptGraphURL : string; OptLoginURL : string }.

(** The fields of [directory] that the requests depend on: the configuration of
    the client credentials, and the base URL. *)
Record graphDirectory := {
  ConfigClientID : string;
  ConfigClientSecret : string;
  ConfigTokenURL : string;
  ConfigScopes : list string;
  DirectoryBaseURL : string;
}.

(** [newDirectory] *)
Definition newDirectory (tenantID clientID clientSecret : string) (opts : clientOptions) : graphDirectory :=
  let optGraph := if bool_decide (OptGraphURL opts = "") then graphURL else OptGraphURL opts in
  let optLogin := if bool_decide (OptLoginURL opts = "") then defaultLoginURL else OptLoginURL opts in
  {| ConfigClientID := clientID; ConfigClientSecret := clientSecret;
     ConfigTokenURL := optLogin +:+ "/" +:+ PathEscape tenantID +:+ "/oauth2/v2.0/token";
     ConfigScopes := ["https://graph.microsoft.com/.default"];
     DirectoryBaseURL := trimRight "/" optGraph |}.

(** [NewDirectory] *)
Definition NewDirectory (tenantID clientID clientSecret : string) : graphDirectory :=
  newDirectory tenantID clientID clientSecret {| OptGraphURL := ""; OptLoginURL := "" |}.

Section Directory.
Context `{HttpLibrary} `{URLParser}.

(** [directory]: the secret of its configuration and the base URL. *)
Context (clientSecret baseURL : string).

(** [validEndpoint] *)
Definition validEndpoint (endpoint : string) : bool :=
  match parseURL endpoint, parseURL baseURL with
  | Some u, Some base =>
      bool_decide (URLScheme u = URLScheme base) && bool_decide (URLHost u = URLHost base) &&
      bool_decide (URLUser u = None) && bool_decide (URLFragment u = "")
  | _, _ => false
  end.

(** [token] *)
Definition token : graph (result string) :=
  let! r := ask GraphToken in
  match r with
  | inl (retrieve, err) =>
      let! now := ask GraphNow in
      Ret (inl (safeTokenError retrieve err clientSecret now))
  | inr accessToken => Ret (inr accessToken)
  end.

(** [get]; [http.NewRequestWithContext] parses the endpoint once more. *)
Definition get (k : bodyKind) (endpoint : string) : graph (result (bodyType k)) :=
  if negb (validEndpoint endpoint)
  then Ret (inl (ErrorString "graph endpoint is outside the allowed origin"))
  else
    let! t := token in
    match t with
    | inl err => Ret (inl err)
    | inr accessToken =>
        match parseURL endpoint with
        | None => Ret (inl (ErrorString "invalid Graph request"))
        | Some _ =>
            let! answer := ask (GraphGet k endpoint accessToken) in
            match answer with
            | None =>
                let! cause := ask GraphCtxErr in
                match cause with
                | Some err => Ret (inl err)
                | None => Ret (inl (ErrorString "graph request failed"))
                end
            | Some answer =>
                if negb (StatusCode (AnswerResponse answer) =? 200)%Z then
                  let! now := ask GraphNow in
                  Ret (inl (responseError (AnswerResponse answer) (AnswerCode answer) (AnswerMessage answer)
                              clientSecret accessToken now))
                else
                  match AnswerBody answer with
                  | None => Ret (inl (ErrorString "invalid Graph JSON response"))
                  | Some out =>
                      if AnswerTrailing answer then Ret (inl (ErrorString "graph response has trailing data"))
                      else Ret (inr out)
                  end
            end
        end
    end.

(** The loop of [readPages] over a body with pages of [T]; [fuel] bounds the
    number of its rounds. *)
Fixpoint readPagesGo {T} (fetch : string → graph (result (page T))) (fuel : nat) (seen : gset string)
    (result : list T) (endpoint : string) : graph (Errors.result (list T)) :=
  match fuel with
  | O => Fault OutOfFuel
  | S fuel =>
      if bool_decide (endpoint = "") then Ret (inr result)
      else if bool_decide (endpoint ∈ seen) then Ret (inl (ErrorString "graph pagination cycle"))
      else
        let! r := fetch endpoint in
        match r with
        | inl err => Ret (inl err)
        | inr page =>
            match Value page with
            | None => Ret (inl (ErrorString "graph page has no value array"))
            | Some value => readPagesGo fetch fuel ({[endpoint]} ∪ seen) (result ++ value) (Next page)
            end
        end
  end.

(** The number of rounds that are run at most. *)
Context (rounds : nat).

(** [readPages] *)
Definition readPages {T} (fetch : string → graph (result (page T))) (endpoint : string)
    : graph (result (list T)) :=
  readPagesGo fetch rounds ∅ [] endpoint.

(** The three endpoints. *)
Definition principalEndpoint (appID : string) : string :=
  baseURL +:+ "/servicePrincipals(appId='" +:+ PathEscape appID +:+ "')?$select=id,appRoles".
Definition assignmentsEndpoint (id : string) : string :=
  baseURL +:+ "/servicePrincipals/" +:+ PathEscape id +:+ "/appRoleAssignedTo".
Definition membersEndpoint (id : string) : string :=
  baseURL +:+ "/groups/" +:+ PathEscape id +:+ "/members".

(** [GetServicePrincipal] *)
Definition GetServicePrincipal (appID : string) : graph (result (option ServicePrincipal)) :=
  let! r := get KPrincipal (principalEndpoint appID) in
  match r with
  | inl err =>
      match asGraphError err with
      | Some ge => if (GraphStatusCode ge =? 404)%Z then Ret (inl ErrServicePrincipalNotFound) else Ret (inl err)
      | None => Ret (inl err)
      end
  | inr result =>
      match snapshot result with
      | inl err => Ret (inl err)
      | inr principal => Ret (inr (Some principal))
      end
  end.

(** [ListAppRoleAssignedTo] *)
Definition ListAppRoleAssignedTo (id : string) : graph (result (list AppRoleAssignment)) :=
  let! r := readPages (get KAssignments) (assignmentsEndpoint id) in
  match r with
  | inl err => Ret (inl err)
  | inr assignments =>
      match validateAssignments assignments with
      | Some err => Ret (inl err)
      | None => Ret (inr assignments)
      end
  end.

(** [ListGroupUsers] *)
Definition ListGroupUsers (id : string) : graph (result (list User)) :=
  let! r := readPages (get KMembers) (membersEndpoint id) in
  match r with
  | inl err => Ret (inl err)
  | inr members => Ret (groupUsers members)
  end.

(** The methods of [Directory], as the role sync calls them. *)
Definition implementDirectory (o : dirOp) : graph (dirResp o) :=
  match o with
  | OpGetServicePrincipal appID => GetServicePrincipal appID
  | OpListAppRoleAssignedTo id => ListAppRoleAssignedTo id
  | OpListGroupUsers id => ListGroupUsers id
  end.

End Directory.

(** The methods of the directory that the role sync builds with
    [DirectoryFactory]. *)
Definition serveDirectory `{HttpLibrary} `{URLParser} (rounds : nat) (d : directory) (o : dirOp)
    : graph (dirResp o) :=
  let built := NewDirectory (DirTenantID d) (DirClientID d) (DirClientSecret d) in
  implementDirectory (ConfigClientSecret built) (DirectoryBaseURL built) rounds o.
