(* ===== verification/GraphSafety.v ===== *)
(** * The Graph client: properties

    Where the token goes, what a list contains, and that paging ends. *)

From S2P Require Import Prelude GoStrings GraphText Errors GraphErrors Entra.
From S2P Require Import World GraphClient.

#[local] Open Scope mz_scope.

(** ** Requests *)

(** The endpoints that were requested, in order. *)
Definition requested (h : gtrace) : list string :=
  omap (λ e, match ev_op e with GraphGet _ endpoint _ => Some endpoint | _ => None end) h.

(** The next link of a body. *)
Definition nextLink (k : bodyKind) : bodyType k → string :=
  match k return bodyType k → string with
  | KPrincipal => λ _, ""
  | KAssignments | KMembers => λ p, Next p
  end.

(** The next link that a call was answered with. *)
Definition linkOf (e : event graphOp graphResp) : option string :=
  match e with
  | Ev (GraphGet k _ _) (Some answer) =>
      match AnswerBody answer with Some body => Some (nextLink k body) | None => None end
  | _ => None
  end.

Definition links (h : gtrace) : list string := omap linkOf h.

(** The endpoint where a method starts. *)
Definition startOf (baseURL : string) (o : dirOp) : string :=
  match o with
  | OpGetServicePrincipal appID => principalEndpoint baseURL appID
  | OpListAppRoleAssignedTo id => assignmentsEndpoint baseURL id
  | OpListGroupUsers id => membersEndpoint baseURL id
  end.

Section Safety.
Context `{HttpLibrary} `{URLParser} (clientSecret baseURL : string) (rounds : nat).

(** The endpoint has the scheme and the host of the base URL, no credentials
    and no fragment. *)
Definition sameOrigin (endpoint : string) : Prop :=
  ∃ u base, parseURL endpoint = Some u ∧ parseURL baseURL = Some base ∧
    URLScheme u = URLScheme base ∧ URLHost u = URLHost base ∧ URLUser u = None ∧ URLFragment u = "".

Lemma validEndpoint_sameOrigin endpoint : validEndpoint baseURL endpoint = true → sameOrigin endpoint.
Proof.
  unfold validEndpoint. destruct (parseURL endpoint) as [u|] eqn:Hu; [|done].
  destruct (parseURL baseURL) as [base|] eqn:Hb; [|done].
  intros [[[Hs Hh]%andb_true_iff Hc]%andb_true_iff Hf]%andb_true_iff. reflect_bools.
  by exists u, base.
Qed.

(** What holds for every request of a method that starts at [start]. *)
Definition decent (start : string) (h : gtrace) (o : graphOp) : Prop :=
  match o with
  | GraphGet _ endpoint accessToken =>
      sameOrigin endpoint ∧
      (∃ h', h = h' ++ [gev GraphToken (inr accessToken)]) ∧
      (endpoint ∉ requested h) ∧ (endpoint = start ∨ endpoint ∈ links h)
  | _ => True
  end.

Lemma requested_app h t : requested (h ++ t) = requested h ++ requested t.
Proof. apply omap_app. Qed.

Lemma links_app h t : links (h ++ t) = links h ++ links t.
Proof. apply omap_app. Qed.

(** The request of [get], if it makes one. *)
Lemma get_wp k start endpoint (Φ : result (bodyType k) → gtrace → Prop) h :
  endpoint ∉ requested h → (endpoint = start ∨ endpoint ∈ links h) →
  (∀ r h', (∃ t, h' = h ++ t ∧ (requested t = [] ∨ requested t = [endpoint])) →
     (∀ body, r = inr body → nextLink k body ∈ links h' ∧ requested h' = requested h ++ [endpoint]) → Φ r h') →
  wp (decent start) (get clientSecret baseURL k endpoint) Φ h.
Proof.
  intros Hfresh Hsrc HΦ. unfold get. destruct (validEndpoint baseURL endpoint) eqn:Hv; cbn [negb];
    [|apply HΦ; [exists []; split; [by rewrite app_nil_r|by left]|done]].
  unfold token. cbn [bind ask call wp]. split; [done|]. intros [[retrieve err]|accessToken].
  - cbn [bind ask call wp]. split; [done|]. intros now.
    apply HΦ; [|done]. rewrite <-!app_assoc. eexists. split; [reflexivity|by left].
  - cbn [bind ask call wp]. destruct (parseURL endpoint); [|apply HΦ; [eexists; split; [reflexivity|by left]|done]].
    cbn [bind ask call wp]. split.
    { split; [by apply validEndpoint_sameOrigin|]. split; [by eexists|]. rewrite requested_app, app_nil_r, links_app, app_nil_r. done. }
    intros [answer|].
    + destruct (negb _).
      * cbn [bind ask call wp]. split; [done|]. intros now. apply HΦ; [|done]. rewrite <-!app_assoc.
        eexists. split; [reflexivity|by right].
      * assert (∀ r, (∀ body, r = inr body → AnswerBody answer = Some body) →
          Φ r ((h ++ [gev GraphToken (inr accessToken)]) ++ [gev (GraphGet k endpoint accessToken) (Some answer)]))
          as Hend.
        { intros r Hr. apply HΦ.
          - rewrite <-app_assoc. eexists. split; [reflexivity|by right].
          - intros body Hb. specialize (Hr _ Hb). split; [|by rewrite !requested_app, app_nil_r].
            rewrite links_app. apply elem_of_app. right. cbn. rewrite Hr. by left. }
        destruct (AnswerBody answer) as [out|]; [|by apply Hend].
        destruct (AnswerTrailing answer); apply Hend; [done|]. by intros ? [= <-].
    + cbn [bind ask call wp]. split; [done|]. intros cause. destruct cause; (apply HΦ; [|done]); rewrite <-!app_assoc;
        (eexists; split; [reflexivity|by right]).
Qed.

(** The loop has seen every endpoint that was requested. *)
Lemma readPagesGo_wp {T} (fetch : string → graph (result (page T))) start fuel seen acc endpoint h :
  (∀ endpoint Φ h, endpoint ∉ requested h → (endpoint = start ∨ endpoint ∈ links h) →
     (∀ r h', (∃ t, h' = h ++ t ∧ (requested t = [] ∨ requested t = [endpoint])) →
        (∀ page, r = inr page → Next page ∈ links h' ∧ requested h' = requested h ++ [endpoint]) → Φ r h') →
     wp (decent start) (fetch endpoint) Φ h) →
  (∀ x, x ∈ requested h → x ∈ seen) → (endpoint = start ∨ endpoint ∈ links h) →
  wp (decent start) (readPagesGo fetch fuel seen acc endpoint) (λ _ _, True) h.
Proof.
  intros Hfetch. revert seen acc endpoint h.
  induction fuel as [|fuel IH]; intros seen acc endpoint h Hseen Hsrc; cbn [readPagesGo]; [done|].
  case_bool_decide as He; [done|]. case_bool_decide as Hs; [done|]. apply wp_bind, Hfetch; [naive_solver|done|].
  intros [err|page] h' _ Hok; [done|]. destruct (Hok page eq_refl) as [Hlink Hreq].
  destruct (Value page) as [value|]; [|done]. apply IH; [|by right].
  intros x. rewrite Hreq. intros [?| ->%list_elem_of_singleton]%elem_of_app; [|set_solver].
  apply elem_of_union. right. by apply Hseen.
Qed.

Lemma readPages_wp {T} (fetch : string → graph (result (page T))) start :
  (∀ endpoint Φ h, endpoint ∉ requested h → (endpoint = start ∨ endpoint ∈ links h) →
     (∀ r h', (∃ t, h' = h ++ t ∧ (requested t = [] ∨ requested t = [endpoint])) →
        (∀ page, r = inr page → Next page ∈ links h' ∧ requested h' = requested h ++ [endpoint]) → Φ r h') →
     wp (decent start) (fetch endpoint) Φ h) →
  wp (decent start) (readPages rounds fetch start) (λ _ _, True) [].
Proof. intros Hf. apply readPagesGo_wp; [done| |by left]. intros x. by intros ?%not_elem_of_nil. Qed.

Lemma implementDirectory_wp o :
  wp (decent (startOf baseURL o)) (implementDirectory clientSecret baseURL rounds o) (λ _ _, True) [].
Proof.
  destruct o as [appID|id|id]; cbn [implementDirectory].
  - unfold GetServicePrincipal. apply wp_bind, get_wp; [apply not_elem_of_nil|by left|].
    intros [err|result] h' _ _; [|by destruct (snapshot result)].
    destruct (asGraphError err); [by case_test|done].
  - unfold ListAppRoleAssignedTo. apply wp_bind. eapply wp_mono; [done| |].
    2: { apply (readPages_wp (get clientSecret baseURL KAssignments)).
         intros endpoint Φ h. apply (get_wp KAssignments). }
    intros [err|l] h' _; [done|]. by destruct (validateAssignments l).
  - unfold ListGroupUsers. apply wp_bind. eapply wp_mono; [done| |].
    2: { apply (readPages_wp (get clientSecret baseURL KMembers)).
         intros endpoint Φ h. apply (get_wp KMembers). }
    by intros [err|l] h' _.
Qed.

(** C35. Where the token goes.  Every GET of the directory goes to an endpoint
    with exactly the scheme and host of the base URL, without credentials and
    fragment, whatever links the answers contain; it carries the token that was
    obtained immediately before; it is the start of the method or a link of an
    earlier answer; and no endpoint is requested twice by one call. *)
Theorem directory_requests (o : dirOp) (t : gtrace) (e : event graphOp graphResp) :
  reaches (implementDirectory clientSecret baseURL rounds o) (t ++ [e]) →
  decent (startOf baseURL o) t (ev_op e).
Proof. intros Hr. by apply (wp_reaches _ _ _ [] t e [] (implementDirectory_wp o) Hr). Qed.

(** ** Lists *)

(** The body that the endpoint was answered with. *)
Definition served (k : bodyKind) (t : gtrace) (endpoint : string) (body : bodyType k) : Prop :=
  ∃ accessToken answer, gev (GraphGet k endpoint accessToken) (Some answer) ∈ t ∧
    StatusCode (AnswerResponse answer) = 200%Z ∧ AnswerBody answer = Some body ∧ AnswerTrailing answer = false.

(** The endpoints of pages that follow each other. *)
Fixpoint endpointsOf {T} (start : string) (pages : list (page T)) : list string :=
  match pages with [] => [] | p :: pages => start :: endpointsOf (Next p) pages end.

(** The link of the last page. *)
Fixpoint finalLink {T} (start : string) (pages : list (page T)) : string :=
  match pages with [] => start | p :: pages => finalLink (Next p) pages end.

Definition contents {T} (pages : list (page T)) : list T := concat (default [] ∘ Value <$> pages).

(** The pages are the answers to all requests of the trace, in their order,
    the last one has no next link, and each has its items. *)
Definition whole {T} (serves : string → page T → Prop) (t : gtrace) (start : string) (pages : list (page T)) : Prop :=
  requested t = endpointsOf start pages ∧ Forall2 serves (endpointsOf start pages) pages ∧
  finalLink start pages = "" ∧ Forall (λ p, Value p ≠ None) pages.

Lemma get_runs k endpoint t body :
  runs (get clientSecret baseURL k endpoint) t (inr body) → requested t = [endpoint] ∧ served k t endpoint body.
Proof.
  unfold get. destruct (negb _); [by intros [_ ?]|]. unfold token. cbn [bind ask call runs].
  intros (r & t' & -> & Hr). destruct r as [[retrieve err]|accessToken].
  - cbn [bind ask call runs] in Hr. by destruct Hr as (now & t2 & _ & _ & ?).
  - cbn [bind ask call runs] in Hr. destruct (parseURL endpoint); [|by destruct Hr].
    cbn [bind ask call runs] in Hr. destruct Hr as (answer & t2 & -> & Hr). destruct answer as [answer|].
    + destruct (negb _) eqn:Hstatus.
      * cbn [bind ask call runs] in Hr. by destruct Hr as (now & t3 & _ & _ & ?).
      * destruct (AnswerBody answer) eqn:Hbody; [|by destruct Hr]. destruct (AnswerTrailing answer) eqn:Htr;
          destruct Hr as [-> Hr]; [done|]. injection Hr as ->. split; [done|]. exists accessToken, answer.
        apply negb_false_iff, Z.eqb_eq in Hstatus. split_and!; [|done..]. right. by left.
    + cbn [bind ask call runs] in Hr. destruct Hr as (cause & t3 & _ & Hr). by destruct cause as [err|], Hr.
Qed.

Lemma served_app k t1 t2 t3 endpoint body :
  served k t2 endpoint body → served k (t1 ++ t2 ++ t3) endpoint body.
Proof.
  intros (tok & a & Hin & ?). exists tok, a. split; [|done]. apply elem_of_app. right. apply elem_of_app. by left.
Qed.

Lemma readPagesGo_runs {T} (serves : gtrace → string → page T → Prop) (fetch : string → graph (result (page T)))
    fuel seen acc endpoint t l :
  (∀ endpoint t page, runs (fetch endpoint) t (inr page) → requested t = [endpoint] ∧ serves t endpoint page) →
  (∀ t1 t2 t3 endpoint page, serves t2 endpoint page → serves (t1 ++ t2 ++ t3) endpoint page) →
  runs (readPagesGo fetch fuel seen acc endpoint) t (inr l) →
  ∃ pages, whole (serves t) t endpoint pages ∧ l = acc ++ contents pages.
Proof.
  intros Hfetch Happ. revert seen acc endpoint t.
  induction fuel as [|fuel IH]; intros seen acc endpoint t; cbn [readPagesGo]; [done|].
  case_bool_decide as He.
  { intros [-> [= ->]]. exists []. split; [|by rewrite app_nil_r]. by repeat split. }
  case_bool_decide as Hs; [by intros [_ ?]|].
  intros (t1 & t2 & [err|page] & -> & H1 & H2)%runs_bind; [by destruct H2|].
  destruct (Value page) as [value|] eqn:Hv; [|by destruct H2].
  destruct (Hfetch _ _ _ H1) as [Hreq Hserved]. apply IH in H2 as (pages & (Hr & Hp & Hf & Hn) & ->).
  exists (page :: pages). split; [split_and!|].
  - cbn. by rewrite requested_app, Hreq, Hr.
  - cbn. constructor; [by apply (Happ [] t1 t2)|]. eapply Forall2_impl; [exact Hp|]. intros x y Hxy.
    specialize (Happ t1 t2 [] x y Hxy). by rewrite app_nil_r in Happ.
  - done.
  - constructor; [by rewrite Hv|done].
  - unfold contents. cbn. by rewrite Hv, <-app_assoc.
Qed.

(** C36. Lists are whole.  When a list call of the directory succeeds, its pages
    are the answers to all its requests in their order, each with status 200, a
    value array and nothing behind it; the first is the one of the method's
    endpoint, each other one of the link before it, and the last has no link;
    and the result is made of exactly the items of all pages, in order, after
    the validation.  So the role sync never plans with a part of a group. *)
Theorem directory_lists_whole (id : string) (t : gtrace) :
  (∀ users, runs (ListGroupUsers clientSecret baseURL rounds id) t (inr users) →
     ∃ pages, whole (served KMembers t) t (membersEndpoint baseURL id) pages ∧
       groupUsers (contents pages) = inr users ∧ Forall validUser users) ∧
  (∀ assignments, runs (ListAppRoleAssignedTo clientSecret baseURL rounds id) t (inr assignments) →
     ∃ pages, whole (served KAssignments t) t (assignmentsEndpoint baseURL id) pages ∧
       assignments = contents pages ∧ validateAssignments assignments = None).
Proof.
  split.
  - intros users (t1 & t2 & [err|members] & -> & H1 & H2)%runs_bind; [by destruct H2|].
    destruct H2 as [-> H2]. rewrite app_nil_r.
    apply (readPagesGo_runs (served KMembers)) in H1 as (pages & Hw & ->);
      [|apply (get_runs KMembers)|apply (served_app KMembers)].
    exists pages. split_and!; [done|done|by eapply groupUsers_valid].
  - intros assignments (t1 & t2 & [err|l] & -> & H1 & H2)%runs_bind; [by destruct H2|].
    destruct (validateAssignments l) eqn:Hv; destruct H2 as [-> H2]; [done|]. injection H2 as <-.
    rewrite app_nil_r. apply (readPagesGo_runs (served KAssignments)) in H1 as (pages & Hw & ->);
      [|apply (get_runs KAssignments)|apply (served_app KAssignments)].
    exists pages. by split_and!.
Qed.

(** ** Termination *)

(** The next links of the answers are among [U], or there is none. *)
Definition linksIn (U : list string) (o : graphOp) : graphResp o → Prop :=
  match o return graphResp o → Prop with
  | GraphGet k _ _ => λ answer,
      match answer with
      | Some answer =>
          match AnswerBody answer with
          | Some body => nextLink k body = "" ∨ nextLink k body ∈ U
          | None => True
          end
      | None => True
      end
  | _ => λ _, True
  end.

Lemma get_returns U k endpoint : returns (linksIn U) (get clientSecret baseURL k endpoint).
Proof.
  unfold get, token. destruct (negb (validEndpoint baseURL endpoint)); [done|].
  cbn [bind ask call returns]. intros [[retrieve err]|accessToken] _; cbn [bind ask call returns]; [done|].
  destruct (parseURL endpoint); [|done]. cbn [bind ask call returns]. intros [answer|] _.
  - destruct (negb _); [done|]. destruct (AnswerBody answer); [|done]. by destruct (AnswerTrailing answer).
  - cbn [bind ask call returns]. intros cause _. by destruct cause.
Qed.

(** The rounds that are left cover the endpoints that were not seen. *)
Lemma readPagesGo_returns {T} U (fetch : string → graph (result (page T))) fuel seen acc endpoint (V : gset string) :
  (∀ endpoint, returns (linksIn U) (fetch endpoint)) →
  (∀ endpoint t page, runs (fetch endpoint) t (inr page) →
     Forall (λ e, linksIn U (ev_op e) (ev_resp e)) t → Next page = "" ∨ Next page ∈ V) →
  endpoint = "" ∨ endpoint ∈ V → size (V ∖ seen) + 1 ≤ fuel →
  returns (linksIn U) (readPagesGo fetch fuel seen acc endpoint).
Proof.
  intros Hfetch Hnext. revert seen acc endpoint.
  induction fuel as [|fuel IH]; intros seen acc endpoint Hin Hfuel; [lia|]. cbn [readPagesGo].
  case_bool_decide; [done|]. case_bool_decide as Hs; [done|]. apply returns_bind; [done|].
  intros t [err|page] Hr Hall; [done|]. destruct (Value page); [|done].
  apply IH; [by eapply Hnext|]. destruct Hin as [?|Hin]; [done|].
  assert (V ∖ seen = {[endpoint]} ∪ V ∖ ({[endpoint]} ∪ seen)) as E.
  { apply set_eq. intros x. rewrite elem_of_union, !elem_of_difference, elem_of_union, elem_of_singleton.
    destruct (decide (x = endpoint)) as [->|]; tauto. }
  rewrite E, size_union, size_singleton in Hfuel by set_solver. lia.
Qed.

Lemma get_link U k endpoint t body :
  runs (get clientSecret baseURL k endpoint) t (inr body) →
  Forall (λ e, linksIn U (ev_op e) (ev_resp e)) t → nextLink k body = "" ∨ nextLink k body ∈ U.
Proof.
  intros Hr Hall. apply get_runs in Hr as [_ (tok & a & Hin & _ & Hb & _)]. rewrite Forall_forall in Hall.
  specialize (Hall _ Hin). cbn in Hall. by rewrite Hb in Hall.
Qed.

Lemma size_of_list (l : list string) : size (list_to_set l : gset string) ≤ length l.
Proof.
  induction l as [|x l IH]; [done|]. cbn [list_to_set length]. rewrite size_union_alt, size_singleton.
  assert (size ((list_to_set l : gset string) ∖ {[x]}) ≤ size (list_to_set l : gset string))
    by (apply subseteq_size; set_solver). lia.
Qed.

Lemma implementDirectory_returns (U : list string) (o : dirOp) :
  length U + 2 ≤ rounds → returns (linksIn U) (implementDirectory clientSecret baseURL rounds o).
Proof.
  intros Hrounds. set (V := list_to_set (startOf baseURL o :: U) : gset string).
  assert (size V + 1 ≤ rounds) as Hsize.
  { pose proof (size_of_list (startOf baseURL o :: U)) as Hs. cbn [length] in Hs. unfold V. lia. }
  assert (∀ x, x ∈ U → x ∈ V) as HU by (intros x Hx; apply elem_of_list_to_set; by right).
  assert (startOf baseURL o ∈ V) as Hstart by (apply elem_of_list_to_set; by left).
  clearbody V. destruct o as [appID|id|id]; cbn [implementDirectory startOf] in *.
  - apply returns_bind; [apply get_returns|]. intros t [err|result] _ _; [|by destruct (snapshot result)].
    destruct (asGraphError err); [by case_test|done].
  - apply returns_bind; [|intros t [err|l] _ _; [done|by destruct (validateAssignments l)]].
    apply (readPagesGo_returns U _ _ _ _ _ V); [apply (get_returns U KAssignments)| |by right|].
    + intros endpoint t page Hr Hall. destruct (get_link U KAssignments _ _ _ Hr Hall) as [?|?]; auto.
    + by rewrite difference_empty_L.
  - apply returns_bind; [|by intros t [err|l] _ _].
    apply (readPagesGo_returns U _ _ _ _ _ V); [apply (get_returns U KMembers)| |by right|].
    + intros endpoint t page Hr Hall. destruct (get_link U KMembers _ _ _ Hr Hall) as [?|?]; auto.
    + by rewrite difference_empty_L.
Qed.

(** C37. Paging ends.  As long as the links of the answers are among finitely
    many, every call of the directory returns a value or an error: it makes at
    most one round per link and two more, so the bound on the rounds is never
    the reason to stop; answers that link in a circle end in an error. *)
Theorem directory_returns (U : list string) (o : dirOp) :
  length U + 2 ≤ rounds → returns (linksIn U) (implementDirectory clientSecret baseURL rounds o).
Proof. apply implementDirectory_returns. Qed.

(** ** Endpoints *)

Lemma split_at (a b r r' : string) c :
  hasByte c a = false → hasByte c b = false → a +:+ String c r = b +:+ String c r' → a = b.
Proof.
  revert b. induction a as [|x a IH]; intros [|y b] Ha Hb; cbn in Ha, Hb; [done| | |].
  - intros [= <- _]. apply orb_false_iff in Hb as [?%bool_decide_eq_false _]. done.
  - intros [= -> _]. apply orb_false_iff in Ha as [?%bool_decide_eq_false _]. done.
  - intros [= <- E]. apply orb_false_iff in Ha as [_ Ha], Hb as [_ Hb]. f_equal. by eapply IH.
Qed.

(** The endpoint is [prefix], one segment that decodes to [id] and contains no
    delimiter, and [suffix]. *)
Definition addresses (endpoint prefix id suffix : string) : Prop :=
  ∃ segment, endpoint = prefix +:+ segment +:+ suffix ∧ PathUnescape segment = id ∧
    ∀ c, c ∈ delimiters → hasByte c segment = false.

Lemma addresses_escaped prefix id suffix :
  addresses (prefix +:+ PathEscape id +:+ suffix) prefix id suffix.
Proof.
  exists (PathEscape id). split_and!; [done|apply PathUnescape_PathEscape|].
  intros. by apply PathEscape_delimiters.
Qed.

(** C38. Endpoints name their object.  Whatever bytes an ID has, the endpoint of
    the members of a group, of the assignments of a service principal, of the
    principal of an application and of the tokens of a tenant is the documented
    path around one segment; this segment decodes to the ID and contains no
    delimiter of the path, the query, the fragment or the quoted key.  The
    endpoints of different objects differ, and so do the token endpoints of
    different tenants; so no group, application or tenant can be addressed by
    an ID that escapes from its place in the path. *)
Theorem endpoints_faithful (id id' : string) :
  addresses (membersEndpoint baseURL id) (baseURL +:+ "/groups/") id "/members" ∧
  addresses (assignmentsEndpoint baseURL id) (baseURL +:+ "/servicePrincipals/") id "/appRoleAssignedTo" ∧
  addresses (principalEndpoint baseURL id) (baseURL +:+ "/servicePrincipals(appId='") id
    "')?$select=id,appRoles" ∧
  (∀ clientID secret opts,
     addresses (ConfigTokenURL (newDirectory id clientID secret opts))
       ((if bool_decide (OptLoginURL opts = "") then "https://login.microsoftonline.com"
         else OptLoginURL opts) +:+ "/") id "/oauth2/v2.0/token") ∧
  (membersEndpoint baseURL id = membersEndpoint baseURL id' → id = id') ∧
  (assignmentsEndpoint baseURL id = assignmentsEndpoint baseURL id' → id = id') ∧
  (principalEndpoint baseURL id = principalEndpoint baseURL id' → id = id') ∧
  ∀ clientID secret clientID' secret' opts,
    ConfigTokenURL (newDirectory id clientID secret opts) =
    ConfigTokenURL (newDirectory id' clientID' secret' opts) → id = id'.
Proof.
  assert (∀ c r r', c ∈ delimiters →
    PathEscape id +:+ String c r = PathEscape id' +:+ String c r' → id = id') as Hinj.
  { intros c r r' Hc E. rewrite <-(PathUnescape_PathEscape id), <-(PathUnescape_PathEscape id').
    f_equal. eapply split_at; [by apply PathEscape_delimiters..|exact E]. }
  split_and!.
  - unfold membersEndpoint. rewrite <-string_app_assoc. apply addresses_escaped.
  - unfold assignmentsEndpoint. rewrite <-string_app_assoc. apply addresses_escaped.
  - unfold principalEndpoint. rewrite <-string_app_assoc. apply addresses_escaped.
  - intros clientID secret opts. cbn [newDirectory ConfigTokenURL]. rewrite <-string_app_assoc. apply addresses_escaped.
  - unfold membersEndpoint. intros E%(inj (String.append baseURL))%(inj (String.append "/groups/")).
    eapply (Hinj "/"%char); [|exact E]. by left.
  - unfold assignmentsEndpoint. intros E%(inj (String.append baseURL))%(inj (String.append "/servicePrincipals/")).
    eapply (Hinj "/"%char); [|exact E]. by left.
  - unfold principalEndpoint.
    intros E%(inj (String.append baseURL))%(inj (String.append "/servicePrincipals(appId='")).
    eapply (Hinj "'"%char); [|exact E]. do 3 right. by left.
  - intros clientID secret clientID' secret' opts. cbn [newDirectory ConfigTokenURL].
    intros E%(inj (String.append _))%(inj (String.append "/")).
    eapply (Hinj "/"%char); [|exact E]. by left.
Qed.

End Safety.

(** ** A concrete group

    Two pages; the ID of the group has a slash. *)
Definition exURLs : URLParser :=
  {| parseURL s :=
       Some {| URLScheme := "https"; URLHost := if String.prefix "https://graph" s then "graph" else "other";
               URLUser := None; URLFragment := "" |} |}.

Definition exMember (id : string) : graphMember :=
  {| memberUser := {| UserID := id; UserDisplayName := ""; Mail := ""; UserPrincipalName := "upn-" +:+ id |};
     memberType := "#microsoft.graph.user"; memberMail := RawNull |}.

Definition exPage (members : list graphMember) (next : string) : graphAnswer KMembers :=
  {| AnswerResponse := {| StatusCode := 200; RetryAfterHeader := "" |}; AnswerCode := ""; AnswerMessage := "";
     AnswerBody := Some (Build_page (Some members) next : bodyType KMembers); AnswerTrailing := false |}.

Definition exFirst : gtrace :=
  [gev GraphToken (inr "token1");
   gev (GraphGet KMembers "https://graph/groups/a%2Fb/members" "token1") (Some (exPage [exMember "u1"] "https://graph/next"));
   gev GraphToken (inr "token2")].
Definition exSecond : event graphOp graphResp :=
  gev (GraphGet KMembers "https://graph/next" "token2") (Some (exPage [exMember "u2"] "")).

Definition exUser (id : string) : User :=
  {| UserID := id; UserDisplayName := ""; Mail := ""; UserPrincipalName := "upn-" +:+ id |}.

Lemma exGroup_runs :
  runs (@ListGroupUsers exHttp exURLs "secret" "https://graph" 3 "a/b") (exFirst ++ [exSecond])
    (inr [exUser "u1"; exUser "u2"]).
Proof. unfold exFirst, exSecond. cbn [app]. repeat (eexists _, _; split; [reflexivity|]). split; reflexivity. Qed.

Lemma directory_requests_witness :
  @sameOrigin exURLs "https://graph" "https://graph/next" ∧ "https://graph/next" ∉ requested exFirst.
Proof.
  assert (reaches (@implementDirectory exHttp exURLs "secret" "https://graph" 3 (OpListGroupUsers "a/b"))
    (exFirst ++ [exSecond])) as Hr by (eapply runs_reaches, exGroup_runs).
  destruct (@directory_requests exHttp exURLs "secret" "https://graph" 3 (OpListGroupUsers "a/b")
    exFirst exSecond Hr) as (Hv & _ & Hfresh & _).
  split; [exact Hv|exact Hfresh].
Defined.

Lemma directory_lists_whole_witness :
  ∃ pages, groupUsers (contents pages) = inr [exUser "u1"; exUser "u2"] ∧
    whole (served KMembers (exFirst ++ [exSecond])) (exFirst ++ [exSecond])
      (membersEndpoint "https://graph" "a/b") pages.
Proof.
  destruct (proj1 (@directory_lists_whole exHttp exURLs "secret" "https://graph" 3 "a/b" (exFirst ++ [exSecond]))
    _ exGroup_runs) as (pages & Hw & Hu & _).
  exists pages. split; [exact Hu|exact Hw].
Defined.

Lemma directory_returns_witness :
  returns (linksIn ["https://graph/next"])
    (@implementDirectory exHttp exURLs "secret" "https://graph" 3 (OpListGroupUsers "a/b")).
Proof. apply (@directory_returns exHttp exURLs "secret" "https://graph" 3 ["https://graph/next"]). cbn. lia. Defined.

Lemma endpoints_faithful_witness :
  membersEndpoint "https://graph" "a'b/c" = "https://graph/groups/a%27b%2Fc/members" ∧
  addresses (membersEndpoint "https://graph" "a'b/c") "https://graph/groups/" "a'b/c" "/members".
Proof.
  split; [reflexivity|]. exact (proj1 (endpoints_faithful "https://graph" "a'b/c" "a'b/c")).
Defined.

(** An ID that is not escaped leaves its place: it is not one segment. *)
Example unescaped_id_escapes :
  ¬ addresses "https://graph/groups/a/b/members" "https://graph/groups/" "a/b" "/members".
Proof.
  intros (seg & E & Hid & Hd). apply (inj (String.append "https://graph/groups/")) in E.
  assert (seg = "a") as ->; [|by vm_compute in Hid].
  apply (split_at seg "a" "members" "b/members" "/"); [apply Hd; by left|done|by rewrite <-E].
Qed.

(** A circle of links ends in an error. *)
Example cycle_error :
  answer (λ o, match o return graphResp o with
               | GraphToken => inr "token"
               | GraphGet KMembers _ _ => Some (exPage [] "https://graph/next")
               | GraphGet _ _ _ => None
               | GraphNow => 0%Z
               | GraphCtxErr => None
               end) (@ListGroupUsers exHttp exURLs "secret" "https://graph" 5 "g")
  = Some (inl (ErrorString "graph pagination cycle")).
Proof. vm_compute. reflexivity. Qed.
