(* ===== verification/ClientTypes.v ===== *)
(** * The management client: what its answers are

    The well-formedness of the objects that the methods return, and what it
    means for the reconcilers that use them. *)

From S2P Require Import Prelude GoSlices GoStrings Errors ZitiTypes ApiTypes Credentials RestModel.
From S2P Require Import World ReconcileHelpers Lifecycle ZitiClient ClientSessions.
From S2P Require Import IdentityController.

#[local] Open Scope mz_scope.

(** ** Well-formed objects *)

Definition nonBlank (s : string) : Prop := TrimSpace s ≠ "".

Definition identityTyped (i : Identity) : Prop :=
  nonBlank (IdentID i) ∧ nonBlank (IdentName i) ∧ nonBlank (IdentType i) ∧ IdentCreateOTT i = false.

Definition configTyped (c : ServiceConfig) : Prop := nonBlank (ConfigType c).

Definition policyTyped (p : AccessPolicy) : Prop :=
  PolicyIdentityRoles p = PolicyIdentityRolesRaw p ∧ PolicyServiceRoles p = PolicyServiceRolesRaw p.

Definition routerTyped (r : EdgeRouter) : Prop := EdgeRouterName r ≠ "".

(** An answer of [o], if it is not an error: a present object is well formed,
    and the answer to a lookup has the name that was asked for. *)
Definition answerTyped (o : zitiOp) : zitiResp o → Prop :=
  match o return zitiResp o → Prop with
  | OpGetIdentity _ => λ r, ∀ i, r = inr (Some i) → identityTyped i
  | OpFindIdentityByName name => λ r, ∀ i, r = inr (Some i) → identityTyped i ∧ IdentName i = name
  | OpListIdentities => λ r, ∀ l, r = inr l → Forall identityTyped l
  | OpCreateIdentity _ | OpUpdateIdentity _ =>
      λ r, ∀ answer, r = inr answer → ∃ i, answer = Some i ∧ identityTyped i
  | OpGetEnrollmentJWT _ => λ r, ∀ jwt, r = inr jwt → jwt ≠ ""
  | OpFindServiceByName name => λ r, ∀ s, r = inr (Some s) → ServiceName s = name
  | OpGetConfig _ | OpCreateConfig _ | OpUpdateConfig _ => λ r, ∀ c, r = inr (Some c) → configTyped c
  | OpFindEdgeRouterByName name => λ r, ∀ x, r = inr (Some x) → routerTyped x ∧ EdgeRouterName x = name
  | OpGetAccessPolicy _ | OpCreateAccessPolicy _ | OpUpdateAccessPolicy _ =>
      λ r, ∀ p, r = inr (Some p) → policyTyped p
  | OpFindAccessPolicyByName name => λ r, ∀ p, r = inr (Some p) → policyTyped p ∧ PolicyName p = name
  | OpFindServiceEdgeRouterPolicyByName name => λ r, ∀ p, r = inr (Some p) → SerpName p = name
  | _ => λ _, True
  end.

(** ** Programs that yield objects with a property *)

(** Every value of a run whose events satisfy [T] satisfies [P]. *)
Definition yieldsIn (T : event clientOp clientResp → Prop) {A} (P : A → Prop) (p : client (result A)) : Prop :=
  ∀ t a, Forall T t → runs p t (inr a) → P a.

(** The same for every run. *)
Abbreviation yields P p := (yieldsIn (λ _, True) P p).

(** [P] for an object that may be nil. *)
Definition ifPresent {A} (P : A → Prop) (x : option A) : Prop := ∀ a, x = Some a → P a.

Section Types.
Context `{UnicodeTables} `{CredentialParsers} (pages : nat).

Section Rules.
Context {T : event clientOp clientResp → Prop}.

Lemma yields_use {A} (P : A → Prop) (fn : session → client (result A)) :
  (∀ api, yieldsIn T P (fn api)) → yieldsIn T P (use true fn).
Proof.
  intros Hfn t a Ht (t1 & t2 & [err|api] & -> & _ & H2)%runs_bind; [by destruct H2|].
  apply Forall_app in Ht as [_ Ht].
  apply runs_bind in H2 as (t3 & t4 & [err|b] & -> & H3 & H4); apply Forall_app in Ht as [Ht3 Ht4];
    [|destruct H4 as [_ [= <-]]; exact (Hfn _ _ _ Ht3 H3)].
  destruct (negb _); [by destruct H4|]. cbn [bind perform call runs] in H4. destruct H4 as (r & t5 & -> & H4).
  apply Forall_cons in Ht4 as [_ Ht5].
  apply runs_bind in H4 as (t6 & t7 & [err'|api'] & -> & _ & H4); [by destruct H4|].
  apply Forall_app in Ht5 as [_ Ht7]. exact (Hfn _ _ _ Ht7 H4).
Qed.

Lemma yields_createIfMissing {A} (P : A → Prop) (updated create : client (result A)) :
  yieldsIn T P updated → yieldsIn T P create → yieldsIn T P (createIfMissing updated create).
Proof.
  intros Hu Hc t a Ht (t1 & t2 & [err|b] & -> & H1 & H2)%runs_bind; apply Forall_app in Ht as [Ht1 Ht2].
  - destruct (isStatusCode err 404); [exact (Hc _ _ Ht2 H2)|by destruct H2].
  - destruct H2 as [_ [= <-]]. exact (Hu _ _ Ht1 H1).
Qed.

(** A step after which the value is [P] when the rest yields it. *)
Lemma yields_after {A B} (P : B → Prop) (p : client A) (k : A → client (result B)) :
  (∀ t a, Forall T t → runs p t a → yieldsIn T P (k a)) → yieldsIn T P (bind p k).
Proof.
  intros Hk t b Ht (t1 & t2 & a & -> & H1 & H2)%runs_bind. apply Forall_app in Ht as [Ht1 Ht2].
  exact (Hk _ _ Ht1 H1 _ _ Ht2 H2).
Qed.

Lemma yields_bind {A B} (P : B → Prop) (p : client A) (k : A → client (result B)) :
  (∀ a, yieldsIn T P (k a)) → yieldsIn T P (bind p k).
Proof. intros Hk. by apply yields_after. Qed.

Lemma yields_ret {A} (P : A → Prop) (r : result A) : (∀ a, r = inr a → P a) → yieldsIn T P (Ret r).
Proof. intros Hr t a _ [_ ->]. by apply Hr. Qed.

Lemma yields_getOrNil {D A} (P : option A → Prop) action (detail : session → client (result D))
    (from : D → result (option A)) api :
  P None → (∀ d a, from d = inr a → P a) → yieldsIn T P (getOrNil action detail from api).
Proof.
  intros Hn Hf. apply yields_bind. intros [err|d]; [case_test|]; apply yields_ret; try done.
  - by intros a [= <-].
  - apply Hf.
Qed.

(** The value that is read back comes from a detail that the run has read. *)
Lemma yields_readBackOf {D A} (P : option A → Prop) action (detail : session → string → client (result D))
    (from : D → result (option A)) api created :
  (∀ id t d a, Forall T t → runs (detail api id) t (inr d) → from d = inr a → P a) →
  yieldsIn T P (readBack action detail from api created).
Proof.
  intros Hf. unfold readBack. destruct (extractCreatedID created) as [|id]; [by apply yields_ret|].
  apply yields_after. intros t [err|d] Ht Hr; apply yields_ret; [done|]. intros a. by apply (Hf id t).
Qed.

Lemma yields_readBack {D A} (P : option A → Prop) action (detail : session → string → client (result D))
    (from : D → result (option A)) api created :
  (∀ d a, from d = inr a → P a) → yieldsIn T P (readBack action detail from api created).
Proof. intros Hf. apply yields_readBackOf. eauto. Qed.

Lemma yields_createAndRead {A} (P : A → Prop) action (create : session → client (result CreateEnvelope))
    (back : session → CreateEnvelope → client (result A)) api :
  (∀ created, yieldsIn T P (back api created)) → yieldsIn T P (createAndRead action create back api).
Proof. intros Hb. apply yields_bind. intros [err|created]; [by apply yields_ret|done]. Qed.

Lemma yields_updateAndRead {A} (P : A → Prop) action id (update : session → client (result unit))
    (back : session → CreateEnvelope → client (result A)) api :
  (∀ created, yieldsIn T P (back api created)) → yieldsIn T P (updateAndRead action id update back api).
Proof. intros Hb. apply yields_bind. intros [err|?]; [case_test; by apply yields_ret|done]. Qed.

End Rules.

(** A run without a condition on its events. *)
Lemma yields_run {A} (P : A → Prop) p t (a : A) : yields P p → runs p t (inr a) → P a.
Proof. intros Hp. apply Hp. by apply Forall_forall. Qed.

Lemma head_filter {A} (l : list A) (hit : A → bool) a :
  head (List.filter hit l) = Some a → a ∈ l ∧ hit a = true.
Proof.
  intros Hh. apply head_Some_elem_of in Hh. by apply list_elem_of_In, List.filter_In in Hh as [?%list_elem_of_In ?].
Qed.

Lemma yields_findPaged {D A} (P : A → Prop) action (fetch : Z → Z → client (result (listing D)))
    (from : option D → option A) hit fuel offset :
  (∀ d a, from d = Some a → hit a = true → P a) →
  yields (ifPresent P) (findPaged action fetch from hit fuel offset).
Proof.
  intros Hf. revert offset. induction fuel as [|fuel IH]; intros offset; cbn [findPaged]; [by intros ? ?|].
  apply yields_bind. intros [err|[data|]]; [by apply yields_ret| |by apply yields_ret; intros a [= <-]].
  destruct (head _) as [a|] eqn:Hh.
  - apply yields_ret. intros x [= <-] b [= <-]. apply head_filter in Hh as [(d & _ & Hd)%list_elem_of_omap Hh].
    by eapply Hf.
  - cbv zeta. case_test; [by apply yields_ret; intros a [= <-]|apply IH].
Qed.

(** ** Conversions *)

Lemma identityFromEnvelope_typed e i : identityFromEnvelope e = inr i → identityTyped i.
Proof.
  unfold identityFromEnvelope. destruct e as [[d|]|]; [|done..].
  destruct (RestIdentID d), (RestIdentName d), (RestIdentType d); try done.
  case_test; [done|]. intros [= <-]. reflect_bools. done.
Qed.

Lemma identityDetail_typed e a : identityDetail e = inr a → ∃ i, a = Some i ∧ identityTyped i.
Proof.
  unfold identityDetail, present. destruct (identityFromEnvelope e) as [|i] eqn:E; [done|].
  intros [= <-]. exists i. split; [done|]. by eapply identityFromEnvelope_typed.
Qed.

Lemma configFromEnvelope_typed e c : configFromEnvelope e = Some c → configTyped c.
Proof.
  unfold configFromEnvelope. destruct e as [[d|]|]; [|done..].
  destruct (RestConfigID d), (RestConfigName d), (RestConfigTypeName d); try done.
  case_bool_decide; [done|]. by intros [= <-].
Qed.

Lemma accessPolicyFromEnvelope_typed e p : accessPolicyFromEnvelope e = Some p → policyTyped p.
Proof.
  unfold accessPolicyFromEnvelope. destruct e as [[d|]|]; [|done..].
  destruct (RestPolicyID d), (RestPolicyName d), (RestPolicyType d), (RestPolicySemantic d); try done.
  by intros [= <-].
Qed.

Lemma edgeRouterFromDetail_typed d r : edgeRouterFromDetail d = Some r → routerTyped r.
Proof.
  unfold edgeRouterFromDetail. destruct d as [d|]; [|done]. destruct (RestRouterID d), (RestRouterName d); try done.
  case_bool_decide; [done|]. by intros [= <-].
Qed.

Lemma pageIdentities_typed items l : pageIdentities items = inr l → Forall identityTyped l.
Proof.
  revert l. induction items as [|x items IH]; intros l; cbn [pageIdentities]; [by intros [= <-]|].
  destruct (identityFromEnvelope (Some x)) as [|i] eqn:E; [done|].
  destruct (pageIdentities items); [done|]. intros [= <-]. constructor; [by eapply identityFromEnvelope_typed|by apply IH].
Qed.

Lemma listIdentities_typed api fuel offset acc :
  Forall identityTyped acc → yields (Forall identityTyped) (listIdentities api fuel offset acc).
Proof.
  revert offset acc. induction fuel as [|fuel IH]; intros offset acc Hacc; cbn [listIdentities]; [by intros ? ?|].
  apply yields_bind. intros [err|[[data|]|]]; try by apply yields_ret.
  destruct (pageIdentities data) as [err|page] eqn:E; [by apply yields_ret|].
  assert (Forall identityTyped (acc ++ page)) by (apply Forall_app; split; [done|by eapply pageIdentities_typed]).
  cbv zeta. case_test; [by apply yields_ret; intros ? [= <-]|by apply IH].
Qed.

Lemma enrollmentJWT_typed id api : yields (λ jwt, jwt ≠ "") (enrollmentJWT id api).
Proof.
  assert (∀ jwt, negb (bool_decide (TrimSpace jwt = "")) = true → yields (λ jwt, jwt ≠ "") (Ret (inr jwt))) as Hjwt.
  { intros jwt Hj. apply yields_ret. intros ? [= <-] ->. by reflect_bools. }
  unfold enrollmentJWT. apply yields_bind. intros [err|e]; [by apply yields_ret|]. cbv zeta. case_test; [auto|].
  apply yields_bind. intros [err|[[detail|]|]]; try by apply yields_ret.
  - case_test; [|by apply yields_ret]. apply yields_bind. intros [?|e']; [by apply yields_ret|].
    case_test; [auto|by apply yields_ret].
  - case_test; [|by apply yields_ret]. apply yields_ret. intros ? [= <-]. by reflect_bools.
Qed.

Lemma created_typed api created : yields (λ a, ∃ i, a = Some i ∧ identityTyped i) (getIdentityByID api created).
Proof. apply yields_readBack, identityDetail_typed. Qed.

Lemma config_typed api created : yields (ifPresent configTyped) (getConfigByID api created).
Proof. apply yields_readBack. intros d a [= <-] c Hc. by eapply configFromEnvelope_typed. Qed.

Lemma policy_typed api created : yields (ifPresent policyTyped) (getAccessPolicyByID api created).
Proof. apply yields_readBack. intros d a [= <-] c Hc. by eapply accessPolicyFromEnvelope_typed. Qed.

Lemma CreateConfig_typed cfg : yields (ifPresent configTyped) (CreateConfig true pages cfg).
Proof.
  apply yields_use. intros api. apply yields_bind. intros [err|id]; [by apply yields_ret|].
  apply yields_createAndRead. intros. apply config_typed.
Qed.

Lemma yields_present {A} (P : A → Prop) p t (a : A) :
  yields (ifPresent P) p → runs p t (inr (Some a)) → P a.
Proof. intros Hp Hr. by apply (yields_run _ _ _ _ Hp Hr). Qed.

Lemma CreateIdentity_typed i : yields (λ a, ∃ i, a = Some i ∧ identityTyped i) (CreateIdentity true i).
Proof. apply yields_use. intros api. apply yields_createAndRead. intros. apply created_typed. Qed.

Lemma UpdateIdentity_typed i : yields (λ a, ∃ i, a = Some i ∧ identityTyped i) (UpdateIdentity true i).
Proof.
  apply yields_createIfMissing; [|apply CreateIdentity_typed].
  apply yields_use. intros api. apply yields_updateAndRead. intros. apply created_typed.
Qed.

Lemma ListIdentities_typed : yields (Forall identityTyped) (ListIdentities true pages).
Proof. apply yields_use. intros api. by apply listIdentities_typed. Qed.

Lemma FindIdentityByName_typed name :
  yields (ifPresent (λ i, identityTyped i ∧ IdentName i = name)) (FindIdentityByName true pages name).
Proof.
  intros t a _ (t1 & t2 & [err|l] & -> & H1 & H2)%runs_bind; [by destruct H2|].
  destruct H2 as [_ [= <-]]. intros i [Hi Hn%bool_decide_eq_true]%head_filter. split; [|done].
  pose proof (yields_run _ _ _ _ ListIdentities_typed H1) as Hl. rewrite Forall_forall in Hl. by apply Hl.
Qed.

Lemma FindServiceByName_typed name :
  yields (ifPresent (λ s, ServiceName s = name)) (FindServiceByName true name).
Proof.
  apply yields_use. intros api. apply yields_bind. intros [err|[data|]]; [by apply yields_ret| |by intros ? ? ?].
  apply yields_ret. intros ? [= <-] s [_ Hn%bool_decide_eq_true]%head_filter. done.
Qed.

(** C39. What the client returns is well formed.  Whatever the controller
    answers: an identity has an ID, a name and a type that are not blank; a
    created or updated identity is never nil; a config has a type and an edge
    router a name; the roles of a policy are the ones that the controller
    holds; an enrollment token is not empty; and the object that a lookup by
    name returns has exactly this name. *)
Theorem answers_typed (o : zitiOp) (t : ctrace) (r : zitiResp o) :
  runs (implement pages o) t r → answerTyped o r.
Proof.
  intros Hr. destruct o; cbn [implement answerTyped] in *; try done; intros x ->.
  - revert Hr. apply yields_present, yields_use. intros api. apply yields_getOrNil; [done|].
    intros d a (i & -> & Hi)%identityDetail_typed. by intros ? [= <-].
  - exact (yields_present _ _ _ _ (FindIdentityByName_typed name) Hr).
  - exact (yields_run _ _ _ _ ListIdentities_typed Hr).
  - exact (yields_run _ _ _ _ (CreateIdentity_typed _) Hr).
  - exact (yields_run _ _ _ _ (UpdateIdentity_typed _) Hr).
  - refine (yields_run (λ jwt, jwt ≠ "") _ _ _ _ Hr). apply yields_use. apply enrollmentJWT_typed.
  - exact (yields_present _ _ _ _ (FindServiceByName_typed name) Hr).
  - revert Hr. apply yields_present, yields_use. intros api. apply yields_getOrNil; [done|].
    intros d a [= <-] c Hc. by eapply configFromEnvelope_typed.
  - revert Hr. apply yields_present, CreateConfig_typed.
  - revert Hr. apply yields_present, yields_createIfMissing; [|apply CreateConfig_typed].
    apply yields_use. intros api. apply yields_updateAndRead. intros. apply config_typed.
  - revert Hr. apply (yields_present (λ x, routerTyped x ∧ EdgeRouterName x = name)), yields_use.
    intros api. apply yields_findPaged. intros d a Ha%edgeRouterFromDetail_typed Hn. by reflect_bools.
  - revert Hr. apply yields_present, yields_use. intros api. apply yields_getOrNil; [done|].
    intros d a [= <-] c Hc. by eapply accessPolicyFromEnvelope_typed.
  - revert Hr. apply (yields_present (λ p, policyTyped p ∧ PolicyName p = name)), yields_use.
    intros api. apply yields_findPaged. intros d a Ha%accessPolicyFromEnvelope_typed Hn. by reflect_bools.
  - revert Hr. apply yields_present, yields_use. intros api. apply yields_createAndRead. intros. apply policy_typed.
  - revert Hr. apply yields_present, yields_createIfMissing; apply yields_use; intros api;
      [apply yields_updateAndRead|apply yields_createAndRead]; intros; apply policy_typed.
  - revert Hr. apply (yields_present (λ p, SerpName p = name)), yields_use.
    intros api. apply yields_findPaged. intros d a _ Hn. by reflect_bools.
Qed.

End Types.

(** ** A concrete creation *)

Definition exNew : Identity :=
  {| IdentID := ""; IdentName := "bob"; IdentType := "User"; IdentRoleAttributes := [];
     IdentCreateOTT := true; IdentExternalID := "" |}.

Definition exCreated : Identity :=
  {| IdentID := "i1"; IdentName := "bob"; IdentType := "User"; IdentRoleAttributes := ["#a"];
     IdentCreateOTT := false; IdentExternalID := "" |}.

Definition exCreation : ctrace :=
  [cev LoadConfig (inr exManagementConfig); cev LockedRead (Some 3, exManagementConfig);
   cev (Rest 3 (RCreateIdentity (toIdentityCreate exNew))) (inr (Some (Some " i1 ")));
   cev (Rest 3 (RDetailIdentity "i1"))
     (inr (Some (Some {| RestIdentID := Some "i1"; RestIdentName := Some "bob"; RestIdentType := Some "User";
                         RestIdentRoleAttributes := Some ["#a"]; RestIdentExternalID := None |})))].

Lemma answers_typed_witness :
  runs (@implement asciiTables exParsers 5 (OpCreateIdentity exNew)) exCreation (inr (Some exCreated)) ∧
  ∃ i, Some exCreated = Some i ∧ identityTyped i.
Proof.
  assert (runs (@implement asciiTables exParsers 5 (OpCreateIdentity exNew)) exCreation (inr (Some exCreated))) as Hr.
  { unfold exCreation. repeat (eexists _, _; split; [reflexivity|]). split; reflexivity. }
  split; [exact Hr|].
  exact (@answers_typed asciiTables exParsers 5 (OpCreateIdentity exNew) exCreation _ Hr (Some exCreated) eq_refl).
Defined.
