(* ===== verification/Composition.v ===== *)
(** * Reconcilers over the management client

    The answers that the reconcilers get are not arbitrary: they come from
    [ManagementClient].  [byClient] restricts the answers of the backend calls
    to the ones that a run of the client's method can produce, whatever the
    controller answered it. *)

From S2P Require Import Prelude GoSlices GoStrings Errors ZitiTypes ApiTypes Credentials RestModel.
From S2P Require Import World ReconcileHelpers Lifecycle ZitiClient ClientSessions ClientTypes.
From S2P Require Import IdentityController Policy AccessPolicy ServiceBackend ServiceController ServiceSafety.

#[local] Open Scope mz_scope.

(** ** What the reconcilers need of their backend *)

(** The promise about the answers [allowed]: an identity that was created or
    updated without an error is not nil. *)
Class ReliableIdentities (allowed : ∀ o : op, resp o → Prop) := {
  created_present i (answer : option Identity) :
    allowed (Ziti (OpCreateIdentity i)) (inr answer) → is_Some answer;
  updated_present i (answer : option Identity) :
    allowed (Ziti (OpUpdateIdentity i)) (inr answer) → is_Some answer;
}.

(** An answer that is an error or an object, for the calls that create or update
    the other kinds. *)
Definition answersObject (o : zitiOp) : zitiResp o → Prop :=
  match o return zitiResp o → Prop with
  | OpCreateService _ | OpUpdateService _ => λ r, ∀ a, r = inr a → is_Some a
  | OpCreateConfig _ | OpUpdateConfig _ => λ r, ∀ a, r = inr a → is_Some a
  | OpCreateAccessPolicy _ | OpUpdateAccessPolicy _ => λ r, ∀ a, r = inr a → is_Some a
  | OpCreateServiceEdgeRouterPolicy _ | OpUpdateServiceEdgeRouterPolicy _ => λ r, ∀ a, r = inr a → is_Some a
  | _ => λ _, True
  end.

(** The promise that what was created or updated without an error is not nil. *)
Class ReliableObjects (allowed : ∀ o : op, resp o → Prop) :=
  object_present o r : allowed (Ziti o) r → answersObject o r.

(** Proves [returns _ p] by following the branches of [p]. *)
Ltac returns_calls :=
  repeat first
    [ done
    | progress intros
    | progress cbn [returns bind do ziti call]
    | match goal with
      | |- returns _ (match ?x with _ => _ end) => destruct x
      | |- returns _ (if ?b then _ else _) => destruct b
      | |- returns _ (bind _ _) => apply returns_bind
      | |- returns _ (let '(_, _) := ?x in _) => destruct x
      end ].

Section Reconcilers.
Context `{OwnerRefs} `{MetaConditions} `{UnicodeTables} (recorder : bool).
Context (allowed : ∀ o : op, resp o → Prop).

(** *** What the reconcilers share *)

Lemma markReady_returns `{StatusResource k} (o : obj k) message : returns allowed (markReady o message).
Proof. unfold markReady, setConditionNow. returns_calls. Qed.

Lemma markFailed_returns `{StatusResource k} (o : obj k) err reason retryable :
  returns allowed (markFailed recorder o err reason retryable).
Proof. unfold markFailed, setConditionNow, EmitEvent. cbv zeta. returns_calls. Qed.

(** The end of a reconciliation that succeeds. *)
Lemma finish_returns `{StatusResource k} (o : obj k) message key reason text :
  returns allowed
    (let! err := markReady o message in
     match err with
     | Some err => Ret (noResult, Some err)
     | None => let! _ := EmitEvent recorder key EventTypeNormal reason text in Ret (noResult, None)
     end).
Proof.
  apply returns_bind; [apply markReady_returns|]. intros t [err|] _ _; [done|]. unfold EmitEvent. returns_calls.
Qed.

(** An object that an allowed run answers is there. *)
Definition promises {A} (p : action (result (option A))) : Prop :=
  returns allowed p ∧
  ∀ t a, runs p t (inr a) → Forall (λ e, allowed (ev_op e) (ev_resp e)) t → is_Some a.

Lemma returns_promised {A B} (p : action (result (option A))) (k : result (option A) → action B) :
  promises p → (∀ err, returns allowed (k (inl err))) → (∀ a, returns allowed (k (inr (Some a)))) →
  returns allowed (bind p k).
Proof.
  intros [Hr Hp] Herr Hok. apply returns_bind; [done|]. intros t [err|a] Ht Hall; [done|].
  by destruct (Hp t a Ht Hall) as [x ->].
Qed.

(** A lookup that decides between two calls which promise an object. *)
Lemma promises_after {A B} (p : action A) (k : A → action (result (option B))) :
  returns allowed p → (∀ a, promises (k a)) → promises (bind p k).
Proof.
  intros Hp Hk. split; [apply returns_bind; [done|]; intros; apply Hk|].
  intros t b (t1 & t2 & a & -> & _ & Hr)%runs_bind [_ Ha]%Forall_app. by eapply Hk.
Qed.

Lemma promises_error {A} err : promises (A := A) (Ret (inl err)).
Proof. split; [done|]. by intros t a [_ ?]. Qed.

Lemma promises_object {A} (x : A) : promises (Ret (inr (Some x))).
Proof. split; [done|]. intros t a [_ [= <-]]. by eexists. Qed.

(** *** Identities *)

Section Identities.
Context `{!ReliableIdentities allowed}.

Lemma markIdentityFailed_returns (o : obj KIdentity) err reason retryable :
  returns allowed (markIdentityFailed recorder o err reason retryable).
Proof. apply (markFailed_returns (k := KIdentity)). Qed.
Lemma finishIdentity_returns (o : obj KIdentity) : returns allowed (finishIdentity recorder o).
Proof. apply (finish_returns (k := KIdentity)). Qed.

Lemma promises_identityCreate desired : promises (identityCreate desired).
Proof.
  split; [done|]. intros t a (r & t' & -> & -> & ->) [Ha _]%Forall_cons. exact (created_present _ _ Ha).
Qed.

Lemma promises_identityUpdate id desired : promises (identityUpdate id desired).
Proof.
  split; [done|]. intros t a (r & t' & -> & -> & ->) [Ha _]%Forall_cons. exact (updated_present _ _ Ha).
Qed.

Lemma reconcileEnrollment_returns i desired backendIdentity :
  returns allowed (reconcileEnrollment recorder i desired backendIdentity).
Proof.
  unfold reconcileEnrollment. cbv zeta. case_test; [|apply finishIdentity_returns].
  unfold EnrollmentJWT. cbn [bind ziti call returns]. intros [err|jwt] _; [apply markIdentityFailed_returns|].
  apply returns_bind; [unfold ReconcileEnrollmentSecret; returns_calls|].
  intros t [err|name] _ _; [apply markIdentityFailed_returns|apply finishIdentity_returns].
Qed.

Lemma reconcileZitiIdentity_returns req : returns allowed (reconcileZitiIdentity recorder req).
Proof.
  unfold reconcileZitiIdentity. cbn [bind do call returns]. intros [err|resource] _; [done|].
  case_test; [unfold identityReconcileDelete, DeleteEnrollmentSecret, identityDelete, EmitEvent; returns_calls|].
  destruct (EnsureFinalizer _ _) as [[] o]; [returns_calls|].
  destruct (validateIdentitySpec o); [apply markIdentityFailed_returns|]. cbv zeta. apply returns_promised.
  - unfold reconcileIdentity. case_test; [apply promises_identityUpdate|].
    apply promises_after; [done|]. intros [err|[existing|]];
      [apply promises_error|apply promises_identityUpdate|apply promises_identityCreate].
  - intros err. apply markIdentityFailed_returns.
  - intros x. apply reconcileEnrollment_returns.
Qed.
End Identities.

(** *** Services *)

Section Objects.
Context `{!ReliableObjects allowed}.

Lemma markServiceFailed_returns (o : obj KService) err reason retryable :
  returns allowed (markServiceFailed recorder o err reason retryable).
Proof. apply (markFailed_returns (k := KService)). Qed.
Lemma finishService_returns (o : obj KService) : returns allowed (finishService recorder o).
Proof. apply (finish_returns (k := KService)). Qed.

(** A single call that promises an object. *)
Ltac promised_call :=
  split; [done|]; intros t a (r & t' & -> & -> & ->) [Ha _]%Forall_cons; exact (object_present _ _ Ha a eq_refl).

Lemma promises_serviceUpdate id desired : promises (serviceUpdate id desired).
Proof. promised_call. Qed.
Lemma promises_serviceCreate desired : promises (serviceCreate desired).
Proof. promised_call. Qed.
Lemma promises_updateConfig cfg : promises (UpdateConfig cfg).
Proof. promised_call. Qed.
Lemma promises_createConfig cfg : promises (CreateConfig cfg).
Proof. promised_call. Qed.
Lemma promises_updateAccessPolicy p : promises (UpdateAccessPolicy p).
Proof. promised_call. Qed.
Lemma promises_createAccessPolicy p : promises (CreateAccessPolicy p).
Proof. promised_call. Qed.
Lemma promises_updateSerp p : promises (UpdateServiceEdgeRouterPolicy p).
Proof. promised_call. Qed.
Lemma promises_createSerp p : promises (CreateServiceEdgeRouterPolicy p).
Proof. promised_call. Qed.
Lemma promises_policyUpdate id desired : promises (policyUpdate id desired).
Proof. promised_call. Qed.
Lemma promises_policyCreate desired : promises (policyCreate desired).
Proof. promised_call. Qed.

Lemma promises_reconcileService resource desired : promises (reconcileService resource desired).
Proof.
  unfold reconcileService. case_test; [apply promises_serviceUpdate|].
  apply promises_after; [done|]. intros [err|[existing|]];
    [apply promises_error|apply promises_serviceUpdate|apply promises_serviceCreate].
Qed.

Lemma promises_reconcileConfig id desired : promises (reconcileConfig id desired).
Proof. unfold reconcileConfig. case_test; [apply promises_updateConfig|apply promises_createConfig]. Qed.

Lemma promises_reconcileBindPolicy id desired : promises (reconcileBindPolicy id desired).
Proof.
  assert (∀ d, promises (adoptAccessPolicy d)) as Hadopt.
  { intros d. apply promises_after; [done|]. intros [err|[existing|]];
      [apply promises_error|apply promises_updateAccessPolicy|apply promises_createAccessPolicy]. }
  unfold reconcileBindPolicy. case_test; [|done]. cbv zeta. apply promises_after; [done|].
  intros [err|[updated|]]; [apply promises_error|apply promises_object|done].
Qed.

Lemma promises_reconcileSerp id desired : promises (reconcileServiceEdgeRouterPolicy id desired).
Proof.
  assert (∀ d, promises (adoptServiceEdgeRouterPolicy d)) as Hadopt.
  { intros d. apply promises_after; [done|]. intros [err|[existing|]];
      [apply promises_error|apply promises_updateSerp|apply promises_createSerp]. }
  unfold reconcileServiceEdgeRouterPolicy. case_test; [|done]. cbv zeta. apply promises_after; [done|].
  intros [err|[updated|]]; [apply promises_error|apply promises_object|done].
Qed.

Lemma desiredRouterPolicies_returns resource id : returns allowed (desiredRouterPolicies resource id).
Proof.
  unfold desiredRouterPolicies, resolveEdgeRouterID. destruct (Router _) as [router|]; [|done]. case_test; [done|].
  cbv zeta. cbn [bind FindIdentityByName FindEdgeRouterByName ziti call returns]. intros [err|[i|]] _; [done| |done].
  do 2 (case_test; [done|]). cbn [bind returns]. intros r _.
  apply returns_bind; [returns_calls|]. intros _ [err|hosting] _ _; [done|].
  apply returns_bind; [|intros _ [err|ids] _ _; [done|]; by destruct (RouterPolicies _ _ _ _ _)].
  generalize (AdditionalAllowedEdgeRouterNames router) ({[TrimSpace (RouterName router) := true]} : gmap string bool) (@nil string).
  intros names. induction names as [|name names IH]; intros seen ids; cbn [resolveAdditional]; [done|].
  do 2 (case_test; [done || apply IH|]). apply returns_bind; [unfold resolveEdgeRouterID; returns_calls|].
  intros _ [err|id'] _ _; [done|apply IH].
Qed.

Lemma deleteRouterPolicies_returns service : returns allowed (deleteRouterPolicies service).
Proof. unfold deleteRouterPolicies, deleteUnlessEmpty, DeleteServiceEdgeRouterPolicy, DeleteAccessPolicy. returns_calls. Qed.

Lemma reconcileRouter_returns service : returns allowed (reconcileRouter recorder service).
Proof.
  unfold reconcileRouter. destruct (Router _).
  - apply returns_bind; [apply desiredRouterPolicies_returns|]. intros _ [err|policies] _ _; [apply markServiceFailed_returns|].
    apply returns_promised; [apply promises_reconcileBindPolicy|intros; apply markServiceFailed_returns|]. intros bindPolicy.
    apply returns_promised; [apply promises_reconcileSerp|intros; apply markServiceFailed_returns|]. intros serp.
    apply finishService_returns.
  - apply returns_bind; [apply deleteRouterPolicies_returns|]. intros _ [s [err|]] _ _;
      [apply markServiceFailed_returns|apply finishService_returns].
Qed.

Lemma reconcileZitiService_returns req : returns allowed (reconcileZitiService recorder req).
Proof.
  unfold reconcileZitiService. cbn [bind do call returns]. intros [err|resource] _; [done|]. case_test.
  { unfold serviceReconcileDelete, deleteUnlessEmpty, DeleteConfig, serviceDelete, EmitEvent. case_test; [done|].
    apply returns_bind; [apply deleteRouterPolicies_returns|]. intros. returns_calls. }
  destruct (EnsureFinalizer _ _) as [[] o]; [returns_calls|].
  destruct (validateServiceSpec o); [apply markServiceFailed_returns|]. cbv zeta.
  apply returns_promised; [apply promises_reconcileService|intros; apply markServiceFailed_returns|]. intros backendService.
  unfold reconcileConfigs.
  apply returns_promised; [apply promises_reconcileConfig|intros; apply markServiceFailed_returns|]. intros intercept.
  apply returns_promised; [apply promises_reconcileConfig|intros; apply markServiceFailed_returns|]. intros host.
  cbn [deref]. cbv zeta. apply returns_promised; [|intros; apply markServiceFailed_returns|intros s; apply reconcileRouter_returns].
  case_test; [apply promises_serviceUpdate|apply promises_object].
Qed.

(** *** Access policies *)

Lemma markPolicyFailed_returns (o : obj KAccessPolicy) err reason retryable :
  returns allowed (markPolicyFailed recorder o err reason retryable).
Proof. apply (markFailed_returns (k := KAccessPolicy)). Qed.
Lemma finishPolicy_returns (o : obj KAccessPolicy) p : returns allowed (finishPolicy recorder o (inr (Some p))).
Proof. apply (finish_returns (k := KAccessPolicy)). Qed.

Lemma resolveSelectors_returns identityService policy : returns allowed (resolveSelectors identityService policy).
Proof. unfold resolveSelectors, resolveBackendIdentitySelector. cbv zeta. returns_calls. Qed.

Lemma reconcileAccessPolicy_returns identityService req :
  returns allowed (reconcileAccessPolicy recorder identityService req).
Proof.
  unfold reconcileAccessPolicy. cbn [bind do call returns]. intros [err|resource] _; [done|]. case_test.
  { unfold reconcileDelete, policyDelete, EmitEvent. cbv zeta. returns_calls. }
  destruct (EnsureFinalizer _ _) as [[] o]; [returns_calls|].
  destruct (validateAccessPolicySpec o); [apply markPolicyFailed_returns|].
  apply returns_bind; [apply resolveSelectors_returns|]. intros _ [err|[identities services]] _ _; [apply markPolicyFailed_returns|].
  unfold reconcileResolved. cbv zeta. do 3 (case_test; [apply markPolicyFailed_returns|]).
  apply returns_promised; [|intros; apply markPolicyFailed_returns|intros p; apply finishPolicy_returns].
  unfold reconcilePolicy. case_test; [apply promises_policyUpdate|].
  apply promises_after; [done|]. intros [err|[existing|]];
    [apply promises_error|apply promises_policyUpdate|apply promises_policyCreate].
Qed.
End Objects.

End Reconcilers.

(** ** The management client as the backend *)

Section Client.
Context `{UnicodeTables} `{CredentialParsers} (pages : nat).

(** The answers that the client can give. *)
Definition byClient (o : op) : resp o → Prop :=
  match o return resp o → Prop with
  | Ziti z => λ r, ∃ t, runs (implement pages z) t r
  | _ => λ _, True
  end.

#[export] Instance byClient_reliable : ReliableIdentities byClient.
Proof.
  split; intros i answer [t Hr].
  - destruct (yields_run _ _ _ _ (CreateIdentity_typed _) Hr) as (x & -> & _). by exists x.
  - destruct (yields_run _ _ _ _ (UpdateIdentity_typed _) Hr) as (x & -> & _). by exists x.
Qed.

(** A detail of a service, config or policy that the controller sends has the
    fields without which the client takes it as missing. *)
Definition completeDetail (e : event clientOp clientResp) : Prop :=
  match e with
  | Ev (Rest _ (RDetailService _)) r => ∀ d, r = inr d → serviceFromEnvelope d ≠ None
  | Ev (Rest _ (RDetailConfig _)) r => ∀ d, r = inr d → configFromEnvelope d ≠ None
  | Ev (Rest _ (RDetailServicePolicy _)) r => ∀ d, r = inr d → accessPolicyFromEnvelope d ≠ None
  | Ev (Rest _ (RDetailSerp _)) r => ∀ d, r = inr d → serviceEdgeRouterPolicyFromEnvelope d ≠ None
  | _ => True
  end.

(** The answers when the controller's details are complete. *)
Definition byCompleteClient (o : op) : resp o → Prop :=
  match o return resp o → Prop with
  | Ziti z => λ r, ∃ t, runs (implement pages z) t r ∧ Forall completeDetail t
  | _ => λ _, True
  end.

Abbreviation yieldsObject p := (yieldsIn completeDetail (λ a, is_Some a) p).

(** What is read back is then an object. *)
Lemma readBack_object {D A} action (from : D → option A) api created
    (ask : session → string → client (result D)) :
  (∀ id t d, Forall completeDetail t → runs (ask api id) t (inr d) → from d ≠ None) →
  yieldsObject (readBack action ask (λ e, inr (from e)) api created).
Proof.
  intros Hd. apply yields_readBackOf. intros id t d a Ht Hr [= <-].
  specialize (Hd id t d Ht Hr). destruct (from d); [by eexists|done].
Qed.

Ltac detail_object :=
  intros; apply readBack_object; intros id t d Ht (r & t' & -> & _ & ->);
  apply Forall_cons in Ht as [Hd _]; by apply Hd.

Lemma service_object api created : yieldsObject (getServiceByID api created).
Proof. detail_object. Qed.
Lemma config_object api created : yieldsObject (getConfigByID api created).
Proof. detail_object. Qed.
Lemma policy_object api created : yieldsObject (getAccessPolicyByID api created).
Proof. detail_object. Qed.
Lemma serp_object api created : yieldsObject (getServiceEdgeRouterPolicyByID api created).
Proof. detail_object. Qed.

(** A method that creates, or updates and creates when there is nothing. *)
Lemma create_object {A} action create (back : session → CreateEnvelope → client (result (option A))) :
  (∀ api created, yieldsObject (back api created)) → yieldsObject (use true (createAndRead action create back)).
Proof. intros Hb. apply yields_use. intros api. apply yields_createAndRead. intros created. apply Hb. Qed.

Lemma update_object {A} action id update (back : session → CreateEnvelope → client (result (option A))) created :
  (∀ api created, yieldsObject (back api created)) → yieldsObject created →
  yieldsObject (createIfMissing (use true (updateAndRead action id update back)) created).
Proof.
  intros Hb Hc. apply yields_createIfMissing; [|done]. apply yields_use. intros api.
  apply yields_updateAndRead. intros payload. apply Hb.
Qed.

Lemma config_created_object cfg : yieldsObject (ZitiClient.CreateConfig true pages cfg).
Proof.
  apply yields_use. intros api. apply yields_bind. intros [err|id]; [by apply yields_ret|].
  apply yields_createAndRead. intros. apply config_object.
Qed.

#[export] Instance byCompleteClient_reliable : ReliableObjects byCompleteClient.
Proof.
  intros o r (t & Hr & Ht). destruct o; try done; intros a ->; revert t a Ht Hr.
  - apply create_object, service_object.
  - apply update_object; [apply service_object|apply create_object, service_object].
  - apply config_created_object.
  - apply update_object; [apply config_object|apply config_created_object].
  - apply create_object, policy_object.
  - apply update_object; [apply policy_object|apply create_object, policy_object].
  - apply create_object, serp_object.
  - apply update_object; [apply serp_object|apply create_object, serp_object].
Qed.

End Client.

(** ** A detail that is not complete

    For configs, services and policies the client takes a detail without one of
    its required fields as nil, without an error; the service reconciler
    dereferences it. *)
Definition exConfigSent : ServiceConfig :=
  {| ConfigID := ""; ConfigName := "shop-intercept"; ConfigType := "intercept.v1"; ConfigPayload := ∅ |}.

Definition exIncomplete : ctrace :=
  [cev LoadConfig (inr exManagementConfig); cev LockedRead (Some 3, exManagementConfig);
   cev (Rest 3 (RListConfigTypes 100 0))
     (inr (Some (Some [Some {| RestConfigTypeID := Some "t1"; RestConfigTypeDetailName := Some "intercept.v1" |}])));
   cev (Rest 3 (RCreateConfig (toConfigCreate exConfigSent "t1"))) (inr (Some (Some "c1")));
   cev (Rest 3 (RDetailConfig "c1"))
     (inr (Some (Some {| RestConfigID := Some "c1"; RestConfigName := Some "shop-intercept";
                         RestConfigTypeName := None; RestConfigData := None |})))].

Definition exIncompleteWorld (o : op) : resp o :=
  match o with
  | Ziti (OpCreateConfig _) => inr None
  | o => exServiceWorld o
  end.

Example incomplete_config_panics :
  runs (@implement asciiTables exParsers 5 (OpCreateConfig exConfigSent)) exIncomplete (inr None) ∧
  snd (execWith exIncompleteWorld exShopRun) = None.
Proof.
  split; [|vm_compute; reflexivity].
  unfold exIncomplete. repeat (eexists _, _; split; [reflexivity|]). split; reflexivity.
Qed.
