(* ===== verification/Stack.v ===== *)
(** * The whole operator returns

    The reconcilers over the management client and the directory client: every
    backend call of a reconciler is replaced by the run of the client's method,
    so what is left are the calls to the Kubernetes API, to the OpenZiti
    controller and to Microsoft, and the composed programs are proved to end
    whatever these answer, as long as their lists are finite. *)

From S2P Require Import Prelude GoSlices GoStrings Errors GraphErrors Entra Scope Planner ZitiTypes ApiTypes.
From S2P Require Import Credentials RestModel.
From S2P Require Import World ReconcileHelpers ZitiClient ClientSessions ClientProps ClientTypes.
From S2P Require Import IdentityController IdentitySafety Policy AccessPolicy ServiceController RoleSync.
From S2P Require Import RoleSyncReads RoleSyncWrites RoleSyncStatus GraphClient GraphSafety Composition.

#[local] Open Scope mz_scope.

(** ** The composed program *)

(** The calls that leave the operator: to the Kubernetes API (and the clock, the
    context and the recorder), of the management client, and of the directory
    client that is built for [d]. *)
Inductive stackOp :=
  | ToKube (o : op)
  | ToController (c : clientOp)
  | ToMicrosoft (d : directory) (g : graphOp).

Definition stackResp (o : stackOp) : Type :=
  match o with
  | ToKube o => resp o
  | ToController c => clientResp c
  | ToMicrosoft _ g => graphResp g
  end.

Abbreviation stack A := (prog stackOp stackResp A).

Fixpoint overClient {A} (p : client A) : stack A :=
  match p with
  | Ret a => Ret a
  | Fault f => Fault f
  | Vis c k => Vis (ToController c) (λ r : stackResp (ToController c), overClient (k r))
  end.

Fixpoint overGraph (d : directory) {A} (p : graph A) : stack A :=
  match p with
  | Ret a => Ret a
  | Fault f => Fault f
  | Vis g k => Vis (ToMicrosoft d g) (λ r : stackResp (ToMicrosoft d g), overGraph d (k r))
  end.

Section Compose.
Context `{UnicodeTables} `{CredentialParsers} `{HttpLibrary} `{URLParser} (pages rounds : nat).

(** How a call of a reconciler is served. *)
Definition serve (o : op) : stack (resp o) :=
  match o return stack (resp o) with
  | Ziti z => overClient (implement pages z)
  | Dir d o => overGraph d (serveDirectory rounds d o)
  | o => call (ToKube o : stackOp)
  end.

Fixpoint composed {A} (p : action A) : stack A :=
  match p with
  | Ret a => Ret a
  | Fault f => Fault f
  | Vis o k => bind (serve o) (λ r, composed (k r))
  end.
End Compose.

(** ** When programs return *)

Lemma returns_mono {O} {R : O → Type} {A} (allowed allowed' : ∀ o, R o → Prop) (p : @prog O R A) :
  (∀ o r, allowed' o r → allowed o r) → returns allowed p → returns allowed' p.
Proof. intros Ha. induction p as [a|f|o k IH]; cbn; [done..|]. intros Hk r Hr. by apply IH, Hk, Ha. Qed.

Lemma only_any {O} {R : O → Type} {A} (P : O → Prop) (p : @prog O R A) : (∀ o, P o) → only P p.
Proof. intros HP. induction p as [a|f|o k IH]; cbn; [done..|]. by split; [apply HP|]. Qed.

(** ** The management client *)

(** [n] items from the offset on are not more than a list of [N] has. *)
Definition fits (N : nat) (offset : Z) (n : nat) : Prop := (Z.of_nat n <= Z.max 0 (Z.of_nat N - offset))%Z.

Definition listFits {D} (N : nat) (offset : Z) (r : result (listing D)) : Prop :=
  match r with inr (Some (Some data)) => fits N offset (length data) | _ => True end.

(** An answer of a controller whose lists have at most [N] objects. *)
Definition finiteRest (N : nat) (o : restOp) : restResp o → Prop :=
  match o return restResp o → Prop with
  | RListIdentities _ offset => λ r, listFits N offset r
  | RListConfigTypes _ offset => λ r, listFits N offset r
  | RListEdgeRouters _ offset => λ r, listFits N offset r
  | RListServicePolicies _ offset => λ r, listFits N offset r
  | RListSerps _ offset => λ r, listFits N offset r
  | _ => λ _, True
  end.

Definition finiteLists (N : nat) (c : clientOp) : clientResp c → Prop :=
  match c return clientResp c → Prop with Rest _ o => finiteRest N o | _ => λ _, True end.

(** A successful list of services has its payload, as the generated client has it. *)
Definition payloadPresent (c : clientOp) : clientResp c → Prop :=
  match c return clientResp c → Prop with
  | Rest _ RListServices => λ r, r ≠ inr None
  | _ => λ _, True
  end.

(** The one method that takes the payload of a list without a test. *)
Definition listsServices (z : zitiOp) : bool :=
  match z with OpFindServiceByName _ => true | _ => false end.

Section Client.
Context `{UnicodeTables} `{CredentialParsers} (N pages : nat) (allowed : ∀ c, clientResp c → Prop).
Hypothesis Hfinite : ∀ c r, allowed c r → finiteLists N c r.

(** Proves that a client program without a loop returns. *)
Ltac client_returns :=
  unfold rest, perform;
  repeat first
    [ done
    | progress intros
    | progress cbn [returns bind call negb]
    | match goal with
      | |- returns _ (match ?x with _ => _ end) => destruct x
      | |- returns _ (if ?b then _ else _) => destruct b
      | |- returns _ (let '(_, _) := ?x in _) => destruct x
      | |- returns _ (bind _ _) => apply returns_bind
      end ].

Abbreviation ends p := (returns allowed p).

Lemma getOrAuthenticate_ends force : ends (getOrAuthenticate (loadCurrentConfig true) force).
Proof. unfold getOrAuthenticate, loadCurrentConfig, authenticateWithUPDB. client_returns. Qed.

Lemma use_ends {A} (fn : session → client (result A)) : (∀ api, ends (fn api)) → ends (use true fn).
Proof.
  intros Hfn. unfold use, useAuthenticatedClient. apply returns_bind; [apply getOrAuthenticate_ends|].
  intros _ [err|api] _ _; [done|]. apply returns_bind; [apply Hfn|]. intros _ [err|a] _ _; [|done].
  case_test; [done|]. unfold perform. cbn [bind call returns]. intros _ _.
  apply returns_bind; [apply getOrAuthenticate_ends|]. intros _ [e|api'] _ _; [done|apply Hfn].
Qed.

Lemma createIfMissing_ends {A} (updated create : client (result A)) :
  ends updated → ends create → ends (createIfMissing updated create).
Proof. intros. apply returns_bind; [done|]. intros _ [err|a] _ _; [by case_test|done]. Qed.

Lemma readBack_ends {D A} action (detail : session → string → client (result D))
    (from : D → result (option A)) api created :
  (∀ id, ends (detail api id)) → ends (readBack action detail from api created).
Proof.
  intros Hd. unfold readBack. destruct (extractCreatedID created); [done|]. apply returns_bind; [apply Hd|].
  by intros _ [err|d] _ _.
Qed.

(** A page that is full leaves less to read. *)
Lemma fits_next offset n n' fuel :
  (0 <= offset)%Z → fits N offset n → n' ≤ n → (Z.of_nat n' =? 0)%Z || (Z.of_nat n' <? pageLimit)%Z = false →
  requests (N - Z.to_nat offset) ≤ S fuel →
  (0 <= offset + Z.of_nat n')%Z ∧ requests (N - Z.to_nat (offset + Z.of_nat n')) ≤ fuel.
Proof.
  unfold fits, pageLimit. intros Ho Hf Hn [? Hc%Z.ltb_ge]%orb_false_iff Hr. split; [lia|].
  pose proof (requests_step (N - Z.to_nat offset) fuel) as Hs.
  assert (requests (N - Z.to_nat (offset + Z.of_nat n')) ≤ requests (N - Z.to_nat offset - 100)); [|lia].
  unfold requests. apply le_n_S, Nat.Div0.div_le_mono. lia.
Qed.

(** The lists that the loops read. *)
Definition fetches {D} (fetch : Z → Z → client (result (listing D))) : Prop :=
  ∀ limit offset, ends (fetch limit offset) ∧ ∀ t data, runs (fetch limit offset) t (inr (Some (Some data))) →
    Forall (λ e, allowed (ev_op e) (ev_resp e)) t → fits N offset (length data).

Lemma findPaged_ends {D A} action (fetch : Z → Z → client (result (listing D)))
    (from : option D → option A) hit fuel offset :
  fetches fetch → (0 <= offset)%Z → requests (N - Z.to_nat offset) ≤ fuel →
  ends (findPaged action fetch from hit fuel offset).
Proof.
  intros Hf. revert offset. induction fuel as [|fuel IH]; intros offset Ho Hr; [unfold requests in Hr; lia|].
  cbn [findPaged]. apply returns_bind; [apply Hf|]. intros t [err|[data|]] Ht Hall; [done| |done].
  destruct (head _); [done|]. cbv zeta. destruct (_ || _) eqn:Hc; [done|].
  destruct data as [data|]; [|done]. cbn [default from_option id] in *.
  pose proof (proj2 (Hf pageLimit offset) t data Ht Hall) as Hfit.
  by destruct (fits_next offset (length data) (length data) fuel) as [? ?]; auto.
Qed.

Lemma listIdentities_ends api fuel offset acc :
  (0 <= offset)%Z → requests (N - Z.to_nat offset) ≤ fuel → ends (listIdentities api fuel offset acc).
Proof.
  revert offset acc. induction fuel as [|fuel IH]; intros offset acc Ho Hr; [unfold requests in Hr; lia|].
  cbn [listIdentities bind rest call returns]. intros [err|[[data|]|]] Hfit%Hfinite; [done| |done..].
  destruct (pageIdentities data); [done|]. cbv zeta. destruct (_ || _) eqn:Hc; [done|].
  by destruct (fits_next offset (length data) (length data) fuel) as [? ?]; auto.
Qed.

Lemma findConfigType_ends api name fuel offset :
  (0 <= offset)%Z → requests (N - Z.to_nat offset) ≤ fuel → ends (findConfigType api name fuel offset).
Proof.
  revert offset. induction fuel as [|fuel IH]; intros offset Ho Hr; [unfold requests in Hr; lia|].
  cbn [findConfigType bind rest call returns]. intros [err|[data|]] Hfit%Hfinite; [done| |done].
  cbv zeta. destruct (head _) as [[]|]; [done|]. destruct (_ || _) eqn:Hc; [done|].
  destruct data as [data|]; [|done]. cbn [default from_option id] in *.
  assert (length (omap configTypeItem data) ≤ length data) as Hle.
  { clear. induction data as [|x data IH]; [done|]. cbn. destruct (configTypeItem x); cbn; lia. }
  by destruct (fits_next offset (length data) (length (omap configTypeItem data)) fuel) as [? ?]; auto.
Qed.

Context (Hpages : requests N ≤ pages).

Lemma enough : (0 <= 0)%Z ∧ requests (N - Z.to_nat 0) ≤ pages.
Proof. split; [done|]. by rewrite Nat.sub_0_r. Qed.

Lemma configCreation_ends cfg api :
  ends
    (let! r := resolveConfigTypeID pages api (ConfigType cfg) in
     match r with
     | inl err => Ret (inl err)
     | inr configTypeID =>
         createAndRead "create config" (λ api, rest api (RCreateConfig (toConfigCreate cfg configTypeID)))
           getConfigByID api
     end).
Proof.
  apply returns_bind.
  - unfold resolveConfigTypeID. cbv zeta. case_test; [done|]. apply findConfigType_ends; apply enough.
  - intros _ [err|id] _ _; [done|]. unfold createAndRead, getConfigByID, readBack. client_returns.
Qed.

(** Proves that a paged list is one of those that fit. *)
Ltac fetch_fits :=
  intros limit offset; split; [done|]; intros t data (r & t' & -> & -> & ->) Hall;
  apply Forall_cons in Hall as [Hall _]; exact (Hfinite _ _ Hall).

Lemma FindServiceByName_ends name :
  (∀ c r, allowed c r → payloadPresent c r) → ends (FindServiceByName true name).
Proof.
  intros Hp. apply use_ends. intros api. cbn [bind rest call returns].
  by intros [err|[data|]] Hr%Hp.
Qed.

(** Every method of the client returns. *)
Lemma implement_returns o :
  (listsServices o = true → ∀ c r, allowed c r → payloadPresent c r) → ends (implement pages o).
Proof.
  intros Hp. destruct o; cbn [implement].
  all: try solve [by apply FindServiceByName_ends, Hp].
  all: clear Hp.
  all: try (apply use_ends; intros api).
  all: try (apply createIfMissing_ends; [apply use_ends; intros api|try apply use_ends; try intros api]).
  all: try (apply findPaged_ends; [fetch_fits|apply enough..]).
  all: try solve [apply configCreation_ends | apply listIdentities_ends; apply enough].
  all: try solve [unfold getOrNil, createAndRead, updateAndRead, deleteOrMissing, getIdentityByID, getServiceByID,
    getConfigByID, getAccessPolicyByID, getServiceEdgeRouterPolicyByID, readBack, enrollmentJWT, createOTTEnrollment;
    cbv zeta; client_returns].
  apply returns_bind; [|by intros _ [err|l] _ _].
  apply use_ends. intros api. apply listIdentities_ends; apply enough.
Qed.

End Client.

(** ** The composition *)

(** The answers that the operator may get: those of Microsoft link to [U] only,
    the lists of the controller have at most [N] objects, and its details satisfy
    [detail]; the answers of the Kubernetes API are arbitrary. *)
Definition answered (N : nat) (U : list string) (detail : event clientOp clientResp → Prop)
    (o : stackOp) : stackResp o → Prop :=
  match o return stackResp o → Prop with
  | ToKube _ => λ _, True
  | ToController c => λ r, finiteLists N c r ∧ detail (cev c r)
  | ToMicrosoft _ g => λ r, linksIn U g r
  end.

Lemma overClient_returns {A} N U detail (p : client A) :
  returns (λ c r, finiteLists N c r ∧ detail (cev c r)) p → returns (answered N U detail) (overClient p).
Proof. induction p as [a|f|c k IH]; cbn; [done..|]. intros Hk r Hr. by apply IH, Hk. Qed.

Lemma overGraph_returns {A} N U detail d (p : graph A) :
  returns (linksIn U) p → returns (answered N U detail) (overGraph d p).
Proof. induction p as [a|f|g k IH]; cbn; [done..|]. intros Hk r Hr. by apply IH, Hk. Qed.

(** A run on the stack is one of the client. *)
Lemma overClient_runs {A} N U detail (p : client A) t a :
  runs (overClient p) t a → Forall (λ e, answered N U detail (ev_op e) (ev_resp e)) t →
  ∃ t', runs p t' a ∧ Forall detail t'.
Proof.
  revert t. induction p as [x|f|c k IH]; cbn; intros t Hr Ht; [exists []; by destruct Hr as [_ ?]|done|].
  destruct Hr as (r & t1 & -> & Hr). apply Forall_cons in Ht as [[_ He] Ht].
  destruct (IH _ _ Hr Ht) as (t' & Hr' & Ht'). exists (cev c r :: t'). split; [by exists r, t'|by constructor].
Qed.

Section Operator.
Context `{UnicodeTables} `{CredentialParsers} `{HttpLibrary} `{URLParser} (pages rounds : nat).

(** What a reconciler sees of its backend. *)
Definition seen (detail : event clientOp clientResp → Prop) (o : op) : resp o → Prop :=
  match o return resp o → Prop with
  | Ziti z => λ r, ∃ t, runs (implement pages z) t r ∧ Forall detail t
  | _ => λ _, True
  end.

Lemma serve_seen N U detail o t r :
  runs (serve pages rounds o) t r → Forall (λ e, answered N U detail (ev_op e) (ev_resp e)) t → seen detail o r.
Proof. destruct o; try done. intros Hr Ht. by eapply overClient_runs. Qed.

(** The calls that are served without a list of services. *)
Definition noServices (o : op) : Prop :=
  match o with Ziti z => listsServices z = false | _ => True end.

Lemma serve_returns N U (detail : event clientOp clientResp → Prop) o :
  requests N ≤ pages → length U + 2 ≤ rounds →
  noServices o ∨ (∀ c r, detail (cev c r) → payloadPresent c r) →
  returns (answered N U detail) (serve pages rounds o).
Proof.
  intros Hp Hr Ho. destruct o as [| | | | | |z|d o| | |]; try done; cbn [serve].
  - apply overClient_returns, (implement_returns N); [by intros c r []|done|].
    intros Hz c r [_ Hd]. destruct Ho as [Ho|Ho]; [cbn in Ho; congruence|by apply Ho].
  - by apply overGraph_returns, implementDirectory_returns.
Qed.

(** A reconciler that returns over its interface returns over the clients. *)
Lemma composed_returns {A} N U (detail : event clientOp clientResp → Prop) (p : action A) :
  requests N ≤ pages → length U + 2 ≤ rounds →
  only (λ o, noServices o ∨ (∀ c r, detail (cev c r) → payloadPresent c r)) p → returns (seen detail) p →
  returns (answered N U detail) (composed pages rounds p).
Proof.
  intros Hp Hr. induction p as [a|f|o k IH]; cbn [composed]; [done..|]. intros [Ho Hn] Hk.
  apply returns_bind; [by apply serve_returns|]. intros t r Ht Hall.
  by apply IH; [apply Hn|apply Hk, (serve_seen N U detail _ t)].
Qed.

End Operator.

(** ** The reconcilers that list no services *)

Section NoServices.
Context `{UnicodeTables} `{OwnerRefs} `{MetaConditions} (recorder : bool).

Lemma markIdentityFailed_noServices (o : obj KIdentity) err reason retryable :
  only noServices (markIdentityFailed recorder o err reason retryable).
Proof. unfold markIdentityFailed, markFailed, setConditionNow, EmitEvent. cbv zeta. only_calls. Qed.

Lemma finishIdentity_noServices (o : obj KIdentity) : only noServices (finishIdentity recorder o).
Proof. unfold finishIdentity, markIdentityReady, markReady, setConditionNow, EmitEvent. cbv zeta. only_calls. Qed.

Lemma reconcileEnrollment_noServices i desired b : only noServices (reconcileEnrollment recorder i desired b).
Proof.
  unfold reconcileEnrollment, EnrollmentJWT. cbv zeta. case_test; [|apply finishIdentity_noServices].
  cbn [bind ziti call only]. split; [done|]. intros [err|jwt]; [apply markIdentityFailed_noServices|].
  apply only_bind; [unfold ReconcileEnrollmentSecret; only_calls|].
  intros [err|name]; [apply markIdentityFailed_noServices|apply finishIdentity_noServices].
Qed.

Lemma reconcileZitiIdentity_noServices req : only noServices (reconcileZitiIdentity recorder req).
Proof.
  unfold reconcileZitiIdentity. cbn [bind do call only]. split; [done|]. intros [err|o]; [done|]. case_test.
  - unfold identityReconcileDelete, DeleteEnrollmentSecret, identityDelete, EmitEvent. cbv zeta. only_calls.
  - destruct (EnsureFinalizer _ _) as [[] o']; [only_calls|].
    destruct (validateIdentitySpec o'); [apply markIdentityFailed_noServices|]. cbv zeta. apply only_bind.
    + unfold reconcileIdentity, identityFindByName, identityUpdate, identityCreate. only_calls.
    + intros [e|[b|]]; [apply markIdentityFailed_noServices|apply reconcileEnrollment_noServices|done].
Qed.

Lemma writePatches_noServices resource plan patches os :
  only noServices (writePatches recorder resource plan patches os).
Proof.
  revert os. induction patches as [|patch patches IH]; intros os; cbn [writePatches]; [only_calls|].
  unfold applyRolePatch, readOwnership, readRoleSync, EmitEvent. only_calls; apply IH.
Qed.

Lemma readGroups_noServices d ids ms : only noServices (readGroups d ids ms).
Proof. revert ms. induction ids as [|id ids IH]; intros ms; cbn [readGroups]; only_calls. Qed.

Lemma roleSync_noServices req : only noServices (Reconcile recorder req).
Proof.
  unfold Reconcile, runSync, readDirectory, readGraph, readOwnership, readRoleSync, executePlan, recordRoleClaims,
    writeRolePlan, persistSyncResult, applyCompletion, setRoleSyncConditions, setSyncCondition, EmitEvent.
  cbv zeta. only_calls; first [apply readGroups_noServices|apply writePatches_noServices].
Qed.
End NoServices.

(** ** The role sync *)

Section RoleSync.
Context `{UnicodeTables} `{MetaConditions} (recorder : bool) (allowed : ∀ o : op, resp o → Prop).

Lemma readOwnership_returns resource : returns allowed (readOwnership resource).
Proof. unfold readOwnership, readRoleSync. returns_calls. Qed.

Lemma readGraph_returns d resource : returns allowed (readGraph d resource).
Proof.
  unfold readGraph. cbn [bind do call returns]. intros [e|[p|]] _; [done| |done].
  cbn [bind do call returns]. intros [e|assignments] _; [done|]. destruct (ResolveRoleScope _ _) as [e|scope]; [done|].
  apply returns_bind; [|by intros _ [] _ _]. generalize (∅ : gmap string (list Entra.User)).
  induction (GroupIDs scope) as [|g gs IH]; intros ms; cbn [readGroups bind do call returns]; [done|].
  intros [e|users] _; [done|]. case_test; [done|apply IH].
Qed.

Lemma writePatches_returns resource plan patches os :
  returns allowed (writePatches recorder resource plan patches os).
Proof.
  revert os. induction patches as [|patch patches IH]; intros os; cbn [writePatches]; [returns_calls|].
  cbn [bind do call returns]. intros [e|] _; [done|]. apply returns_bind; [|intros; case_test; [done|apply IH]].
  unfold applyRolePatch. cbn [bind ziti call returns]. intros [e|fresh] _; [done|].
  apply returns_bind; [apply readOwnership_returns|]. intros _ [e|[[self others] owners]] _ _; [done|].
  unfold EmitEvent. returns_calls.
Qed.

Lemma roleSync_returns req : returns allowed (Reconcile recorder req).
Proof.
  unfold Reconcile. cbn [bind do call returns]. intros [e|resource] _; [done|]. case_test; [done|].
  apply returns_bind.
  - unfold runSync. destruct (snd _); [done|]. apply returns_bind; [unfold readDirectory; returns_calls|].
    intros _ [e|d] _ _; [done|]. apply returns_bind; [apply readGraph_returns|].
    intros _ [e|input] _ _; [done|]. cbn [bind ziti call returns]. intros [e|ids] _; [done|].
    apply returns_bind; [apply readOwnership_returns|]. intros _ [e|[[self others] owners]] _ _; [done|].
    destruct (BuildPlan _) as [e|plan]; [done|]. unfold executePlan. case_test; [done|].
    apply returns_bind; [unfold recordRoleClaims, readRoleSync; returns_calls|].
    intros _ [r [e|]] _ _; [done|]. apply returns_bind; [apply writePatches_returns|done].
  - intros _ [resource' result] _ _. apply returns_bind; [|by intros _ [] _ _].
    unfold persistSyncResult, readRoleSync, applyCompletion, setRoleSyncConditions, setSyncCondition, EmitEvent.
    returns_calls.
Qed.
End RoleSync.

(** ** The whole operator *)

Definition anyDetail (e : event clientOp clientResp) : Prop := True.

(** The details have their required fields and the list of services its payload. *)
Definition wholeAnswer (e : event clientOp clientResp) : Prop :=
  completeDetail e ∧ payloadPresent (ev_op e) (ev_resp e).

Section Whole.
Context `{UnicodeTables} `{CredentialParsers} `{HttpLibrary} `{URLParser} (pages rounds : nat).

(** C40. The operator returns.  Take a reconciliation of an identity, a service, an
    access policy or a role sync, with every call to OpenZiti run by the
    management client and every call to Microsoft Graph by the directory client,
    down to the single requests.  Whatever the Kubernetes API, the OpenZiti
    controller and Microsoft answer to these, errors, refused sessions and nil
    pointers included, the whole program ends in a result or an error: no loop
    of the clients goes on for ever, and no pointer that is dereferenced without
    a test is nil.  This is as long as the lists of the controller have at most
    [N] objects and the links of Microsoft are among finitely many.  For services
    and access policies only, the details that the controller sends must also
    have their required fields and a successful list of services its payload
    (without these they panic: [incomplete_config_panics], [missing_payload_panics]). *)
Theorem reconcilers_return `{OwnerRefs} `{MetaConditions} (recorder identityService : bool)
    (req : NamespacedName) (N : nat) (U : list string) :
  requests N ≤ pages → length U + 2 ≤ rounds →
  let returnsAs detail p := returns (answered N U detail) (composed pages rounds p) in
  returnsAs anyDetail (reconcileZitiIdentity recorder req) ∧
  returnsAs anyDetail (Reconcile recorder req) ∧
  returnsAs wholeAnswer (reconcileZitiService recorder req) ∧
  returnsAs wholeAnswer (reconcileAccessPolicy recorder identityService req).
Proof.
  intros Hp Hr returnsAs.
  assert (∀ o r, seen pages anyDetail o r → byClient pages o r) as Hany.
  { intros o r. destruct o; try done. intros (t & Ht & _). by exists t. }
  assert (∀ o r, seen pages wholeAnswer o r → byCompleteClient pages o r) as Hwhole.
  { intros o r. destruct o; try done. intros (t & Ht & Ha). exists t. split; [done|].
    by eapply Forall_impl; [exact Ha|intros e []]. }
  split_and!; apply composed_returns; try done.
  - apply (only_mono noServices); [by left|apply reconcileZitiIdentity_noServices].
  - apply (returns_mono _ _ _ Hany). apply reconcileZitiIdentity_returns, _.
  - apply (only_mono noServices); [by left|apply roleSync_noServices].
  - apply roleSync_returns.
  - apply only_any. right. by intros c r [].
  - apply (returns_mono _ _ _ Hwhole). exact (reconcileZitiService_returns recorder (byCompleteClient pages) req).
  - apply only_any. right. by intros c r [].
  - apply (returns_mono _ _ _ Hwhole).
    exact (reconcileAccessPolicy_returns recorder (byCompleteClient pages) identityService req).
Qed.

End Whole.

(** ** A concrete environment

    A controller with 101 identities, and a directory whose lists link to a second
    page that links to itself. *)
Lemma page_fits {D} N (l : list (option D)) limit offset :
  length l ≤ N → listFits N offset (ClientProps.page l limit offset).
Proof. intros Hl. cbn. unfold fits. rewrite length_take, length_drop. lia. Qed.

Definition exMicrosoft (g : graphOp) : graphResp g :=
  match g return graphResp g with
  | GraphToken => inr "token"
  | GraphGet KMembers _ _ => Some (exPage [] "https://graph/next")
  | GraphGet _ _ _ => None
  | GraphNow => 0%Z
  | GraphCtxErr => None
  end.

Definition exOutside (o : stackOp) : stackResp o :=
  match o return stackResp o with
  | ToKube (Get Cached KIdentity key) => inr
      (withMeta (k := KIdentity) (SetFinalizers [zitiIdentityFinalizer] (IdentityMeta exZitiIdentity)) exZitiIdentity)
  | ToKube o => quiet o
  | ToController c => exController c
  | ToMicrosoft _ g => exMicrosoft g
  end.

Lemma exOutside_answered o : answered 101 ["https://graph/next"] anyDetail o (exOutside o).
Proof.
  destruct o as [o|c|d g]; cbn [answered exOutside]; [done| |].
  - split; [|done]. destruct c as [| | | | |api c|]; try done.
    destruct c; try done; by apply page_fits; vm_compute; lia.
  - destruct g as [|[]| |]; try done. right. by left.
Qed.

Definition exAnnRun : action outcome :=
  @reconcileZitiIdentity exOwnerRefs upsertConditions true {| KeyNamespace := "ziti"; KeyName := "ann" |}.

Lemma reconcilers_return_witness :
  (∀ o, answered 101 ["https://graph/next"] anyDetail o (exOutside o)) ∧
  returns (answered 101 ["https://graph/next"] anyDetail)
    (@composed asciiTables exParsers exHttp exURLs 2 3 _ exAnnRun).
Proof.
  split; [exact exOutside_answered|].
  apply (@reconcilers_return asciiTables exParsers exHttp exURLs 2 3 exOwnerRefs upsertConditions true true
    {| KeyNamespace := "ziti"; KeyName := "ann" |} 101 ["https://graph/next"]); [vm_compute; lia|cbn; lia].
Defined.

(** What the reconciliation returns there: the controller refuses the update. *)
Example exAnnRun_returns :
  answer exOutside (@composed asciiTables exParsers exHttp exURLs 2 3 _ exAnnRun) =
  Some (noResult, Some (WrapError "update identity" (CodedError 500 "unavailable"))).
Proof. vm_compute. reflexivity. Qed.

(** A successful list of services without a payload is dereferenced: the search panics. *)
Definition exNoPayload (o : clientOp) : clientResp o :=
  match o return clientResp o with
  | Rest _ RListServices => inr None
  | o => exController o
  end.

Example missing_payload_panics :
  answer exNoPayload (@implement asciiTables exParsers 2 (OpFindServiceByName "shop")) = None.
Proof. vm_compute. reflexivity. Qed.
