(* ===== verification/FakeClient.v ===== *)
(** * The fake client

    [internal/openziti/client/fake_client.go] and the fake method of
    identity_role_attributes.go: the double of the OpenZiti client in the tests.
    Each method calls the function of its field, if that is set; what the
    functions do is the test's, a program of any kind. *)

From S2P Require Import Prelude GoSlices GoStrings Errors ZitiTypes ApiTypes Credentials World.
From S2P Require Import ReconcileHelpers IdentityController AccessPolicy ServiceController Composition.

#[local] Open Scope mz_scope.

Section Fake.
Context {O : Type} {R : O → Type}.

(** [FakeClient] *)
Record FakeClient := {
  PatchIdentityRoleAttributesFunc : option (string → strs → prog O R (result unit));
  AuthenticateFunc : option (ManagementConfig → prog O R (result unit));
  GetIdentityFunc : option (string → prog O R (result (option Identity)));
  FindIdentityByNameFunc : option (string → prog O R (result (option Identity)));
  ListIdentitiesFunc : option (prog O R (result (list Identity)));
  CreateIdentityFunc : option (Identity → prog O R (result (option Identity)));
  UpdateIdentityFunc : option (Identity → prog O R (result (option Identity)));
  DeleteIdentityFunc : option (string → prog O R (result unit));
  GetEnrollmentJWTFunc : option (string → prog O R (result string));
  GetServiceFunc : option (string → prog O R (result (option Service)));
  FindServiceByNameFunc : option (string → prog O R (result (option Service)));
  CreateServiceFunc : option (Service → prog O R (result (option Service)));
  UpdateServiceFunc : option (Service → prog O R (result (option Service)));
  DeleteServiceFunc : option (string → prog O R (result unit));
  GetConfigFunc : option (string → prog O R (result (option ServiceConfig)));
  CreateConfigFunc : option (ServiceConfig → prog O R (result (option ServiceConfig)));
  UpdateConfigFunc : option (ServiceConfig → prog O R (result (option ServiceConfig)));
  DeleteConfigFunc : option (string → prog O R (result unit));
  FindEdgeRouterByNameFunc : option (string → prog O R (result (option EdgeRouter)));
  GetAccessPolicyFunc : option (string → prog O R (result (option AccessPolicy)));
  FindAccessPolicyByNameFunc : option (string → prog O R (result (option AccessPolicy)));
  CreateAccessPolicyFunc : option (AccessPolicy → prog O R (result (option AccessPolicy)));
  UpdateAccessPolicyFunc : option (AccessPolicy → prog O R (result (option AccessPolicy)));
  DeleteAccessPolicyFunc : option (string → prog O R (result unit));
  GetServiceEdgeRouterPolicyFunc : option (string → prog O R (result (option ServiceEdgeRouterPolicy)));
  FindServiceEdgeRouterPolicyByNameFunc : option (string → prog O R (result (option ServiceEdgeRouterPolicy)));
  CreateServiceEdgeRouterPolicyFunc : option (ServiceEdgeRouterPolicy → prog O R (result (option ServiceEdgeRouterPolicy)));
  UpdateServiceEdgeRouterPolicyFunc : option (ServiceEdgeRouterPolicy → prog O R (result (option ServiceEdgeRouterPolicy)));
  DeleteServiceEdgeRouterPolicyFunc : option (string → prog O R (result unit));
}.

Definition FakeAuthenticate (f : FakeClient) (cfg : ManagementConfig) : prog O R (result unit) :=
  match AuthenticateFunc f with Some fn => fn cfg | None => Ret (inr tt) end.
Definition FakeGetIdentity (f : FakeClient) (id : string) : prog O R (result (option Identity)) :=
  match GetIdentityFunc f with Some fn => fn id | None => Ret (inr None) end.
Definition FakeFindIdentityByName (f : FakeClient) (name : string) : prog O R (result (option Identity)) :=
  match FindIdentityByNameFunc f with Some fn => fn name | None => Ret (inr None) end.
Definition FakeListIdentities (f : FakeClient) : prog O R (result (list Identity)) :=
  match ListIdentitiesFunc f with Some fn => fn | None => Ret (inr []) end.
Definition FakeCreateIdentity (f : FakeClient) (identity : Identity) : prog O R (result (option Identity)) :=
  match CreateIdentityFunc f with Some fn => fn identity | None => Ret (inr (Some identity)) end.
Definition FakeUpdateIdentity (f : FakeClient) (identity : Identity) : prog O R (result (option Identity)) :=
  match UpdateIdentityFunc f with Some fn => fn identity | None => Ret (inr (Some identity)) end.
Definition FakeDeleteIdentity (f : FakeClient) (id : string) : prog O R (result unit) :=
  match DeleteIdentityFunc f with Some fn => fn id | None => Ret (inr tt) end.
Definition FakeGetEnrollmentJWT (f : FakeClient) (id : string) : prog O R (result string) :=
  match GetEnrollmentJWTFunc f with Some fn => fn id | None => Ret (inr "") end.
Definition FakeGetService (f : FakeClient) (id : string) : prog O R (result (option Service)) :=
  match GetServiceFunc f with Some fn => fn id | None => Ret (inr None) end.
Definition FakeFindServiceByName (f : FakeClient) (name : string) : prog O R (result (option Service)) :=
  match FindServiceByNameFunc f with Some fn => fn name | None => Ret (inr None) end.
Definition FakeCreateService (f : FakeClient) (service : Service) : prog O R (result (option Service)) :=
  match CreateServiceFunc f with Some fn => fn service | None => Ret (inr (Some service)) end.
Definition FakeUpdateService (f : FakeClient) (service : Service) : prog O R (result (option Service)) :=
  match UpdateServiceFunc f with Some fn => fn service | None => Ret (inr (Some service)) end.
Definition FakeDeleteService (f : FakeClient) (id : string) : prog O R (result unit) :=
  match DeleteServiceFunc f with Some fn => fn id | None => Ret (inr tt) end.
Definition FakeGetConfig (f : FakeClient) (id : string) : prog O R (result (option ServiceConfig)) :=
  match GetConfigFunc f with Some fn => fn id | None => Ret (inr None) end.
Definition FakeCreateConfig (f : FakeClient) (cfg : ServiceConfig) : prog O R (result (option ServiceConfig)) :=
  match CreateConfigFunc f with Some fn => fn cfg | None => Ret (inr (Some cfg)) end.
Definition FakeUpdateConfig (f : FakeClient) (cfg : ServiceConfig) : prog O R (result (option ServiceConfig)) :=
  match UpdateConfigFunc f with Some fn => fn cfg | None => Ret (inr (Some cfg)) end.
Definition FakeDeleteConfig (f : FakeClient) (id : string) : prog O R (result unit) :=
  match DeleteConfigFunc f with Some fn => fn id | None => Ret (inr tt) end.
Definition FakeFindEdgeRouterByName (f : FakeClient) (name : string) : prog O R (result (option EdgeRouter)) :=
  match FindEdgeRouterByNameFunc f with Some fn => fn name | None => Ret (inr None) end.
Definition FakeGetAccessPolicy (f : FakeClient) (id : string) : prog O R (result (option AccessPolicy)) :=
  match GetAccessPolicyFunc f with Some fn => fn id | None => Ret (inr None) end.
Definition FakeFindAccessPolicyByName (f : FakeClient) (name : string) : prog O R (result (option AccessPolicy)) :=
  match FindAccessPolicyByNameFunc f with Some fn => fn name | None => Ret (inr None) end.
Definition FakeCreateAccessPolicy (f : FakeClient) (policy : AccessPolicy) : prog O R (result (option AccessPolicy)) :=
  match CreateAccessPolicyFunc f with Some fn => fn policy | None => Ret (inr (Some policy)) end.
Definition FakeUpdateAccessPolicy (f : FakeClient) (policy : AccessPolicy) : prog O R (result (option AccessPolicy)) :=
  match UpdateAccessPolicyFunc f with Some fn => fn policy | None => Ret (inr (Some policy)) end.
Definition FakeDeleteAccessPolicy (f : FakeClient) (id : string) : prog O R (result unit) :=
  match DeleteAccessPolicyFunc f with Some fn => fn id | None => Ret (inr tt) end.
Definition FakeGetServiceEdgeRouterPolicy (f : FakeClient) (id : string) : prog O R (result (option ServiceEdgeRouterPolicy)) :=
  match GetServiceEdgeRouterPolicyFunc f with Some fn => fn id | None => Ret (inr None) end.
Definition FakeFindServiceEdgeRouterPolicyByName (f : FakeClient) (name : string) : prog O R (result (option ServiceEdgeRouterPolicy)) :=
  match FindServiceEdgeRouterPolicyByNameFunc f with Some fn => fn name | None => Ret (inr None) end.
Definition FakeCreateServiceEdgeRouterPolicy (f : FakeClient) (policy : ServiceEdgeRouterPolicy) : prog O R (result (option ServiceEdgeRouterPolicy)) :=
  match CreateServiceEdgeRouterPolicyFunc f with Some fn => fn policy | None => Ret (inr (Some policy)) end.
Definition FakeUpdateServiceEdgeRouterPolicy (f : FakeClient) (policy : ServiceEdgeRouterPolicy) : prog O R (result (option ServiceEdgeRouterPolicy)) :=
  match UpdateServiceEdgeRouterPolicyFunc f with Some fn => fn policy | None => Ret (inr (Some policy)) end.
Definition FakeDeleteServiceEdgeRouterPolicy (f : FakeClient) (id : string) : prog O R (result unit) :=
  match DeleteServiceEdgeRouterPolicyFunc f with Some fn => fn id | None => Ret (inr tt) end.
Definition FakePatchIdentityRoleAttributes (f : FakeClient) (id : string) (attrs : strs) : prog O R (result unit) :=
  match PatchIdentityRoleAttributesFunc f with Some fn => fn id attrs | None => Ret (inr tt) end.

(** The methods of [Client]. *)
Definition serveFake (f : FakeClient) (o : zitiOp) : prog O R (zitiResp o) :=
  match o with
  | OpGetIdentity id => FakeGetIdentity f id
  | OpFindIdentityByName name => FakeFindIdentityByName f name
  | OpListIdentities => FakeListIdentities f
  | OpCreateIdentity identity => FakeCreateIdentity f identity
  | OpUpdateIdentity identity => FakeUpdateIdentity f identity
  | OpPatchIdentityRoleAttributes id attrs => FakePatchIdentityRoleAttributes f id attrs
  | OpDeleteIdentity id => FakeDeleteIdentity f id
  | OpGetEnrollmentJWT id => FakeGetEnrollmentJWT f id
  | OpGetService id => FakeGetService f id
  | OpFindServiceByName name => FakeFindServiceByName f name
  | OpCreateService service => FakeCreateService f service
  | OpUpdateService service => FakeUpdateService f service
  | OpDeleteService id => FakeDeleteService f id
  | OpGetConfig id => FakeGetConfig f id
  | OpCreateConfig cfg => FakeCreateConfig f cfg
  | OpUpdateConfig cfg => FakeUpdateConfig f cfg
  | OpDeleteConfig id => FakeDeleteConfig f id
  | OpFindEdgeRouterByName name => FakeFindEdgeRouterByName f name
  | OpGetAccessPolicy id => FakeGetAccessPolicy f id
  | OpFindAccessPolicyByName name => FakeFindAccessPolicyByName f name
  | OpCreateAccessPolicy policy => FakeCreateAccessPolicy f policy
  | OpUpdateAccessPolicy policy => FakeUpdateAccessPolicy f policy
  | OpDeleteAccessPolicy id => FakeDeleteAccessPolicy f id
  | OpGetServiceEdgeRouterPolicy id => FakeGetServiceEdgeRouterPolicy f id
  | OpFindServiceEdgeRouterPolicyByName name => FakeFindServiceEdgeRouterPolicyByName f name
  | OpCreateServiceEdgeRouterPolicy policy => FakeCreateServiceEdgeRouterPolicy f policy
  | OpUpdateServiceEdgeRouterPolicy policy => FakeUpdateServiceEdgeRouterPolicy f policy
  | OpDeleteServiceEdgeRouterPolicy id => FakeDeleteServiceEdgeRouterPolicy f id
  end.

(** [&FakeClient{}] *)
Definition emptyFake : FakeClient :=
  {| PatchIdentityRoleAttributesFunc := None;
     AuthenticateFunc := None;
     GetIdentityFunc := None;
     FindIdentityByNameFunc := None;
     ListIdentitiesFunc := None;
     CreateIdentityFunc := None;
     UpdateIdentityFunc := None;
     DeleteIdentityFunc := None;
     GetEnrollmentJWTFunc := None;
     GetServiceFunc := None;
     FindServiceByNameFunc := None;
     CreateServiceFunc := None;
     UpdateServiceFunc := None;
     DeleteServiceFunc := None;
     GetConfigFunc := None;
     CreateConfigFunc := None;
     UpdateConfigFunc := None;
     DeleteConfigFunc := None;
     FindEdgeRouterByNameFunc := None;
     GetAccessPolicyFunc := None;
     FindAccessPolicyByNameFunc := None;
     CreateAccessPolicyFunc := None;
     UpdateAccessPolicyFunc := None;
     DeleteAccessPolicyFunc := None;
     GetServiceEdgeRouterPolicyFunc := None;
     FindServiceEdgeRouterPolicyByNameFunc := None;
     CreateServiceEdgeRouterPolicyFunc := None;
     UpdateServiceEdgeRouterPolicyFunc := None;
     DeleteServiceEdgeRouterPolicyFunc := None |}.

(** ** What a test can rely on *)

(** A function that, when it is set, answers an error or an object. *)
Definition answersOrFails {A B} (fn : option (A → prog O R (result (option B)))) : Prop :=
  ∀ g a t x, fn = Some g → runs (g a) t (inr x) → is_Some x.

(** The functions for creations and updates do. *)
Record faithfulFake (f : FakeClient) : Prop := {
  faithful_createIdentity : answersOrFails (CreateIdentityFunc f);
  faithful_updateIdentity : answersOrFails (UpdateIdentityFunc f);
  faithful_createService : answersOrFails (CreateServiceFunc f);
  faithful_updateService : answersOrFails (UpdateServiceFunc f);
  faithful_createConfig : answersOrFails (CreateConfigFunc f);
  faithful_updateConfig : answersOrFails (UpdateConfigFunc f);
  faithful_createAccessPolicy : answersOrFails (CreateAccessPolicyFunc f);
  faithful_updateAccessPolicy : answersOrFails (UpdateAccessPolicyFunc f);
  faithful_createSerp : answersOrFails (CreateServiceEdgeRouterPolicyFunc f);
  faithful_updateSerp : answersOrFails (UpdateServiceEdgeRouterPolicyFunc f);
}.

Lemma emptyFake_faithful : faithfulFake emptyFake.
Proof. by split; intros g a t x. Qed.

(** What a fake method with a default object answers. *)
Lemma fake_object {A B} (fn : option (A → prog O R (result (option B)))) a d t r :
  answersOrFails fn →
  runs (match fn with Some fn => fn a | None => Ret (inr (Some d)) end) t r → ∀ x, r = inr x → is_Some x.
Proof.
  intros Hfn Hr x ->. destruct fn as [g|]; [by eapply Hfn|]. destruct Hr as [_ [= <-]]. by eexists.
Qed.

(** The answers that reconcilers get from the fake. *)
Definition byFake (f : FakeClient) (o : op) : resp o → Prop :=
  match o return resp o → Prop with
  | Ziti z => λ r, ∃ t, runs (serveFake f z) t r
  | _ => λ _, True
  end.

Section Reconcilers.
Context (f : FakeClient) (Hf : faithfulFake f).

Lemma byFake_identities : ReliableIdentities (byFake f).
Proof.
  split; intros i answer [t Hr].
  - by apply (fake_object _ _ _ _ _ (faithful_createIdentity _ Hf) Hr).
  - by apply (fake_object _ _ _ _ _ (faithful_updateIdentity _ Hf) Hr).
Qed.

Lemma byFake_objects : ReliableObjects (byFake f).
Proof.
  intros o r [t Hr]. destruct Hf, o; try done; intros x Hx;
    (eapply fake_object; [|exact Hr|exact Hx]; done).
Qed.

(** Over such a fake the reconcilers return, whatever the Kubernetes API answers. *)
Theorem fake_reconcilers_return `{UnicodeTables} `{OwnerRefs} `{MetaConditions} (recorder service : bool) req :
  returns (byFake f) (reconcileZitiIdentity recorder req) ∧
  returns (byFake f) (reconcileZitiService recorder req) ∧
  returns (byFake f) (reconcileAccessPolicy recorder service req).
Proof.
  pose proof byFake_identities. pose proof byFake_objects.
  split_and!; [apply reconcileZitiIdentity_returns|apply reconcileZitiService_returns|apply reconcileAccessPolicy_returns]; done.
Qed.
End Reconcilers.

End Fake.
Arguments FakeClient : clear implicits.
