(* ===== verification/IdentityConvergence.v ===== *)
(** * The identity reconciler converges

    What a Kubernetes API with an identity resource promises to the reconciler is
    the class [IdentityCluster], what the backend promises [IdentityBackend];
    against them, repeated reconciliations are proved to settle: one identity of
    the backend carries the spec, its ID is recorded, the resource is ready, and
    nothing else changed.  [IdentityStack] discharges the second class by the
    management client. *)

From S2P Require Import Prelude GoSlices GoStrings Errors ZitiTypes ApiTypes World.
From S2P Require Import ReconcileHelpers IdentityController ClientTypes.

#[local] Open Scope mz_scope.

(** ** The interfaces *)

(** [i'] is what the backend keeps of [i]: the roles are a set. *)
Definition keeps (i' i : Identity) : Prop :=
  IdentName i' = IdentName i ∧ IdentType i' = IdentType i ∧
  (∀ a, a ∈ IdentRoleAttributes i' ↔ a ∈ IdentRoleAttributes i).

(** The backend takes no blank name and no blank type. *)
Definition acceptable (i : Identity) : Prop := nonBlank (IdentName i) ∧ nonBlank (IdentType i).

(** No identity but the one of [id] has the name. *)
Definition nameFree (ids : gmap string Identity) (id name : string) : Prop :=
  ∀ id' i, ids !! id' = Some i → IdentName i = name → id' = id.

(** What the API server changes in the metadata on a write. *)
Definition sameButVersion (m m' : ObjectMeta) : Prop := m' = setResourceVersion (ResourceVersion m') m.

(** A Kubernetes API with the resource of [req].  Reads of the resource are
    current, a write with the current resource version succeeds, [Update] leaves
    the status alone, as [StatusUpdate] leaves the rest, and an update that takes
    the last finalizer of a resource that is being deleted removes it.  None of
    these calls changes the other identity resources. *)
Class IdentityCluster {K : Type} (kube : K → ∀ o : op, K * resp o) (req : NamespacedName) := {
  resourceOf : K → option (obj KIdentity);
  others : K → list (obj KIdentity);
  cluster_get k : ∃ k', kube k (Get Cached KIdentity req) =
      (k', match resourceOf k with Some r => inr r | None => inl (StatusError "NotFound" "not found") end) ∧
    resourceOf k' = resourceOf k ∧ others k' = others k;
  cluster_now k : ∃ k' t, kube k Now = (k', t) ∧ resourceOf k' = resourceOf k ∧ others k' = others k;
  cluster_event k m ty reason text : ∃ k', kube k (Event m ty reason text) = (k', tt) ∧ resourceOf k' = resourceOf k ∧
    others k' = others k;
  cluster_update k (r o : obj KIdentity) :
    resourceOf k = Some r → ResourceVersion (meta o) = ResourceVersion (meta r) → DeletionTimestamp (meta r) = None →
    ∃ k' (r' : obj KIdentity), kube k (Update KIdentity o) = (k', inr r') ∧ resourceOf k' = Some r' ∧
      sameButVersion (meta o) (meta r') ∧ IdentitySpec r' = IdentitySpec o ∧ IdentityStatus r' = IdentityStatus r ∧
      others k' = others k;
  cluster_release k (r o : obj KIdentity) :
    resourceOf k = Some r → ResourceVersion (meta o) = ResourceVersion (meta r) → DeletionTimestamp (meta r) ≠ None →
    ∃ k' (r' : obj KIdentity), kube k (Update KIdentity o) = (k', inr r') ∧ sameButVersion (meta o) (meta r') ∧
      resourceOf k' = (if decide (Finalizers (meta o) = []) then None else Some r') ∧ others k' = others k;
  cluster_status k (r o : obj KIdentity) :
    resourceOf k = Some r → ResourceVersion (meta o) = ResourceVersion (meta r) →
    ∃ k' (r' : obj KIdentity), kube k (StatusUpdate KIdentity o) = (k', inr r') ∧ resourceOf k' = Some r' ∧
      sameButVersion (meta r) (meta r') ∧ IdentitySpec r' = IdentitySpec r ∧ IdentityStatus r' = IdentityStatus o ∧
      others k' = others k;
}.

(** A backend that holds identities: it finds them by name, creates one under a
    new ID, updates the one of the ID, or creates it when there is none, and
    deletes the one of the ID if there is one. *)
Class IdentityBackend {C : Type} (backend : C → ∀ o : zitiOp, C * zitiResp o) := {
  held : C → gmap string Identity;
  backend_find c name : ∃ c' x, backend c (OpFindIdentityByName name) = (c', inr x) ∧ held c' = held c ∧
    match x with
    | Some i => held c !! IdentID i = Some i ∧ IdentName i = name ∧ IdentID i ≠ ""
    | None => ∀ id i, held c !! id = Some i → IdentName i ≠ name
    end;
  backend_create c i : acceptable i → (∀ id j, held c !! id = Some j → IdentName j ≠ IdentName i) →
    ∃ c' i', backend c (OpCreateIdentity i) = (c', inr (Some i')) ∧
      held c !! IdentID i' = None ∧ IdentID i' ≠ "" ∧ keeps i' i ∧ held c' = <[IdentID i' := i']> (held c);
  backend_update c i : acceptable i → IdentID i ≠ "" → nameFree (held c) (IdentID i) (IdentName i) →
    ∃ c' i', backend c (OpUpdateIdentity i) = (c', inr (Some i')) ∧
      IdentID i' ≠ "" ∧ keeps i' i ∧ held c' = <[IdentID i' := i']> (held c) ∧
      (IdentID i' = IdentID i ∨ held c !! IdentID i = None ∧ held c !! IdentID i' = None);
  backend_delete c id : ∃ c', backend c (OpDeleteIdentity id) = (c', inr tt) ∧ held c' = delete id (held c);
}.

(** The two side by side. *)
Definition world {K C} (kube : K → ∀ o : op, K * resp o) (backend : C → ∀ o : zitiOp, C * zitiResp o)
    (w : K * C) (o : op) : (K * C) * resp o :=
  match o return (K * C) * resp o with
  | Ziti z => ((w.1, (backend w.2 z).1), (backend w.2 z).2)
  | o => (((kube w.1 o).1, w.2), (kube w.1 o).2)
  end.

Section World.
Context {K C : Type} (kube : K → ∀ o : op, K * resp o) (backend : C → ∀ o : zitiOp, C * zitiResp o).
Context (req : NamespacedName) `{!IdentityCluster kube req} `{!IdentityBackend backend}.
Abbreviation env := (world kube backend).

Definition stored (w : K * C) : option (obj KIdentity) := resourceOf w.1.
Definition identities (w : K * C) : gmap string Identity := held w.2.
Definition siblings (w : K * C) : list (obj KIdentity) := others w.1.

(** A call of one side leaves the other as it is. *)
Lemma get_current w : ∃ w', env w (Get Cached KIdentity req) =
    (w', match stored w with Some r => inr r | None => inl (StatusError "NotFound" "not found") end) ∧
  stored w' = stored w ∧ identities w' = identities w ∧ siblings w' = siblings w.
Proof. destruct (cluster_get w.1) as (k & E & Hk & Ho). exists (k, w.2). unfold stored, siblings. cbn. by rewrite E. Qed.

Lemma quiet_now w : ∃ w' t, env w Now = (w', t) ∧ stored w' = stored w ∧ identities w' = identities w ∧ siblings w' = siblings w.
Proof. destruct (cluster_now w.1) as (k & t & E & Hk & Ho). exists (k, w.2), t. cbn. by rewrite E. Qed.

Lemma quiet_event w m ty reason text : ∃ w', env w (Event m ty reason text) = (w', tt) ∧
  stored w' = stored w ∧ identities w' = identities w ∧ siblings w' = siblings w.
Proof. destruct (cluster_event w.1 m ty reason text) as (k & E & Hk & Ho). exists (k, w.2). cbn. by rewrite E. Qed.

Lemma update_stored w (r o : obj KIdentity) :
  stored w = Some r → ResourceVersion (meta o) = ResourceVersion (meta r) → DeletionTimestamp (meta r) = None →
  ∃ w' (r' : obj KIdentity), env w (Update KIdentity o) = (w', inr r') ∧ stored w' = Some r' ∧
    identities w' = identities w ∧ sameButVersion (meta o) (meta r') ∧ IdentitySpec r' = IdentitySpec o ∧
    IdentityStatus r' = IdentityStatus r ∧ siblings w' = siblings w.
Proof.
  intros Hr Hv Hd. destruct (cluster_update w.1 r o Hr Hv Hd) as (k & r' & E & Hk). exists (k, w.2), r'. cbn. rewrite E.
  naive_solver.
Qed.

Lemma release_stored w (r o : obj KIdentity) :
  stored w = Some r → ResourceVersion (meta o) = ResourceVersion (meta r) → DeletionTimestamp (meta r) ≠ None →
  ∃ w' (r' : obj KIdentity), env w (Update KIdentity o) = (w', inr r') ∧ identities w' = identities w ∧
    sameButVersion (meta o) (meta r') ∧ stored w' = (if decide (Finalizers (meta o) = []) then None else Some r') ∧
    siblings w' = siblings w.
Proof.
  intros Hr Hv Hd. destruct (cluster_release w.1 r o Hr Hv Hd) as (k & r' & E & Hk). exists (k, w.2), r'. cbn. rewrite E.
  naive_solver.
Qed.

Lemma update_status w (r o : obj KIdentity) :
  stored w = Some r → ResourceVersion (meta o) = ResourceVersion (meta r) →
  ∃ w' (r' : obj KIdentity), env w (StatusUpdate KIdentity o) = (w', inr r') ∧ stored w' = Some r' ∧
    identities w' = identities w ∧ sameButVersion (meta r) (meta r') ∧ IdentitySpec r' = IdentitySpec r ∧
    IdentityStatus r' = IdentityStatus o ∧ siblings w' = siblings w.
Proof.
  intros Hr Hv. destruct (cluster_status w.1 r o Hr Hv) as (k & r' & E & Hk). exists (k, w.2), r'. cbn. rewrite E.
  naive_solver.
Qed.

Lemma find_identity w name : ∃ w' x, env w (Ziti (OpFindIdentityByName name)) = (w', inr x) ∧
  stored w' = stored w ∧ identities w' = identities w ∧ siblings w' = siblings w ∧
  match x with
  | Some i => identities w !! IdentID i = Some i ∧ IdentName i = name ∧ IdentID i ≠ ""
  | None => ∀ id i, identities w !! id = Some i → IdentName i ≠ name
  end.
Proof. destruct (backend_find w.2 name) as (c & x & E & Hc). exists (w.1, c), x. cbn. rewrite E. naive_solver. Qed.

Lemma create_identity w i :
  acceptable i → (∀ id j, identities w !! id = Some j → IdentName j ≠ IdentName i) →
  ∃ w' i', env w (Ziti (OpCreateIdentity i)) = (w', inr (Some i')) ∧ stored w' = stored w ∧
    siblings w' = siblings w ∧ identities w !! IdentID i' = None ∧ IdentID i' ≠ "" ∧ keeps i' i ∧
    identities w' = <[IdentID i' := i']> (identities w).
Proof.
  intros Ha Hn. destruct (backend_create w.2 i Ha Hn) as (c & i' & E & Hc). exists (w.1, c), i'. cbn. rewrite E. naive_solver.
Qed.

Lemma update_identity w i :
  acceptable i → IdentID i ≠ "" → nameFree (identities w) (IdentID i) (IdentName i) →
  ∃ w' i', env w (Ziti (OpUpdateIdentity i)) = (w', inr (Some i')) ∧ stored w' = stored w ∧
    siblings w' = siblings w ∧ IdentID i' ≠ "" ∧ keeps i' i ∧ identities w' = <[IdentID i' := i']> (identities w) ∧
    (IdentID i' = IdentID i ∨ identities w !! IdentID i = None ∧ identities w !! IdentID i' = None).
Proof.
  intros Ha Hi Hn. destruct (backend_update w.2 i Ha Hi Hn) as (c & i' & E & Hc). exists (w.1, c), i'. cbn. rewrite E. naive_solver.
Qed.

Lemma delete_identity w id : ∃ w', env w (Ziti (OpDeleteIdentity id)) = (w', inr tt) ∧ stored w' = stored w ∧
  siblings w' = siblings w ∧ identities w' = delete id (identities w).
Proof. destruct (backend_delete w.2 id) as (c & E & Hc). exists (w.1, c). cbn. by rewrite E. Qed.

#[local] Arguments world : simpl never.

(** ** Settling *)

Context `{OwnerRefs} `{!MetaConditions} `{!MetaConditionsLaws} (recorder : bool).

(** What the spec of a resource asks of the backend. *)
Definition asked (id : string) (r : obj KIdentity) : Identity := toClientIdentity id (identityFromResource r).

(** The status says that the current generation is reconciled. *)
Definition isReady (r : obj KIdentity) : Prop :=
  ObservedGeneration (common r) = Generation (meta r) ∧ LastError (common r) = "" ∧
  ∃ c, FindStatusCondition (Conditions (common r)) ConditionTypeReady = Some c ∧
    CondStatus c = ConditionTrue ∧ CondObservedGeneration c = Generation (meta r).

(** A live resource with a valid spec, whose secret is not wanted. *)
Definition live (r : obj KIdentity) : Prop :=
  DeletionTimestamp (meta r) = None ∧ validateIdentitySpec r = None ∧ acceptable (asked "" r) ∧
  CreateJWTSecret (Enrollment (IdentitySpec r)) = false.

(** The name of the spec can be had: no identity but the recorded one has it, or
    at most one when none is recorded. *)
Definition nameAvailable (w : K * C) (r : obj KIdentity) : Prop :=
  let name := IdentitySpecName (IdentitySpec r) in
  let id := StatusID (common r) in
  if decide (id = "") then
    ∀ id1 id2 i1 i2, identities w !! id1 = Some i1 → identities w !! id2 = Some i2 →
      IdentName i1 = name → IdentName i2 = name → id1 = id2
  else nameFree (identities w) id name.

(** No other resource tracks an identity that [r] could take: what it tracks is
    there, under another name than the one of [r], and is not recorded by [r]. *)
Definition untracked (w : K * C) (r : obj KIdentity) : Prop :=
  ∀ r' : obj KIdentity, r' ∈ siblings w → StatusID (common r') ≠ "" →
    StatusID (common r') ≠ StatusID (common r) ∧
    ∃ i, identities w !! StatusID (common r') = Some i ∧ IdentName i ≠ IdentitySpecName (IdentitySpec r).

(** In [w] the identity [id] has what [r0] asks for and is the only one of its
    name, [r0] has recorded it and is ready, and the other identities are those
    of [w0].  The other resources are those of [w0], and none of them tracks the
    identity. *)
Definition settled (w0 : K * C) (r0 : obj KIdentity) (id : string) (w : K * C) : Prop :=
  ∃ (r : obj KIdentity) i,
    stored w = Some r ∧ live r ∧ IdentitySpec r = IdentitySpec r0 ∧ Generation (meta r) = Generation (meta r0) ∧
    zitiIdentityFinalizer ∈ Finalizers (meta r) ∧ StatusID (common r) = id ∧ id ≠ "" ∧ isReady r ∧
    identities w !! id = Some i ∧ keeps i (asked "" r0) ∧
    nameFree (identities w) id (IdentitySpecName (IdentitySpec r0)) ∧
    (∀ id', id' ≠ id → identities w !! id' = identities w0 !! id') ∧
    siblings w = siblings w0 ∧ (∀ r' : obj KIdentity, r' ∈ siblings w → StatusID (common r') ≠ id).

(** *** The end of a reconciliation *)

(** The resource that [markReady] writes. *)
Definition marked (o : obj KIdentity) (message : string) (t1 t2 t3 : Z) : obj KIdentity :=
  let c type status reason text t := {| CondType := type; CondStatus := status; CondReason := reason;
    CondMessage := text; CondObservedGeneration := Generation (meta o); CondLastTransitionTime := t |} in
  let o := withCommon (setObserved (Generation (meta o)) "" (common o)) o in
  setStatus (setStatus (setStatus o (c ConditionTypeReady ConditionTrue "Reconciled" message t1))
    (c ConditionTypeReconciling ConditionFalse "Idle" "No reconciliation in progress" t2))
    (c ConditionTypeDegraded ConditionFalse "AsExpected" "No actionable reconciliation errors" t3).

Lemma marked_fields o message t1 t2 t3 :
  meta (marked o message t1 t2 t3) = meta o ∧
  StatusID (common (marked o message t1 t2 t3)) = StatusID (common o) ∧
  isReady (marked o message t1 t2 t3).
Proof.
  unfold marked. cbv zeta. set (o0 := withCommon _ o).
  assert (meta o0 = meta o) as Hm by apply meta_withCommon.
  assert (common o0 = setObserved (Generation (meta o)) "" (common o)) as Hc by apply common_withCommon.
  split_and!.
  - by rewrite !(proj1 (setStatus_fields _ _)).
  - by rewrite !(proj1 (proj2 (setStatus_fields _ _))), Hc.
  - unfold isReady. rewrite !(proj1 (setStatus_fields _ _)), !(proj1 (proj2 (proj2 (setStatus_fields _ _)))),
      !(proj2 (proj2 (proj2 (setStatus_fields _ _)))), !find_setStatus_other, Hm, Hc by done.
    split_and!; [done..|]. match goal with |- context [setStatus o0 ?c] =>
      destruct (find_setStatus o0 c ConditionTypeReady eq_refl) as (c' & -> & _ & Hs) end.
    exists c'. unfold sameCondition in Hs. by reflect_bools.
Qed.

Lemma finishIdentity_eval w (r o : obj KIdentity) :
  stored w = Some r → meta o = meta r →
  ∃ w' (r' : obj KIdentity), eval env w (finishIdentity recorder o) = (w', Some (noResult, None)) ∧
    stored w' = Some r' ∧ identities w' = identities w ∧ siblings w' = siblings w ∧
    sameButVersion (meta r) (meta r') ∧
    IdentitySpec r' = IdentitySpec r ∧ StatusID (common r') = StatusID (common o) ∧ isReady r'.
Proof.
  intros Hr Hm. unfold finishIdentity, markIdentityReady, markReady.
  set (o0 := withCommon _ o).
  assert (meta o0 = meta o) as Hm0 by apply meta_withCommon.
  set (message := "ZitiIdentity reconciled successfully").
  destruct (quiet_now w) as (w1 & t1 & E1 & S1 & I1 & O1).
  destruct (quiet_now w1) as (w2 & t2 & E2 & S2 & I2 & O2).
  destruct (quiet_now w2) as (w3 & t3 & E3 & S3 & I3 & O3).
  destruct (marked_fields o message t1 t2 t3) as (Hmm & Hid & Hready).
  destruct (update_status w3 r (marked o message t1 t2 t3)) as (w4 & r' & E4 & S4 & I4 & Hv & Hs & Hst & O4);
    [congruence|by rewrite Hmm, Hm|].
  destruct (quiet_event w4 (ObjectKeyFromObject (meta o)) EventTypeNormal "IdentityReconciled" message)
    as (w5 & E5 & S5 & I5 & O5).
  exists (if recorder then w5 else w4), r'.
  assert (common r' = common (marked o message t1 t2 t3)) as Hc by (by apply common_statusOf).
  split.
  - cbn [bind do call eval setConditionNow]. rewrite E1. cbn [fst snd eval bind]. rewrite E2. cbn [fst snd eval bind].
    rewrite E3. cbn [fst snd eval bind].
    match goal with |- context [StatusUpdate KIdentity ?x] => change x with (marked o message t1 t2 t3) end.
    rewrite E4. cbn [fst snd eval bind]. unfold EmitEvent. destruct recorder; cbn [negb bind do call eval]; [|done].
    by rewrite E5.
  - rewrite Hc. destruct recorder; split_and!; try congruence; unfold isReady; rewrite Hc;
      destruct Hready as (? & ? & ?); rewrite Hmm in *; rewrite Hv; split_and!; cbn; by rewrite ?Hm in *.
Qed.

(** *** The backend *)

Lemma update_eval w (r : obj KIdentity) id :
  acceptable (asked "" r) → id ≠ "" → nameFree (identities w) id (IdentitySpecName (IdentitySpec r)) →
  ∃ w' i, eval env w (identityUpdate id (identityFromResource r)) = (w', Some (inr (Some i))) ∧
    stored w' = stored w ∧ siblings w' = siblings w ∧ IdentID i ≠ "" ∧ keeps i (asked id r) ∧
    identities w' = <[IdentID i := i]> (identities w) ∧
    nameFree (identities w') (IdentID i) (IdentitySpecName (IdentitySpec r)) ∧
    (IdentID i = id ∨ identities w !! IdentID i = None).
Proof.
  intros Hacc Hid Hfree. destruct (update_identity w (asked id r) Hacc Hid Hfree) as
    (w' & i & E & Hs & Ho & Hi & Hk & Hids & Hcase).
  exists w', i. split_and!; [exact (eval_one _ _ _ _ _ E)|done..| |by naive_solver].
  rewrite Hids. intros id' j Hj Hn. destruct (decide (id' = IdentID i)) as [|Hne]; [done|].
  rewrite lookup_insert_ne in Hj by done. pose proof (Hfree _ _ Hj Hn) as ->.
  destruct Hcase as [->|[Hnone _]]; [done|]. cbn in Hnone. congruence.
Qed.

(** The identity that [r] may take in [w]: the recorded one, a new one, or one
    of its name. *)
Definition chosen (w : K * C) (r : obj KIdentity) (id : string) : Prop :=
  id = StatusID (common r) ∨ identities w !! id = None ∨
  ∃ j, identities w !! id = Some j ∧ IdentName j = IdentitySpecName (IdentitySpec r).

Lemma reconcileIdentity_eval w (r : obj KIdentity) :
  acceptable (asked "" r) → nameAvailable w r →
  ∃ w' i, eval env w (reconcileIdentity r (identityFromResource r)) = (w', Some (inr (Some i))) ∧
    stored w' = stored w ∧ siblings w' = siblings w ∧ IdentID i ≠ "" ∧ keeps i (asked "" r) ∧
    identities w' = <[IdentID i := i]> (identities w) ∧
    nameFree (identities w') (IdentID i) (IdentitySpecName (IdentitySpec r)) ∧ chosen w r (IdentID i).
Proof.
  unfold nameAvailable, chosen. intros Hacc Hname. unfold reconcileIdentity.
  change (StatusID (IdentityCommon (IdentityStatus r))) with (StatusID (common r)).
  case_decide as Hid.
  - rewrite bool_decide_true by done. cbn [negb].
    destruct (find_identity w (IdentitySpecName (IdentitySpec r))) as (w1 & x & E & Hs & Hi & Ho & Hx).
    unfold identityFindByName, ziti. rewrite (eval_call _ _ _ _ _ _ E). destruct x as [j|].
    + destruct Hx as (Hj & Hjn & Hje).
      destruct (update_eval w1 r (IdentID j)) as (w2 & i & E2 & Hs2 & Ho2 & Hie & Hk & Hids & Hfree & Hcase); [done..| |].
      { intros id' i' Hi' Hn. rewrite Hi in Hi'. by eapply Hname. }
      exists w2, i. rewrite Hi in Hids, Hcase. split_and!; [exact E2|congruence|congruence|done..|].
      destruct Hcase as [->|?]; [|by auto]. right; right. by exists j.
    + destruct (create_identity w1 (asked "" r) Hacc) as (w2 & i & E2 & Hs2 & Ho2 & Hnew & Hie & Hk & Hids).
      { intros id j Hj. rewrite Hi in Hj. by apply (Hx id). }
      exists w2, i. rewrite Hi in Hnew.
      split_and!; [exact (eval_one _ _ _ _ _ E2)|congruence|congruence|done|done|congruence| |by auto].
      rewrite Hids, Hi. intros id' j Hj Hn. destruct (decide (id' = IdentID i)) as [|Hne]; [done|].
      rewrite lookup_insert_ne in Hj by done. by destruct (Hx id' j).
  - rewrite bool_decide_false by done. cbn [negb].
    destruct (update_eval w r _ Hacc Hid Hname) as (w' & i & E & Hs & Ho & Hie & Hk & Hids & Hfree & Hcase).
    exists w', i. split_and!; try done. destruct Hcase; auto.
Qed.

(** ** One reconciliation *)

Lemma live_same (r r' : obj KIdentity) :
  live r → DeletionTimestamp (meta r') = DeletionTimestamp (meta r) → IdentitySpec r' = IdentitySpec r → live r'.
Proof.
  unfold live, acceptable, asked, identityFromResource, validateIdentitySpec. intros Hr Hd Hs. by rewrite Hd, Hs.
Qed.

(** Without the finalizer it is added, and nothing else happens. *)
Lemma reconcile_adopts w (r : obj KIdentity) :
  stored w = Some r → live r → zitiIdentityFinalizer ∉ Finalizers (meta r) →
  ∃ w' (r' : obj KIdentity),
    eval env w (reconcileZitiIdentity recorder req) = (w', Some ({| Requeue := true; RequeueAfter := 0 |}, None)) ∧
    stored w' = Some r' ∧ identities w' = identities w ∧ siblings w' = siblings w ∧ live r' ∧
    IdentitySpec r' = IdentitySpec r ∧
    IdentityStatus r' = IdentityStatus r ∧ Generation (meta r') = Generation (meta r) ∧
    zitiIdentityFinalizer ∈ Finalizers (meta r').
Proof.
  intros Hr Hlive Hfin. pose proof Hlive as (Hdel & Hvalid & Hacc & Hjwt). destruct (get_current w) as (w1 & E1 & Hs1 & Hi1 & Ho1). rewrite Hr in E1.
  unfold reconcileZitiIdentity, do. rewrite (eval_call _ _ _ _ _ _ E1). rewrite bool_decide_true by done. cbn [negb].
  unfold EnsureFinalizer. rewrite (proj2 (contains_false _ _) Hfin).
  set (o := withMeta _ r).
  destruct (update_stored w1 r o) as (w2 & r' & E2 & Hs2 & Hi2 & Hv & Hsp & Hst & Ho2); [congruence|done..|].
  rewrite (eval_call _ _ _ _ _ _ E2). exists w2, r'. rewrite Hv. split_and!; [done..|congruence|congruence| |done|done|done|].
  - by apply (live_same r); [|rewrite Hv|rewrite Hsp].
  - cbn. set_solver.
Qed.

(** With the finalizer the world settles. *)
Lemma reconcile_settles w (r : obj KIdentity) :
  stored w = Some r → live r → zitiIdentityFinalizer ∈ Finalizers (meta r) → nameAvailable w r →
  ∃ w' (r' : obj KIdentity) i,
    eval env w (reconcileZitiIdentity recorder req) = (w', Some (noResult, None)) ∧
    stored w' = Some r' ∧ siblings w' = siblings w ∧ live r' ∧
    IdentitySpec r' = IdentitySpec r ∧ Generation (meta r') = Generation (meta r) ∧
    zitiIdentityFinalizer ∈ Finalizers (meta r') ∧ StatusID (common r') = IdentID i ∧ IdentID i ≠ "" ∧ isReady r' ∧
    keeps i (asked "" r) ∧ identities w' = <[IdentID i := i]> (identities w) ∧
    nameFree (identities w') (IdentID i) (IdentitySpecName (IdentitySpec r)) ∧ chosen w r (IdentID i).
Proof.
  intros Hr Hlive Hfin Hname. pose proof Hlive as (Hdel & Hvalid & Hacc & Hjwt). destruct (get_current w) as (w1 & E1 & Hs1 & Hi1 & Ho1). rewrite Hr in E1.
  unfold reconcileZitiIdentity, do. rewrite (eval_call _ _ _ _ _ _ E1). rewrite bool_decide_true by done. cbn [negb].
  unfold EnsureFinalizer. rewrite (proj2 (contains_true _ _) Hfin). rewrite Hvalid. cbv zeta.
  destruct (reconcileIdentity_eval w1 r) as (w2 & i & E2 & Hs2 & Ho2 & Hie & Hk & Hids & Hfree & Hchosen);
    [done|unfold nameAvailable in *; by rewrite Hi1|]. unfold chosen in Hchosen. rewrite Hi1 in Hchosen.
  rewrite (eval_bind _ _ _ _ _ _ E2). cbn [deref]. unfold reconcileEnrollment. cbn [identityFromResource DesiredCreateJWTSecret].
  rewrite Hjwt. set (o := setIdentityStatus _ _ _).
  destruct (finishIdentity_eval w2 r o) as (w3 & r' & E3 & Hs3 & Hi3 & Ho3 & Hv & Hsp & Hid & Hready); [congruence|done|].
  exists w3, r', i. split_and!; [done|done|congruence| |done|by rewrite Hv|by rewrite Hv|done|done|done|done|by rewrite Hi3, Hids, Hi1|by rewrite Hi3|done].
  by apply (live_same r); [|rewrite Hv|rewrite Hsp].
Qed.

(** Every further reconciliation leaves it settled. *)
Lemma settled_again w0 w r0 id :
  settled w0 r0 id w →
  ∃ w', eval env w (reconcileZitiIdentity recorder req) = (w', Some (noResult, None)) ∧ settled w0 r0 id w'.
Proof.
  intros (r & j & Hr & Hlive & Hsp & Hg & Hfin & Hid & Hne & _ & Hj & Hkj & Hfree & Hothers & Hsib & Htrack).
  destruct (reconcile_settles w r Hr Hlive Hfin) as
    (w' & r' & i & E & Hr' & Ho' & Hlive' & Hsp' & Hg' & Hfin' & Hid' & Hne' & Hready & Hk & Hids & Hfree' & _).
  { unfold nameAvailable. rewrite Hid, decide_False by done. by rewrite Hsp. }
  assert (IdentID i = id) as Heq.
  { destruct (decide (IdentID i = id)) as [|Hni]; [done|]. symmetry. apply (Hfree' id j).
    - rewrite Hids, lookup_insert_ne by done. exact Hj.
    - destruct Hkj as [-> _]. by rewrite Hsp. }
  exists w'. split; [exact E|]. exists r', i. rewrite Heq in *. rewrite Hids.
  split_and!; try congruence; [apply lookup_insert_eq| | | |].
  - unfold asked, identityFromResource in *. by rewrite <-Hsp.
  - rewrite <-Hids, <-Hsp. exact Hfree'.
  - intros id' Hid''. rewrite lookup_insert_ne by done. by apply Hothers.
  - rewrite Ho'. exact Htrack.
Qed.

Lemma settles w0 (r0 : obj KIdentity) w (r : obj KIdentity) :
  identities w = identities w0 → IdentitySpec r = IdentitySpec r0 → Generation (meta r) = Generation (meta r0) →
  siblings w = siblings w0 →
  stored w = Some r → live r → zitiIdentityFinalizer ∈ Finalizers (meta r) → nameAvailable w r → untracked w r →
  ∃ w' id, eval env w (reconcileZitiIdentity recorder req) = (w', Some (noResult, None)) ∧ settled w0 r0 id w'.
Proof.
  intros Hi Hsp Hg Ho Hr Hlive Hfin Hname Hun. destruct (reconcile_settles w r Hr Hlive Hfin Hname) as
    (w' & r' & i & E & Hr' & Ho' & Hlive' & Hsp' & Hg' & Hfin' & Hid' & Hne' & Hready & Hk & Hids & Hfree' & Hch).
  exists w', (IdentID i). split; [exact E|]. exists r', i. rewrite Hids.
  split_and!; try congruence; [apply lookup_insert_eq| | | |].
  - unfold asked, identityFromResource in *. by rewrite <-Hsp.
  - rewrite <-Hids, <-Hsp. exact Hfree'.
  - intros id' Hid''. by rewrite lookup_insert_ne, Hi by done.
  - intros r1 Hin Heq. rewrite Ho' in Hin. destruct (Hun r1 Hin) as (Hne1 & j & Hj & Hjn); [congruence|].
    rewrite Heq in *. destruct Hch as [?|[?|(j' & ? & ?)]]; congruence.
Qed.

(** The world after [n] reconciliations. *)
Definition reconciled (n : nat) (w : K * C) : K * C :=
  Nat.iter n (λ w, (eval env w (reconcileZitiIdentity recorder req)).1) w.

Lemma reconciled_two w w1 w2 a b :
  eval env w (reconcileZitiIdentity recorder req) = (w1, a) →
  eval env w1 (reconcileZitiIdentity recorder req) = (w2, b) → reconciled 2 w = w2.
Proof.
  intros E1 E2. change ((eval env (eval env w (reconcileZitiIdentity recorder req)).1
    (reconcileZitiIdentity recorder req)).1 = w2). by rewrite E1; cbn [fst]; rewrite E2.
Qed.

Lemma reconciled_succ n w : reconciled (S n) w = reconciled n (reconciled 1 w).
Proof. unfold reconciled. induction n as [|n IH]; [done|]. cbn in *. by rewrite IH. Qed.

Lemma reconciled_settled w0 r0 id w n : settled w0 r0 id w → settled w0 r0 id (reconciled n w).
Proof.
  intros Hw. induction n as [|n IH]; [done|]. destruct (settled_again _ _ _ _ IH) as (w' & E & Hw').
  change (settled w0 r0 id (eval env (reconciled n w) (reconcileZitiIdentity recorder req)).1). by rewrite E.
Qed.

(** Whatever the state of the backend, after two reconciliations it is settled,
    and it stays so. *)
Lemma converges w0 (r0 : obj KIdentity) :
  stored w0 = Some r0 → live r0 → nameAvailable w0 r0 → untracked w0 r0 →
  ∃ id, ∀ n, 2 ≤ n →
    settled w0 r0 id (reconciled n w0) ∧
    (eval env (reconciled n w0) (reconcileZitiIdentity recorder req)).2 = Some (noResult, None).
Proof.
  intros Hr Hlive Hname Hun.
  assert (∃ id, settled w0 r0 id (reconciled 2 w0)) as [id Hs].
  { destruct (decide (zitiIdentityFinalizer ∈ Finalizers (meta r0))) as [Hfin|Hfin].
    - destruct (settles w0 r0 w0 r0) as (w1 & id & E & Hs); [done..|]. exists id.
      destruct (settled_again _ _ _ _ Hs) as (w2 & E2 & Hs2). by rewrite (reconciled_two _ _ _ _ _ E E2).
    - destruct (reconcile_adopts w0 r0 Hr Hlive Hfin) as (w1 & r1 & E & Hr1 & Hi1 & Ho1 & Hl1 & Hsp1 & Hst1 & Hg1 & Hf1).
      destruct (settles w0 r0 w1 r1) as (w2 & id & E2 & Hs); [done..| | |].
      + unfold nameAvailable in *. unfold common in *. cbn in *. by rewrite Hi1, Hst1, Hsp1.
      + unfold untracked, common in *. cbn in *. by rewrite Hi1, Ho1, Hst1, Hsp1.
      + exists id. by rewrite (reconciled_two _ _ _ _ _ E E2). }
  exists id. intros n Hn. destruct n as [|[|n]]; [lia..|].
  rewrite 2!reconciled_succ. change (reconciled 1 (reconciled 1 w0)) with (reconciled 2 w0).
  pose proof (reconciled_settled _ _ _ _ n Hs) as Hsn. split; [exact Hsn|].
  by destruct (settled_again _ _ _ _ Hsn) as (w' & -> & _).
Qed.

(** ** Deletion *)

(** The finalizers of the others. *)
Definition otherFinalizers (r : obj KIdentity) : strs := filter (λ f, f ≠ zitiIdentityFinalizer) (Finalizers (meta r)).

(** The identity of [r0] is gone, and [r0] itself unless others hold it; the
    other resources are there. *)
Definition removed (w0 : K * C) (r0 : obj KIdentity) (w : K * C) : Prop :=
  identities w = (if decide (StatusID (common r0) = "") then identities w0
                  else delete (StatusID (common r0)) (identities w0)) ∧
  siblings w = siblings w0 ∧
  if decide (otherFinalizers r0 = []) then stored w = None
  else ∃ r : obj KIdentity, stored w = Some r ∧ DeletionTimestamp (meta r) ≠ None ∧ Finalizers (meta r) = otherFinalizers r0.

Lemma identityDelete_eval w (r : obj KIdentity) :
  ∃ w', eval env w (if negb (bool_decide (StatusID (common r) = "")) then identityDelete (StatusID (common r)) else Ret (inr tt))
    = (w', Some (inr tt)) ∧ stored w' = stored w ∧ siblings w' = siblings w ∧
  identities w' = (if decide (StatusID (common r) = "") then identities w else delete (StatusID (common r)) (identities w)).
Proof.
  case_bool_decide; case_decide; try done; cbn [negb]; [by exists w|].
  destruct (delete_identity w (StatusID (common r))) as (w' & E & Hs & Ho & Hi). exists w'. split; [|done].
  exact (eval_one _ _ _ _ _ E).
Qed.

Lemma reconcile_removes w (r : obj KIdentity) :
  stored w = Some r → DeletionTimestamp (meta r) ≠ None → zitiIdentityFinalizer ∈ Finalizers (meta r) →
  StatusJWTSecretName (IdentityStatus r) = "" →
  ∃ w', eval env w (reconcileZitiIdentity recorder req) = (w', Some (noResult, None)) ∧ removed w r w'.
Proof.
  intros Hr Hdel Hfin Hjwt. destruct (get_current w) as (w1 & E1 & Hs1 & Hi1 & Ho1). rewrite Hr in E1.
  unfold reconcileZitiIdentity, do. rewrite (eval_call _ _ _ _ _ _ E1). rewrite bool_decide_false by done. cbn [negb].
  unfold identityReconcileDelete. rewrite (proj2 (contains_true _ _) Hfin). cbn [negb].
  unfold DeleteEnrollmentSecret. rewrite bool_decide_true by done. cbn [bind].
  destruct (identityDelete_eval w1 r) as (w2 & E2 & Hs2 & Ho2 & Hi2). rewrite (eval_bind _ _ _ _ _ _ E2).
  rewrite RemoveFinalizer_in by done. cbn [snd]. set (o := withMeta _ r).
  destruct (release_stored w2 r o) as (w3 & r' & E3 & Hi3 & Hv & Hs3 & Ho3); [congruence|done|done|].
  unfold do. rewrite (eval_call _ _ _ _ _ _ E3).
  assert (meta o = SetFinalizers (otherFinalizers r) (meta r)) as Ho by apply meta_withMeta.
  assert (∀ w', stored w' = stored w3 → identities w' = identities w3 →
    siblings w' = siblings w3 → removed w r w') as Hrem.
  { intros w' Hs' Hi' Ho'. split; [by rewrite Hi', Hi3, Hi2, Hi1|]. split; [congruence|]. rewrite Hs', Hs3, Ho. cbn [SetFinalizers Finalizers].
    repeat case_decide; try done; exists r'; rewrite Hv, Ho; by split_and!. }
  unfold EmitEvent. destruct recorder; cbn [negb]; [|exists w3; split; [done|by apply Hrem]].
  destruct (quiet_event w3 (ObjectKeyFromObject (meta (r' : obj KIdentity))) EventTypeNormal "IdentityDeleted"
    "ZitiIdentity backend state removed") as (w4 & E4 & Hs4 & Hi4 & Ho4).
  exists w4. split; [|by apply Hrem]. unfold do. by rewrite (eval_call _ _ _ _ _ _ E4).
Qed.

(** Further reconciliations change nothing. *)
Lemma removed_again w0 r0 w : removed w0 r0 w →
  ∃ w', eval env w (reconcileZitiIdentity recorder req) = (w', Some (noResult, None)) ∧ removed w0 r0 w'.
Proof.
  intros (Hi & Ho & Hs). destruct (get_current w) as (w1 & E1 & Hs1 & Hi1 & Ho1).
  exists w1. split; [|by unfold removed; rewrite Hi1, Ho1, Hs1].
  unfold reconcileZitiIdentity, do. rewrite (eval_call _ _ _ _ _ _ E1). case_decide; [by rewrite Hs|].
  destruct Hs as (r & -> & Hdel & Hfin). rewrite bool_decide_false by done. cbn [negb].
  unfold identityReconcileDelete. rewrite (proj2 (contains_false _ _)); [done|].
  rewrite Hfin. by intros [? _]%list_elem_of_filter.
Qed.

Lemma removes w0 (r0 : obj KIdentity) :
  stored w0 = Some r0 → DeletionTimestamp (meta r0) ≠ None → zitiIdentityFinalizer ∈ Finalizers (meta r0) →
  StatusJWTSecretName (IdentityStatus r0) = "" →
  ∀ n, 1 ≤ n → removed w0 r0 (reconciled n w0) ∧
    (eval env (reconciled n w0) (reconcileZitiIdentity recorder req)).2 = Some (noResult, None).
Proof.
  intros Hr Hdel Hfin Hjwt n Hn. destruct n as [|n]; [lia|].
  assert (removed w0 r0 (reconciled (S n) w0)) as Hw.
  { clear Hn. induction n as [|n IH].
    - destruct (reconcile_removes w0 r0 Hr Hdel Hfin Hjwt) as (w' & E & Hw').
      change (removed w0 r0 (eval env w0 (reconcileZitiIdentity recorder req)).1). by rewrite E.
    - destruct (removed_again _ _ _ IH) as (w' & E & Hw').
      change (removed w0 r0 (eval env (reconciled (S n) w0) (reconcileZitiIdentity recorder req)).1). by rewrite E. }
  split; [exact Hw|]. by destruct (removed_again _ _ _ Hw) as (w' & -> & _).
Qed.

End World.
