(* ===== verification/IdentityStack.v ===== *)
(** * The identity reconciler on top of the management client

    What the REST API of an OpenZiti controller promises about identities is the
    class [IdentityAPI]; the management client on top of it is a backend in the
    sense of [IdentityConvergence], so the reconciler, the client and the
    controller together converge. *)

From S2P Require Import Prelude GoSlices GoStrings Errors ZitiTypes ApiTypes Credentials RestModel World.
From S2P Require Import ReconcileHelpers IdentityController ZitiClient ClientSessions ClientTypes ClientProps.
From S2P Require Import IdentityConvergence IdentitySafety.

#[local] Open Scope mz_scope.

(** ** The controller *)

(** The detail that the API answers for an identity. *)
Definition detailOf (i : Identity) : IdentityDetail :=
  {| RestIdentID := Some (IdentID i); RestIdentName := Some (IdentName i); RestIdentType := Some (IdentType i);
     RestIdentRoleAttributes := Some (IdentRoleAttributes i); RestIdentExternalID := Some (IdentExternalID i) |}.

(** The controller keeps the fields of a request, the roles as a set. *)
Definition madeOf (i : Identity) (name type : string) (roles : strs) : Prop :=
  IdentName i = name ∧ IdentType i = type ∧ (∀ a, a ∈ IdentRoleAttributes i ↔ a ∈ roles).

(** A controller whose identities are [hosted] under
    trimmed IDs:
    the credentials open a session, sessions do not expire during a
    reconciliation, lists are answered in pages of the order [inOrder], creations
    and updates with a free name succeed, and an update or a deletion of a missing
    identity is answered by 404. *)
Class IdentityAPI `{CredentialParsers} {C : Type} (api : C → ∀ o : clientOp, C * clientResp o) := {
  hosted : C → gmap string Identity;
  inOrder : C → list Identity;
  hosted_order c : inOrder c ≡ₚ (map_to_list (hosted c)).*2;
  hosted_wf c id i : hosted c !! id = Some i → IdentID i = id ∧ TrimSpace id = id ∧ identityTyped i;
  api_config c : ∃ cfg, api c LoadConfig = (c, inr cfg) ∧ (CABundlePEM cfg = "" ∨ appendCertsFromPEM (CABundlePEM cfg) = true);
  api_locked c : ∃ r, api c LockedRead = (c, r);
  api_store c s cfg : ∃ c', api c (LockedStore s cfg) = (c', tt) ∧ hosted c' = hosted c;
  api_login c cfg : ∃ c' s, api c (Login cfg) = (c', inr s) ∧ hosted c' = hosted c;
  api_list c s limit offset : api c (Rest s (RListIdentities limit offset)) =
    (c, page ((λ i, Some (detailOf i)) <$> inOrder c) limit offset);
  api_detail c s id i : hosted c !! id = Some i →
    api c (Rest s (RDetailIdentity id)) = (c, inr (Some (Some (detailOf i))));
  api_create c s body : nonBlank (NewIdentityName body) → nonBlank (NewIdentityType body) →
    (∀ id j, hosted c !! id = Some j → IdentName j ≠ NewIdentityName body) →
    ∃ c' id i, api c (Rest s (RCreateIdentity body)) = (c', inr (Some (Some id))) ∧ hosted c !! id = None ∧
      madeOf i (NewIdentityName body) (NewIdentityType body) (NewIdentityRoleAttributes body) ∧
      hosted c' = <[id := i]> (hosted c);
  api_update c s id body : nonBlank (UpdIdentityName body) → nonBlank (UpdIdentityType body) →
    is_Some (hosted c !! id) → nameFree (hosted c) id (UpdIdentityName body) →
    ∃ c' i, api c (Rest s (RUpdateIdentity id body)) = (c', inr tt) ∧
      madeOf i (UpdIdentityName body) (UpdIdentityType body) (UpdIdentityRoleAttributes body) ∧
      hosted c' = <[id := i]> (hosted c);
  api_missing c s id body : hosted c !! id = None →
    ∃ err, api c (Rest s (RUpdateIdentity id body)) = (c, inl err) ∧ isStatusCode err 404 = true;
  api_delete c s id : is_Some (hosted c !! id) →
    ∃ c', api c (Rest s (RDeleteIdentity id)) = (c', inr tt) ∧ hosted c' = delete id (hosted c);
  api_deleted c s id : hosted c !! id = None →
    ∃ err, api c (Rest s (RDeleteIdentity id)) = (c, inl err) ∧ isStatusCode err 404 = true;
}.

(** ** The client on top *)

Section Stack.
Context `{UnicodeTables} `{CredentialParsers} {C : Type} (api : C → ∀ o : clientOp, C * clientResp o).
Context `{!IdentityAPI api}.

(** A method that the client runs in a session. *)
Lemma use_eval {A} (fn : session → client (result A)) c :
  ∃ c' s, hosted c' = hosted c ∧
  ∀ c2 r, eval api c' (fn s) = (c2, Some r) → (∀ err, r = inl err → shouldReauthenticate err = false) →
    eval api c (use true fn) = (c2, Some r).
Proof.
  assert (∃ c' s, hosted c' = hosted c ∧
    eval api c (getOrAuthenticate (loadCurrentConfig true) false) = (c', Some (inr s))) as (c' & s & Hc & Es).
  { destruct (api_config c) as (cfg & E1 & Hca). destruct (api_locked c) as ([cached old] & E2).
    unfold getOrAuthenticate, loadCurrentConfig, perform. cbn [negb]. rewrite (eval_call _ _ _ _ _ _ E1).
    rewrite (eval_call _ _ _ _ _ _ E2). cbn [negb andb].
    destruct (if sameManagementConfig old cfg then cached else None) as [s|]; [by exists c, s|].
    assert (rootCAsFromConfig cfg = None) as Hroot.
    { unfold rootCAsFromConfig. case_bool_decide; [done|]. destruct Hca as [?| ->]; done. }
    unfold authenticateWithUPDB. rewrite Hroot. destruct (api_login c cfg) as (c1 & s & E3 & H3).
    destruct (api_store c1 s cfg) as (c2 & E4 & H4). exists c2, s. split; [congruence|].
    unfold perform. cbn. rewrite E3. cbn. by rewrite E4. }
  exists c', s. split; [done|]. intros c2 r Er Hr. unfold use, useAuthenticatedClient.
  rewrite (eval_bind _ _ _ _ _ _ Es), (eval_bind _ _ _ _ _ _ Er).
  destruct r as [err|a]; [|done]. by rewrite (Hr err eq_refl).
Qed.

(** *** Lists *)

Lemma detailOf_read i : identityTyped i → identityFromEnvelope (Some (Some (detailOf i))) = inr i.
Proof.
  intros (H1 & H2 & H3 & H4). unfold identityFromEnvelope, nonBlank in *. cbn.
  rewrite !bool_decide_false by done. destruct i. cbn in *. by subst.
Qed.

Lemma pageIdentities_details l : Forall identityTyped l → pageIdentities ((λ i, Some (detailOf i)) <$> l) = inr l.
Proof.
  intros Hl. induction Hl as [|i l Hi _ IH]; [done|]. cbn [fmap list_fmap pageIdentities].
  rewrite (detailOf_read i Hi). by rewrite IH.
Qed.

Lemma hosted_listed c i : i ∈ inOrder c ↔ hosted c !! IdentID i = Some i.
Proof.
  rewrite hosted_order, list_elem_of_fmap. split.
  - intros ([id j] & -> & Hj%elem_of_map_to_list). cbn. by destruct (hosted_wf c id j Hj) as [-> _].
  - intros Hi. exists (IdentID i, i). split; [done|]. by apply elem_of_map_to_list.
Qed.

Lemma listed_typed c : Forall identityTyped (inOrder c).
Proof. apply Forall_forall. intros i Hi%hosted_listed. by apply hosted_wf in Hi as (_ & _ & ?). Qed.

(** The loop changes nothing, so it answers as it does in a fixed environment. *)
Lemma listIdentities_still c s fuel offset acc :
  eval api c (listIdentities s fuel offset acc) = (c, answer (λ o, (api c o).2) (listIdentities s fuel offset acc)).
Proof.
  revert offset acc. induction fuel as [|fuel IH]; intros offset acc; [done|].
  cbn [listIdentities bind rest call eval answer]. rewrite api_list. cbn [fst snd]. unfold page.
  destruct (pageIdentities _); [done|]. case_test; [done|]. apply IH.
Qed.

(** The number of pages that are enough. *)
Definition enoughPages (c : C) : nat := requests (size (hosted c)).

Lemma ListIdentities_eval c : ∃ c' l, eval api c (ListIdentities true (enoughPages c)) = (c', Some (inr l)) ∧
  hosted c' = hosted c ∧ ∀ i, i ∈ l ↔ hosted c !! IdentID i = Some i.
Proof.
  destruct (use_eval (λ s, listIdentities s (enoughPages c) 0 []) c) as (c' & s & Hc & Hu).
  exists c', (inOrder c'). split_and!; [|done|by intros i; rewrite hosted_listed, Hc]. apply Hu; [|done].
  rewrite listIdentities_still. f_equal.
  pose proof (listIdentities_answer (λ o, (api c' o).2) s ((λ i, Some (detailOf i)) <$> inOrder c')
    (enoughPages c) 0 [] (inOrder c')) as Ha. rewrite drop_0 in Ha. apply Ha.
  - intros offset _. by rewrite api_list.
  - rewrite length_fmap. unfold enoughPages. by rewrite hosted_order, length_fmap, length_map_to_list, Hc.
  - apply pageIdentities_details, listed_typed.
Qed.

(** *** Creations and updates *)

(** An identity that the API holds is read back. *)
Lemma readBack_eval c s id i :
  hosted c !! id = Some i → eval api c (getIdentityByID s (Some (Some id))) = (c, Some (inr (Some i))).
Proof.
  intros Hi. destruct (hosted_wf c id i Hi) as (Hid & Htrim & Htyped).
  unfold getIdentityByID, readBack, extractCreatedID. rewrite Htrim.
  rewrite bool_decide_false by (destruct Htyped as [Hn _]; unfold nonBlank in Hn; congruence).
  unfold rest. rewrite (eval_call _ _ _ _ _ _ (api_detail c s id i Hi)).
  unfold identityDetail. by rewrite (detailOf_read i Htyped).
Qed.

Lemma madeOf_keeps i' i : madeOf i' (IdentName i) (IdentType i) (IdentRoleAttributes i) → keeps i' i.
Proof. by intros (? & ? & ?). Qed.

Lemma CreateIdentity_eval c i :
  acceptable i → (∀ id j, hosted c !! id = Some j → IdentName j ≠ IdentName i) →
  ∃ c' i', eval api c (CreateIdentity true i) = (c', Some (inr (Some i'))) ∧
    hosted c !! IdentID i' = None ∧ IdentID i' ≠ "" ∧ keeps i' i ∧ hosted c' = <[IdentID i' := i']> (hosted c).
Proof.
  intros [Hn Ht] Hfree.
  destruct (use_eval (createAndRead "create identity" (λ s, rest s (RCreateIdentity (toIdentityCreate i)))
    getIdentityByID) c) as (c1 & s & Hc & Hu).
  destruct (api_create c1 s (toIdentityCreate i) Hn Ht) as (c2 & id & i' & E & Hnone & Hm & Hids);
    [by rewrite Hc|]. rewrite Hc in *.
  assert (hosted c2 !! id = Some i') as Hi by (rewrite Hids; apply lookup_insert_eq).
  destruct (hosted_wf c2 id i' Hi) as (Hid & Htrim & Hne & _). exists c2, i'. rewrite Hid.
  split_and!; [|done| |by apply madeOf_keeps|done].
  - apply Hu; [|done]. unfold createAndRead, rest. rewrite (eval_call _ _ _ _ _ _ E). by apply readBack_eval.
  - rewrite <-Hid. by intros Hempty; rewrite Hempty in Hne.
Qed.

Lemma UpdateIdentity_eval c i :
  acceptable i → IdentID i ≠ "" → nameFree (hosted c) (IdentID i) (IdentName i) →
  ∃ c' i', eval api c (UpdateIdentity true i) = (c', Some (inr (Some i'))) ∧
    IdentID i' ≠ "" ∧ keeps i' i ∧ hosted c' = <[IdentID i' := i']> (hosted c) ∧
    (IdentID i' = IdentID i ∨ hosted c !! IdentID i = None ∧ hosted c !! IdentID i' = None).
Proof.
  intros Hacc Hne Hfree. pose proof Hacc as [Hn Ht]. unfold UpdateIdentity, createIfMissing.
  destruct (use_eval (updateAndRead "update identity" (IdentID i)
    (λ s, rest s (RUpdateIdentity (IdentID i) (toIdentityUpdate i))) getIdentityByID) c) as (c1 & s & Hc & Hu).
  destruct (hosted c !! IdentID i) as [j|] eqn:Hj.
  - destruct (api_update c1 s (IdentID i) (toIdentityUpdate i) Hn Ht) as (c2 & i' & E & Hm & Hids);
      [by rewrite Hc, Hj|by rewrite Hc|].
    assert (hosted c2 !! IdentID i = Some i') as Hi by (rewrite Hids; apply lookup_insert_eq).
    destruct (hosted_wf c2 _ _ Hi) as (Hid & _ & _). exists c2, i'. rewrite Hid, <-Hc.
    split_and!; [|done|by apply madeOf_keeps|done|by left].
    rewrite (eval_bind _ _ _ _ c2 (inr (Some i'))); [done|]. apply Hu; [|done].
    unfold updateAndRead, rest. rewrite (eval_call _ _ _ _ _ _ E). by apply readBack_eval.
  - destruct (api_missing c1 s (IdentID i) (toIdentityUpdate i)) as (err & E & H404); [by rewrite Hc|].
    rewrite (eval_bind _ _ _ _ c1 (inl err)).
    + rewrite H404. destruct (CreateIdentity_eval c1 (setIdentID "" i)) as (c2 & i' & E2 & Hnone & Hne' & Hk & Hids);
        [exact Hacc| |].
      { rewrite Hc. intros id k Hk Hname. pose proof (Hfree _ _ Hk Hname) as ->. congruence. }
      exists c2, i'. rewrite <-Hc. split_and!; [exact E2|done|exact Hk|done|right; by rewrite <-Hc in Hj].
    + apply Hu.
      * unfold updateAndRead, rest. rewrite (eval_call _ _ _ _ _ _ E). by rewrite H404.
      * intros err' [= <-]. unfold shouldReauthenticate, isStatusCode in *.
        destruct (rootCause err); try done. apply Z.eqb_eq in H404 as ->. done.
Qed.

Lemma DeleteIdentity_eval c id :
  ∃ c', eval api c (DeleteIdentity true id) = (c', Some (inr tt)) ∧ hosted c' = delete id (hosted c).
Proof.
  destruct (use_eval (deleteOrMissing "delete identity" (λ s, rest s (RDeleteIdentity id))) c) as (c1 & s & Hc & Hu).
  unfold deleteOrMissing, rest in Hu. destruct (hosted c1 !! id) as [i|] eqn:Hi.
  - destruct (api_delete c1 s id) as (c2 & E & Hd); [by rewrite Hi|]. exists c2. split; [|by rewrite <-Hc].
    apply Hu; [|done]. by rewrite (eval_call _ _ _ _ _ _ E).
  - destruct (api_deleted c1 s id Hi) as (err & E & H404). exists c1.
    split; [|by rewrite <-Hc, delete_id]. apply Hu; [|done]. by rewrite (eval_call _ _ _ _ _ _ E), H404.
Qed.

(** *** The interface of the reconciler *)

(** The client as a backend; it reads as many pages as there are.  The calls of
    the reconciler do not fault, as the laws show; what stands for the answer of
    a call that faults is never used. *)
Definition clientBackend (c : C) (o : zitiOp) : C * zitiResp o :=
  let r := eval api c (implement (enoughPages c) o) in
  (r.1, match r.2 with Some a => a | None => quietZiti o end).

Lemma clientBackend_eval c o c' a :
  eval api c (implement (enoughPages c) o) = (c', Some a) → clientBackend c o = (c', a).
Proof. unfold clientBackend. by intros ->. Qed.

#[export, refine] Instance client_backend : IdentityBackend clientBackend := {| held := hosted |}.
Proof.
  - intros c name. destruct (ListIdentities_eval c) as (c' & l & E & Hc & Hl).
    exists c', (head (List.filter (λ i, bool_decide (IdentName i = name)) l)). split_and!; [|done|].
    { apply clientBackend_eval. cbn [implement]. unfold FindIdentityByName. by rewrite (eval_bind _ _ _ _ _ _ E). }
    destruct (head _) as [i|] eqn:Hh.
    + apply head_filter in Hh as [Hi%Hl Hname%bool_decide_eq_true]. split_and!; [done..|].
      intros Hempty. destruct (hosted_wf _ _ _ Hi) as (_ & _ & Hne & _). by rewrite Hempty in Hne.
    + intros id i Hi Hname. destruct (hosted_wf _ _ _ Hi) as (Hid & _). 
      assert (i ∈ List.filter (λ i, bool_decide (IdentName i = name)) l) as Hin.
      { apply list_elem_of_In, List.filter_In. split; [|by apply bool_decide_eq_true].
        apply list_elem_of_In, Hl. by rewrite Hid. }
      destruct (List.filter _ l); [by apply elem_of_nil in Hin|done].
  - intros c i Hacc Hfree. destruct (CreateIdentity_eval c i Hacc Hfree) as (c' & i' & E & Hrest).
    exists c', i'. split; [|done]. by apply clientBackend_eval.
  - intros c i Hacc Hne Hfree. destruct (UpdateIdentity_eval c i Hacc Hne Hfree) as (c' & i' & E & Hrest).
    exists c', i'. split; [|done]. by apply clientBackend_eval.
  - intros c id. destruct (DeleteIdentity_eval c id) as (c' & E & Hrest).
    exists c'. split; [|done]. by apply clientBackend_eval.
Defined.

(** C13. An identity converges.  Take a live resource with a valid spec that wants
    no enrollment Secret, a Kubernetes API whose reads are current, and a
    controller that is up, in any state in which the name of the spec can be had:
    the resource may or may not have the finalizer and a recorded ID, the recorded
    identity may be gone or changed, and an identity of the name may exist, as
    long as no other identity resource tracks it: what the others track are
    identities of other names.  After two reconciliations through the
    management client, and after every further one, exactly one identity of the
    controller has the name, with the type and the roles of the spec; the
    resource keeps its finalizer, has recorded that ID and is ready for its
    generation; no other identity was touched, and no other resource was
    changed or tracks the identity.  Each of these reconciliations returns
    without an error and without a requeue. *)
Theorem identity_converges `{OwnerRefs} `{!MetaConditions} `{!MetaConditionsLaws} {K : Type}
    (kube : K → ∀ o : op, K * resp o) (req : NamespacedName) `{!IdentityCluster kube req}
    (recorder : bool) (k0 : K) (c0 : C) (r0 : obj KIdentity) :
  let env := world kube clientBackend in
  let reconcile := reconcileZitiIdentity recorder req in
  let after n := Nat.iter n (λ w, (eval env w reconcile).1) (k0, c0) in
  resourceOf k0 = Some r0 → live r0 → nameAvailable clientBackend (k0, c0) r0 →
  untracked kube clientBackend req (k0, c0) r0 →
  ∃ id, ∀ n, 2 ≤ n →
    settled kube clientBackend req (k0, c0) r0 id (after n) ∧
    (eval env (after n) reconcile).2 = Some (noResult, None).
Proof. intros env reconcile after Hr Hlive Hname Hun. by apply (converges kube clientBackend req recorder (k0, c0) r0). Qed.

(** C12. A deleted identity goes away.  Take a resource that is being deleted and
    still has the finalizer of the operator, with no enrollment Secret recorded.
    After one reconciliation through the management client, and after every
    further one, the identity of the recorded ID is not in the controller (it may
    have been missing before), every other identity and every other resource is
    untouched, and the finalizer is off: the resource is gone, or it is left to the finalizers of
    the others, in their order.  Each of these reconciliations returns without
    an error and without a requeue. *)
Theorem identity_deleted `{OwnerRefs} `{!MetaConditions} {K : Type}
    (kube : K → ∀ o : op, K * resp o) (req : NamespacedName) `{!IdentityCluster kube req}
    (recorder : bool) (k0 : K) (c0 : C) (r0 : obj KIdentity) :
  let env := world kube clientBackend in
  let reconcile := reconcileZitiIdentity recorder req in
  let after n := Nat.iter n (λ w, (eval env w reconcile).1) (k0, c0) in
  resourceOf k0 = Some r0 → DeletionTimestamp (meta r0) ≠ None → zitiIdentityFinalizer ∈ Finalizers (meta r0) →
  StatusJWTSecretName (IdentityStatus r0) = "" →
  ∀ n, 1 ≤ n → removed kube clientBackend req (k0, c0) r0 (after n) ∧
    (eval env (after n) reconcile).2 = Some (noResult, None).
Proof. intros env reconcile after. exact (removes kube clientBackend req recorder (k0, c0) r0). Qed.

End Stack.

(** ** A concrete cluster and controller *)

(** The Kubernetes API with one resource beside others; a stale write is refused,
    and an update that takes the last finalizer of a resource that is being
    deleted removes it. *)
Definition exKube (k : option (obj KIdentity) * list (obj KIdentity)) (o : op)
    : (option (obj KIdentity) * list (obj KIdentity)) * resp o :=
  let write (o : obj KIdentity) (r' : obj KIdentity → obj KIdentity) (last : obj KIdentity → bool)
      : (option (obj KIdentity) * list (obj KIdentity)) * result (obj KIdentity) :=
    match k.1 with
    | Some r => if bool_decide (ResourceVersion (meta o) = ResourceVersion (meta r))
                then ((if last r then None else Some (r' r), k.2), inr (r' r))
                else (k, inl (StatusError "Conflict" "stale"))
    | None => (k, inl (StatusError "NotFound" "not found"))
    end in
  match o return (option (obj KIdentity) * list (obj KIdentity)) * resp o with
  | Get _ KIdentity _ => (k, match k.1 with Some r => inr r | None => inl (StatusError "NotFound" "not found") end)
  | Update KIdentity o =>
      write o (λ r, {| IdentityMeta := setResourceVersion (ResourceVersion (meta o) +:+ "'") (meta o);
                       IdentitySpec := IdentitySpec o; IdentityStatus := IdentityStatus r |})
        (λ r, bool_decide (DeletionTimestamp (meta r) ≠ None) && bool_decide (Finalizers (meta o) = []))
  | StatusUpdate KIdentity o =>
      write o (λ r, {| IdentityMeta := setResourceVersion (ResourceVersion (meta r) +:+ "'") (meta r);
                       IdentitySpec := IdentitySpec r; IdentityStatus := IdentityStatus o |}) (λ _, false)
  | o => (k, quiet o)
  end.

Definition exAnnReq : NamespacedName := {| KeyNamespace := "ziti"; KeyName := "ann" |}.

#[refine] Instance exKube_cluster : IdentityCluster exKube exAnnReq := {| resourceOf k := k.1; others k := k.2 |}.
Proof.
  - intros k. by exists k.
  - intros k. by exists k, 1%Z.
  - intros k m ty reason text. by exists k.
  - intros [k l] r o Hr Hv Hd. cbn in Hr. subst k. eexists _, _. cbn. rewrite bool_decide_true by done. cbn in Hd. rewrite Hd.
    split_and!; reflexivity.
  - intros [k l] r o Hr Hv Hd. cbn in Hr. subst k. eexists _, _. cbn. rewrite bool_decide_true by done. cbn in Hd.
    split_and!; [reflexivity|reflexivity| |reflexivity]. cbn. rewrite bool_decide_true by done. cbn [andb].
    case_bool_decide; by case_decide.
  - intros [k l] r o Hr Hv. cbn in Hr. subst k. eexists _, _. cbn. rewrite bool_decide_true by done. split_and!; reflexivity.
Defined.

(** IDs in unary: they are trimmed, and a longer one is new. *)
Fixpoint unaryID (n : nat) : string := match n with O => "i" | S n => String "i" (unaryID n) end.

Lemma unaryID_chars n : chars (unaryID n) = replicate (S n) (105%Z, "i").
Proof.
  induction n as [|n IH]; [done|].
  change ((105%Z, String "i" (String.substring 0 0 (unaryID n))) :: chars (unaryID n) =
    (105%Z, "i") :: replicate (S n) (105%Z, "i")).
  rewrite IH. by destruct n.
Qed.

Lemma unaryID_trimmed n : TrimSpace (unaryID n) = unaryID n.
Proof.
  assert (∀ k, dropSpaces (replicate k (105%Z, "i")) = replicate k (105%Z, "i")) as Hdrop by (by intros []).
  unfold TrimSpace. rewrite <-(chars_concat (unaryID n)) at 2. rewrite unaryID_chars.
  by rewrite Hdrop, reverse_replicate, Hdrop, reverse_replicate.
Qed.

Definition newID (m : gmap string Identity) : string := unaryID (list_max (String.length <$> (map_to_list m).*1)).

Lemma newID_new m : m !! newID m = None.
Proof.
  destruct (m !! newID m) as [i|] eqn:E; [|done]. exfalso.
  assert (∀ n, String.length (unaryID n) = S n) as Hlen by (intros n; induction n; cbn; congruence).
  pose proof (proj1 (list_max_le (String.length <$> (map_to_list m).*1) _) (Nat.le_refl _)) as Hmax.
  rewrite List.Forall_forall in Hmax. specialize (Hmax (String.length (newID m))).
  unfold newID at 2 in Hmax. rewrite Hlen in Hmax. enough (In (String.length (newID m)) (String.length <$> (map_to_list m).*1)).
  { specialize (Hmax H). lia. }
  apply list_elem_of_In, list_elem_of_fmap. exists (newID m). split; [done|].
  apply list_elem_of_fmap. exists (newID m, i). split; [done|]. by apply elem_of_map_to_list.
Qed.

(** The identities that the controller shows. *)
Definition shown (p : string * Identity) : Prop :=
  IdentID p.2 = p.1 ∧ TrimSpace p.1 = p.1 ∧ TrimSpace (IdentID p.2) ≠ "" ∧ TrimSpace (IdentName p.2) ≠ "" ∧
  TrimSpace (IdentType p.2) ≠ "" ∧ IdentCreateOTT p.2 = false.

Definition exHosted (m : gmap string Identity) : gmap string Identity := filter shown m.
Definition exOrder (m : gmap string Identity) : list Identity := (map_to_list (exHosted m)).*2.

Definition exStored (id name type : string) (roles : strs) : Identity :=
  {| IdentID := id; IdentName := name; IdentType := type; IdentRoleAttributes := roles;
     IdentCreateOTT := false; IdentExternalID := "" |}.

Lemma madeOf_exStored id name type roles : madeOf (exStored id name type roles) name type roles.
Proof. by unfold madeOf. Qed.

Definition exAPI (m : gmap string Identity) (o : clientOp) : gmap string Identity * clientResp o :=
  match o return gmap string Identity * clientResp o with
  | LoadConfig => (m, inr exManagementConfig)
  | LockedRead => (m, (None, exManagementConfig))
  | Login _ => (m, inr 7)
  | Rest _ (RListIdentities limit offset) => (m, page ((λ i, Some (detailOf i)) <$> exOrder m) limit offset)
  | Rest _ (RDetailIdentity id) =>
      (m, match exHosted m !! id with Some i => inr (Some (Some (detailOf i))) | None => inl (CodedError 404 "") end)
  | Rest _ (RCreateIdentity b) =>
      let id := newID m in
      (<[id := exStored id (NewIdentityName b) (NewIdentityType b) (NewIdentityRoleAttributes b)]> m, inr (Some (Some id)))
  | Rest _ (RUpdateIdentity id b) =>
      match exHosted m !! id with
      | Some _ => (<[id := exStored id (UpdIdentityName b) (UpdIdentityType b) (UpdIdentityRoleAttributes b)]> m, inr tt)
      | None => (m, inl (CodedError 404 ""))
      end
  | Rest _ (RDeleteIdentity id) =>
      match exHosted m !! id with Some _ => (delete id m, inr tt) | None => (m, inl (CodedError 404 "")) end
  | Rest s o => (m, exRest o)
  | o => (m, exController o)
  end.

Lemma exHosted_insert m id name type roles :
  TrimSpace id = id → id ≠ "" → nonBlank name → nonBlank type →
  exHosted (<[id := exStored id name type roles]> m) = <[id := exStored id name type roles]> (exHosted m).
Proof.
  intros Ht Hid Hn Hy. apply map_filter_insert_True. unfold shown. cbn [fst snd exStored IdentID IdentName IdentType IdentCreateOTT].
  by rewrite Ht.
Qed.

#[refine] Instance exAPI_laws : @IdentityAPI exParsers _ exAPI := {| hosted := exHosted; inOrder := exOrder |}.
Proof.
  - done.
  - intros c id i [Hi (H1 & H2 & H3 & H4 & H5 & H6)]%map_lookup_filter_Some. cbn in *. split_and!; [done..|]. by split_and!.
  - intros c. exists exManagementConfig. split; [done|]. vm_compute. by (left || right).
  - intros c. by eexists.
  - intros c s cfg. exists c. by cbn.
  - intros c cfg. by exists c, 7.
  - done.
  - intros c s id i Hi. cbn. by rewrite Hi.
  - intros c s b Hn Ht Hfree.
    exists (<[newID c := exStored (newID c) (NewIdentityName b) (NewIdentityType b) (NewIdentityRoleAttributes b)]> c), (newID c).
    eexists. split; [reflexivity|]. split_and!; [| |apply exHosted_insert; [apply unaryID_trimmed|by unfold newID; destruct (list_max _)|done..]].
    + unfold exHosted. apply map_lookup_filter_None. left. apply newID_new.
    + apply madeOf_exStored.
  - intros c s id b Hn Ht [j Hj] Hfree. cbn. rewrite Hj. exists (<[id := exStored id (UpdIdentityName b) (UpdIdentityType b) (UpdIdentityRoleAttributes b)]> c).
    eexists. split; [reflexivity|]. split; [by apply madeOf_exStored|].
    apply map_lookup_filter_Some in Hj as [_ (H1 & H2 & H3 & _)]. cbn in *.
    apply exHosted_insert; [done| |done..]. intros Hempty. by rewrite H1, Hempty in H3.
  - intros c s id b Hnone. cbn. rewrite Hnone. by exists (CodedError 404 "").
  - intros c s id [i Hi]. cbn. rewrite Hi. exists (delete id c). split; [done|]. apply map_filter_delete.
  - intros c s id Hnone. cbn. rewrite Hnone. by exists (CodedError 404 "").
Defined.

(** A resource without the finalizer whose recorded identity is gone, beside an
    identity of another name. *)
Definition exAnn : obj KIdentity :=
  {| IdentityMeta := exMeta "ann";
     IdentitySpec := {| IdentitySpecName := "ann"; IdentitySpecType := "User"; IdentitySpecRoleAttributes := ["ops"];
       Enrollment := {| CreateJWTSecret := false; SpecJWTSecretName := "" |} |};
     IdentityStatus := {| IdentityCommon := exCommon; StatusJWTSecretName := "" |} |}.

Definition exBob : gmap string Identity := {[ "ib" := exStored "ib" "bob" "User" [] ]}.

(** The resource of that identity. *)
Definition exBobResource : obj KIdentity :=
  {| IdentityMeta := exMeta "bob";
     IdentitySpec := {| IdentitySpecName := "bob"; IdentitySpecType := "User"; IdentitySpecRoleAttributes := [];
       Enrollment := {| CreateJWTSecret := false; SpecJWTSecretName := "" |} |};
     IdentityStatus := {| IdentityCommon := {| StatusID := "ib"; Conditions := []; ObservedGeneration := 1;
       LastError := "" |}; StatusJWTSecretName := "" |} |}.

Abbreviation exStack := (world exKube (@clientBackend asciiTables exParsers _ exAPI exAPI_laws)).

Lemma identity_converges_witness :
  let reconcile := @reconcileZitiIdentity exOwnerRefs upsertConditions true exAnnReq in
  let after n := Nat.iter n (λ w, (eval exStack w reconcile).1) ((Some exAnn, [exBobResource]), exBob) in
  live exAnn ∧ ∃ id, ∀ n, 2 ≤ n →
    @settled _ _ exKube (@clientBackend asciiTables exParsers _ exAPI exAPI_laws) exAnnReq exKube_cluster
      (@client_backend asciiTables exParsers _ exAPI exAPI_laws) upsertConditions ((Some exAnn, [exBobResource]), exBob) exAnn id (after n) ∧
    (eval exStack (after n) reconcile).2 = Some (noResult, None).
Proof.
  intros reconcile after. assert (live exAnn) as Hlive.
  { unfold live, acceptable, nonBlank. split_and!; try reflexivity; vm_compute; congruence. }
  split; [exact Hlive|].
  apply (@identity_converges asciiTables exParsers _ exAPI exAPI_laws exOwnerRefs upsertConditions upsertConditions_laws
    _ exKube exAnnReq exKube_cluster true (Some exAnn, [exBobResource]) exBob exAnn eq_refl Hlive).
  - unfold nameAvailable. rewrite decide_False by done. intros id i Hi Hn. exfalso.
    change (exHosted exBob !! id = Some i) in Hi. apply map_lookup_filter_Some in Hi as [Hi _].
    unfold exBob in Hi. apply lookup_singleton_Some in Hi as [<- <-]. discriminate Hn.
  - intros r' [->|[]%not_elem_of_nil]%elem_of_cons _. split; [discriminate|].
    exists (exStored "ib" "bob" "User" []). split; [vm_compute; reflexivity|discriminate].
Defined.

(** What the two reconciliations do there: a new identity is created. *)
Example exAnn_settled :
  let reconcile := @reconcileZitiIdentity exOwnerRefs upsertConditions true exAnnReq in
  let w := Nat.iter 2 (λ w, (eval exStack w reconcile).1) ((Some exAnn, [exBobResource]), exBob) in
  StatusID ∘ IdentityCommon ∘ IdentityStatus <$> w.1.1 = Some "iii" ∧
  w.2 = <["iii" := exStored "iii" "ann" "User" ["ops"]]> exBob.
Proof. split; vm_compute; reflexivity. Qed.

(** An identity that another resource tracks is adopted all the same, when it has
    the name of the spec: afterwards both resources track it, and the deletion of
    either one deletes it. *)
Example tracked_identity_adopted :
  let reconcile := @reconcileZitiIdentity exOwnerRefs upsertConditions true exAnnReq in
  let bob : obj KIdentity := {| IdentityMeta := exMeta "ann"; IdentitySpec := IdentitySpec exBobResource;
    IdentityStatus := {| IdentityCommon := {| StatusID := ""; Conditions := []; ObservedGeneration := 0;
      LastError := "" |}; StatusJWTSecretName := "" |} |} in
  let w := Nat.iter 2 (λ w, (eval exStack w reconcile).1) ((Some bob, [exBobResource]), exBob) in
  StatusID ∘ IdentityCommon ∘ IdentityStatus <$> w.1.1 = Some "ib" ∧
  StatusID ∘ IdentityCommon ∘ IdentityStatus <$> w.1.2 = ["ib"].
Proof. split; vm_compute; reflexivity. Qed.

(** The same resource being deleted, with a finalizer of another controller and
    an identity that exists. *)
Definition exGoing : obj KIdentity :=
  {| IdentityMeta :=
       {| MetaNamespace := "ziti"; MetaName := "ann"; UID := "uid-ann"; ResourceVersion := "7"; Generation := 2;
          MetaCreationTimestamp := 5; DeletionTimestamp := Some 9%Z;
          Finalizers := ["backup"; zitiIdentityFinalizer]; OwnerReferences := [] |};
     IdentitySpec := IdentitySpec exAnn; IdentityStatus := IdentityStatus exAnn |}.

Definition exTwo : gmap string Identity := <["id-1" := exStored "id-1" "ann" "User" ["ops"]]> exBob.

Lemma identity_deleted_witness :
  let reconcile := @reconcileZitiIdentity exOwnerRefs upsertConditions true exAnnReq in
  let after n := Nat.iter n (λ w, (eval exStack w reconcile).1) ((Some exGoing, []), exTwo) in
  zitiIdentityFinalizer ∈ Finalizers (meta exGoing) ∧ ∀ n, 1 ≤ n →
    @removed _ _ exKube (@clientBackend asciiTables exParsers _ exAPI exAPI_laws) exAnnReq exKube_cluster
      (@client_backend asciiTables exParsers _ exAPI exAPI_laws) ((Some exGoing, []), exTwo) exGoing (after n) ∧
    (eval exStack (after n) reconcile).2 = Some (noResult, None).
Proof.
  intros reconcile after. assert (zitiIdentityFinalizer ∈ Finalizers (meta exGoing)) as Hfin by (right; left).
  split; [exact Hfin|].
  apply (@identity_deleted asciiTables exParsers _ exAPI exAPI_laws exOwnerRefs upsertConditions
    _ exKube exAnnReq exKube_cluster true (Some exGoing, []) exTwo exGoing eq_refl); [discriminate|exact Hfin|reflexivity].
Defined.

(** What the reconciliation leaves. *)
Example exGoing_gone :
  let reconcile := @reconcileZitiIdentity exOwnerRefs upsertConditions true exAnnReq in
  let w := (eval exStack ((Some exGoing, []), exTwo) reconcile).1 in
  Finalizers ∘ IdentityMeta <$> w.1.1 = Some ["backup"] ∧ w.2 = exBob.
Proof. split; vm_compute; reflexivity. Qed.
