(* ===== verification/MemoryTypes.v ===== *)
(** * The resources as Go lays them out in memory

    The types of [api/v1alpha1] with their references: a slice is a header that
    points into an array, a pointer is the address of a variable.  Where a
    struct of [ApiTypes] holds no reference it is the memory layout as well; the
    others have a layout of their own here, whose name starts with [Mem].
    [TypeMeta], [ObjectMeta], [ListMeta] and [Time] are those of apimachinery
    with the fields the operator uses. *)

From S2P Require Import Prelude ApiTypes.

(** An address of the store. *)
Abbreviation loc := positive.

(** The Go types of variables and array elements behind a reference. *)
Inductive gotype :=
  | TString | TInt64 | TTime | TOwnerReference | TCondition
  | TCommonStatus | TEnrollmentSpec | TEntraUnmatchedMember | THostConfigSpec
  | TInterceptConfigSpec | TPortRange | TSelectorSpec | TServiceRouterSpec
  | TZitiAccessPolicy | TZitiAccessPolicyList | TZitiAccessPolicySpec | TZitiAccessPolicyStatus
  | TZitiEntraRoleSync | TZitiEntraRoleSyncList | TZitiEntraRoleSyncSpec | TZitiEntraRoleSyncStatus
  | TZitiIdentity | TZitiIdentityList | TZitiIdentitySpec | TZitiIdentityStatus
  | TZitiService | TZitiServiceConfigIDs | TZitiServiceConfigsSpec | TZitiServiceList
  | TZitiServiceSpec | TZitiServiceStatus.
#[export] Instance gotype_eq_dec : EqDecision gotype.
Proof. solve_decision. Defined.

(** The header of a non-nil [[]T]: [len] elements of the array at [base], from
    [off] on. *)
Record header := { base : loc; off : nat; len : nat }.
Definition slice (T : gotype) : Type := option header.

(** [*T] *)
Definition pointer (T : gotype) : Type := option loc.

(** ** Metadata *)

Record TypeMeta := { Kind : string; APIVersion : string }.

Record MemObjectMeta := {
  mNamespace : string;
  mName : string;
  mUID : string;
  mResourceVersion : string;
  mGeneration : Z;
  mCreationTimestamp : Z;
  mDeletionTimestamp : pointer TTime;
  mFinalizers : slice TString;
  mOwnerReferences : slice TOwnerReference;
}.

Record MemListMeta := {
  mListResourceVersion : string;
  mContinue : string;
  mRemainingItemCount : pointer TInt64;
}.

(** ** Parts of the resources *)

Record MemCommonStatus := {
  mID : string;
  mConditions : slice TCondition;
  mObservedGeneration : Z;
  mLastError : string;
}.

Record MemInterceptConfigSpec := {
  mProtocols : slice TString;
  mAddresses : slice TString;
  mPortRanges : slice TPortRange;
}.

Record MemSelectorSpec := { mMatchNames : slice TString; mMatchRoleAttributes : slice TString }.

Record MemServiceRouterSpec := {
  mRouterName : string;
  mAdditionalAllowedEdgeRouterNames : slice TString;
}.

(** [ZitiServiceConfigIDs] *)
Record ServiceConfigIDs := { ConfigIDIntercept : string; ConfigIDHost : string }.

Record MemServiceConfigsSpec := {
  mIntercept : MemInterceptConfigSpec;
  mHost : HostConfigSpec;
}.

(** ** ZitiAccessPolicy *)

Record MemAccessPolicySpec := {
  mPolicyType : string;
  mIdentitySelector : MemSelectorSpec;
  mServiceSelector : MemSelectorSpec;
}.

Record MemAccessPolicyStatus := {
  mPolicyCommon : MemCommonStatus;
  mResolvedIdentityCount : Z;
  mResolvedServiceCount : Z;
}.

Record MemAccessPolicy := {
  mPolicyTypeMeta : TypeMeta;
  mPolicyMeta : MemObjectMeta;
  mPolicySpec : MemAccessPolicySpec;
  mPolicyStatus : MemAccessPolicyStatus;
}.

(** ** ZitiEntraRoleSync *)

Record MemRoleSyncStatus := {
  mSyncCommon : MemCommonStatus;
  mLastSyncTime : pointer TTime;
  mManagedAttributes : slice TString;
  mMatchedIdentities : Z;
  mIdentitiesUpdated : Z;
  mMembersWithoutIdentity : Z;
  mUnmatchedMembers : slice TEntraUnmatchedMember;
}.

Record MemRoleSync := {
  mSyncTypeMeta : TypeMeta;
  mSyncMeta : MemObjectMeta;
  mSyncSpec : ZitiEntraRoleSyncSpec;
  mSyncStatus : MemRoleSyncStatus;
}.

(** ** ZitiIdentity *)

Record MemIdentitySpec := {
  mIdentityName : string;
  mIdentityType : string;
  mIdentityRoleAttributes : slice TString;
  mEnrollment : EnrollmentSpec;
}.

Record MemIdentityStatus := { mIdentityCommon : MemCommonStatus; mJWTSecretName : string }.

Record MemIdentity := {
  mIdentityTypeMeta : TypeMeta;
  mIdentityMeta : MemObjectMeta;
  mIdentitySpec : MemIdentitySpec;
  mIdentityStatus : MemIdentityStatus;
}.

(** ** ZitiService *)

Record MemServiceSpec := {
  mServiceName : string;
  mServiceRoleAttributes : slice TString;
  mRouter : pointer TServiceRouterSpec;
  mConfigs : MemServiceConfigsSpec;
}.

Record MemServiceStatus := {
  mServiceCommon : MemCommonStatus;
  mConfigIDs : ServiceConfigIDs;
  mBindPolicyID : string;
  mServiceEdgeRouterPolicyID : string;
}.

Record MemService := {
  mServiceTypeMeta : TypeMeta;
  mServiceMeta : MemObjectMeta;
  mServiceSpec : MemServiceSpec;
  mServiceStatus : MemServiceStatus;
}.

(** ** The lists: [ZitiIdentityList] and the like, by the type of the items. *)

Record MemList (T : gotype) := {
  mListTypeMeta : TypeMeta;
  mListMeta : MemListMeta;
  mItems : slice T;
}.
Arguments mListTypeMeta {T}.
Arguments mListMeta {T}.
Arguments mItems {T}.
Arguments Build_MemList {T}.

Definition MemAccessPolicyList : Type := MemList TZitiAccessPolicy.
Definition MemRoleSyncList : Type := MemList TZitiEntraRoleSync.
Definition MemIdentityList : Type := MemList TZitiIdentity.
Definition MemServiceList : Type := MemList TZitiService.

(** The values of a type. *)
Definition gorep (T : gotype) : Type :=
  match T with
  | TString => string
  | TInt64 | TTime => Z
  | TOwnerReference => OwnerReference
  | TCondition => Condition
  | TCommonStatus => MemCommonStatus
  | TEnrollmentSpec => EnrollmentSpec
  | TEntraUnmatchedMember => EntraUnmatchedMember
  | THostConfigSpec => HostConfigSpec
  | TInterceptConfigSpec => MemInterceptConfigSpec
  | TPortRange => PortRange
  | TSelectorSpec => MemSelectorSpec
  | TServiceRouterSpec => MemServiceRouterSpec
  | TZitiAccessPolicy => MemAccessPolicy
  | TZitiAccessPolicyList => MemAccessPolicyList
  | TZitiAccessPolicySpec => MemAccessPolicySpec
  | TZitiAccessPolicyStatus => MemAccessPolicyStatus
  | TZitiEntraRoleSync => MemRoleSync
  | TZitiEntraRoleSyncList => MemRoleSyncList
  | TZitiEntraRoleSyncSpec => ZitiEntraRoleSyncSpec
  | TZitiEntraRoleSyncStatus => MemRoleSyncStatus
  | TZitiIdentity => MemIdentity
  | TZitiIdentityList => MemIdentityList
  | TZitiIdentitySpec => MemIdentitySpec
  | TZitiIdentityStatus => MemIdentityStatus
  | TZitiService => MemService
  | TZitiServiceConfigIDs => ServiceConfigIDs
  | TZitiServiceConfigsSpec => MemServiceConfigsSpec
  | TZitiServiceList => MemServiceList
  | TZitiServiceSpec => MemServiceSpec
  | TZitiServiceStatus => MemServiceStatus
  end.

(** ** Zero values, which [new] and [make] put into fresh variables *)

Class Zero (A : Type) := zero : A.
#[export] Instance zero_string : Zero string := "".
#[export] Instance zero_Z : Zero Z := 0%Z.
#[export] Instance zero_bool : Zero bool := false.
#[export] Instance zero_nil {A} : Zero (option A) := None.
#[export] Instance zero_slice T : Zero (slice T) := None.
#[export] Instance zero_pointer T : Zero (pointer T) := None.

(** The zero of a struct is made of the zeros of its fields. *)
Ltac zero_struct := intros; constructor; exact zero.
#[export] Hint Extern 5 (Zero ?A) => (unfold Zero; zero_struct) : typeclass_instances.

Definition zeroOf (T : gotype) : gorep T.
Proof. destruct T; cbn; exact zero. Defined.
