(* ===== verification/Memory.v ===== *)
(** * A store with sharing

    The memory behind slices and pointers, a state monad over it that fails on
    a dangling reference, the value that a reference denotes ([view], what
    [reflect.DeepEqual] compares) and the addresses it depends on ([cells]).
    [copied] says what a deep copy is: equal in value, made of addresses of its
    own only, each used once, with the memory before it untouched. *)

From S2P Require Import Prelude ApiTypes MemoryTypes.

(** ** The store *)

(** An address holds an array; a variable is an array of one element. *)
Inductive cell := Cell (T : gotype) (elements : list (gorep T)).
Abbreviation memory := (gmap loc cell).

(** The elements of a cell of the expected type. *)
Definition cellOf (T : gotype) (c : cell) : option (list (gorep T)) :=
  match c with
  | Cell T' vs =>
      match decide (T' = T) with
      | left e => Some (eq_rect T' (λ T, list (gorep T)) vs T e)
      | right _ => None
      end
  end.

Lemma cellOf_same T (vs : list (gorep T)) : cellOf T (Cell T vs) = Some vs.
Proof. cbn. destruct (decide (T = T)) as [e|]; [|done]. by rewrite (proof_irrel e eq_refl). Qed.

Lemma cellOf_Some T c vs : cellOf T c = Some vs → c = Cell T vs.
Proof. destruct c as [T' ws]; cbn. destruct (decide (T' = T)) as [->|]; [by intros [= ->]|done]. Qed.

(** ** The monad *)

Definition M (A : Type) : Type := memory → option (A * memory).
#[export] Instance M_ret : MRet M := λ A a h, Some (a, h).
#[export] Instance M_bind : MBind M := λ A B f m h,
  match m h with Some (a, h') => f a h' | None => None end.

Lemma bind_ok {A B} (m : M A) (f : A → M B) h a h' :
  m h = Some (a, h') → (m ≫= f) h = f a h'.
Proof. unfold mbind, M_bind. by intros ->. Qed.

Definition load (T : gotype) (l : loc) : M (list (gorep T)) := λ h,
  match h !! l ≫= cellOf T with Some vs => Some (vs, h) | None => None end.

Definition alloc (T : gotype) (vs : list (gorep T)) : M loc := λ h,
  let l := fresh (dom h) in Some (l, <[l := Cell T vs]> h).

(** [a[i] = v] for an array at [l]. *)
Definition storeAt (T : gotype) (l : loc) (i : nat) (v : gorep T) : M unit := λ h,
  match h !! l ≫= cellOf T with
  | Some vs => if bool_decide (i < length vs) then Some (tt, <[l := Cell T (<[i := v]> vs)]> h) else None
  | None => None
  end.

(** [s[i]] *)
Definition loadAt (T : gotype) (s : header) (i : nat) : M (gorep T) := λ h,
  match h !! base s ≫= cellOf T with
  | Some vs =>
      if bool_decide (i < len s) then
        match vs !! (off s + i) with Some v => Some (v, h) | None => None end
      else None
  | None => None
  end.

Lemma load_ok T h l vs : h !! l = Some (Cell T vs) → load T l h = Some (vs, h).
Proof. unfold load. intros ->. cbn [mbind option_bind]. by rewrite cellOf_same. Qed.

(** ** Values *)

(** What a value is, references followed. *)
#[warnings="-register-all"]
Inductive tree :=
  | Nil
  | Bool (b : bool)
  | Int (n : Z)
  | Str (s : string)
  | Struct (fields : list tree)
  | Elements (l : list tree)
  | Pointee (t : tree).

(** A type of values in memory. *)
Class GoValue (A : Type) := {
  view : memory → A → option tree;
  cells : memory → A → list loc;
  view_agree h h' a t :
    view h a = Some t → (∀ l, l ∈ cells h a → h' !! l = h !! l) →
    view h' a = Some t ∧ cells h' a = cells h a;
  cells_live h a t l : view h a = Some t → l ∈ cells h a → is_Some (h !! l);
}.

(** A type without references. *)
Definition plain {A} (f : A → tree) : GoValue A.
Proof.
  refine {| view _ a := Some (f a); cells _ _ := [] |}; [done|]. intros ???? _ H. by apply not_elem_of_nil in H.
Defined.

(** *** Structs *)

(** A field of a struct, with its type. *)
Inductive field :=
  | Field {A} `{V : GoValue A} (a : A).

Fixpoint viewFields (h : memory) (fs : list field) : option (list tree) :=
  match fs with
  | [] => Some []
  | @Field _ _ a :: fs => t ← view h a; ts ← viewFields h fs; Some (t :: ts)
  end.

Fixpoint cellsFields (h : memory) (fs : list field) : list loc :=
  match fs with [] => [] | @Field _ _ a :: fs => cells h a ++ cellsFields h fs end.

Lemma viewFields_agree h h' fs ts :
  viewFields h fs = Some ts → (∀ l, l ∈ cellsFields h fs → h' !! l = h !! l) →
  viewFields h' fs = Some ts ∧ cellsFields h' fs = cellsFields h fs.
Proof.
  revert ts. induction fs as [|[A V a] fs IH]; intros ts; cbn; [done|].
  intros (t & Ht & (ts' & Hts & [= <-])%bind_Some)%bind_Some Hh.
  destruct (view_agree h h' a t Ht) as [-> ->]; [set_solver|].
  destruct (IH ts' Hts) as [-> ->]; [set_solver|done].
Qed.

Lemma viewFields_app h fs gs ts us :
  viewFields h fs = Some ts → viewFields h gs = Some us → viewFields h (fs ++ gs) = Some (ts ++ us).
Proof.
  intros Hf Hg. revert ts Hf. induction fs as [|[A V a] fs IH]; intros ts; cbn; [by intros [= <-]|].
  intros (t & -> & (ts' & Hts & [= <-])%bind_Some)%bind_Some. by rewrite (IH _ Hts).
Qed.

Lemma cellsFields_app h fs gs : cellsFields h (fs ++ gs) = cellsFields h fs ++ cellsFields h gs.
Proof. induction fs as [|[A V a] fs IH]; cbn; [done|]. by rewrite IH, app_assoc. Qed.

Lemma cellsFields_live h fs ts l : viewFields h fs = Some ts → l ∈ cellsFields h fs → is_Some (h !! l).
Proof.
  revert ts. induction fs as [|[A V a] fs IH]; intros ts; cbn; [set_solver|].
  intros (t & Ht & (ts' & Hts & _)%bind_Some)%bind_Some [Hl|Hl]%elem_of_app; [by eapply cells_live|by eapply IH].
Qed.

(** The value of a struct is made of those of its fields. *)
Definition struct {A} (fields : A → list field) : GoValue A.
Proof.
  refine {| view h a := Struct <$> viewFields h (fields a); cells h a := cellsFields h (fields a) |}.
  - intros h h' a t (ts & Hts & ->)%fmap_Some Hh.
    by destruct (viewFields_agree _ _ _ _ Hts Hh) as [-> ->].
  - intros h a t l (ts & Hts & _)%fmap_Some. by eapply cellsFields_live.
Defined.

(** *** Slices and pointers *)

(** The elements of a slice, none of which may be missing. *)
Definition elements (T : gotype) (h : memory) (s : header) : option (list (gorep T)) :=
  match h !! base s ≫= cellOf T with
  | Some vs => if bool_decide (off s + len s ≤ length vs) then Some (take (len s) (drop (off s) vs)) else None
  | None => None
  end.

Definition elementFields {T} `{GoValue (gorep T)} (vs : list (gorep T)) : list field := Field <$> vs.

Lemma elementFields_app {T} `{GoValue (gorep T)} (vs ws : list (gorep T)) :
  elementFields (vs ++ ws) = elementFields vs ++ elementFields ws.
Proof. apply fmap_app. Qed.

Lemma elements_agree T h h' s : h' !! base s = h !! base s → elements T h' s = elements T h s.
Proof. unfold elements. by intros ->. Qed.

Lemma elements_live T h s vs : elements T h s = Some vs → is_Some (h !! base s).
Proof. unfold elements. by destruct (h !! base s). Qed.

Section References.
Context (T : gotype) `{V : GoValue (gorep T)}.

#[export] Instance slice_value : GoValue (slice T).
Proof.
  refine {|
    view h s := match s with
                | None => Some Nil
                | Some s => vs ← elements T h s; Elements <$> viewFields h (elementFields vs)
                end;
    cells h s := match s with
                 | None => []
                 | Some s => base s :: match elements T h s with
                                       | Some vs => cellsFields h (elementFields vs) | None => [] end
                 end |}.
  - intros h h' [s|] t; [|done]. intros (vs & Hvs & (ts & Hts & ->)%fmap_Some)%bind_Some. rewrite Hvs. intros Hh.
    rewrite (elements_agree T h h') by (apply Hh; left). rewrite Hvs. cbn.
    destruct (viewFields_agree _ h' _ _ Hts) as [-> ->]; [|done]. intros l Hl. apply Hh. by right.
  - intros h [s|] t l; [|set_solver]. intros (vs & Hvs & (ts & Hts & ->)%fmap_Some)%bind_Some. rewrite Hvs.
    intros [->|Hl]%elem_of_cons; [by eapply elements_live|by eapply cellsFields_live].
Defined.

#[export] Instance pointer_value : GoValue (pointer T).
Proof.
  refine {|
    view h p := match p with
                | None => Some Nil
                | Some l => vs ← elements T h {| base := l; off := 0; len := 1 |};
                            match vs with [v] => Pointee <$> view h v | _ => None end
                end;
    cells h p := match p with
                 | None => []
                 | Some l => l :: match elements T h {| base := l; off := 0; len := 1 |} with
                                  | Some [v] => cells h v | _ => [] end
                 end |}.
  - intros h h' [l|] t; [|done]. intros (vs & Hvs & Hv)%bind_Some. rewrite Hvs. intros Hh.
    rewrite (elements_agree T h h') by (apply Hh; left). rewrite Hvs. cbn.
    destruct vs as [|v [|]]; [done| |done]. apply fmap_Some in Hv as (u & Hu & ->).
    destruct (view_agree h h' v u Hu) as [-> ->]; [|done]. intros l' Hl. apply Hh. by right.
  - intros h [p|] t l; [|set_solver]. intros (vs & Hvs & Hv)%bind_Some. rewrite Hvs.
    intros [->|Hl]%elem_of_cons; [exact (elements_live _ _ _ _ Hvs)|].
    destruct vs as [|v [|]]; [done| |done]. apply fmap_Some in Hv as (u & Hu & ->). exact (cells_live _ _ _ _ Hu Hl).
Defined.
End References.

(** ** Deep copies *)

Lemma view_mono `{GoValue A} h h' (a : A) t :
  h ⊆ h' → view h a = Some t → view h' a = Some t ∧ cells h' a = cells h a.
Proof.
  intros Hh Ht. apply view_agree; [done|]. intros l Hl. destruct (cells_live _ _ _ _ Ht Hl) as [c Hc].
  rewrite Hc. by eapply lookup_weaken.
Qed.

Lemma viewFields_mono h h' fs ts :
  h ⊆ h' → viewFields h fs = Some ts → viewFields h' fs = Some ts ∧ cellsFields h' fs = cellsFields h fs.
Proof.
  intros Hh Ht. apply viewFields_agree; [done|]. intros l Hl. destruct (cellsFields_live _ _ _ _ Ht Hl) as [c Hc].
  rewrite Hc. by eapply lookup_weaken.
Qed.

(** From [h] to [h'], fields with the values [ts] were made of fresh addresses. *)
Record copiedFields (h h' : memory) (fs : list field) (ts : list tree) : Prop := {
  copied_grows : h ⊆ h';
  copied_view : viewFields h' fs = Some ts;
  copied_tree : NoDup (cellsFields h' fs);
  copied_fresh l : l ∈ cellsFields h' fs → h !! l = None;
}.
Definition copied `{GoValue A} (h h' : memory) (a : A) (t : tree) : Prop := copiedFields h h' [Field a] [t].

(** [into] makes a deep copy of every value it can follow. *)
Definition copies `{GoValue A} (into : A → M A) : Prop :=
  ∀ h a t, view h a = Some t → ∃ a' h', into a h = Some (a', h') ∧ copied h h' a' t.

Lemma copied_intro `{GoValue A} h h' (a : A) t :
  h ⊆ h' → view h' a = Some t → NoDup (cells h' a) → (∀ l, l ∈ cells h' a → h !! l = None) → copied h h' a t.
Proof. intros ? Ht ??. split; cbn; rewrite ?Ht, ?app_nil_r; done. Qed.

Lemma copied_inv `{GoValue A} h h' (a : A) t :
  copied h h' a t →
  h ⊆ h' ∧ view h' a = Some t ∧ NoDup (cells h' a) ∧ ∀ l, l ∈ cells h' a → h !! l = None.
Proof.
  intros [Hg Hv Hn Hf]. cbn in *. rewrite app_nil_r in *.
  destruct (view h' a) eqn:E; [|done]. by injection Hv as ->.
Qed.

Lemma copiedFields_nil h : copiedFields h h [] [].
Proof. split; [done..|constructor|set_solver]. Qed.

(** A later copy does not disturb an earlier one. *)
Lemma copiedFields_app h h1 h2 fs gs ts us :
  copiedFields h h1 fs ts → copiedFields h1 h2 gs us → copiedFields h h2 (fs ++ gs) (ts ++ us).
Proof.
  intros [Hg1 Hv1 Hn1 Hf1] [Hg2 Hv2 Hn2 Hf2].
  destruct (viewFields_mono _ _ _ _ Hg2 Hv1) as [Hv Hc].
  split; [by trans h1|by apply viewFields_app|..]; rewrite cellsFields_app, Hc.
  - apply NoDup_app. split_and!; [done| |done]. intros l Hl Hl2.
    apply Hf2 in Hl2. destruct (cellsFields_live _ _ _ _ Hv1 Hl). congruence.
  - intros l [Hl|Hl]%elem_of_app; [by apply Hf1|]. apply Hf2 in Hl.
    by eapply lookup_weaken_None.
Qed.

Lemma copiedFields_cons `{GoValue A} h h1 h2 (a : A) fs t ts :
  copied h h1 a t → copiedFields h1 h2 fs ts → copiedFields h h2 (Field a :: fs) (t :: ts).
Proof. apply (copiedFields_app _ _ _ [Field a] _ [t]). Qed.

(** A struct all of whose fields were copied. *)
Lemma copied_struct {A} (fields : A → list field) h h' a ts :
  copiedFields h h' (fields a) ts → @copied A (struct fields) h h' a (Struct ts).
Proof. intros [Hg Hv Hn Hf]. apply copied_intro; cbn; [done|by rewrite Hv|done..]. Qed.

(** *** Values without references *)

Class Plain (A : Type) `{V : GoValue A} := plain_cells h a : cells h a = [].
Instance plain_plain {A} (f : A → tree) : @Plain A (plain f).
Proof. done. Defined.

Lemma plain_elements {T} `{Plain (gorep T)} h (vs : list (gorep T)) : cellsFields h (elementFields vs) = [].
Proof. induction vs as [|v vs IH]; cbn; [done|]. by rewrite plain_cells. Qed.

(** Assigning such a value copies it. *)
Lemma copied_plain `{Plain A} h (a : A) t : view h a = Some t → copied h h a t.
Proof. intros Ht. apply copied_intro; rewrite ?plain_cells; [done..|constructor|set_solver]. Qed.

(** *** Slices *)

(** [make([]T, n)] *)
Definition makeSlice (T : gotype) (n : nat) : M header :=
  l ← alloc T (replicate n (zeroOf T)); mret {| base := l; off := 0; len := n |}.

(** The builtin [copy(dst, src)] *)
Definition copyElements (T : gotype) (dst src : header) : M unit := λ h,
  match elements T h src, h !! base dst ≫= cellOf T with
  | Some vs, Some ws =>
      let n := len dst `min` len src in
      Some (tt, <[base dst := Cell T (take (off dst) ws ++ take n vs ++ drop (off dst + n) ws)]> h)
  | _, _ => None
  end.

(** [if in != nil { *out = make([]T, len( *in )); copy( *out, *in ) }], after
    [*out = *in]. *)
Definition copySlice (T : gotype) (in_ : slice T) : M (slice T) :=
  match in_ with
  | None => mret None
  | Some s => out ← makeSlice T (len s); copyElements T out s;; mret (Some out)
  end.

(** [for i := range *in { ( *in )[i].DeepCopyInto(&( *out )[i]) }], with [n]
    rounds left. *)
Fixpoint copyEach (T : gotype) (into : gorep T → M (gorep T)) (out in_ : header) (i n : nat) : M unit :=
  match n with
  | O => mret tt
  | S n => v ← loadAt T in_ i; v' ← into v; storeAt T (base out) (off out + i) v';; copyEach T into out in_ (S i) n
  end.

(** The same with [DeepCopyInto] for each element. *)
Definition copySliceEach (T : gotype) (into : gorep T → M (gorep T)) (in_ : slice T) : M (slice T) :=
  match in_ with
  | None => mret None
  | Some s => out ← makeSlice T (len s); copyEach T into out s 0 (len s);; mret (Some out)
  end.

(** [if in == nil { return nil }; out := new(T); in.DeepCopyInto(out); return out] *)
Definition copyPointer (T : gotype) (into : gorep T → M (gorep T)) (in_ : pointer T) : M (pointer T) :=
  match in_ with
  | None => mret None
  | Some l =>
      out ← alloc T [zeroOf T];
      v ← loadAt T {| base := l; off := 0; len := 1 |} 0; v' ← into v; storeAt T out 0 v';; mret (Some out)
  end.

Section Slices.
Context (T : gotype) `{V : GoValue (gorep T)}.

Lemma alloc_ok (vs : list (gorep T)) h :
  ∃ l, alloc T vs h = Some (l, <[l := Cell T vs]> h) ∧ h !! l = None.
Proof. eexists. split; [done|]. apply not_elem_of_dom, is_fresh. Qed.

Lemma elements_len h s vs : elements T h s = Some vs → length vs = len s.
Proof.
  unfold elements. destruct (h !! base s ≫= cellOf T) as [ws|]; [|done]. case_test; [|done]. reflect_bools.
  intros [= <-]. rewrite length_take, length_drop. lia.
Qed.

Lemma elements_at h l vs n : length vs = n → h !! l = Some (Cell T vs) →
  elements T h {| base := l; off := 0; len := n |} = Some vs.
Proof.
  intros <- Hl. unfold elements. cbn [base off len]. rewrite Hl. cbn [mbind option_bind]. rewrite cellOf_same.
  rewrite bool_decide_true by lia. by rewrite drop_0, firstn_all.
Qed.

Lemma loadAt_ok h s vs i v : elements T h s = Some vs → vs !! i = Some v → loadAt T s i h = Some (v, h).
Proof.
  intros He Hv. pose proof (elements_len _ _ _ He) as Hlen. pose proof (lookup_lt_Some _ _ _ Hv).
  unfold elements in He. unfold loadAt. destruct (h !! base s ≫= cellOf T) as [ws|]; [|done].
  rewrite bool_decide_true by lia. revert He. case_test; [|done]. intros [= <-].
  rewrite lookup_take_lt, lookup_drop in Hv by lia. by rewrite Hv.
Qed.

Lemma elements_mono h h' s vs : h ⊆ h' → elements T h s = Some vs → elements T h' s = Some vs.
Proof.
  intros Hh He. rewrite <-He. apply elements_agree. destruct (elements_live _ _ _ _ He) as [c Hc].
  rewrite Hc. by eapply lookup_weaken.
Qed.

(** A new array whose elements are deep copies is the copy of the slice. *)
Lemma copied_slice h h' out vs ts :
  h ⊆ h' → h !! out = None → h' !! out = Some (Cell T vs) →
  viewFields h' (elementFields vs) = Some ts → NoDup (cellsFields h' (elementFields vs)) →
  (∀ l, l ∈ cellsFields h' (elementFields vs) → h !! l = None ∧ l ≠ out) →
  copied (A := slice T) h h' (Some {| base := out; off := 0; len := length vs |}) (Elements ts).
Proof.
  intros Hh Hout Hc Hv Hn Hf. apply copied_intro; cbn [view cells slice_value]; [done|..];
    rewrite (elements_at h' out vs) by done; cbn [mbind option_bind base].
  - by rewrite Hv.
  - constructor; [|done]. intros Hl. by destruct (Hf _ Hl).
  - intros l [->|Hl]%elem_of_cons; [done|by apply Hf].
Qed.

Lemma copySlice_copies `{!Plain (gorep T)} : copies (A := slice T) (copySlice T).
Proof.
  intros h [s|] t; [|intros [= <-]; exists None, h; by split; [|apply copied_intro; [..|constructor|set_solver]]].
  intros (vs & Hvs & (ts & Hts & ->)%fmap_Some)%bind_Some.
  pose proof (elements_len _ _ _ Hvs) as Hlen. unfold copySlice, makeSlice.
  destruct (alloc_ok (replicate (len s) (zeroOf T)) h) as (l & Hl & Hnew).
  set (h1 := <[l := Cell T (replicate (len s) (zeroOf T))]> h) in *.
  assert (h ⊆ h1) as Hh1 by (by apply insert_subseteq).
  assert (h1 !! l = Some (Cell T (replicate (len s) (zeroOf T)))) as Hnew1 by apply lookup_insert_eq.
  exists (Some {| base := l; off := 0; len := length vs |}), (<[l := Cell T vs]> h1). split.
  - unfold mbind, M_bind. rewrite Hl. cbn. unfold copyElements. rewrite (elements_mono h h1 _ vs) by done.
    cbn [base off len]. rewrite Hnew1. cbn [mbind option_bind]. rewrite cellOf_same.
    rewrite Nat.min_id, take_0, Nat.add_0_l, drop_replicate, Nat.sub_diag. cbn [app].
    by rewrite app_nil_r, <-Hlen, firstn_all.
  - assert (h ⊆ <[l := Cell T vs]> h1) by (by apply insert_subseteq_r).
    apply copied_slice; [done..|by rewrite lookup_insert_eq|by eapply viewFields_mono|rewrite plain_elements; constructor|].
    intros l'. rewrite plain_elements. set_solver.
Qed.
End Slices.

(** *** Loops and pointers *)

Section Each.
Context (T : gotype) `{V : GoValue (gorep T)} (into : gorep T → M (gorep T)) (Hinto : copies into).

(** The state of the loop: the elements [done] of the array at [out] are deep
    copies with the values [ts], the remaining ones are zero. *)
Record filled (h0 h : memory) (out : loc) (done : list (gorep T)) (n : nat) (ts : list tree) : Prop := {
  filled_grows : h0 ⊆ h;
  filled_array : h !! out = Some (Cell T (done ++ replicate n (zeroOf T)));
  filled_view : viewFields h (elementFields done) = Some ts;
  filled_tree : NoDup (cellsFields h (elementFields done));
  filled_fresh l : l ∈ cellsFields h (elementFields done) → h0 !! l = None ∧ l ≠ out;
}.

Lemma filled_start h0 out n : h0 !! out = None →
  filled h0 (<[out := Cell T (replicate n (zeroOf T))]> h0) out [] n [].
Proof. intros Ho. split; cbn; [by apply insert_subseteq|by rewrite lookup_insert_eq|done|constructor|set_solver]. Qed.

Lemma storeAt_ok h out done n v :
  h !! out = Some (Cell T (done ++ replicate (S n) (zeroOf T))) →
  storeAt T out (length done) v h = Some (tt, <[out := Cell T ((done ++ [v]) ++ replicate n (zeroOf T))]> h).
Proof.
  intros Ho. unfold storeAt. rewrite Ho. cbn [mbind option_bind]. rewrite cellOf_same.
  rewrite bool_decide_true by (rewrite length_app, length_replicate; lia).
  rewrite <-(Nat.add_0_r (length done)) at 1. rewrite insert_app_r. cbn [replicate insert list_insert].
  by rewrite <-app_assoc.
Qed.

(** One round. *)
Lemma filled_step h0 h out done n ts v t :
  h0 !! out = None → filled h0 h out done (S n) ts → view h0 v = Some t →
  ∃ v' h' h2, into v h = Some (v', h') ∧ storeAt T out (length done) v' h' = Some (tt, h2) ∧
    filled h0 h2 out (done ++ [v']) n (ts ++ [t]).
Proof.
  intros Hout [Hg Ha Hv Hn Hf] Ht. destruct (view_mono _ _ _ _ Hg Ht) as [Ht1 _].
  destruct (Hinto h v t Ht1) as (v' & h' & Hi & Hcopy). exists v', h'.
  pose proof (copied_grows _ _ _ _ Hcopy) as Hh. pose proof (lookup_weaken _ _ _ _ Ha Hh) as Ha'.
  eexists. split_and!; [done|by apply storeAt_ok|].
  assert (copiedFields h0 h' (elementFields (done ++ [v'])) (ts ++ [t]) ∧
          ∀ l, l ∈ cellsFields h' (elementFields (done ++ [v'])) → l ≠ out) as [[Hg' Hv' Hn' Hf'] Hne].
  { rewrite elementFields_app. split.
    - apply copiedFields_app with h; [|done]. split; [done..|]. intros l Hl. by apply Hf.
    - intros l. destruct (viewFields_mono _ _ _ _ Hh Hv) as [_ E]. rewrite cellsFields_app, E.
      intros [Hl|Hl]%elem_of_app; [by apply Hf|]. apply (copied_fresh _ _ _ _ Hcopy) in Hl. congruence. }
  destruct (viewFields_agree h' (<[out := Cell T ((done ++ [v']) ++ replicate n (zeroOf T))]> h') _ _ Hv') as [Hv2 Hc2].
  { intros l Hl%Hne. by apply lookup_insert_ne. }
  split; [by apply insert_subseteq_r|by rewrite lookup_insert_eq|done|by rewrite Hc2|rewrite Hc2; auto].
Qed.

Lemma copyEach_ok h0 src vs ts out : elements T h0 src = Some vs → h0 !! out = None →
  ∀ n h done us, viewFields h0 (elementFields (drop (length done) vs)) = Some us →
    length done + n = length vs → filled h0 h out done n ts →
    ∃ h' done', copyEach T into {| base := out; off := 0; len := length vs |} src (length done) n h = Some (tt, h') ∧
      filled h0 h' out done' 0 (ts ++ us) ∧ length done' = length vs.
Proof.
  intros Hsrc Hout n. revert ts. induction n as [|n IH]; intros ts h done us Hus Hlen Hfill.
  - rewrite drop_ge in Hus by lia. injection Hus as <-. rewrite app_nil_r. exists h, done. split; [done|]. split; [done|lia].
  - destruct (lookup_lt_is_Some_2 vs (length done)) as [v Hv]; [lia|].
    rewrite (drop_S _ v) in Hus by done. apply bind_Some in Hus as (t & Ht & (us' & Hus & [= <-])%bind_Some).
    destruct (filled_step _ _ _ _ _ _ v t Hout Hfill Ht) as (v' & h' & h2 & Hi & Hs & Hfill2).
    destruct (IH (ts ++ [t]) h2 (done ++ [v']) us') as (h3 & done' & Hc & Hf & Hl); [..|done|].
    + by rewrite length_app, Nat.add_1_r.
    + rewrite length_app. cbn. lia.
    + exists h3, done'. split; [|by rewrite <-app_assoc in Hf]. cbn [copyEach].
      rewrite (bind_ok _ _ _ _ _ (loadAt_ok _ _ _ _ _ _ (elements_mono _ _ _ _ _ (filled_grows _ _ _ _ _ _ Hfill) Hsrc) Hv)).
      rewrite (bind_ok _ _ _ _ _ Hi). cbn [base off]. rewrite Nat.add_0_l, (bind_ok _ _ _ _ _ Hs).
      by rewrite length_app, Nat.add_1_r in Hc.
Qed.

Lemma copySliceEach_copies : copies (A := slice T) (copySliceEach T into).
Proof.
  intros h [s|] t; [|intros [= <-]; exists None, h; by split; [|apply copied_intro; [..|constructor|set_solver]]].
  intros (vs & Hvs & (ts & Hts & ->)%fmap_Some)%bind_Some.
  pose proof (elements_len _ _ _ _ Hvs) as Hlen. unfold copySliceEach, makeSlice.
  destruct (alloc_ok T (replicate (len s) (zeroOf T)) h) as (l & Hl & Hnew).
  destruct (copyEach_ok h s vs [] l Hvs Hnew (len s) _ [] ts Hts (eq_sym Hlen) (filled_start h l (len s) Hnew))
    as (h' & done' & Hc & [Hg Ha Hv Hn Hf] & Hd).
  rewrite Hlen in Hc, Hd. exists (Some {| base := l; off := 0; len := length done' |}), h'. split.
  - unfold mbind, M_bind. rewrite Hl. cbn in *. by rewrite Hc, Hd.
  - cbn in Ha. rewrite app_nil_r in Ha. by apply copied_slice.
Qed.

Lemma copyPointer_copies : copies (A := pointer T) (copyPointer T into).
Proof.
  intros h [p|] t; [|intros [= <-]; exists None, h; by split; [|apply copied_intro; [..|constructor|set_solver]]].
  intros (vs & Hvs & Hv)%bind_Some. destruct vs as [|v [|]]; [done| |done]. apply fmap_Some in Hv as (u & Hu & ->).
  destruct (alloc_ok T [zeroOf T] h) as (l & Hl & Hnew).
  destruct (filled_step h _ l [] 0 [] v u Hnew (filled_start h l 1 Hnew) Hu)
    as (v' & h' & h2 & Hi & Hs & [Hg Ha Hv Hn Hf]).
  exists (Some l), h2. split.
  - unfold copyPointer. rewrite (bind_ok _ _ _ _ _ Hl).
    rewrite (bind_ok _ _ _ _ _ (loadAt_ok _ _ _ _ 0 v (elements_mono _ _ _ _ _ (insert_subseteq _ _ _ Hnew) Hvs) eq_refl)).
    by rewrite (bind_ok _ _ _ _ _ Hi), (bind_ok _ _ _ _ _ Hs).
  - cbn in Ha, Hv, Hn, Hf. rewrite app_nil_r in Hn, Hf. destruct (view h2 v') as [u'|] eqn:E; [|done].
    injection Hv as ->.
    apply copied_intro; cbn [view cells pointer_value]; [done|..]; rewrite (elements_at _ h2 l [v']) by done; cbn.
    + by rewrite E.
    + constructor; [|done]. intros Hc. by destruct (Hf _ Hc).
    + intros l' [->|Hc]%elem_of_cons; [done|by apply Hf].
Qed.
End Each.

(** *** What later writes can do *)

(** A step of the rest of the program: it overwrites a cell that it may write,
    or makes a new one. *)
Inductive write (may : loc → Prop) (h : memory) : memory → Prop :=
  | write_cell l c : may l → write may h (<[l := c]> h)
  | write_new l c : h !! l = None → write may h (<[l := c]> h).

Lemma writes_preserve may h h' l : rtc (write may) h h' → ¬ may l → is_Some (h !! l) → h' !! l = h !! l.
Proof.
  induction 1 as [h|h h1 h' Hstep _ IH]; intros Hl Hs; [done|].
  assert (h1 !! l = h !! l) as E.
  { destruct Hstep as [l' c Hm|l' c Hn]; apply lookup_insert_ne; intros ->; [done|]. rewrite Hn in Hs. by destruct Hs. }
  rewrite <-E. apply IH; [done|by rewrite E].
Qed.

(** Writes elsewhere do not change a value. *)
Lemma view_writes `{GoValue A} may h h' (a : A) t :
  view h a = Some t → rtc (write may) h h' → (∀ l, l ∈ cells h a → ¬ may l) → view h' a = Some t.
Proof.
  intros Ht Hw Hm. apply (view_agree h h' a t Ht). intros l Hl.
  apply (writes_preserve may); [done|by apply Hm|by eapply cells_live].
Qed.

(** Neither writes around a copy nor writes through it show on the other side. *)
Lemma copied_isolated `{GoValue A} h h' (a a' : A) t :
  view h a = Some t → copied h h' a' t →
  (∀ h2, rtc (write (λ l, l ∉ cells h' a')) h' h2 → view h2 a' = Some t) ∧
  (∀ h2, rtc (write (λ l, l ∈ cells h' a')) h' h2 → view h2 a = Some t).
Proof.
  intros Ht (Hg & Ht' & _ & Hf)%copied_inv. destruct (view_mono _ _ _ _ Hg Ht) as [Ht1 E]. split; intros h2 Hw.
  - eapply view_writes; [exact Ht'|exact Hw|]. auto.
  - eapply view_writes; [exact Ht1|exact Hw|]. rewrite E. cbn. intros l Hl Hl'%Hf.
    destruct (cells_live _ _ _ _ Ht Hl). congruence.
Qed.

(** *** Structs *)

(** Runs the copy of one field. *)
Lemma run_copy {A B} `{GoValue A} (into : A → M A) (k : A → M B) h a t (Φ : B → memory → Prop) :
  copies into → view h a = Some t →
  (∀ a' h', copied h h' a' t → ∃ b h2, k a' h' = Some (b, h2) ∧ Φ b h2) →
  ∃ b h2, (into a ≫= k) h = Some (b, h2) ∧ Φ b h2.
Proof.
  intros Hi Ht Hk. destruct (Hi h a t Ht) as (a' & h' & E & Hc).
  destruct (Hk a' h' Hc) as (b & h2 & E2 & HΦ). exists b, h2. split; [by rewrite (bind_ok _ _ _ _ _ E)|done].
Qed.

Create HintDb deepcopy.
#[export] Hint Extern 1 (copies (copySlice _)) => (apply copySlice_copies; apply plain_plain) : deepcopy.
#[export] Hint Resolve copySliceEach_copies copyPointer_copies : deepcopy.

Ltac split_fields :=
  repeat match goal with
  | H : (_ ≫= _) = Some _ |- _ => apply bind_Some in H as (? & ? & H)
  | H : Some _ = Some _ |- _ => injection H as <-
  end.

(** Proves that a [DeepCopyInto] copies: one run per field that is copied, and
    the fields in the order in which they are. *)
Ltac copy_struct :=
  let h := fresh "h" in let a := fresh "a" in let t := fresh "t" in
  let ts := fresh "ts" in let Hts := fresh "Hts" in
  intros h a t (ts & Hts & ->)%fmap_Some; cbn [viewFields] in Hts; split_fields;
  lazymatch goal with |- ∃ _ _, ?into _ _ = _ ∧ _ => unfold into end;
  repeat match goal with
  | |- ∃ _ _, (_ ≫= _) ?h1 = _ ∧ _ =>
      eapply run_copy; [|eassumption|]; [solve [eauto with deepcopy]|];
      let x := fresh "x" in let h2 := fresh "h" in let Hc := fresh "Hc" in intros x h2 Hc;
      repeat match goal with
      | H : view h1 ?f = Some _ |- _ =>
          let H' := fresh H in
          pose proof (proj1 (view_mono h1 h2 f _ (copied_grows _ _ _ _ Hc) H)) as H';
          revert H; revert H'
      end; intros
  end;
  eexists _, _; split; [reflexivity|]; apply copied_struct;
  repeat first
    [ apply copiedFields_nil
    | eapply copiedFields_cons; [eassumption|]
    | eapply copiedFields_cons; [apply copied_plain; eassumption|] ].
