(* ===== verification/DeepCopy.v ===== *)
(** * The generated deep copies

    [DeepCopyInto], [DeepCopy] and [DeepCopyObject] of every type of
    [api/v1alpha1] (zz_generated.deepcopy.go), over the store of [Memory].  The
    reconcilers copy a status before they edit it in place, and compare the two
    to decide whether to write. *)

From S2P Require Import Prelude ApiTypes MemoryTypes Memory.

(** ** The values of the types *)

#[export] Instance string_value : GoValue string := plain Str.
#[export] Instance Z_value : GoValue Z := plain Int.
#[export] Instance bool_value : GoValue bool := plain Bool.
#[export] Instance OwnerReference_value : GoValue OwnerReference :=
  plain (λ o, Struct [Str (OwnerUID o); Bool (OwnerIsController o)]).
#[export] Instance Condition_value : GoValue Condition :=
  plain (λ c, Struct [Str (CondType c); Str (CondStatus c); Str (CondReason c); Str (CondMessage c);
                      Int (CondObservedGeneration c); Int (CondLastTransitionTime c)]).
#[export] Instance EnrollmentSpec_value : GoValue EnrollmentSpec :=
  plain (λ s, Struct [Bool (CreateJWTSecret s); Str (SpecJWTSecretName s)]).
#[export] Instance EntraUnmatchedMember_value : GoValue EntraUnmatchedMember :=
  plain (λ m, Struct [Str (MemberID m); Str (MemberDisplayName m); Str (MemberExternalID m); Str (MemberReason m)]).
#[export] Instance HostConfigSpec_value : GoValue HostConfigSpec :=
  plain (λ s, Struct [Str (Protocol s); Str (Address s); Int (Port s)]).
#[export] Instance PortRange_value : GoValue PortRange := plain (λ r, Struct [Int (Low r); Int (High r)]).
#[export] Instance ServiceConfigIDs_value : GoValue ServiceConfigIDs :=
  plain (λ i, Struct [Str (ConfigIDIntercept i); Str (ConfigIDHost i)]).
#[export] Instance RoleSyncSpec_value : GoValue ZitiEntraRoleSyncSpec :=
  plain (λ s, Struct [Str (TenantID s); Str (AppID s); Str (CredentialsSecretName s);
                      Str (SpecUserProperty s); Str (Interval s)]).
#[export] Instance TypeMeta_value : GoValue TypeMeta := plain (λ m, Struct [Str (Kind m); Str (APIVersion m)]).

#[export] Typeclasses Opaque slice pointer.
#[export] Hint Extern 1 (GoValue (gorep _)) => (cbn [gorep]; typeclasses eauto) : typeclass_instances.

#[export] Instance ObjectMeta_value : GoValue MemObjectMeta :=
  struct (λ m, [Field (mNamespace m); Field (mName m); Field (mUID m); Field (mResourceVersion m);
                Field (mGeneration m); Field (mCreationTimestamp m); Field (mDeletionTimestamp m);
                Field (mFinalizers m); Field (mOwnerReferences m)]).
#[export] Instance ListMeta_value : GoValue MemListMeta :=
  struct (λ m, [Field (mListResourceVersion m); Field (mContinue m); Field (mRemainingItemCount m)]).
#[export] Instance CommonStatus_value : GoValue MemCommonStatus :=
  struct (λ s, [Field (mID s); Field (mConditions s); Field (mObservedGeneration s); Field (mLastError s)]).
#[export] Instance InterceptConfigSpec_value : GoValue MemInterceptConfigSpec :=
  struct (λ s, [Field (mProtocols s); Field (mAddresses s); Field (mPortRanges s)]).
#[export] Instance SelectorSpec_value : GoValue MemSelectorSpec :=
  struct (λ s, [Field (mMatchNames s); Field (mMatchRoleAttributes s)]).
#[export] Instance ServiceRouterSpec_value : GoValue MemServiceRouterSpec :=
  struct (λ s, [Field (mRouterName s); Field (mAdditionalAllowedEdgeRouterNames s)]).
#[export] Instance ServiceConfigsSpec_value : GoValue MemServiceConfigsSpec :=
  struct (λ s, [Field (mIntercept s); Field (mHost s)]).
#[export] Instance AccessPolicySpec_value : GoValue MemAccessPolicySpec :=
  struct (λ s, [Field (mPolicyType s); Field (mIdentitySelector s); Field (mServiceSelector s)]).
#[export] Instance AccessPolicyStatus_value : GoValue MemAccessPolicyStatus :=
  struct (λ s, [Field (mPolicyCommon s); Field (mResolvedIdentityCount s); Field (mResolvedServiceCount s)]).
#[export] Instance AccessPolicy_value : GoValue MemAccessPolicy :=
  struct (λ p, [Field (mPolicyTypeMeta p); Field (mPolicyMeta p); Field (mPolicySpec p); Field (mPolicyStatus p)]).
#[export] Instance RoleSyncStatus_value : GoValue MemRoleSyncStatus :=
  struct (λ s, [Field (mSyncCommon s); Field (mLastSyncTime s); Field (mManagedAttributes s);
                Field (mMatchedIdentities s); Field (mIdentitiesUpdated s); Field (mMembersWithoutIdentity s);
                Field (mUnmatchedMembers s)]).
#[export] Instance RoleSync_value : GoValue MemRoleSync :=
  struct (λ s, [Field (mSyncTypeMeta s); Field (mSyncMeta s); Field (mSyncSpec s); Field (mSyncStatus s)]).
#[export] Instance IdentitySpec_value : GoValue MemIdentitySpec :=
  struct (λ s, [Field (mIdentityName s); Field (mIdentityType s); Field (mIdentityRoleAttributes s);
                Field (mEnrollment s)]).
#[export] Instance IdentityStatus_value : GoValue MemIdentityStatus :=
  struct (λ s, [Field (mIdentityCommon s); Field (mJWTSecretName s)]).
#[export] Instance Identity_value : GoValue MemIdentity :=
  struct (λ i, [Field (mIdentityTypeMeta i); Field (mIdentityMeta i); Field (mIdentitySpec i);
                Field (mIdentityStatus i)]).
#[export] Instance ServiceSpec_value : GoValue MemServiceSpec :=
  struct (λ s, [Field (mServiceName s); Field (mServiceRoleAttributes s); Field (mRouter s); Field (mConfigs s)]).
#[export] Instance ServiceStatus_value : GoValue MemServiceStatus :=
  struct (λ s, [Field (mServiceCommon s); Field (mConfigIDs s); Field (mBindPolicyID s);
                Field (mServiceEdgeRouterPolicyID s)]).
#[export] Instance Service_value : GoValue MemService :=
  struct (λ s, [Field (mServiceTypeMeta s); Field (mServiceMeta s); Field (mServiceSpec s); Field (mServiceStatus s)]).
#[export] Instance List_value T `{GoValue (gorep T)} : GoValue (MemList T) :=
  struct (λ l, [Field (mListTypeMeta l); Field (mListMeta l); Field (mItems l)]).

(** The value of every type. *)
Definition gorep_value (T : gotype) : GoValue (gorep T).
Proof. destruct T; cbn [gorep]; typeclasses eauto. Defined.

(** ** The deep copies of apimachinery

    [metav1] has generated deep copies of its own; that they are deep copies is
    what their documentation promises. *)
Class MetaV1 := {
  ObjectMeta_DeepCopyInto : MemObjectMeta → M MemObjectMeta;
  ListMeta_DeepCopyInto : MemListMeta → M MemListMeta;
  Condition_DeepCopyInto : Condition → M Condition;
  Time_DeepCopy : pointer TTime → M (pointer TTime);
  ObjectMeta_copies : copies ObjectMeta_DeepCopyInto;
  ListMeta_copies : copies ListMeta_DeepCopyInto;
  Condition_copies : copies (A := gorep TCondition) Condition_DeepCopyInto;
  Time_copies : copies Time_DeepCopy;
}.
#[export] Hint Resolve ObjectMeta_copies ListMeta_copies Condition_copies Time_copies : deepcopy.

(** [runtime.Object]: a type with a pointer to a value of it, or the nil interface. *)
Abbreviation Object := (option (gotype * loc)).

Section Methods.
Context `{MetaV1}.

Definition CommonStatus_DeepCopyInto (in_ : MemCommonStatus) : M MemCommonStatus :=
  conditions ← copySliceEach TCondition Condition_DeepCopyInto (mConditions in_);
  mret {| mID := mID in_;
          mConditions := conditions;
          mObservedGeneration := mObservedGeneration in_;
          mLastError := mLastError in_ |}.
Definition CommonStatus_DeepCopy (in_ : pointer TCommonStatus) : M (pointer TCommonStatus) :=
  copyPointer TCommonStatus CommonStatus_DeepCopyInto in_.

Definition EnrollmentSpec_DeepCopyInto (in_ : EnrollmentSpec) : M EnrollmentSpec :=
  mret in_.
Definition EnrollmentSpec_DeepCopy (in_ : pointer TEnrollmentSpec) : M (pointer TEnrollmentSpec) :=
  copyPointer TEnrollmentSpec EnrollmentSpec_DeepCopyInto in_.

Definition EntraUnmatchedMember_DeepCopyInto (in_ : EntraUnmatchedMember) : M EntraUnmatchedMember :=
  mret in_.
Definition EntraUnmatchedMember_DeepCopy (in_ : pointer TEntraUnmatchedMember) : M (pointer TEntraUnmatchedMember) :=
  copyPointer TEntraUnmatchedMember EntraUnmatchedMember_DeepCopyInto in_.

Definition HostConfigSpec_DeepCopyInto (in_ : HostConfigSpec) : M HostConfigSpec :=
  mret in_.
Definition HostConfigSpec_DeepCopy (in_ : pointer THostConfigSpec) : M (pointer THostConfigSpec) :=
  copyPointer THostConfigSpec HostConfigSpec_DeepCopyInto in_.

Definition InterceptConfigSpec_DeepCopyInto (in_ : MemInterceptConfigSpec) : M MemInterceptConfigSpec :=
  protocols ← copySlice TString (mProtocols in_);
  addresses ← copySlice TString (mAddresses in_);
  portRanges ← copySlice TPortRange (mPortRanges in_);
  mret {| mProtocols := protocols;
          mAddresses := addresses;
          mPortRanges := portRanges |}.
Definition InterceptConfigSpec_DeepCopy (in_ : pointer TInterceptConfigSpec) : M (pointer TInterceptConfigSpec) :=
  copyPointer TInterceptConfigSpec InterceptConfigSpec_DeepCopyInto in_.

Definition PortRange_DeepCopyInto (in_ : PortRange) : M PortRange :=
  mret in_.
Definition PortRange_DeepCopy (in_ : pointer TPortRange) : M (pointer TPortRange) :=
  copyPointer TPortRange PortRange_DeepCopyInto in_.

Definition SelectorSpec_DeepCopyInto (in_ : MemSelectorSpec) : M MemSelectorSpec :=
  matchNames ← copySlice TString (mMatchNames in_);
  matchRoleAttributes ← copySlice TString (mMatchRoleAttributes in_);
  mret {| mMatchNames := matchNames;
          mMatchRoleAttributes := matchRoleAttributes |}.
Definition SelectorSpec_DeepCopy (in_ : pointer TSelectorSpec) : M (pointer TSelectorSpec) :=
  copyPointer TSelectorSpec SelectorSpec_DeepCopyInto in_.

Definition ServiceRouterSpec_DeepCopyInto (in_ : MemServiceRouterSpec) : M MemServiceRouterSpec :=
  names ← copySlice TString (mAdditionalAllowedEdgeRouterNames in_);
  mret {| mRouterName := mRouterName in_;
          mAdditionalAllowedEdgeRouterNames := names |}.
Definition ServiceRouterSpec_DeepCopy (in_ : pointer TServiceRouterSpec) : M (pointer TServiceRouterSpec) :=
  copyPointer TServiceRouterSpec ServiceRouterSpec_DeepCopyInto in_.

Definition ZitiAccessPolicySpec_DeepCopyInto (in_ : MemAccessPolicySpec) : M MemAccessPolicySpec :=
  identitySelector ← SelectorSpec_DeepCopyInto (mIdentitySelector in_);
  serviceSelector ← SelectorSpec_DeepCopyInto (mServiceSelector in_);
  mret {| mPolicyType := mPolicyType in_;
          mIdentitySelector := identitySelector;
          mServiceSelector := serviceSelector |}.
Definition ZitiAccessPolicySpec_DeepCopy (in_ : pointer TZitiAccessPolicySpec) : M (pointer TZitiAccessPolicySpec) :=
  copyPointer TZitiAccessPolicySpec ZitiAccessPolicySpec_DeepCopyInto in_.

Definition ZitiAccessPolicyStatus_DeepCopyInto (in_ : MemAccessPolicyStatus) : M MemAccessPolicyStatus :=
  common ← CommonStatus_DeepCopyInto (mPolicyCommon in_);
  mret {| mPolicyCommon := common;
          mResolvedIdentityCount := mResolvedIdentityCount in_;
          mResolvedServiceCount := mResolvedServiceCount in_ |}.
Definition ZitiAccessPolicyStatus_DeepCopy (in_ : pointer TZitiAccessPolicyStatus) : M (pointer TZitiAccessPolicyStatus) :=
  copyPointer TZitiAccessPolicyStatus ZitiAccessPolicyStatus_DeepCopyInto in_.

Definition ZitiAccessPolicy_DeepCopyInto (in_ : MemAccessPolicy) : M MemAccessPolicy :=
  meta ← ObjectMeta_DeepCopyInto (mPolicyMeta in_);
  spec ← ZitiAccessPolicySpec_DeepCopyInto (mPolicySpec in_);
  status ← ZitiAccessPolicyStatus_DeepCopyInto (mPolicyStatus in_);
  mret {| mPolicyTypeMeta := mPolicyTypeMeta in_;
          mPolicyMeta := meta;
          mPolicySpec := spec;
          mPolicyStatus := status |}.
Definition ZitiAccessPolicy_DeepCopy (in_ : pointer TZitiAccessPolicy) : M (pointer TZitiAccessPolicy) :=
  copyPointer TZitiAccessPolicy ZitiAccessPolicy_DeepCopyInto in_.
Definition ZitiAccessPolicy_DeepCopyObject (in_ : pointer TZitiAccessPolicy) : M Object :=
  c ← ZitiAccessPolicy_DeepCopy in_;
  match c with Some c => mret (Some (TZitiAccessPolicy, c)) | None => mret None end.

Definition ZitiAccessPolicyList_DeepCopyInto (in_ : MemAccessPolicyList) : M MemAccessPolicyList :=
  listMeta ← ListMeta_DeepCopyInto (mListMeta in_);
  items ← copySliceEach TZitiAccessPolicy ZitiAccessPolicy_DeepCopyInto (mItems in_);
  mret {| mListTypeMeta := mListTypeMeta in_;
          mListMeta := listMeta;
          mItems := items |}.
Definition ZitiAccessPolicyList_DeepCopy (in_ : pointer TZitiAccessPolicyList) : M (pointer TZitiAccessPolicyList) :=
  copyPointer TZitiAccessPolicyList ZitiAccessPolicyList_DeepCopyInto in_.
Definition ZitiAccessPolicyList_DeepCopyObject (in_ : pointer TZitiAccessPolicyList) : M Object :=
  c ← ZitiAccessPolicyList_DeepCopy in_;
  match c with Some c => mret (Some (TZitiAccessPolicyList, c)) | None => mret None end.

Definition ZitiEntraRoleSyncSpec_DeepCopyInto (in_ : ZitiEntraRoleSyncSpec) : M ZitiEntraRoleSyncSpec :=
  mret in_.
Definition ZitiEntraRoleSyncSpec_DeepCopy (in_ : pointer TZitiEntraRoleSyncSpec) : M (pointer TZitiEntraRoleSyncSpec) :=
  copyPointer TZitiEntraRoleSyncSpec ZitiEntraRoleSyncSpec_DeepCopyInto in_.

Definition ZitiEntraRoleSyncStatus_DeepCopyInto (in_ : MemRoleSyncStatus) : M MemRoleSyncStatus :=
  common ← CommonStatus_DeepCopyInto (mSyncCommon in_);
  lastSyncTime ← Time_DeepCopy (mLastSyncTime in_);
  managedAttributes ← copySlice TString (mManagedAttributes in_);
  unmatchedMembers ← copySlice TEntraUnmatchedMember (mUnmatchedMembers in_);
  mret {| mSyncCommon := common;
          mLastSyncTime := lastSyncTime;
          mManagedAttributes := managedAttributes;
          mMatchedIdentities := mMatchedIdentities in_;
          mIdentitiesUpdated := mIdentitiesUpdated in_;
          mMembersWithoutIdentity := mMembersWithoutIdentity in_;
          mUnmatchedMembers := unmatchedMembers |}.
Definition ZitiEntraRoleSyncStatus_DeepCopy (in_ : pointer TZitiEntraRoleSyncStatus) : M (pointer TZitiEntraRoleSyncStatus) :=
  copyPointer TZitiEntraRoleSyncStatus ZitiEntraRoleSyncStatus_DeepCopyInto in_.

Definition ZitiEntraRoleSync_DeepCopyInto (in_ : MemRoleSync) : M MemRoleSync :=
  meta ← ObjectMeta_DeepCopyInto (mSyncMeta in_);
  status ← ZitiEntraRoleSyncStatus_DeepCopyInto (mSyncStatus in_);
  mret {| mSyncTypeMeta := mSyncTypeMeta in_;
          mSyncMeta := meta;
          mSyncSpec := mSyncSpec in_;
          mSyncStatus := status |}.
Definition ZitiEntraRoleSync_DeepCopy (in_ : pointer TZitiEntraRoleSync) : M (pointer TZitiEntraRoleSync) :=
  copyPointer TZitiEntraRoleSync ZitiEntraRoleSync_DeepCopyInto in_.
Definition ZitiEntraRoleSync_DeepCopyObject (in_ : pointer TZitiEntraRoleSync) : M Object :=
  c ← ZitiEntraRoleSync_DeepCopy in_;
  match c with Some c => mret (Some (TZitiEntraRoleSync, c)) | None => mret None end.

Definition ZitiEntraRoleSyncList_DeepCopyInto (in_ : MemRoleSyncList) : M MemRoleSyncList :=
  listMeta ← ListMeta_DeepCopyInto (mListMeta in_);
  items ← copySliceEach TZitiEntraRoleSync ZitiEntraRoleSync_DeepCopyInto (mItems in_);
  mret {| mListTypeMeta := mListTypeMeta in_;
          mListMeta := listMeta;
          mItems := items |}.
Definition ZitiEntraRoleSyncList_DeepCopy (in_ : pointer TZitiEntraRoleSyncList) : M (pointer TZitiEntraRoleSyncList) :=
  copyPointer TZitiEntraRoleSyncList ZitiEntraRoleSyncList_DeepCopyInto in_.
Definition ZitiEntraRoleSyncList_DeepCopyObject (in_ : pointer TZitiEntraRoleSyncList) : M Object :=
  c ← ZitiEntraRoleSyncList_DeepCopy in_;
  match c with Some c => mret (Some (TZitiEntraRoleSyncList, c)) | None => mret None end.

Definition ZitiIdentitySpec_DeepCopyInto (in_ : MemIdentitySpec) : M MemIdentitySpec :=
  roleAttributes ← copySlice TString (mIdentityRoleAttributes in_);
  mret {| mIdentityName := mIdentityName in_;
          mIdentityType := mIdentityType in_;
          mIdentityRoleAttributes := roleAttributes;
          mEnrollment := mEnrollment in_ |}.
Definition ZitiIdentitySpec_DeepCopy (in_ : pointer TZitiIdentitySpec) : M (pointer TZitiIdentitySpec) :=
  copyPointer TZitiIdentitySpec ZitiIdentitySpec_DeepCopyInto in_.

Definition ZitiIdentityStatus_DeepCopyInto (in_ : MemIdentityStatus) : M MemIdentityStatus :=
  common ← CommonStatus_DeepCopyInto (mIdentityCommon in_);
  mret {| mIdentityCommon := common;
          mJWTSecretName := mJWTSecretName in_ |}.
Definition ZitiIdentityStatus_DeepCopy (in_ : pointer TZitiIdentityStatus) : M (pointer TZitiIdentityStatus) :=
  copyPointer TZitiIdentityStatus ZitiIdentityStatus_DeepCopyInto in_.

Definition ZitiIdentity_DeepCopyInto (in_ : MemIdentity) : M MemIdentity :=
  meta ← ObjectMeta_DeepCopyInto (mIdentityMeta in_);
  spec ← ZitiIdentitySpec_DeepCopyInto (mIdentitySpec in_);
  status ← ZitiIdentityStatus_DeepCopyInto (mIdentityStatus in_);
  mret {| mIdentityTypeMeta := mIdentityTypeMeta in_;
          mIdentityMeta := meta;
          mIdentitySpec := spec;
          mIdentityStatus := status |}.
Definition ZitiIdentity_DeepCopy (in_ : pointer TZitiIdentity) : M (pointer TZitiIdentity) :=
  copyPointer TZitiIdentity ZitiIdentity_DeepCopyInto in_.
Definition ZitiIdentity_DeepCopyObject (in_ : pointer TZitiIdentity) : M Object :=
  c ← ZitiIdentity_DeepCopy in_;
  match c with Some c => mret (Some (TZitiIdentity, c)) | None => mret None end.

Definition ZitiIdentityList_DeepCopyInto (in_ : MemIdentityList) : M MemIdentityList :=
  listMeta ← ListMeta_DeepCopyInto (mListMeta in_);
  items ← copySliceEach TZitiIdentity ZitiIdentity_DeepCopyInto (mItems in_);
  mret {| mListTypeMeta := mListTypeMeta in_;
          mListMeta := listMeta;
          mItems := items |}.
Definition ZitiIdentityList_DeepCopy (in_ : pointer TZitiIdentityList) : M (pointer TZitiIdentityList) :=
  copyPointer TZitiIdentityList ZitiIdentityList_DeepCopyInto in_.
Definition ZitiIdentityList_DeepCopyObject (in_ : pointer TZitiIdentityList) : M Object :=
  c ← ZitiIdentityList_DeepCopy in_;
  match c with Some c => mret (Some (TZitiIdentityList, c)) | None => mret None end.

Definition ZitiServiceConfigIDs_DeepCopyInto (in_ : ServiceConfigIDs) : M ServiceConfigIDs :=
  mret in_.
Definition ZitiServiceConfigIDs_DeepCopy (in_ : pointer TZitiServiceConfigIDs) : M (pointer TZitiServiceConfigIDs) :=
  copyPointer TZitiServiceConfigIDs ZitiServiceConfigIDs_DeepCopyInto in_.

Definition ZitiServiceConfigsSpec_DeepCopyInto (in_ : MemServiceConfigsSpec) : M MemServiceConfigsSpec :=
  intercept ← InterceptConfigSpec_DeepCopyInto (mIntercept in_);
  mret {| mIntercept := intercept;
          mHost := mHost in_ |}.
Definition ZitiServiceConfigsSpec_DeepCopy (in_ : pointer TZitiServiceConfigsSpec) : M (pointer TZitiServiceConfigsSpec) :=
  copyPointer TZitiServiceConfigsSpec ZitiServiceConfigsSpec_DeepCopyInto in_.

Definition ZitiServiceSpec_DeepCopyInto (in_ : MemServiceSpec) : M MemServiceSpec :=
  roleAttributes ← copySlice TString (mServiceRoleAttributes in_);
  router ← copyPointer TServiceRouterSpec ServiceRouterSpec_DeepCopyInto (mRouter in_);
  configs ← ZitiServiceConfigsSpec_DeepCopyInto (mConfigs in_);
  mret {| mServiceName := mServiceName in_;
          mServiceRoleAttributes := roleAttributes;
          mRouter := router;
          mConfigs := configs |}.
Definition ZitiServiceSpec_DeepCopy (in_ : pointer TZitiServiceSpec) : M (pointer TZitiServiceSpec) :=
  copyPointer TZitiServiceSpec ZitiServiceSpec_DeepCopyInto in_.

Definition ZitiServiceStatus_DeepCopyInto (in_ : MemServiceStatus) : M MemServiceStatus :=
  common ← CommonStatus_DeepCopyInto (mServiceCommon in_);
  mret {| mServiceCommon := common;
          mConfigIDs := mConfigIDs in_;
          mBindPolicyID := mBindPolicyID in_;
          mServiceEdgeRouterPolicyID := mServiceEdgeRouterPolicyID in_ |}.
Definition ZitiServiceStatus_DeepCopy (in_ : pointer TZitiServiceStatus) : M (pointer TZitiServiceStatus) :=
  copyPointer TZitiServiceStatus ZitiServiceStatus_DeepCopyInto in_.

Definition ZitiService_DeepCopyInto (in_ : MemService) : M MemService :=
  meta ← ObjectMeta_DeepCopyInto (mServiceMeta in_);
  spec ← ZitiServiceSpec_DeepCopyInto (mServiceSpec in_);
  status ← ZitiServiceStatus_DeepCopyInto (mServiceStatus in_);
  mret {| mServiceTypeMeta := mServiceTypeMeta in_;
          mServiceMeta := meta;
          mServiceSpec := spec;
          mServiceStatus := status |}.
Definition ZitiService_DeepCopy (in_ : pointer TZitiService) : M (pointer TZitiService) :=
  copyPointer TZitiService ZitiService_DeepCopyInto in_.
Definition ZitiService_DeepCopyObject (in_ : pointer TZitiService) : M Object :=
  c ← ZitiService_DeepCopy in_;
  match c with Some c => mret (Some (TZitiService, c)) | None => mret None end.

Definition ZitiServiceList_DeepCopyInto (in_ : MemServiceList) : M MemServiceList :=
  listMeta ← ListMeta_DeepCopyInto (mListMeta in_);
  items ← copySliceEach TZitiService ZitiService_DeepCopyInto (mItems in_);
  mret {| mListTypeMeta := mListTypeMeta in_;
          mListMeta := listMeta;
          mItems := items |}.
Definition ZitiServiceList_DeepCopy (in_ : pointer TZitiServiceList) : M (pointer TZitiServiceList) :=
  copyPointer TZitiServiceList ZitiServiceList_DeepCopyInto in_.
Definition ZitiServiceList_DeepCopyObject (in_ : pointer TZitiServiceList) : M Object :=
  c ← ZitiServiceList_DeepCopy in_;
  match c with Some c => mret (Some (TZitiServiceList, c)) | None => mret None end.

(** *** All of them *)

Definition DeepCopy (T : gotype) : option (pointer T → M (pointer T)) :=
  match T with
  | TCommonStatus => Some CommonStatus_DeepCopy
  | TEnrollmentSpec => Some EnrollmentSpec_DeepCopy
  | TEntraUnmatchedMember => Some EntraUnmatchedMember_DeepCopy
  | THostConfigSpec => Some HostConfigSpec_DeepCopy
  | TInterceptConfigSpec => Some InterceptConfigSpec_DeepCopy
  | TPortRange => Some PortRange_DeepCopy
  | TSelectorSpec => Some SelectorSpec_DeepCopy
  | TServiceRouterSpec => Some ServiceRouterSpec_DeepCopy
  | TZitiAccessPolicySpec => Some ZitiAccessPolicySpec_DeepCopy
  | TZitiAccessPolicyStatus => Some ZitiAccessPolicyStatus_DeepCopy
  | TZitiAccessPolicy => Some ZitiAccessPolicy_DeepCopy
  | TZitiAccessPolicyList => Some ZitiAccessPolicyList_DeepCopy
  | TZitiEntraRoleSyncSpec => Some ZitiEntraRoleSyncSpec_DeepCopy
  | TZitiEntraRoleSyncStatus => Some ZitiEntraRoleSyncStatus_DeepCopy
  | TZitiEntraRoleSync => Some ZitiEntraRoleSync_DeepCopy
  | TZitiEntraRoleSyncList => Some ZitiEntraRoleSyncList_DeepCopy
  | TZitiIdentitySpec => Some ZitiIdentitySpec_DeepCopy
  | TZitiIdentityStatus => Some ZitiIdentityStatus_DeepCopy
  | TZitiIdentity => Some ZitiIdentity_DeepCopy
  | TZitiIdentityList => Some ZitiIdentityList_DeepCopy
  | TZitiServiceConfigIDs => Some ZitiServiceConfigIDs_DeepCopy
  | TZitiServiceConfigsSpec => Some ZitiServiceConfigsSpec_DeepCopy
  | TZitiServiceSpec => Some ZitiServiceSpec_DeepCopy
  | TZitiServiceStatus => Some ZitiServiceStatus_DeepCopy
  | TZitiService => Some ZitiService_DeepCopy
  | TZitiServiceList => Some ZitiServiceList_DeepCopy
  | _ => None
  end.

Lemma CommonStatus_copies : copies CommonStatus_DeepCopyInto.
Proof. copy_struct. Qed.
#[local] Hint Resolve CommonStatus_copies : deepcopy.
Lemma EnrollmentSpec_copies : copies EnrollmentSpec_DeepCopyInto.
Proof. intros h a t Ht. exists a, h. split; [done|by apply copied_plain]. Qed.
#[local] Hint Resolve EnrollmentSpec_copies : deepcopy.
Lemma EntraUnmatchedMember_copies : copies EntraUnmatchedMember_DeepCopyInto.
Proof. intros h a t Ht. exists a, h. split; [done|by apply copied_plain]. Qed.
#[local] Hint Resolve EntraUnmatchedMember_copies : deepcopy.
Lemma HostConfigSpec_copies : copies HostConfigSpec_DeepCopyInto.
Proof. intros h a t Ht. exists a, h. split; [done|by apply copied_plain]. Qed.
#[local] Hint Resolve HostConfigSpec_copies : deepcopy.
Lemma InterceptConfigSpec_copies : copies InterceptConfigSpec_DeepCopyInto.
Proof. copy_struct. Qed.
#[local] Hint Resolve InterceptConfigSpec_copies : deepcopy.
Lemma PortRange_copies : copies PortRange_DeepCopyInto.
Proof. intros h a t Ht. exists a, h. split; [done|by apply copied_plain]. Qed.
#[local] Hint Resolve PortRange_copies : deepcopy.
Lemma SelectorSpec_copies : copies SelectorSpec_DeepCopyInto.
Proof. copy_struct. Qed.
#[local] Hint Resolve SelectorSpec_copies : deepcopy.
Lemma ServiceRouterSpec_copies : copies ServiceRouterSpec_DeepCopyInto.
Proof. copy_struct. Qed.
#[local] Hint Resolve ServiceRouterSpec_copies : deepcopy.
Lemma ZitiAccessPolicySpec_copies : copies ZitiAccessPolicySpec_DeepCopyInto.
Proof. copy_struct. Qed.
#[local] Hint Resolve ZitiAccessPolicySpec_copies : deepcopy.
Lemma ZitiAccessPolicyStatus_copies : copies ZitiAccessPolicyStatus_DeepCopyInto.
Proof. copy_struct. Qed.
#[local] Hint Resolve ZitiAccessPolicyStatus_copies : deepcopy.
Lemma ZitiAccessPolicy_copies : copies ZitiAccessPolicy_DeepCopyInto.
Proof. copy_struct. Qed.
#[local] Hint Resolve ZitiAccessPolicy_copies : deepcopy.
Lemma ZitiAccessPolicyList_copies : copies ZitiAccessPolicyList_DeepCopyInto.
Proof. copy_struct. Qed.
#[local] Hint Resolve ZitiAccessPolicyList_copies : deepcopy.
Lemma ZitiEntraRoleSyncSpec_copies : copies ZitiEntraRoleSyncSpec_DeepCopyInto.
Proof. intros h a t Ht. exists a, h. split; [done|by apply copied_plain]. Qed.
#[local] Hint Resolve ZitiEntraRoleSyncSpec_copies : deepcopy.
Lemma ZitiEntraRoleSyncStatus_copies : copies ZitiEntraRoleSyncStatus_DeepCopyInto.
Proof. copy_struct. Qed.
#[local] Hint Resolve ZitiEntraRoleSyncStatus_copies : deepcopy.
Lemma ZitiEntraRoleSync_copies : copies ZitiEntraRoleSync_DeepCopyInto.
Proof. copy_struct. Qed.
#[local] Hint Resolve ZitiEntraRoleSync_copies : deepcopy.
Lemma ZitiEntraRoleSyncList_copies : copies ZitiEntraRoleSyncList_DeepCopyInto.
Proof. copy_struct. Qed.
#[local] Hint Resolve ZitiEntraRoleSyncList_copies : deepcopy.
Lemma ZitiIdentitySpec_copies : copies ZitiIdentitySpec_DeepCopyInto.
Proof. copy_struct. Qed.
#[local] Hint Resolve ZitiIdentitySpec_copies : deepcopy.
Lemma ZitiIdentityStatus_copies : copies ZitiIdentityStatus_DeepCopyInto.
Proof. copy_struct. Qed.
#[local] Hint Resolve ZitiIdentityStatus_copies : deepcopy.
Lemma ZitiIdentity_copies : copies ZitiIdentity_DeepCopyInto.
Proof. copy_struct. Qed.
#[local] Hint Resolve ZitiIdentity_copies : deepcopy.
Lemma ZitiIdentityList_copies : copies ZitiIdentityList_DeepCopyInto.
Proof. copy_struct. Qed.
#[local] Hint Resolve ZitiIdentityList_copies : deepcopy.
Lemma ZitiServiceConfigIDs_copies : copies ZitiServiceConfigIDs_DeepCopyInto.
Proof. intros h a t Ht. exists a, h. split; [done|by apply copied_plain]. Qed.
#[local] Hint Resolve ZitiServiceConfigIDs_copies : deepcopy.
Lemma ZitiServiceConfigsSpec_copies : copies ZitiServiceConfigsSpec_DeepCopyInto.
Proof. copy_struct. Qed.
#[local] Hint Resolve ZitiServiceConfigsSpec_copies : deepcopy.
Lemma ZitiServiceSpec_copies : copies ZitiServiceSpec_DeepCopyInto.
Proof. copy_struct. Qed.
#[local] Hint Resolve ZitiServiceSpec_copies : deepcopy.
Lemma ZitiServiceStatus_copies : copies ZitiServiceStatus_DeepCopyInto.
Proof. copy_struct. Qed.
#[local] Hint Resolve ZitiServiceStatus_copies : deepcopy.
Lemma ZitiService_copies : copies ZitiService_DeepCopyInto.
Proof. copy_struct. Qed.
#[local] Hint Resolve ZitiService_copies : deepcopy.
Lemma ZitiServiceList_copies : copies ZitiServiceList_DeepCopyInto.
Proof. copy_struct. Qed.
#[local] Hint Resolve ZitiServiceList_copies : deepcopy.

End Methods.
#[export] Hint Resolve CommonStatus_copies EnrollmentSpec_copies EntraUnmatchedMember_copies HostConfigSpec_copies
   InterceptConfigSpec_copies PortRange_copies SelectorSpec_copies ServiceRouterSpec_copies
   ZitiAccessPolicySpec_copies ZitiAccessPolicyStatus_copies ZitiAccessPolicy_copies ZitiAccessPolicyList_copies
   ZitiEntraRoleSyncSpec_copies ZitiEntraRoleSyncStatus_copies ZitiEntraRoleSync_copies ZitiEntraRoleSyncList_copies
   ZitiIdentitySpec_copies ZitiIdentityStatus_copies ZitiIdentity_copies ZitiIdentityList_copies
   ZitiServiceConfigIDs_copies ZitiServiceConfigsSpec_copies ZitiServiceSpec_copies ZitiServiceStatus_copies
   ZitiService_copies ZitiServiceList_copies : deepcopy.

(** ** What a deep copy promises *)

#[local] Existing Instance gorep_value.

Lemma DeepCopy_copies `{MetaV1} T method : DeepCopy T = Some method → copies method.
Proof. destruct T; try done; intros [= <-]; apply copyPointer_copies; eauto with deepcopy. Qed.

(** C3. Deep copies share nothing.  For every type of the API, [DeepCopy] of a
    pointer whose value can be followed gives a pointer with the same value (nil
    for nil), made of new variables and arrays only, each used once, and leaves
    the memory as it was.  Therefore whatever the program writes afterwards
    outside the copy, in place in the original or elsewhere, the copy keeps the
    value of the original at the time of copying; and whatever it writes through
    the copy, the original keeps it. *)
Theorem deepcopy_isolated `{MetaV1} T method h (p : pointer T) t :
  DeepCopy T = Some method → view h p = Some t →
  ∃ p' h', method p h = Some (p', h') ∧
    h ⊆ h' ∧ view h' p' = Some t ∧ NoDup (cells h' p') ∧ (∀ l, l ∈ cells h' p' → h !! l = None) ∧
    (∀ h2, rtc (write (λ l, l ∉ cells h' p')) h' h2 → view h2 p' = Some t) ∧
    (∀ h2, rtc (write (λ l, l ∈ cells h' p')) h' h2 → view h2 p = Some t).
Proof.
  intros Hm Ht. destruct (DeepCopy_copies T method Hm h p t Ht) as (p' & h' & E & Hc). exists p', h'.
  destruct (copied_isolated _ _ _ _ _ Ht Hc) as [H1 H2]. apply copied_inv in Hc as (?&?&?&?). done.
Qed.

(** ** An instance: metadata that copies what it refers to *)

Definition exObjectMeta_DeepCopyInto (m : MemObjectMeta) : M MemObjectMeta :=
  deletion ← copyPointer TTime mret (mDeletionTimestamp m);
  finalizers ← copySlice TString (mFinalizers m);
  owners ← copySlice TOwnerReference (mOwnerReferences m);
  mret {| mNamespace := mNamespace m; mName := mName m; mUID := mUID m; mResourceVersion := mResourceVersion m;
          mGeneration := mGeneration m; mCreationTimestamp := mCreationTimestamp m;
          mDeletionTimestamp := deletion; mFinalizers := finalizers; mOwnerReferences := owners |}.

Definition exListMeta_DeepCopyInto (m : MemListMeta) : M MemListMeta :=
  remaining ← copyPointer TInt64 mret (mRemainingItemCount m);
  mret {| mListResourceVersion := mListResourceVersion m; mContinue := mContinue m;
          mRemainingItemCount := remaining |}.

Lemma assign_copies `{Plain A} : copies (A := A) mret.
Proof. intros h a t Ht. exists a, h. split; [done|by apply copied_plain]. Qed.
#[local] Hint Extern 1 (copies mret) => (apply assign_copies; apply plain_plain) : deepcopy.

#[local] Instance exMetaV1 : MetaV1.
Proof.
  refine {|
    ObjectMeta_DeepCopyInto := exObjectMeta_DeepCopyInto;
    ListMeta_DeepCopyInto := exListMeta_DeepCopyInto;
    Condition_DeepCopyInto := mret;
    Time_DeepCopy := copyPointer TTime mret |}.
  - copy_struct.
  - copy_struct.
  - by apply assign_copies.
  - by apply copyPointer_copies, assign_copies.
Defined.

(** A service whose role attributes and allowed routers share one array, with a
    status of one condition. *)
Definition exReady : Condition :=
  {| CondType := "Ready"; CondStatus := "True"; CondReason := "Reconciled"; CondMessage := "";
     CondObservedGeneration := 1; CondLastTransitionTime := 5 |}.
Definition exFailed : Condition :=
  {| CondType := "Ready"; CondStatus := "False"; CondReason := "BackendError"; CondMessage := "refused";
     CondObservedGeneration := 1; CondLastTransitionTime := 9 |}.

Definition exStatus (conditions : slice TCondition) : MemServiceStatus :=
  {| mServiceCommon := {| mID := "s1"; mConditions := conditions; mObservedGeneration := 1; mLastError := "" |};
     mConfigIDs := {| ConfigIDIntercept := "c1"; ConfigIDHost := "c2" |};
     mBindPolicyID := ""; mServiceEdgeRouterPolicyID := "" |}.

Definition exServiceInMemory : MemService :=
  {| mServiceTypeMeta := {| Kind := "ZitiService"; APIVersion := "ziti.sixfeetup.com/v1alpha1" |};
     mServiceMeta := {| mNamespace := "prod"; mName := "shop"; mUID := "u1"; mResourceVersion := "7"; mGeneration := 1;
                        mCreationTimestamp := 3; mDeletionTimestamp := None; mFinalizers := Some {| base := 2; off := 1; len := 1 |};
                        mOwnerReferences := None |};
     mServiceSpec :=
       {| mServiceName := "shop"; mServiceRoleAttributes := Some {| base := 2; off := 0; len := 2 |};
          mRouter := Some 3%positive;
          mConfigs := {| mIntercept := {| mProtocols := Some {| base := 2; off := 2; len := 0 |}; mAddresses := None;
                                          mPortRanges := Some {| base := 4; off := 0; len := 1 |} |};
                         mHost := {| Protocol := "tcp"; Address := "localhost"; Port := 80 |} |} |};
     mServiceStatus := exStatus (Some {| base := 5; off := 0; len := 1 |}) |}.

Definition exMemory : memory :=
  {[ 1%positive := Cell TZitiService [exServiceInMemory];
     2%positive := Cell TString ["web"; "prod"];
     3%positive := Cell TServiceRouterSpec
       [{| mRouterName := "r1"; mAdditionalAllowedEdgeRouterNames := Some {| base := 2; off := 0; len := 2 |} |}];
     4%positive := Cell TPortRange [{| Low := 80; High := 81 |}];
     5%positive := Cell TCondition [exReady];
     6%positive := Cell TZitiServiceStatus [exStatus (Some {| base := 5; off := 0; len := 1 |})] ]}.

Lemma deepcopy_isolated_witness :
  ∃ t p' h', view exMemory (Some 1%positive : pointer TZitiService) = Some t ∧
    ZitiService_DeepCopy (Some 1%positive) exMemory = Some (p', h') ∧ exMemory ⊆ h' ∧
    ∀ h2, rtc (write (λ l, l ∉ cells h' p')) h' h2 → view h2 p' = Some t.
Proof.
  destruct (view exMemory (Some 1%positive : pointer TZitiService)) as [t|] eqn:Ht; [|by vm_compute in Ht].
  destruct (deepcopy_isolated TZitiService ZitiService_DeepCopy exMemory (Some 1%positive) t eq_refl Ht)
    as (p' & h' & E & Hh & _ & _ & _ & Hw & _).
  exists t, p', h'. exact (conj eq_refl (conj E (conj Hh Hw))).
Defined.

(** Why the reconcilers copy: they set a condition in place and compare.  With
    the deep copy the comparison sees the edit; an assignment of the struct
    would share the array of conditions and miss it. *)
Definition setReadyInPlace (h : memory) : memory := <[5%positive := Cell TCondition [exFailed]]> h.

Definition comparison (copy : pointer TZitiServiceStatus → M (pointer TZitiServiceStatus)) :
    option (option tree * option tree) :=
  match copy (Some 6%positive) exMemory with
  | Some (previous, h) =>
      let h := setReadyInPlace h in
      Some (view h previous, view h (Some 6%positive : pointer TZitiServiceStatus))
  | None => None
  end.

Example deep_copy_sees_edit :
  (∃ before after, comparison ZitiServiceStatus_DeepCopy = Some (Some before, Some after) ∧ before ≠ after) ∧
  (∃ both, comparison (copyPointer TZitiServiceStatus mret) = Some (Some both, Some both)).
Proof. split; vm_compute; [do 2 eexists; split; [reflexivity|congruence]|by eexists]. Qed.
