(* ===== verification/Process.v ===== *)
(** * The process

    [cmd/main.go]: the command line, the servers, the scheme, and the wiring of
    the reconcilers ([SetupWithManager] of each, api/v1alpha1/groupversion_info.go
    for the scheme).  The manager of controller-runtime is the environment.  The
    calls that can end the process are calls of the program [main], whose result
    is the exit code. *)

From S2P Require Import Prelude GoSlices GoStrings Errors ApiTypes Effects Credentials MemoryTypes.

#[local] Open Scope mz_scope.

(** ** The command line *)

(** The variables that the flags set. *)
Record options := {
  metricsAddr : string;
  metricsCertPath : string;
  metricsCertName : string;
  metricsCertKey : string;
  webhookCertPath : string;
  webhookCertName : string;
  webhookCertKey : string;
  enableLeaderElection : bool;
  probeAddr : string;
  secureMetrics : bool;
  enableHTTP2 : bool;
}.

(** A flag writes one of the variables. *)
Inductive flagVar :=
  | StringVar (set : string → options → options)
  | BoolVar (set : bool → options → options).

Definition set_metricsAddr (v : string) (o : options) : options := {| metricsAddr := v; metricsCertPath :=
  metricsCertPath o; metricsCertName := metricsCertName o; metricsCertKey := metricsCertKey o; webhookCertPath
  := webhookCertPath o; webhookCertName := webhookCertName o; webhookCertKey := webhookCertKey o;
  enableLeaderElection := enableLeaderElection o; probeAddr := probeAddr o; secureMetrics := secureMetrics o;
  enableHTTP2 := enableHTTP2 o |}.
Definition set_metricsCertPath (v : string) (o : options) : options := {| metricsAddr := metricsAddr o;
  metricsCertPath := v; metricsCertName := metricsCertName o; metricsCertKey := metricsCertKey o;
  webhookCertPath := webhookCertPath o; webhookCertName := webhookCertName o; webhookCertKey := webhookCertKey
  o; enableLeaderElection := enableLeaderElection o; probeAddr := probeAddr o; secureMetrics := secureMetrics o;
  enableHTTP2 := enableHTTP2 o |}.
Definition set_metricsCertName (v : string) (o : options) : options := {| metricsAddr := metricsAddr o;
  metricsCertPath := metricsCertPath o; metricsCertName := v; metricsCertKey := metricsCertKey o;
  webhookCertPath := webhookCertPath o; webhookCertName := webhookCertName o; webhookCertKey := webhookCertKey
  o; enableLeaderElection := enableLeaderElection o; probeAddr := probeAddr o; secureMetrics := secureMetrics o;
  enableHTTP2 := enableHTTP2 o |}.
Definition set_metricsCertKey (v : string) (o : options) : options := {| metricsAddr := metricsAddr o;
  metricsCertPath := metricsCertPath o; metricsCertName := metricsCertName o; metricsCertKey := v;
  webhookCertPath := webhookCertPath o; webhookCertName := webhookCertName o; webhookCertKey := webhookCertKey
  o; enableLeaderElection := enableLeaderElection o; probeAddr := probeAddr o; secureMetrics := secureMetrics o;
  enableHTTP2 := enableHTTP2 o |}.
Definition set_webhookCertPath (v : string) (o : options) : options := {| metricsAddr := metricsAddr o;
  metricsCertPath := metricsCertPath o; metricsCertName := metricsCertName o; metricsCertKey := metricsCertKey
  o; webhookCertPath := v; webhookCertName := webhookCertName o; webhookCertKey := webhookCertKey o;
  enableLeaderElection := enableLeaderElection o; probeAddr := probeAddr o; secureMetrics := secureMetrics o;
  enableHTTP2 := enableHTTP2 o |}.
Definition set_webhookCertName (v : string) (o : options) : options := {| metricsAddr := metricsAddr o;
  metricsCertPath := metricsCertPath o; metricsCertName := metricsCertName o; metricsCertKey := metricsCertKey
  o; webhookCertPath := webhookCertPath o; webhookCertName := v; webhookCertKey := webhookCertKey o;
  enableLeaderElection := enableLeaderElection o; probeAddr := probeAddr o; secureMetrics := secureMetrics o;
  enableHTTP2 := enableHTTP2 o |}.
Definition set_webhookCertKey (v : string) (o : options) : options := {| metricsAddr := metricsAddr o;
  metricsCertPath := metricsCertPath o; metricsCertName := metricsCertName o; metricsCertKey := metricsCertKey
  o; webhookCertPath := webhookCertPath o; webhookCertName := webhookCertName o; webhookCertKey := v;
  enableLeaderElection := enableLeaderElection o; probeAddr := probeAddr o; secureMetrics := secureMetrics o;
  enableHTTP2 := enableHTTP2 o |}.
Definition set_enableLeaderElection (v : bool) (o : options) : options := {| metricsAddr := metricsAddr o;
  metricsCertPath := metricsCertPath o; metricsCertName := metricsCertName o; metricsCertKey := metricsCertKey
  o; webhookCertPath := webhookCertPath o; webhookCertName := webhookCertName o; webhookCertKey :=
  webhookCertKey o; enableLeaderElection := v; probeAddr := probeAddr o; secureMetrics := secureMetrics o;
  enableHTTP2 := enableHTTP2 o |}.
Definition set_probeAddr (v : string) (o : options) : options := {| metricsAddr := metricsAddr o;
  metricsCertPath := metricsCertPath o; metricsCertName := metricsCertName o; metricsCertKey := metricsCertKey
  o; webhookCertPath := webhookCertPath o; webhookCertName := webhookCertName o; webhookCertKey :=
  webhookCertKey o; enableLeaderElection := enableLeaderElection o; probeAddr := v; secureMetrics :=
  secureMetrics o; enableHTTP2 := enableHTTP2 o |}.
Definition set_secureMetrics (v : bool) (o : options) : options := {| metricsAddr := metricsAddr o;
  metricsCertPath := metricsCertPath o; metricsCertName := metricsCertName o; metricsCertKey := metricsCertKey
  o; webhookCertPath := webhookCertPath o; webhookCertName := webhookCertName o; webhookCertKey :=
  webhookCertKey o; enableLeaderElection := enableLeaderElection o; probeAddr := probeAddr o; secureMetrics :=
  v; enableHTTP2 := enableHTTP2 o |}.
Definition set_enableHTTP2 (v : bool) (o : options) : options := {| metricsAddr := metricsAddr o;
  metricsCertPath := metricsCertPath o; metricsCertName := metricsCertName o; metricsCertKey := metricsCertKey
  o; webhookCertPath := webhookCertPath o; webhookCertName := webhookCertName o; webhookCertKey :=
  webhookCertKey o; enableLeaderElection := enableLeaderElection o; probeAddr := probeAddr o; secureMetrics :=
  secureMetrics o; enableHTTP2 := v |}.

(** The flags of [main], with the values the variables start with. *)
Definition formal : list (string * flagVar) :=
  [("metrics-bind-address", StringVar set_metricsAddr);
   ("health-probe-bind-address", StringVar set_probeAddr);
   ("leader-elect", BoolVar set_enableLeaderElection);
   ("metrics-secure", BoolVar set_secureMetrics);
   ("webhook-cert-path", StringVar set_webhookCertPath);
   ("webhook-cert-name", StringVar set_webhookCertName);
   ("webhook-cert-key", StringVar set_webhookCertKey);
   ("metrics-cert-path", StringVar set_metricsCertPath);
   ("metrics-cert-name", StringVar set_metricsCertName);
   ("metrics-cert-key", StringVar set_metricsCertKey);
   ("enable-http2", BoolVar set_enableHTTP2)].

Definition defaults : options :=
  {| metricsAddr := "0"; metricsCertPath := ""; metricsCertName := "tls.crt"; metricsCertKey := "tls.key";
     webhookCertPath := ""; webhookCertName := "tls.crt"; webhookCertKey := "tls.key"; enableLeaderElection :=
     false; probeAddr := ":8081"; secureMetrics := true; enableHTTP2 := false |}.

(** The flags that zap and controller-runtime add to the command line: whether
    one is boolean, and which values it accepts. *)
Class ExternalFlags := externalFlag : string → option (bool * (string → bool)).

(** [strconv.ParseBool] *)
Definition ParseBool (s : string) : option bool :=
  if bool_decide (s ∈ ["1"; "t"; "T"; "TRUE"; "true"; "True"]) then Some true
  else if bool_decide (s ∈ ["0"; "f"; "F"; "FALSE"; "false"; "False"]) then Some false
  else None.

(** The name and the value of [name=value]. *)
Fixpoint cutEqual (s : string) : string * option string :=
  match s with
  | EmptyString => (EmptyString, None)
  | String c s =>
      if Ascii.eqb c "=" then (EmptyString, Some s)
      else let '(name, value) := cutEqual s in (String c name, value)
  end.

(** How an argument reads: a flag with its name and value, the terminator, the
    first argument that is no flag, or neither. *)
Inductive argument := AFlag (name : string) (value : option string) | ATerminator | APlain | ABad.

Definition flagName (name : string) : argument :=
  match name with
  | String c _ =>
      if Ascii.eqb c "-" || Ascii.eqb c "=" then ABad
      else let '(name, value) := cutEqual name in AFlag name value
  | EmptyString => ABad
  end.

Definition readArgument (s : string) : argument :=
  match s with
  | String c1 (String c2 s') =>
      if negb (Ascii.eqb c1 "-") then APlain
      else if Ascii.eqb c2 "-" then match s' with EmptyString => ATerminator | _ => flagName s' end
      else flagName (String c2 s')
  | _ => APlain
  end.

(** What [flag.Parse] comes to: it exits with 0 after a request for help, and
    with 2 after an error. *)
Inductive parsed := Parsed (o : options) | Help | UsageError.

Section Flags.
Context `{ExternalFlags}.

(** Sets a flag; [None] when the value is not one of its kind. *)
Definition setFlag (var : flagVar) (value : string) (o : options) : option options :=
  match var with
  | StringVar set => Some (set value o)
  | BoolVar set => match ParseBool value with Some b => Some (set b o) | None => None end
  end.

(** The flag of a name: whether it is boolean, and how to set it. *)
Definition lookupFlag (name : string) : option (bool * (string → options → option options)) :=
  match List.find (λ f, bool_decide (f.1 = name)) formal with
  | Some (_, var) => Some (match var with BoolVar _ => true | StringVar _ => false end, setFlag var)
  | None =>
      match externalFlag name with
      | Some (isBool, accepts) => Some (isBool, λ v o, if accepts v then Some o else None)
      | None => None
      end
  end.

(** [(f *FlagSet) Parse] and [parseOne] *)
Fixpoint parse (args : list string) (o : options) : parsed :=
  match args with
  | [] => Parsed o
  | arg :: args =>
      match readArgument arg with
      | APlain | ATerminator => Parsed o
      | ABad => UsageError
      | AFlag name value =>
          match lookupFlag name with
          | None => if bool_decide (name = "help") || bool_decide (name = "h") then Help else UsageError
          | Some (true, set) =>
              match set (default "true" value) o with Some o => parse args o | None => UsageError end
          | Some (false, set) =>
              match value with
              | Some value => match set value o with Some o => parse args o | None => UsageError end
              | None =>
                  match args with
                  | [] => UsageError
                  | value :: args => match set value o with Some o => parse args o | None => UsageError end
                  end
              end
          end
      end
  end.

End Flags.

(** ** The servers *)

(** [tls.Config] *)
Record tlsConfig := { NextProtos : strs }.

(** [webhook.Options] *)
Record webhookOptions := {
  WebhookTLSOpts : list (tlsConfig → tlsConfig);
  WebhookCertDir : string;
  WebhookCertName : string;
  WebhookKeyName : string;
}.

(** [metricsserver.Options]; the filter provider is the one of controller-runtime
    that authenticates and authorises, or nil. *)
Record metricsOptions := {
  BindAddress : string;
  SecureServing : bool;
  MetricsTLSOpts : list (tlsConfig → tlsConfig);
  WithAuthenticationAndAuthorization : bool;
  MetricsCertDir : string;
  MetricsCertName : string;
  MetricsKeyName : string;
}.

(** [ctrl.Options] *)
Record managerOptions := {
  ManagerScheme : list gotype;
  Metrics : metricsOptions;
  WebhookServer : webhookOptions;
  HealthProbeBindAddress : string;
  LeaderElection : bool;
  LeaderElectionID : string;
}.

Definition disableHTTP2 (c : tlsConfig) : tlsConfig := {| NextProtos := ["http/1.1"] |}.

Definition tlsOpts (o : options) : list (tlsConfig → tlsConfig) :=
  if negb (enableHTTP2 o) then [disableHTTP2] else [].

Definition webhookServerOptions (o : options) : webhookOptions :=
  let webhookTLSOpts := tlsOpts o in
  if bool_decide (0 < String.length (webhookCertPath o)) then
    {| WebhookTLSOpts := webhookTLSOpts; WebhookCertDir := webhookCertPath o;
       WebhookCertName := webhookCertName o; WebhookKeyName := webhookCertKey o |}
  else {| WebhookTLSOpts := webhookTLSOpts; WebhookCertDir := ""; WebhookCertName := ""; WebhookKeyName := "" |}.

Definition metricsServerOptions (o : options) : metricsOptions :=
  let certs := bool_decide (0 < String.length (metricsCertPath o)) in
  {| BindAddress := metricsAddr o; SecureServing := secureMetrics o; MetricsTLSOpts := tlsOpts o;
     WithAuthenticationAndAuthorization := secureMetrics o;
     MetricsCertDir := if certs then metricsCertPath o else "";
     MetricsCertName := if certs then metricsCertName o else "";
     MetricsKeyName := if certs then metricsCertKey o else "" |}.

(** ** The scheme *)

(** [GroupVersion] *)
Definition GroupVersion : string * string := ("ziti.sixfeetup.com", "v1alpha1").

(** What the [init] functions of [api/v1alpha1] register. *)
Definition ZitiAccessPolicy_init : list gotype := [TZitiAccessPolicy; TZitiAccessPolicyList].
Definition ZitiEntraRoleSync_init : list gotype := [TZitiEntraRoleSync; TZitiEntraRoleSyncList].
Definition ZitiIdentity_init : list gotype := [TZitiIdentity; TZitiIdentityList].
Definition ZitiService_init : list gotype := [TZitiService; TZitiServiceList].

(** [SchemeBuilder], which [AddToScheme] applies. *)
Definition SchemeBuilder : list gotype :=
  ZitiAccessPolicy_init ++ ZitiEntraRoleSync_init ++ ZitiIdentity_init ++ ZitiService_init.

(** [init] of [main]: the types of the operator that the scheme knows, besides
    those of client-go. *)
Definition scheme : list gotype := SchemeBuilder.

(** ** The controllers *)

(** One management client of the process. *)
Definition clientHandle := nat.

(** A reconciler with what it is built from, apart from the manager's client and
    scheme, which all of them get. *)
Inductive reconciler :=
  | ZitiIdentityReconciler (recorder : string) (identityService : clientHandle)
  | ZitiServiceReconciler (recorder : string) (serviceManager : clientHandle)
  | ZitiAccessPolicyReconciler (recorder : string) (identityService policyService : clientHandle)
  | ZitiEntraRoleSyncReconciler (recorder : string) (zitiClient : clientHandle).

(** What a controller is built with: the kind it is for, the kinds it owns,
    whether it only sees events that change the generation, the number of
    workers (0 for the default, one) and the base and maximal delay of the rate
    limiter (none for the default one). *)
Record controllerConfig := {
  For : kind;
  Owns : list kind;
  GenerationChangedPredicate : bool;
  MaxConcurrentReconciles : nat;
  RateLimiter : option (Z * Z);
}.

Definition SetupIdentity : controllerConfig :=
  {| For := KIdentity; Owns := [KSecret]; GenerationChangedPredicate := false;
     MaxConcurrentReconciles := 0; RateLimiter := None |}.
Definition SetupService : controllerConfig :=
  {| For := KService; Owns := []; GenerationChangedPredicate := false;
     MaxConcurrentReconciles := 0; RateLimiter := None |}.
Definition SetupAccessPolicy : controllerConfig :=
  {| For := KAccessPolicy; Owns := []; GenerationChangedPredicate := false;
     MaxConcurrentReconciles := 0; RateLimiter := None |}.
Definition SetupEntraRoleSync : controllerConfig :=
  {| For := KRoleSync; Owns := []; GenerationChangedPredicate := true;
     MaxConcurrentReconciles := 1; RateLimiter := Some (10 * 1000000000, 10 * 60 * 1000000000)%Z |}.

(** [SetupWithManager] *)
Definition SetupWithManager (r : reconciler) : controllerConfig :=
  match r with
  | ZitiIdentityReconciler _ _ => SetupIdentity
  | ZitiServiceReconciler _ _ => SetupService
  | ZitiAccessPolicyReconciler _ _ _ => SetupAccessPolicy
  | ZitiEntraRoleSyncReconciler _ _ => SetupEntraRoleSync
  end.

(** ** The entry point *)

Definition managerOptionsOf (o : options) : managerOptions :=
  {| ManagerScheme := scheme; Metrics := metricsServerOptions o; WebhookServer := webhookServerOptions o;
     HealthProbeBindAddress := probeAddr o; LeaderElection := enableLeaderElection o;
     LeaderElectionID := "da152925.sixfeetup.com" |}.

(** The calls of [main], and their answers: [GetConfigOrDie] may not return,
    [Environ] is what [os.Getenv] finds, [NewClient] is [openziticlient.New] with
    the loader of the management Secret. *)
Inductive mainOp :=
  | GetConfigOrDie
  | NewManager (o : managerOptions)
  | Environ
  | NewClient (ref : SecretRef)
  | Setup (r : reconciler) (c : controllerConfig)
  | AddHealthzCheck (name : string)
  | AddReadyzCheck (name : string)
  | Start.

Definition mainResp (o : mainOp) : Type :=
  match o with
  | GetConfigOrDie => bool
  | Environ => string → string
  | NewClient _ => clientHandle
  | NewManager _ | Setup _ _ | AddHealthzCheck _ | AddReadyzCheck _ | Start => option error
  end.

Abbreviation process A := (prog mainOp mainResp A).
Abbreviation mainEvent := (event mainOp mainResp).
Definition mcall (o : mainOp) : process (mainResp o) := call o.

(** [if err := ...; err != nil { setupLog.Error(...); os.Exit(1) }] *)
Definition orExit (step : process (option error)) (k : process nat) : process nat :=
  let! err := step in match err with Some _ => Ret 1 | None => k end.

Definition setup (r : reconciler) : process (option error) := mcall (Setup r (SetupWithManager r)).

(** [main]; the result is the exit code. *)
Definition main `{ExternalFlags} (args : list string) : process nat :=
  match parse args defaults with
  | Help => Ret 0
  | UsageError => Ret 2
  | Parsed o =>
      let! ok := mcall GetConfigOrDie in
      if negb ok then Ret 1 else
      orExit (mcall (NewManager (managerOptionsOf o))) (
      let! getenv := mcall Environ in
      match SecretRefFromEnv getenv with
      | inl _ => Ret 1
      | inr managementSecretRef =>
          let! openZitiClient := mcall (NewClient managementSecretRef) in
          orExit (setup (ZitiIdentityReconciler "zitiidentity-controller" openZitiClient)) (
          orExit (setup (ZitiServiceReconciler "zitiservice-controller" openZitiClient)) (
          orExit (setup (ZitiAccessPolicyReconciler "zitiaccesspolicy-controller" openZitiClient openZitiClient)) (
          orExit (setup (ZitiEntraRoleSyncReconciler "zitientrarolesync-controller" openZitiClient)) (
          orExit (mcall (AddHealthzCheck "healthz")) (
          orExit (mcall (AddReadyzCheck "readyz")) (
          orExit (mcall Start) (Ret 0)))))))
      end)
  end.

(** ** Properties *)

Lemma cutEqual_other c s : c ≠ "="%char →
  cutEqual (String c s) = (String c (cutEqual s).1, (cutEqual s).2).
Proof.
  intros Hc. change (cutEqual (String c s)) with
    (if Ascii.eqb c "=" then (EmptyString, Some s) else let '(name, value) := cutEqual s in (String c name, value)).
  rewrite (proj2 (Ascii.eqb_neq _ _) Hc). by destruct (cutEqual s).
Qed.

Lemma cutEqual_app name value :
  Forall (λ c, c ≠ "="%char) (String.list_ascii_of_string name) →
  cutEqual (name +:+ String "=" value) = (name, Some value).
Proof.
  induction name as [|c name IH]; [done|]. intros [Hc Hn]%Forall_cons.
  change (String c name +:+ String "=" value) with (String c (name +:+ String "=" value)).
  by rewrite cutEqual_other, IH.
Qed.

Lemma cutEqual_none name :
  Forall (λ c, c ≠ "="%char) (String.list_ascii_of_string name) → cutEqual name = (name, None).
Proof. induction name as [|c name IH]; [done|]. intros [Hc Hn]%Forall_cons. by rewrite cutEqual_other, IH. Qed.

(** The arguments that set a string flag, in the two forms, and a boolean flag. *)
Definition stringArgs (joined : bool) (name value : string) : list string :=
  if joined then ["--" +:+ name +:+ String "=" value] else ["--" +:+ name; value].
Definition boolArgs (name : string) (b : bool) : list string :=
  ["--" +:+ name +:+ String "=" (if b then "true" else "false")].

(** The command line that says [o], with the string flags in either form. *)
Definition render (joined : bool) (o : options) : list string :=
  stringArgs joined "metrics-bind-address" (metricsAddr o) ++
  stringArgs joined "health-probe-bind-address" (probeAddr o) ++
  boolArgs "leader-elect" (enableLeaderElection o) ++
  boolArgs "metrics-secure" (secureMetrics o) ++
  stringArgs joined "webhook-cert-path" (webhookCertPath o) ++
  stringArgs joined "webhook-cert-name" (webhookCertName o) ++
  stringArgs joined "webhook-cert-key" (webhookCertKey o) ++
  stringArgs joined "metrics-cert-path" (metricsCertPath o) ++
  stringArgs joined "metrics-cert-name" (metricsCertName o) ++
  stringArgs joined "metrics-cert-key" (metricsCertKey o) ++
  boolArgs "enable-http2" (enableHTTP2 o).

(** A name that a flag can have. *)
Definition plainName (name : string) : Prop :=
  Forall (λ c, c ≠ "="%char) (String.list_ascii_of_string name) ∧
  match name with String c _ => Ascii.eqb c "-" || Ascii.eqb c "=" = false | EmptyString => False end.

Lemma readArgument_flag c s : Ascii.eqb c "-" || Ascii.eqb c "=" = false →
  readArgument ("--" +:+ String c s) = AFlag (cutEqual (String c s)).1 (cutEqual (String c s)).2.
Proof.
  intros Hc. change (readArgument ("--" +:+ String c s)) with (flagName (String c s)).
  unfold flagName. rewrite Hc. by destruct (cutEqual (String c s)).
Qed.

Lemma readArgument_joined name value :
  plainName name → readArgument ("--" +:+ name +:+ String "=" value) = AFlag name (Some value).
Proof.
  intros [Hn Hh]. destruct name as [|c name]; [done|].
  change (String c name +:+ String "=" value) with (String c (name +:+ String "=" value)).
  rewrite readArgument_flag by done.
  change (String c (name +:+ String "=" value)) with (String c name +:+ String "=" value).
  by rewrite cutEqual_app.
Qed.

Lemma readArgument_alone name : plainName name → readArgument ("--" +:+ name) = AFlag name None.
Proof.
  intros [Hn Hh]. destruct name as [|c name]; [done|]. rewrite readArgument_flag by done. by rewrite cutEqual_none.
Qed.

Section Theorems.
Context `{ExternalFlags}.

Lemma parse_string joined name value set rest o :
  plainName name → lookupFlag name = Some (false, setFlag (StringVar set)) →
  parse (stringArgs joined name value ++ rest) o = parse rest (set value o).
Proof.
  intros Hn Hl. destruct joined; cbn [stringArgs app parse].
  - rewrite readArgument_joined by done. by rewrite Hl.
  - rewrite readArgument_alone by done. by rewrite Hl.
Qed.

Lemma parse_bool name b set rest o :
  plainName name → lookupFlag name = Some (true, setFlag (BoolVar set)) →
  parse (boolArgs name b ++ rest) o = parse rest (set b o).
Proof. intros Hn Hl. cbn [boolArgs app parse]. rewrite readArgument_joined by done. rewrite Hl. by destruct b. Qed.

(** Rendering the options and parsing them gives them back, whatever the flags
    were before; the rest of the line is parsed as if they had been there. *)
Lemma parse_render (joined : bool) (o o0 : options) (rest : list string) :
  parse (render joined o ++ rest) o0 = parse rest o.
Proof.
  unfold render. rewrite <-!app_assoc.
  repeat (erewrite parse_string || erewrite parse_bool; [|by repeat constructor|reflexivity]).
  by destruct o.
Qed.
End Theorems.

(** ** Starting *)

(** A step that did not do what it was asked. *)
Definition failed (e : mainEvent) : Prop :=
  match e with
  | Ev GetConfigOrDie ok => ok = false
  | Ev Environ getenv => match SecretRefFromEnv getenv with inl _ => True | inr _ => False end
  | Ev (NewClient _) _ => False
  | Ev (NewManager _) err | Ev (Setup _ _) err | Ev (AddHealthzCheck _) err | Ev (AddReadyzCheck _) err
  | Ev Start err => err ≠ None
  end.

(** The kind and the management clients of a controller that is set up. *)
Definition controllerOf (e : mainEvent) : option (kind * list clientHandle) :=
  match e with
  | Ev (Setup r c) _ => Some (For c,
      match r with
      | ZitiIdentityReconciler _ a | ZitiServiceReconciler _ a | ZitiEntraRoleSyncReconciler _ a => [a]
      | ZitiAccessPolicyReconciler _ a b => [a; b]
      end)
  | _ => None
  end.

Definition clientOf (e : mainEvent) : option (SecretRef * clientHandle) :=
  match e with Ev (NewClient ref) c => Some (ref, c) | _ => None end.

(** Everything is there before the manager starts: the manager was made with the
    options [o], and one client, of the Secret that the environment names, serves
    a controller for each kind; both probes answer. *)
Definition prepared (o : options) (before : list mainEvent) : Prop :=
  ∃ getenv ref c,
    @Ev mainOp mainResp (NewManager (managerOptionsOf o)) None ∈ before ∧
    @Ev mainOp mainResp Environ getenv ∈ before ∧ SecretRefFromEnv getenv = inr ref ∧
    omap clientOf before = [(ref, c)] ∧
    omap controllerOf before =
      [(KIdentity, [c]); (KService, [c]); (KAccessPolicy, [c; c]); (KRoleSync, [c])] ∧
    @Ev mainOp mainResp (AddHealthzCheck "healthz") None ∈ before ∧
    @Ev mainOp mainResp (AddReadyzCheck "readyz") None ∈ before.

(** What a run of [main] after the flags satisfies. *)
Definition orderly (o : options) (t : list mainEvent) (code : nat) : Prop :=
  (∀ t1 e t2, t = t1 ++ e :: t2 → failed e → t2 = [] ∧ code = 1) ∧
  (∀ t1 err t2, t = t1 ++ @Ev mainOp mainResp Start err :: t2 → t2 = [] ∧ prepared o t1) ∧
  (code = 0 ∧ last t = Some (@Ev mainOp mainResp Start None) ∨ code = 1 ∧ ∃ e, last t = Some e ∧ failed e).

(** A history that a run can go on from. *)
Definition going (h : list mainEvent) : Prop := Forall (λ e, ¬ failed e ∧ ev_op e ≠ Start) h.

Lemma going_snoc h e : going h → ¬ failed e → ev_op e ≠ Start → going (h ++ [e]).
Proof. intros Hh Hf Hs. apply Forall_app. split; [done|]. by constructor. Qed.

(** Where the last event is the first one that does not go on. *)
Lemma snoc_middle h (e : mainEvent) t1 x t2 :
  h ++ [e] = t1 ++ x :: t2 → x ∈ h ∨ t2 = [] ∧ x = e ∧ t1 = h.
Proof.
  destruct t2 as [|y t2] using rev_ind; intros E.
  - right. by apply app_inj_tail in E as [-> ->].
  - left. rewrite app_comm_cons, app_assoc in E. apply app_inj_tail in E as [-> _]. set_solver.
Qed.

Lemma orderly_last o h e code :
  going h → (ev_op e = Start → prepared o h) → (failed e ∧ code = 1 ∨ e = Ev Start None ∧ code = 0) →
  orderly o (h ++ [e]) code.
Proof.
  intros Hh Hs Hcode. unfold going in Hh. rewrite Forall_forall in Hh. split_and!.
  - intros t1 x t2 [Hx|(-> & -> & ->)]%snoc_middle Hf; [by destruct (Hh _ Hx)|].
    destruct Hcode as [[_ ->]|[-> _]]; [done|by destruct Hf].
  - intros t1 err t2 [Hx|(-> & <- & ->)]%snoc_middle; [by destruct (Hh _ Hx)|auto].
  - rewrite last_snoc. destruct Hcode as [[Hf ->]|[-> ->]]; [right; eauto|by left].
Qed.

(** Follows a step of [main]: it fails and is the last one, or the run goes on. *)
Ltac main_step Hg Hr :=
  let r := fresh "r" in let t := fresh "t" in
  destruct Hr as (r & t & -> & Hr); rewrite cons_middle, app_assoc;
  destruct r as [r|];
  [destruct Hr as [-> <-]; rewrite app_nil_r; apply orderly_last; [exact Hg|done|by left]|];
  match goal with |- orderly _ ((?h ++ [?e]) ++ _) _ =>
    try (assert (going (h ++ [e])) as Hg' by (apply going_snoc; [exact Hg|by intros []|done]); clear Hg; rename Hg' into Hg)
  end.

Lemma main_orderly `{ExternalFlags} args o t code :
  parse args defaults = Parsed o → runs (main args) t code → orderly o t code.
Proof.
  intros Hp Hr. unfold main in Hr. rewrite Hp in Hr. rewrite <-(app_nil_l t).
  assert (going []) as Hg by constructor. destruct Hr as (ok & t1 & -> & Hr). rewrite cons_middle, app_assoc.
  destruct ok; [|destruct Hr as [-> <-]; rewrite app_nil_r; apply orderly_last; [done..|by left]].
  assert (going ([] ++ [@Ev mainOp mainResp GetConfigOrDie true])) as Hg' by (by apply going_snoc).
  clear Hg. rename Hg' into Hg. main_step Hg Hr.
  destruct Hr as (getenv & t2 & -> & Hr). rewrite cons_middle, app_assoc. cbn [bind] in Hr.
  destruct (SecretRefFromEnv getenv) as [err|ref] eqn:Href;
    [destruct Hr as [-> <-]; rewrite app_nil_r; apply orderly_last; [done..|left; cbn [failed]; by rewrite Href]|].
  destruct Hr as (c & t3 & -> & Hr). rewrite cons_middle, app_assoc.
  match goal with |- orderly _ (((?h ++ [?e1]) ++ [?e2]) ++ _) _ =>
    assert (going ((h ++ [e1]) ++ [e2])) as Hg'
      by (apply going_snoc; [apply going_snoc; [exact Hg|cbn [failed]; rewrite Href; by intros []|done]|by intros []|done]) end.
  clear Hg. rename Hg' into Hg. do 6 main_step Hg Hr.
  destruct Hr as (r & t4 & -> & Hr). rewrite cons_middle, app_assoc.
  match goal with |- orderly _ ((?h ++ _) ++ _) _ => assert (prepared o h) as Hprep end.
  { exists getenv, ref, c. split_and!; [set_solver|set_solver|done|reflexivity|reflexivity|set_solver|set_solver]. }
  destruct r as [err|]; destruct Hr as [-> <-]; rewrite app_nil_r; apply orderly_last;
    [exact Hg|by intros _|by left|exact Hg|by intros _|by right].
Qed.

(** C10. The process starts complete or not at all.  A request for help ends it
    with 0 and a wrong flag with 2 before anything is done.  Otherwise, in every
    run, whatever the cluster and the environment answer: nothing follows the
    first step that fails, and the process then exits with 1; the manager is
    started at most once, as the last step, and only when it was made with the
    options of the flags, one management client was made from the Secret that the
    environment names, each of the four kinds has exactly one controller, all of
    them with that client (so they share its session), and both probes are
    registered; and the exit code is 0 only after the manager ran to its end. *)
Theorem process_start `{ExternalFlags} args t code :
  runs (main args) t code →
  match parse args defaults with
  | Help => t = [] ∧ code = 0
  | UsageError => t = [] ∧ code = 2
  | Parsed o => orderly o t code
  end.
Proof.
  intros Hr. destruct (parse args defaults) as [o| |] eqn:Hp; [by eapply main_orderly| |];
    unfold main in Hr; rewrite Hp in Hr; by destruct Hr as [-> <-].
Qed.

(** [main] never faults. *)
Lemma main_returns `{ExternalFlags} args : returns (λ _ _, True) (main args).
Proof.
  unfold main, orExit, setup, mcall, call.
  destruct (parse args defaults) as [o| |]; cbn; [|done..].
  intros [] _; cbn; [|done]. intros [?|] _; cbn; [done|]. intros getenv _.
  destruct (SecretRefFromEnv getenv); cbn; [done|]. intros c _. by repeat (intros [?|] _; cbn; [done|]).
Qed.

(** The configuration that a server starts with. *)
Definition applyTLS (opts : list (tlsConfig → tlsConfig)) (c : tlsConfig) : tlsConfig := foldl (λ c f, f c) c opts.

(** The Go types of a kind of the operator. *)
Definition typesOf (k : kind) : list gotype :=
  match k with
  | KIdentity => [TZitiIdentity; TZitiIdentityList]
  | KService => [TZitiService; TZitiServiceList]
  | KAccessPolicy => [TZitiAccessPolicy; TZitiAccessPolicyList]
  | KRoleSync => [TZitiEntraRoleSync; TZitiEntraRoleSyncList]
  | KSecret => []
  end.

(** The servers of the manager are what the options say. *)
Definition configured (o : options) (m : managerOptions) : Prop :=
  let webhook := WebhookServer m in
  let metrics := Metrics m in
  (∀ c, NextProtos (applyTLS (WebhookTLSOpts webhook) c) = if enableHTTP2 o then NextProtos c else ["http/1.1"]) ∧
  (∀ c, NextProtos (applyTLS (MetricsTLSOpts metrics) c) = if enableHTTP2 o then NextProtos c else ["http/1.1"]) ∧
  (WithAuthenticationAndAuthorization metrics = true ↔ SecureServing metrics = true) ∧
  SecureServing metrics = secureMetrics o ∧ BindAddress metrics = metricsAddr o ∧
  (if decide (webhookCertPath o = "") then WebhookCertDir webhook = "" ∧ WebhookCertName webhook = "" ∧ WebhookKeyName webhook = ""
   else WebhookCertDir webhook = webhookCertPath o ∧ WebhookCertName webhook = webhookCertName o ∧
        WebhookKeyName webhook = webhookCertKey o) ∧
  (if decide (metricsCertPath o = "") then MetricsCertDir metrics = "" ∧ MetricsCertName metrics = "" ∧ MetricsKeyName metrics = ""
   else MetricsCertDir metrics = metricsCertPath o ∧ MetricsCertName metrics = metricsCertName o ∧
        MetricsKeyName metrics = metricsCertKey o) ∧
  HealthProbeBindAddress m = probeAddr o ∧ LeaderElection m = enableLeaderElection o ∧
  (∀ r, typesOf (For (SetupWithManager r)) ⊆ ManagerScheme m).

Lemma managerOptionsOf_configured o : configured o (managerOptionsOf o).
Proof.
  unfold configured. cbv zeta. split_and!.
  - intros c. cbn. unfold webhookServerOptions, tlsOpts. destruct (enableHTTP2 o); cbn; by case_test.
  - intros c. cbn. unfold tlsOpts. by destruct (enableHTTP2 o).
  - done.
  - done.
  - done.
  - cbn. unfold webhookServerOptions. case_decide as Hc; [by rewrite Hc|].
    rewrite bool_decide_true; [done|]. destruct (webhookCertPath o); cbn; [done|lia].
  - cbn. case_decide as Hc; [by rewrite Hc|].
    rewrite bool_decide_true; [done|]. destruct (metricsCertPath o); cbn; [done|lia].
  - done.
  - done.
  - intros r T. destruct r; cbn; set_solver.
Qed.

(** C14. The command line is honoured.  For every choice of the options, whatever
    the strings contain (spaces, equals signs, dashes), the flags that say it, as
    [--name=value] or [--name value], are read back as that choice, and the
    manager gets servers that follow it: HTTP/1.1 only on both servers unless
    HTTP/2 is enabled, and untouched when it is; metrics authenticated exactly
    when served securely; a certificate from a directory exactly when one is
    named; the addresses and leader election of the flags; and a scheme with every
    kind that a controller is for.  Without arguments the metrics endpoint is off,
    serving is secure and HTTP/2 is off. *)
Theorem command_line_honoured `{ExternalFlags} (joined : bool) (o : options) :
  (∃ read, parse (render joined o) defaults = Parsed read ∧ read = o ∧ configured o (managerOptionsOf read)) ∧
  (∃ read, parse [] defaults = Parsed read ∧ metricsAddr read = "0" ∧ secureMetrics read = true ∧
     enableHTTP2 read = false).
Proof.
  split; [|by exists defaults]. exists o. split_and!; [|done|apply managerOptionsOf_configured].
  rewrite <-(app_nil_r (render joined o)). apply parse_render.
Qed.

(** ** A start *)

#[local] Instance exExternal : ExternalFlags := λ name,
  if bool_decide (name = "zap-devel") then Some (true, λ v, bool_decide (is_Some (ParseBool v)))
  else if bool_decide (name = "kubeconfig") then Some (false, λ _, true) else None.

Definition exArgs : list string :=
  ["--metrics-bind-address=:8443"; "-leader-elect"; "--zap-devel=false"; "--kubeconfig"; "/tmp/k=v"].

Definition exEnvironment (name : string) : string :=
  if bool_decide (name = ManagementSecretNameEnv) then " ziti-admin"
  else if bool_decide (name = ManagementSecretNamespaceEnv) then "miniziti" else "".

Definition exCluster (o : mainOp) : mainResp o :=
  match o with
  | GetConfigOrDie => true
  | Environ => exEnvironment
  | NewClient _ => 7
  | NewManager _ | Setup _ _ | AddHealthzCheck _ | AddReadyzCheck _ | Start => None
  end.

Lemma process_start_witness :
  ∃ o t, parse exArgs defaults = Parsed o ∧ metricsAddr o = ":8443" ∧ enableLeaderElection o = true ∧
    length t = 11 ∧ orderly o t 0.
Proof.
  destruct (exec (λ (_ : unit) o, (tt, exCluster o)) tt (main exArgs)) as [[w t] a] eqn:E.
  assert (length t = 11) as Hlen by (vm_compute in E; injection E as _ <- _; reflexivity).
  assert (a = Some 0) as -> by (vm_compute in E; injection E as _ _ <-; reflexivity).
  eexists _, t. split; [vm_compute; reflexivity|]. do 2 (split; [reflexivity|]). split; [exact Hlen|].
  pose proof (process_start exArgs t 0 (exec_runs _ _ _ _ _ _ E)) as H. vm_compute parse in H. exact H.
Defined.
