(* ===== verification/E2EUtils.v ===== *)
(** * The utilities of the end-to-end tests

    [test/utils/utils.go]: commands run in the project directory, cert-manager
    installed and looked for, and the files of a scaffold edited. *)

From S2P Require Import Prelude GoSlices GoStrings Errors GraphText.
From S2P Require Import Effects.

#[local] Open Scope mz_scope.

(** ** The calls *)

(** [os], [os/exec] and the writer of the test framework.  [os.Getwd] returns a
    directory beside its error; [CombinedOutput] gets the directory, the
    environment and the arguments of the command. *)
Inductive hostOp :=
  | Getwd
  | Chdir (dir : string)
  | Environ
  | CombinedOutput (dir : string) (env args : list string)
  | LookupEnv (name : string)
  | ReadFile (name : string)
  | WriteFile (name content : string) (mode : Z)
  | GinkgoWrite (text : string).

Definition hostResp (o : hostOp) : Type :=
  match o with
  | Getwd | CombinedOutput _ _ _ => string * option error
  | Chdir _ | WriteFile _ _ _ => option error
  | Environ => list string
  | LookupEnv _ => option string
  | ReadFile _ => result string
  | GinkgoWrite _ => unit
  end.

Abbreviation host A := (prog hostOp hostResp A).
Abbreviation hev o r := (@Ev hostOp hostResp o r).
Definition hcall (o : hostOp) : host (hostResp o) := call o.

Definition newline : string := String "010" "".

(** ** Commands *)

Section Commands.
Context `{UnicodeTables}.

(** [GetProjectDir] *)
Definition GetProjectDir : host (string * option error) :=
  let! (wd, err) := hcall Getwd in
  match err with
  | Some err => Ret (wd, Some (WrapError "failed to get current working directory" err))
  | None => Ret (ReplaceAll wd "/test/e2e" "", None)
  end.

(** [warnError] *)
Definition warnError (err : error) : host unit := hcall (GinkgoWrite ("warning: " +:+ Error err +:+ newline)).

(** [Run] *)
Definition Run (args : list string) : host (string * option error) :=
  let! (dir, _) := GetProjectDir in
  let! err := hcall (Chdir dir) in
  let! _ := match err with
            | Some err => hcall (GinkgoWrite ("chdir dir: " +:+ Quote (Error err) +:+ newline))
            | None => Ret tt
            end in
  let! env := hcall Environ in
  let command := GoStrings.Join args " " in
  let! _ := hcall (GinkgoWrite ("running: " +:+ Quote command +:+ newline)) in
  let! (output, err) := hcall (CombinedOutput dir (env ++ ["GO111MODULE=on"]) args) in
  match err with
  | Some err => Ret (output, Some (WrapError (Quote command +:+ " failed with error " +:+ Quote output) err))
  | None => Ret (output, None)
  end.

(** A command whose failure is only reported. *)
Definition runOrWarn (args : list string) : host unit :=
  let! (_, err) := Run args in
  match err with Some err => warnError err | None => Ret tt end.

(** ** cert-manager *)

Definition certmanagerVersion : string := "v1.19.1".
Definition certmanagerURL : string :=
  "https://github.com/cert-manager/cert-manager/releases/download/" +:+ certmanagerVersion +:+ "/cert-manager.yaml".

Definition kubeSystemLeases : list string :=
  ["cert-manager-cainjector-leader-election"; "cert-manager-controller"].

(** The loop of [UninstallCertManager]. *)
Fixpoint deleteLeases (leases : list string) : host unit :=
  match leases with
  | [] => Ret tt
  | lease :: leases =>
      let! _ := runOrWarn ["kubectl"; "delete"; "lease"; lease; "-n"; "kube-system"; "--ignore-not-found"; "--force";
                           "--grace-period=0"] in
      deleteLeases leases
  end.

(** [UninstallCertManager] *)
Definition UninstallCertManager : host unit :=
  let! _ := runOrWarn ["kubectl"; "delete"; "-f"; certmanagerURL] in
  deleteLeases kubeSystemLeases.

(** [InstallCertManager] *)
Definition InstallCertManager : host (option error) :=
  let! (_, err) := Run ["kubectl"; "apply"; "-f"; certmanagerURL] in
  match err with
  | Some err => Ret (Some err)
  | None =>
      let! (_, err) := Run ["kubectl"; "wait"; "deployment.apps/cert-manager-webhook"; "--for"; "condition=Available";
                            "--namespace"; "cert-manager"; "--timeout"; "5m"] in
      Ret err
  end.

(** [GetNonEmptyLines] *)
Definition GetNonEmptyLines (output : string) : list string :=
  let elements := splitGo newline 0 output in
  foldl (λ res element, if negb (bool_decide (element = "")) then res ++ [element] else res) [] elements.

Definition certManagerCRDs : list string :=
  ["certificates.cert-manager.io"; "issuers.cert-manager.io"; "clusterissuers.cert-manager.io";
   "certificaterequests.cert-manager.io"; "orders.acme.cert-manager.io"; "challenges.acme.cert-manager.io"].

(** [IsCertManagerCRDsInstalled] *)
Definition IsCertManagerCRDsInstalled : host bool :=
  let! (output, err) := Run ["kubectl"; "get"; "crds"] in
  match err with
  | Some _ => Ret false
  | None =>
      let crdList := GetNonEmptyLines output in
      Ret (existsb (λ crd, existsb (λ line, occurs crd line) crdList) certManagerCRDs)
  end.

(** [LoadImageToKindClusterWithName] *)
Definition LoadImageToKindClusterWithName (name : string) : host (option error) :=
  let! v := hcall (LookupEnv "KIND_CLUSTER") in
  let cluster := default "kind" v in
  let kindOptions := ["load"; "docker-image"; name; "--name"; cluster] in
  let! v := hcall (LookupEnv "KIND") in
  let kindBinary := default "kind" v in
  let! (_, err) := Run (kindBinary :: kindOptions) in
  Ret err.

End Commands.

(** ** Files *)

(** [strings.TrimPrefix] *)
Definition TrimPrefix (s prefix : string) : string :=
  if String.prefix prefix s
  then String.substring (String.length prefix) (String.length s - String.length prefix) s else s.

(** [bufio.Scanner] with [ScanLines]: the lines without their end, a carriage
    return included; there is none for an empty rest, and the scan stops before
    a line that does not fit into its buffer of [MaxScanTokenSize] bytes. *)
Definition MaxScanTokenSize : Z := 64 * 1024.

Definition dropCR (line : string) : string :=
  let n := String.length line in
  if String.eqb (String.substring (n - 1) 1 line) (String "013" "") then String.substring 0 (n - 1) line else line.

Fixpoint scanLines (lines : list string) : list string :=
  match lines with
  | [] | [""] => []
  | line :: lines => if (MaxScanTokenSize <=? Z.of_nat (String.length line))%Z then [] else dropCR line :: scanLines lines
  end.

Definition Scan (s : string) : list string := scanLines (splitGo newline 0 s).

Section Files.
Context `{UnicodeTables}.

(** [UncommentCode].  A [bytes.Buffer] accepts every write. *)
Definition UncommentCode (filename target prefix : string) : host (option error) :=
  let! r := hcall (ReadFile filename) in
  match r with
  | inl err => Ret (Some (WrapError ("failed to read file " +:+ Quote filename) err))
  | inr content =>
      match String.index 0 target content with
      | None => Ret (Some (ErrorString ("unable to find the code " +:+ Quote target +:+ " to be uncomment")))
      | Some idx =>
          let out := String.substring 0 idx content in
          match Scan target with
          | [] => Ret None
          | first :: lines =>
              let out := foldl (λ out line, out +:+ newline +:+ TrimPrefix line prefix) (out +:+ TrimPrefix first prefix) lines in
              let rest := idx + String.length target in
              let out := out +:+ String.substring rest (String.length content - rest) content in
              let! err := hcall (WriteFile filename out 420) in
              match err with
              | Some err => Ret (Some (WrapError ("failed to write file " +:+ Quote filename) err))
              | None => Ret None
              end
          end
      end
  end.

End Files.

(** ** Properties *)

Lemma prefix_newline c s : c ≠ "010"%char → String.prefix newline (String c s) = false.
Proof.
  intros Hc. change ((if ascii_dec "010" c then String.prefix "" s else false) = false).
  destruct (ascii_dec "010" c); [congruence|done].
Qed.

Lemma splitGo_line line s : hasByte "010" line = false →
  splitGo newline 0 (line +:+ newline +:+ s) = line :: splitGo newline 0 s.
Proof.
  induction line as [|c line IH].
  { intros _. change (splitGo newline 0 (String "010" s) = "" :: splitGo newline 0 s). cbn [splitGo].
    assert (String.prefix newline (String "010" s) = true) as -> by apply (prefix_app newline s). done. }
  cbn [hasByte]. intros [Hc Hl]%orb_false_iff.
  apply bool_decide_eq_false in Hc.
  change (splitGo newline 0 (String c (line +:+ newline +:+ s)) = String c line :: splitGo newline 0 s).
  cbn [splitGo]. by rewrite (IH Hl), prefix_newline.
Qed.

Lemma splitGo_last line : hasByte "010" line = false → splitGo newline 0 line = [line].
Proof.
  induction line as [|c line IH]; [done|]. cbn [hasByte]. intros [Hc Hl]%orb_false_iff.
  apply bool_decide_eq_false in Hc. cbn [splitGo]. by rewrite (IH Hl), prefix_newline.
Qed.

(** Splitting joined lines gives them back. *)
Lemma splitGo_join lines : lines ≠ [] → Forall (λ l, hasByte "010" l = false) lines →
  splitGo newline 0 (GoStrings.Join lines newline) = lines.
Proof.
  intros Hne Hl. induction Hl as [|l lines Hl Hls IH]; [done|]. destruct lines as [|l' lines]; [by apply splitGo_last|].
  change (GoStrings.Join (l :: l' :: lines) newline) with (l +:+ newline +:+ GoStrings.Join (l' :: lines) newline).
  by rewrite splitGo_line, IH.
Qed.

(** The lines of a command's output that are not empty, in order. *)
Lemma GetNonEmptyLines_correct lines : lines ≠ [] → Forall (λ l, hasByte "010" l = false) lines →
  GetNonEmptyLines (GoStrings.Join lines newline) = filter (λ l, l ≠ "") lines.
Proof.
  intros Hne Hl. unfold GetNonEmptyLines. rewrite splitGo_join by done. clear Hne Hl.
  assert (∀ acc, foldl (λ res element, if negb (bool_decide (element = "")) then res ++ [element] else res) acc lines
    = acc ++ filter (λ l, l ≠ "") lines) as H; [|apply H].
  induction lines as [|l lines IH]; intros acc; [by rewrite app_nil_r|]. cbn [foldl]. rewrite filter_cons.
  case_bool_decide as Hl; cbn [negb]; rewrite IH.
  - rewrite decide_False by tauto. done.
  - rewrite decide_True by done. by rewrite <-app_assoc.
Qed.

(** *** Editing a file *)

Lemma TrimPrefix_app prefix l : TrimPrefix (prefix +:+ l) prefix = l.
Proof.
  unfold TrimPrefix. rewrite prefix_app, string_length_app. replace (_ - _) with (String.length l) by lia. apply substring_back.
Qed.

(** A line of code as it stands commented out in a file. *)
Definition plainLine (line : string) : Prop :=
  line ≠ "" ∧ hasByte "010" line = false ∧ dropCR line = line ∧ (Z.of_nat (String.length line) < MaxScanTokenSize)%Z.

Lemma Scan_join lines : lines ≠ [] → Forall plainLine lines → Scan (GoStrings.Join lines newline) = lines.
Proof.
  intros Hne Hl. unfold Scan.
  rewrite splitGo_join by (done || by eapply Forall_impl; [exact Hl|by intros l (_ & ? & _)]).
  clear Hne. induction Hl as [|l lines (Hne & _ & Hcr & Hlen) _ IH]; [done|].
  destruct l as [|c l]; [done|]. cbn [scanLines]. rewrite (proj2 (Z.leb_gt _ _) Hlen). by rewrite Hcr, IH.
Qed.

Lemma join_lines out prefix first code :
  foldl (λ out line, out +:+ newline +:+ TrimPrefix line prefix) (out +:+ first) ((λ l, prefix +:+ l) <$> code) =
  out +:+ GoStrings.Join (first :: code) newline.
Proof.
  revert out first. induction code as [|l code IH]; intros out first; [done|].
  cbn [fmap list_fmap foldl]. rewrite TrimPrefix_app.
  change (GoStrings.Join (first :: l :: code) newline) with (first +:+ newline +:+ GoStrings.Join (l :: code) newline).
  rewrite <-!string_app_assoc, IH. by rewrite !string_app_assoc.
Qed.

(** Code that is commented out in a file is uncommented in place.  [code] stands
    in the target with [prefix] before every line.  Unless the file cannot be
    read, or the commented code is not in it, the file is written once: it is
    what it was with the code itself in place of the first occurrence. *)
Theorem UncommentCode_correct `{UnicodeTables} filename prefix code t answer :
  code ≠ [] → Forall (λ l, plainLine (prefix +:+ l)) code →
  let commented := GoStrings.Join ((λ l, prefix +:+ l) <$> code) newline in
  runs (UncommentCode filename commented prefix) t answer →
  ∃ read, 
  match read with
  | inl err => t = [hev (ReadFile filename) read] ∧ is_Some answer
  | inr content =>
      (occurs commented content = false ∧ t = [hev (ReadFile filename) read] ∧ is_Some answer) ∨
      ∃ before after err,
        content = before +:+ commented +:+ after ∧ String.index 0 commented content = Some (String.length before) ∧
        t = [hev (ReadFile filename) read;
             hev (WriteFile filename (before +:+ GoStrings.Join code newline +:+ after) 420) err] ∧
        (answer = None ↔ err = None)
  end.
Proof.
  intros Hne Hl commented. unfold UncommentCode. cbn [bind hcall call runs]. intros (read & t' & -> & Hr).
  exists read. destruct read as [err|content]; [by destruct Hr as [-> <-]|].
  assert (Scan commented = (λ l, prefix +:+ l) <$> code) as Hscan.
  { apply Scan_join; [by destruct code|by apply Forall_fmap]. }
  destruct (String.index 0 commented content) as [idx|] eqn:Hidx.
  - right. rewrite Hscan in Hr. destruct code as [|first code]; [done|]. cbn [fmap list_fmap] in Hr.
    destruct (index_split _ _ _ Hidx) as (before & after & Hcontent & Hlen). cbv zeta in Hr.
    rewrite TrimPrefix_app, join_lines in Hr. cbn [bind call runs] in Hr. destruct Hr as (err & t2 & -> & Hr).
    exists before, after, err. rewrite <-Hlen in *. split; [done|]. split; [done|].
    rewrite Hcontent, substring_front.
    assert (String.substring (String.length before + String.length commented)
      (String.length (before +:+ commented +:+ after) - (String.length before + String.length commented))
      (before +:+ commented +:+ after) = after) as ->.
    { rewrite <-string_length_app, <-string_app_assoc, (string_length_app (before +:+ commented)).
      replace (_ - _) with (String.length after) by lia. apply substring_back. }
    rewrite string_app_assoc. destruct err as [err|]; destruct Hr as [-> <-]; split; [done|done|done|done].
  - left. apply index_none in Hidx. by destruct Hr as [-> <-].
Qed.

(** ** Examples *)

Definition exManifest : string :=
  "resources:" +:+ newline +:+ "#- a" +:+ newline +:+ "#- b" +:+ newline +:+ "# end".
Definition exTarget : string := "#- a" +:+ newline +:+ "#- b".

Definition exHost (content : string) (o : hostOp) : hostResp o :=
  match o with
  | Getwd => ("/home/me/op/test/e2e", None)
  | CombinedOutput _ _ _ => ("NAME" +:+ newline +:+ newline +:+ "issuers.cert-manager.io 2026", None)
  | Chdir _ | WriteFile _ _ _ => None
  | Environ => []
  | LookupEnv _ => None
  | ReadFile _ => inr content
  | GinkgoWrite _ => tt
  end.

Definition edited (content target : string) : list string :=
  omap (λ e, match e with Ev (WriteFile _ out _) _ => Some out | _ => None end)
    (exec (λ (_ : unit) o, (tt, exHost content o)) tt (@UncommentCode asciiTables "kustomization.yaml" target "#")).1.2.

Example uncommented :
  edited exManifest exTarget = ["resources:" +:+ newline +:+ "- a" +:+ newline +:+ "- b" +:+ newline +:+ "# end"].
Proof. vm_compute. reflexivity. Qed.

(** The newline at the end of a target is lost: the next line is joined. *)
Example target_with_newline :
  edited exManifest (exTarget +:+ newline) = ["resources:" +:+ newline +:+ "- a" +:+ newline +:+ "- b# end"].
Proof. vm_compute. reflexivity. Qed.

(** cert-manager is found, by a command run in the root of the project. *)
Example cert_manager_found :
  answer (exHost "") (@IsCertManagerCRDsInstalled asciiTables) = Some true ∧
  (answer (exHost "") GetProjectDir) = Some ("/home/me/op", None).
Proof. split; vm_compute; reflexivity. Qed.
